(* ===== verification/_CoqProject ===== *)
-Q . S2P
Prelude.v
StrLemmas.v
Urls.v
Types.v
Queue.v
QueueSteps.v
Router.v
Footer.v
VToken.v
Registry.v
Acl.v
Pairing.v
PollTracker.v
Store.v
StoreProps.v
Sql.v
SessionOwner.v
Limiters.v
RelayBase.v
Crypto.v
Migrations.v
MigrationProps.v
RelayServer.v
RelayDevice.v
RelayClient.v
RelaySocket.v
Hub.v
Login.v
Upstream.v
RateLimit.v
Runtime.v
RuntimeProps.v
Desktop.v
DesktopProps.v
HubShell.v
Bridge.v
UpstreamHttp.v
MetricsHttp.v
Connect.v
Resolve.v
Commands.v
Dispatch.v
HubLemmas.v
DispatchProps.v
CommandProps.v
BotApi.v
BotProps.v
A2A.v
A2AProps.v
Admin.v
PairHttp.v
PairProps.v
MetricsProps.v
MetricsGather.v
RelayProps.v
AdminApi.v
AdminProps.v
Restart.v
Serve.v
Server.v
RelayHub.v
Cli.v
ShellCommands.v
ShellProps.v
