(* ===== verification/Prelude.v ===== *)
(** * iLink Hub: a verification development

    iLink Hub sits between one WeChat bot account (the iLink upstream) and any number of
    backends (agents). Messages of users arrive from upstream; the hub decides which
    backend a message is for, hides the real conversation context behind a virtual one,
    and puts it into the queue of that backend. Backends long-poll their queue and send
    answers back through the hub, which checks that they own the virtual context, puts
    the real context back and forwards the answer upstream.

    ** The parts and where they are modelled

    Source paths are below [src/src/]; those of the desktop application below
    [src/desktop/ilink-hub-desktop/src-tauri/src/]. A definition has the name of the function it
    translates wherever that is possible; where several exist ([set_route] of the router
    and of the store) the store's carries the prefix [store_].

    - [Prelude]: results, machine integers ([u64] and [i64] as [Z] with written-out
      wrap-around), strings as UTF-8 byte strings with the operations of Rust's [str]
      the source uses, with their scope and notations.
      [StrLemmas]: their lemmas.
    - [Types] (ilink/types.rs): the wire messages and request and response bodies.
    - [Queue] (hub/queue.rs): the slot of a client, its acknowledgement watermark, the
      trait [MessageQueue] as a class with laws ([MessageQueueLaws]), the in-memory
      implementation as an instance, and the abstract delivery log it refines.
      [QueueSteps] (hub/queue.rs, server/routes/bot.rs): the queue under concurrency, as a
      transition system of pushes, long-polls, cancellations and removals over shared slots
      and Tokio's [Notify], which is a class with its laws.
    - [Router] (hub/router.rs): command grammar, per-user routes, default backend.
    - [Footer] (hub/outbound_label.rs, hub/quote_route.rs): labels on answers and the
      parser that recognises them in a quote.
    - [VToken] (hub/vtoken_hash.rs, server/routes/auth.rs): token hashes, bearer and
      admin authentication.
    - [Registry] (hub/registry.rs): the registered backends.
    - [Acl] (hub/acl.rs): the allowlist of agent-to-agent and user-to-agent edges.
    - [Pairing] (hub/pairing.rs): QR pairing sessions.
    - [PollTracker] (hub/state.rs): admission of long-polls, latency histogram.
    - [Store] (store/): the SQL statements as functions on tables, with the differences
      of the three drivers; [StoreProps]: what they guarantee. [Connect] (store/mod.rs,
      store/messages.rs): opening a database, and the two readers no handler uses.
      [Sql] (store/sql.rs): the retention cutoffs in the form each driver compares them.
      [SessionOwner] (store/sql.rs, store/sessions.rs): which backend owns a session, under
      the ordering of each driver.
    - [Hub] (hub/state.rs): the shared state [World], the state monad [hub] handlers are
      written in, and the effects they use. [HubLemmas]: reasoning about them.
    - [RateLimit] (hub/rate_limit.rs): the token buckets, in binary64 arithmetic; an
      instance of the class [RateLimiter] the handlers are written against.
    - [Resolve] (hub/dispatch/hub_ext.rs, queue.rs, quote.rs), [Commands]
      (hub/commands.rs, hub/messages.rs), [Dispatch] (hub/dispatch/pipeline.rs,
      mention.rs): what the hub does with an inbound message. [DispatchProps],
      [CommandProps]: their properties.
    - [BotApi] (server/routes/bot.rs, mcp/waiter.rs): the handlers backends call.
      [BotProps]: their properties.
    - [A2A] (mcp/tools.rs, mcp/router.rs, mcp/protocol.rs): the MCP endpoint through which
      one agent calls another. [A2AProps]: its properties.
    - [Admin] (server/pairing.rs, server/routes/bot.rs, runtime/serve.rs): registration,
      confirmation, removal, revocation, update of backends, and loading the database at
      start-up. [AdminProps]: revocation. [Restart]: agreement of memory and database.
    - [PairHttp] (server/pairing.rs): the endpoints of the pairing page, from the QR code
      to the confirmation, with origin check and limits; [PairProps]: their properties.
      [AdminApi] (server/routes/admin.rs, hub/health.rs): the admin endpoints and the
      health checker.
    - [Limiters] (server/pairing.rs, server/sse_ticket.rs, relay/ratelimit.rs): the
      limiters and the tickets those endpoints use.
    - [RelayBase] (relay/mod.rs, device.rs, auth.rs, protocol.rs), [RelayServer]
      (relay/server.rs), [RelayClient] (relay/client.rs): device identity and signed
      registration, the relay as a transition system over its connections, the hub's
      session with it. [RelayDevice] (relay/device.rs, auth.rs): the keys of an identity
      and the registration it signs. [RelayProps]: a phone's request on its way through
      relay and hub. [RelaySocket] (relay/server.rs): the relay's task for one connection,
      and a request's way to the hub and back. [RelayHub]: the relay's route table, and the calls of a session as the
      hub's own server receives and answers them, behind the URL parser.
    - [Login] (ilink/login.rs, client/pairing.rs), [Upstream] (ilink/upstream.rs): the QR
      login, the pairing client of a backend, session renewal and the polling loop.
      [UpstreamHttp] (ilink/upstream.rs, error.rs): the requests of the client, their
      headers and their errors.
    - [Crypto] (runtime/crypto.rs, store/credentials.rs, paths.rs): the master key, the
      encrypted bot token, the relay secret. [Urls] (lib.rs, paths.rs): redaction of
      database URLs and the host and port of an address.
    - [Migrations] (store/migrations.rs, migrations/): the schema versions as steps on a
      catalogue and on the rows they rewrite; [MigrationProps]: their properties.
    - [Runtime] (runtime/serve.rs, store/retention.rs, store/instance_guard.rs): the
      configuration, the choice of the bot token, the lock on the database, the sweeper's
      loop and the drain at shutdown; [RuntimeProps]: their properties. [Serve]
      (runtime/serve.rs, hub/state.rs): the start-up sequence and what a started hub is.
    - [MetricsHttp] (server/routes/metrics.rs): the metrics endpoint; [MetricsProps].
      [MetricsGather] (metrics.rs): the second exporter, compared with it.
    - [Server] (server/mod.rs, server/routes/wait.rs): the route table with its limits and
      cross-origin policy, and the application: from a request through table and
      extractors to the handlers of the files above. [Cli] (main.rs, bin/ilink-relay.rs):
      the commands, their arguments and what they print.
    - [Desktop] (listen_addr.rs, bridge_profiles.rs): listen addresses, profile texts and
      profile files; [DesktopProps]. [HubShell] (lib.rs): the controller that starts, stops
      and restarts a hub inside the application, as a transition system over its tasks.
      [Bridge] (bridge_profiles.rs, lib.rs): configuration, start and stop of the bridge,
      the probe of a profile, launch arguments and the one-time migration of its directory.
      [ShellCommands] (hub_commands.rs): the commands of the panel, as requests to the
      hub's own API; [ShellProps]: their agreement with that API.

    ** Modelling conventions

    - A handler is a state-passing function on [World]. Handlers run one after the other:
      the dispatcher is a single task, and where requests do interleave on shared state
      the component is modelled by its atomic steps instead ([PollTracker.act], the runs
      of [Pairing], [QueueSteps.happen], the steps of [RelayServer] and [HubShell]). Other
      interleavings of two requests between the locks of one handler are outside the model.
    - Every database call consumes one entry of the supply [faults]: it executes, fails,
      or (where the caller sets a time limit) is late; an empty supply means that
      everything executes ([healthy]). A call that fails or is late has no effect.
      [find_or_create_vctx] is one such call.
    - UUIDs, random codes, clocks and the answers of the upstream come from supplies or
      arguments. SHA-256 and JSON rendering are parameters; what is assumed of them is a
      hypothesis of the theorem that needs it (digests of 32 bytes; a fresh token's hash
      is not in use yet). Handlers are proved for every implementation of the class
      [RateLimiter]; no law about it is assumed. The same holds for base64, authenticated
      encryption, Ed25519, the URL parser and Tokio's [Notify]: parameters, with their
      documented laws ([Codecs], [SecretCodec], [UrlLaws], [NotifyLaws]) where a theorem
      needs them; [Crypto.Sample], [RelayHub.Reference] and [QueueSteps.Reference] hold
      functions that satisfy them.
    - Loops over events from outside (the polling loop, the relay session, the sweeper,
      the health checker) are functions of the list of events; theorems quantify over all
      lists.
    - A handler that waits is split at the wait; what others do meanwhile is an argument
      ([call_agent]), or how the wait ended and how long the handler took is
      ([BotApi.PollWait] of [getupdates]).
    - A text of several SQL statements is a list of lists of statements
      ([Migrations.exec_texts]): a driver executes a text as a whole or refuses it. A new
      virtual context whose identifier is taken violates the primary key
      ([Store.upsert_ctx]).
    - The end of a relay connection is two steps, the end of its loop and the clean-up of
      the table ([RelayServer.leave], [RelayServer.disconnect]).
    - Tasks the hub spawns to write history are collected in [w_tasks]; [run_task] is
      what one does when it runs. The one-shot channel of an agent-to-agent call is an
      entry of [w_waiters].
    - Iteration over a hash map is iteration in the order of [map_to_list]; no theorem
      depends on that order. Rows that an ORDER BY does not separate are taken in
      insertion order.

    ** What the theorems show

    - Delivery (C1, C5, C6, C18, C19): a plain message reaches the selected backend with a
      context it may answer in; a quote of an answer reaches its author and session;
      database outages do not lose messages; the [@] shortcut is temporary, respects
      visibility and takes the name out of the text (not out of a voice transcript,
      [DispatchProps.voice_mention_keeps_name]); the polling task hands the messages of its
      loop over once and in order (those of the probe at its start are dropped,
      [Upstream.probe_messages_dropped]).
    - The queue (C3, C9, C32, C38): the slot refines the delivery log; nothing accepted is
      lost before it is acknowledged; the queue is linearizable: the calls of every
      interleaving, with the arguments they were made with, have an order that respects
      real time in which the operations run one after the other give every call the answer
      it got; and no message that nobody has read leaves a long-poll of its backend asleep.
    - Authority (C2, C4): only the owner of a virtual context sends into the conversation
      behind it; revocation cuts a token off, but for messages that quote an answer it
      gave before ([AdminProps.quote_reaches_revoked_token]).
    - Agent calls (C10, C11, C34): the authority a call gives is taken back; calls are
      gated by allowlist, depth and rate; the meaning of the allowlist, also where a typo
      widens it ([Acl.typo_opens_visibility]).
    - The bot API (C15, C16, C17, C33): final answers to users can be quoted; what a
      long-poll serves, exactly, and the latency it records; admission counters under
      every interleaving; the rate limiter as a bucket per tenant that refills with time
      and that no other tenant's traffic touches.
    - Persistence (C7, C8, C12, C14, C24): memory and database stay in step under
      administration and under chat commands, a restart restores them; C8 says when the
      default backend in memory is also in the tables, and [Restart.confirmed_default_is_lost]
      and [Restart.removed_default_is_lost] when it is not; virtual contexts are stable and
      never shared; the retention sweep, and when a driver refuses its limit. [SessionOwner] adds who owns a
      session after each write, on SQLite and on PostgreSQL.
    - Upgrades (C23): on SQLite every schema version upgrades to the last; on PostgreSQL
      those from 13 on do, and the others fail without effect, because a file with several
      statements cannot be prepared there. [MigrationProps] adds that
      the conversion to hashed tokens renames consistently.
    - Pairing (C13, C20, C35, C40): confirmation as an invariant of all runs, pairing
      from the QR code to the credential, refusals without effect, and the client, which
      always comes back. Tickets are used at most once ([Limiters]).
    - The relay (C21, C31): a device identifier stays with its key; whatever the relay
      sends, with paths free of control characters, spaces and backslashes, does to the hub
      at most what a confirmed pairing does. Without that proviso it is not so
      ([RelayHub.tab_leaves_pairing]). [RelaySocket] adds that a hub that registers becomes
      reachable and that a request gets the answer made for it.
    - The process (C22, C28, C39): the bot token survives restarts under the same master
      key until a renewal replaces it, and a token that cannot be read fails the start;
      validated configurations; what a started hub runs is what its environment says, the
      queue limit clamped as the code does. Besides them, the invariant of the polling
      loop ([Upstream]), the drain at shutdown ([RuntimeProps]), a login that later starts
      keep ([Cli]).
    - The surface (C37): a request without credential changes nothing, except that it may
      confirm a pairing that was scanned. [Server.Routes] adds that no path meets two
      routes.
    - Time (C36): sweeping by the text of timestamps is sweeping by time.
    - Registry, routing, commands and formats (C25, C26, C27, C29): round trips of
      commands and footers, the registry invariant, session commands. [Router] adds what
      the removal of a backend does to routes.
    - The desktop application (C30): at most one hub is meant to run. [DesktopProps] adds
      that saving a profile is confined to its own file, [ShellProps] that the panel's
      statistics are those of the metrics route, and that its updates and deletions are
      exact.

    ** Bounds and fuel

    - [show_go] has fuel for 20 digits, the length of the largest [u64]; rendering is
      only used on values of that range, and the round-trip lemma covers all of it.
    - [chunks_go] (the batches of [get_hub_ext_batch]) has the length of the list as
      fuel; every chunk takes at least one element.
    - [sweep_loop] has one more than the number of expired rows as fuel; each batch that
      is not the last removes at least one. C24 proves that [OutOfFuel] is never its error:
      it returns, or the driver refuses a negative limit ([NegativeLimit]).
    - C33 is stated for the configured default limits and requests at whole seconds, with
      pauses of a tenant of at most [RateLimit.LONGEST_PAUSE] (60 seconds, thirty times
      what fills an empty bucket): the refill is then exact in binary64 arithmetic, which
      is computed for every level and every pause.
    - Delivery ids are [u64] reinterpreted as [i64] in a message; theorems about long
      histories state the bound 2^63 on the number of messages of one slot.
    - [drain_fuel] is two checks per second of the time limit and one more; the checks are
      half a second apart. [RuntimeProps.drain_ends] proves that the drain returns.
    - [strip_all] and [squeeze] of the profile names have the length of the text as fuel;
      every step removes a character.
    - [poll_fuel] is the number of polls that fit into the deadline of a pairing; C40
      proves that the client returns.

    ** What is not modelled

    The parser of command-line arguments (clap), logging and tracing, the HTTP server and
    client libraries, serde's derived codecs, QR rendering, and the window and tray of the
    desktop application: they are libraries, and what the code relies on is an argument of
    the definitions. Implicit commits of DDL on MySQL, where the code says that the driver
    is not supported at run time. The pool variants of the migration claims, column_exists
    and ddl of store/migrations.rs, which only tests call. The concurrency limits of the
    routes are constants of the table; requests run one at a time in the model. *)
From stdpp Require Export base list gmap strings sorting.
From Stdlib Require Export ZArith Lia.
From Stdlib Require Import Ascii.

#[global] Set Default Goal Selector "!".

(** Source files of the program use byte strings throughout ([String] is UTF-8
    encoded bytes); [string] of the Standard Library is a list of bytes, so the
    byte-level operations ([len], [find], slicing, [strip_prefix], ASCII case
    mapping) are literal, and the character-level ones ([trim], [chars]) regroup
    the bytes of a character first. *)
Declare Scope hub_scope.
Delimit Scope hub_scope with hub.
Open Scope stdpp_scope.

(** ** Error values *)

Inductive result (A E : Type) : Type :=
| Ok (a : A)
| Err (e : E).
Arguments Ok {A E} a.
Arguments Err {A E} e.

Definition is_ok {A E} (r : result A E) : bool :=
  match r with Ok _ => true | Err _ => false end.

Definition ok {A E} (r : result A E) : option A :=
  match r with Ok a => Some a | Err _ => None end.

(** The [?] operator: an error ends the function with it. *)
Definition result_bind {A B E} (r : result A E) (k : A -> result B E) : result B E :=
  match r with Ok x => k x | Err e => Err e end.

Lemma result_bind_Ok {A B E} (r : result A E) (k : A -> result B E) y :
  result_bind r k = Ok y -> exists x, r = Ok x /\ k x = Ok y.
Proof. destruct r; [by eauto|done]. Qed.

#[export] Instance result_eq_dec `{EqDecision A, EqDecision E} : EqDecision (result A E).
Proof. solve_decision. Defined.

(** [Option::unwrap_or] and [Option::filter]. *)
Definition unwrap_or {A} (o : option A) (d : A) : A :=
  match o with Some a => a | None => d end.

Definition ofilter {A} (p : A -> bool) (o : option A) : option A :=
  match o with Some a => if p a then Some a else None | None => None end.

Lemma ofilter_Some {A} (p : A -> bool) o x : ofilter p o = Some x <-> o = Some x /\ p x = true.
Proof. destruct o as [y|]; cbn; [|naive_solver]. destruct (p y) eqn:E; naive_solver congruence. Qed.

Definition or_else {A} (o o' : option A) : option A :=
  match o with Some _ => o | None => o' end.

Notation "'try' x ':=' r 'in' k" := (result_bind r (fun x => k))
  (at level 200, x name, r at level 100, k at level 200, right associativity) : hub_scope.
Notation "o '<|>' o'" := (or_else o o') (at level 60, right associativity) : hub_scope.

(** ** Machine integers *)

Definition u64_max : Z := 2 ^ 64 - 1.
Definition i64_max : Z := 2 ^ 63 - 1.
Definition i64_min : Z := - 2 ^ 63.
Definition u8_max : Z := 255.

(** [as i64] of a [u64]: two's complement reinterpretation. *)
Definition as_i64 (n : Z) : Z :=
  let m := (n mod 2 ^ 64)%Z in if (m <=? i64_max)%Z then m else (m - 2 ^ 64)%Z.

Definition wrap_u64 (n : Z) : Z := (n mod 2 ^ 64)%Z.

Lemma wrap_u64_small n : (0 <= n < 2 ^ 64)%Z -> wrap_u64 n = n.
Proof. apply Z.mod_small. Qed.

Definition sat_sub (a b : Z) : Z := Z.max 0 (a - b).

(** ** Collections *)

(** [Iterator::min_by_key]: the first of the elements with the least key. *)
Fixpoint min_by_key {A} (key : A -> Z) (l : list A) : option A :=
  match l with
  | [] => None
  | x :: l =>
      match min_by_key key l with
      | Some y => Some (if (key x <=? key y)%Z then x else y)
      | None => Some x
      end
  end.

Lemma min_by_key_elem {A} (key : A -> Z) l x : min_by_key key l = Some x -> x ∈ l.
Proof.
  induction l as [|y l IH]; cbn; [done|]. destruct (min_by_key key l) as [z|].
  - destruct (_ <=? _)%Z; intros [= ->]; [by left|right; auto].
  - intros [= ->]. by left.
Qed.

Lemma min_by_key_None {A} (key : A -> Z) l : min_by_key key l = None -> l = [].
Proof. destruct l; cbn; [done|]. by destruct (min_by_key key l). Qed.

(** Dropping the entry with the least key from a map. *)
Definition drop_oldest `{Countable K} {V} (key : V -> Z) (m : gmap K V) : gmap K V :=
  match min_by_key (fun p : K * V => key p.2) (map_to_list m) with
  | Some (k, _) => delete k m
  | None => m
  end.

Lemma size_drop_oldest `{Countable K} {V} (key : V -> Z) (m : gmap K V) :
  size (drop_oldest key m) = pred (size m).
Proof.
  unfold drop_oldest. destruct (min_by_key _ _) as [[k v]|] eqn:E.
  - apply min_by_key_elem, elem_of_map_to_list in E. by rewrite map_size_delete, E.
  - apply min_by_key_None, map_to_list_empty_iff in E. by rewrite E, map_size_empty.
Qed.

Lemma drop_oldest_subseteq `{Countable K} {V} (key : V -> Z) (m : gmap K V) : drop_oldest key m ⊆ m.
Proof. unfold drop_oldest. destruct (min_by_key _ _) as [[]|]; [apply delete_subseteq|done]. Qed.

(** ** Rust strings *)

Module Str.

(** Byte tests. *)
Definition byte (a : ascii) : N := N_of_ascii a.

(** A UTF-8 continuation byte [10xxxxxx]. *)
Definition is_cont (a : ascii) : bool := ((128 <=? byte a) && (byte a <? 192))%N.

Definition is_ascii (a : ascii) : bool := (byte a <? 128)%N.

Definition is_digit (a : ascii) : bool := ((48 <=? byte a) && (byte a <=? 57))%N.

(** [u8::is_ascii_hexdigit] and [u8::is_ascii_uppercase]. *)
Definition is_ascii_uppercase (a : ascii) : bool := ((65 <=? byte a) && (byte a <=? 90))%N.

Definition is_ascii_hexdigit (a : ascii) : bool :=
  is_digit a || ((65 <=? byte a) && (byte a <=? 70))%N
             || ((97 <=? byte a) && (byte a <=? 102))%N.

Definition lower (a : ascii) : ascii :=
  if is_ascii_uppercase a then ascii_of_N (byte a + 32) else a.

Fixpoint of_bytes (l : list N) : string :=
  match l with [] => "" | b :: l => String (ascii_of_N b) (of_bytes l) end.

(** [str::chars]: a character is a leading byte with the continuation bytes
    that follow it (exact on valid UTF-8, which Rust strings are). *)
Fixpoint chars (s : string) : list string :=
  match s with
  | EmptyString => []
  | String a s' =>
      match s' with
      | EmptyString => [String a ""]
      | String b _ =>
          if is_cont b
          then match chars s' with
               | c :: cs => String a c :: cs
               | [] => [String a ""]
               end
          else String a "" :: chars s'
      end
  end.

Definition concat (l : list string) : string := foldr String.append "" l.

(** The characters with the Unicode property [White_Space]. *)
Definition ws_chars : list string :=
  map of_bytes
    [[9]; [10]; [11]; [12]; [13]; [32]; [194; 133]; [194; 160]; [225; 154; 128];
     [226; 128; 128]; [226; 128; 129]; [226; 128; 130]; [226; 128; 131];
     [226; 128; 132]; [226; 128; 133]; [226; 128; 134]; [226; 128; 135];
     [226; 128; 136]; [226; 128; 137]; [226; 128; 138]; [226; 128; 168];
     [226; 128; 169]; [226; 128; 175]; [226; 129; 159]; [227; 128; 128]]%N.

(** [char::is_whitespace]. *)
Definition is_whitespace (c : string) : bool := existsb (String.eqb c) ws_chars.

Fixpoint drop_while {A} (p : A -> bool) (l : list A) : list A :=
  match l with [] => [] | x :: l' => if p x then drop_while p l' else l end.

Definition trim_start (s : string) : string :=
  concat (drop_while is_whitespace (chars s)).

Definition trim_end (s : string) : string :=
  concat (rev (drop_while is_whitespace (rev (chars s)))).

Definition trim (s : string) : string :=
  concat (rev (drop_while is_whitespace (rev (drop_while is_whitespace (chars s))))).

Fixpoint to_ascii_lowercase (s : string) : string :=
  match s with "" => "" | String a s => String (lower a) (to_ascii_lowercase s) end.

Definition eq_ignore_ascii_case (s t : string) : bool :=
  String.eqb (to_ascii_lowercase s) (to_ascii_lowercase t).

Fixpoint strip_prefix (p s : string) : option string :=
  match p, s with
  | EmptyString, _ => Some s
  | String a p', String b s' => if Ascii.eqb a b then strip_prefix p' s' else None
  | String _ _, EmptyString => None
  end.

Definition starts_with (p s : string) : bool :=
  match strip_prefix p s with Some _ => true | None => false end.

Definition is_empty (s : string) : bool := match s with "" => true | _ => false end.

(** [str::len], in bytes. *)
Definition len (s : string) : nat := String.length s.

Fixpoint slice_from (n : nat) (s : string) : string :=
  match n, s with
  | S n', String _ s' => slice_from n' s'
  | _, _ => s
  end.

(** [str::rfind]: byte offset of the last occurrence. *)
Fixpoint rfind (p s : string) : option nat :=
  match s with
  | EmptyString => if starts_with p s then Some 0 else None
  | String _ s' =>
      match rfind p s' with
      | Some n => Some (S n)
      | None => if starts_with p s then Some 0 else None
      end
  end.

(** [str::split_once]: around the first occurrence. *)
Fixpoint split_once (p s : string) : option (string * string) :=
  match strip_prefix p s with
  | Some r => Some ("", r)
  | None =>
      match s with
      | EmptyString => None
      | String a s' =>
          match split_once p s' with
          | Some (l, r) => Some (String a l, r)
          | None => None
          end
      end
  end.

(** [str::split] with a non-empty pattern; [skip] counts the bytes of a
    separator still to be passed over. *)
Fixpoint split_go (p : string) (skip : nat) (s : string) : list string :=
  match s with
  | EmptyString => [""]
  | String a s' =>
      match skip with
      | S k => split_go p k s'
      | 0 =>
          if starts_with p s then "" :: split_go p (len p - 1) s'
          else match split_go p 0 s' with
               | h :: t => String a h :: t
               | [] => []
               end
      end
  end.

Definition split (p s : string) : list string := split_go p 0 s.

(** [s.chars().take(n).collect()]. *)
Definition take_chars (n : nat) (s : string) : string := concat (take n (chars s)).

Fixpoint all_bytes (p : ascii -> bool) (s : string) : bool :=
  match s with "" => true | String a s => p a && all_bytes p s end.

(** Decimal digits of an unsigned integer literal, most significant first. *)
Fixpoint digits_acc (acc : Z) (s : string) : option Z :=
  match s with
  | EmptyString => Some acc
  | String a s' =>
      if is_digit a then digits_acc (10 * acc + (Z.of_N (byte a) - 48)) s' else None
  end.

Definition parse_unsigned (s : string) : option Z :=
  let s := match s with String "+"%char r => r | _ => s end in
  if is_empty s then None else digits_acc 0 s.

(** [str::parse::<u64>] (and [usize] on a 64-bit target). *)
Definition parse_u64 (s : string) : option Z :=
  ofilter (fun n => n <=? u64_max)%Z (parse_unsigned s).

(** [str::parse::<i64>]. *)
Definition parse_i64 (s : string) : option Z :=
  ofilter (fun n => (i64_min <=? n) && (n <=? i64_max))%Z
    match s with
    | String "-"%char r => if is_empty r then None else Z.opp <$> digits_acc 0 r
    | _ => parse_unsigned s
    end.

(** Decimal rendering ([u64::to_string], [format!("{n}")]). *)
Definition digit (d : Z) : ascii := ascii_of_N (Z.to_N (48 + d)).

Fixpoint show_go (fuel : nat) (n : Z) (acc : string) : string :=
  match fuel with
  | 0 => acc
  | S f =>
      let acc := String (digit (n mod 10)) acc in
      if (n <? 10)%Z then acc else show_go f (n / 10)%Z acc
  end.

(** Twenty digits are enough for every [u64]. *)
Definition show_u64 (n : Z) : string := show_go 20 n "".

Definition show_nat (n : nat) : string := show_u64 (Z.of_nat n).

(** [Vec::join]. *)
Fixpoint join (sep : string) (l : list string) : string :=
  match l with
  | [] => ""
  | [x] => x
  | x :: l' => x +:+ sep +:+ join sep l'
  end.

(** [str::contains] and [str::replace] with a non-empty pattern. *)
Definition contains (p s : string) : bool :=
  match split_once p s with Some _ => true | None => false end.

Definition replace (p new s : string) : string := join new (split p s).

(** [str::replacen] with the count one. *)
Definition replace_first (p new s : string) : string :=
  match split_once p s with Some (l, r) => l +:+ new +:+ r | None => s end.

(** [str::trim_end_matches] with an ASCII character. *)
Fixpoint trim_end_matches (a : ascii) (s : string) : string :=
  match s with
  | EmptyString => ""
  | String b s' =>
      match trim_end_matches a s' with
      | EmptyString => if (a =? b)%char then "" else String b ""
      | t => String b t
      end
  end.

End Str.
