(* ===== verification/StrLemmas.v ===== *)
(** * Lemmas on the string operations of [Prelude]

    Prefix stripping, decimal round trip, trimming, searching from the right and
    splitting: the facts the parsers and printers of the hub share. *)
From S2P Require Import Prelude.
From Stdlib Require Import Ascii.
Import Str.

Create Rewrite HintDb str.

(** ** Concatenation and prefixes *)

Lemma append_assoc (a b c : string) : (a +:+ b) +:+ c = a +:+ (b +:+ c).
Proof. induction a as [|x a IH]; [done|]. change (String x ((a +:+ b) +:+ c) = String x (a +:+ (b +:+ c))). by rewrite IH. Qed.

Lemma append_nil_r (a : string) : a +:+ "" = a.
Proof. induction a as [|x a IH]; [done|]. change (String x (a +:+ "") = String x a). by rewrite IH. Qed.

Lemma append_cons x a b : String x a +:+ b = String x (a +:+ b).
Proof. done. Qed.

Lemma append_nil_l b : "" +:+ b = b.
Proof. done. Qed.

Lemma length_append a b : String.length (a +:+ b) = String.length a + String.length b.
Proof. induction a as [|x a IH]; [done|]. rewrite append_cons. simpl. by rewrite IH. Qed.

Lemma append_eq_nil a b : a +:+ b = "" -> a = "" /\ b = "".
Proof. destruct a; [done|]. by rewrite append_cons. Qed.

Lemma strip_prefix_app p s : strip_prefix p (p +:+ s) = Some s.
Proof. induction p as [|a p IH]; [done|]. rewrite append_cons. simpl. by rewrite Ascii.eqb_refl. Qed.

Lemma strip_prefix_Some p s r : strip_prefix p s = Some r <-> s = p +:+ r.
Proof.
  split; [|intros ->; apply strip_prefix_app].
  revert s; induction p as [|a p IH]; intros s; [by intros [= ->]|].
  destruct s as [|b s]; simpl; [done|].
  destruct (Ascii.eqb_spec a b) as [->|]; [|done].
  intros H. rewrite append_cons. by rewrite (IH _ H).
Qed.

Lemma starts_with_app p s : starts_with p (p +:+ s) = true.
Proof. unfold starts_with. by rewrite strip_prefix_app. Qed.

Lemma starts_with_spec p s : starts_with p s = true <-> exists r, s = p +:+ r.
Proof.
  unfold starts_with. destruct (strip_prefix p s) as [r|] eqn:E.
  - apply strip_prefix_Some in E. naive_solver.
  - split; [done|]. intros [r ->]. by rewrite strip_prefix_app in E.
Qed.

Lemma is_empty_spec s : is_empty s = true <-> s = "".
Proof. by destruct s. Qed.

#[export] Hint Rewrite append_assoc append_nil_r append_nil_l append_cons length_append : str.

Lemma slice_from_app a b : slice_from (String.length a) (a +:+ b) = b.
Proof. induction a as [|x a IH]; [by destruct b|]. rewrite append_cons. simpl. done. Qed.

Lemma slice_from_add n a b :
  slice_from (String.length a + n) (a +:+ b) = slice_from n b.
Proof. induction a as [|x a IH]; [done|]. rewrite append_cons. simpl. done. Qed.

(** ** Searching for the last occurrence *)

(** [p] does not occur in [s]. *)
Definition absent (p s : string) : Prop := rfind p s = None.

Lemma rfind_app_absent (p s t : string) (n : nat) :
  rfind p t = Some n -> rfind p (s +:+ t) = Some (String.length s + n).
Proof.
  intros Ht. induction s as [|x s IH]; [done|].
  rewrite append_cons. simpl. by rewrite IH.
Qed.

(** A byte that is not in a string. *)
Fixpoint no_byte (a : ascii) (s : string) : bool :=
  match s with "" => true | String b s => negb (Ascii.eqb a b) && no_byte a s end.

Lemma no_byte_app a s t : no_byte a (s +:+ t) = no_byte a s && no_byte a t.
Proof.
  induction s as [|b s IH]; [done|]. rewrite append_cons. simpl.
  by rewrite IH, andb_assoc.
Qed.

(** A pattern that contains byte [a] does not occur where [a] does not. *)
Lemma absent_no_byte a p q s :
  no_byte a s = true -> rfind (p +:+ String a q) s = None.
Proof.
  assert (Hsw : forall s, no_byte a s = true -> starts_with (p +:+ String a q) s = false).
  { intros s' Hs. apply not_true_iff_false. intros [r ->]%starts_with_spec.
    rewrite !no_byte_app in Hs. simpl in Hs. rewrite Ascii.eqb_refl in Hs.
    simpl in Hs. by rewrite andb_false_r in Hs. }
  induction s as [|b s IH]; intros Hs; simpl.
  - by rewrite Hsw.
  - simpl in Hs. apply andb_true_iff in Hs as [Hb Hs].
    rewrite IH by done. rewrite Hsw; [done|]. simpl. by rewrite Hb, Hs.
Qed.

(** ** Splitting *)

Lemma split_go_nonempty p k s : split_go p k s <> [].
Proof.
  revert k; induction s as [|a s IH]; intros k; simpl; [done|].
  destruct k; [|apply IH].
  case_match; [done|]. specialize (IH 0). by destruct (split_go p 0 s).
Qed.

Lemma split_go_skip p s t : split_go p (String.length s) (s +:+ t) = split_go p 0 t.
Proof. induction s as [|a s IH]; [done|]. rewrite append_cons. simpl. done. Qed.

(** Index of the first occurrence of a byte. *)
Fixpoint first_byte (a : ascii) (s : string) : option nat :=
  match s with
  | EmptyString => None
  | String b s => if Ascii.eqb a b then Some 0 else S <$> first_byte a s
  end.

Lemma first_byte_app a s t :
  no_byte a s = true -> first_byte a (s +:+ t) = Nat.add (String.length s) <$> first_byte a t.
Proof.
  induction s as [|b s IH]; intros H.
  - rewrite append_nil_l. by destruct (first_byte a t).
  - simpl in H. apply andb_true_iff in H as [Hb Hs]. apply negb_true_iff in Hb.
    rewrite append_cons. cbn [first_byte String.length].
    rewrite Hb, IH by done. by destruct (first_byte a t).
Qed.

Lemma first_byte_sep a q r t :
  no_byte a q = true -> first_byte a ((q +:+ String a r) +:+ t) = Some (String.length q).
Proof.
  intros Hq. rewrite append_assoc, append_cons, first_byte_app by done.
  cbn [first_byte]. rewrite Ascii.eqb_refl. simpl. by rewrite Nat.add_0_r.
Qed.

Section Separator.
(** A separator [q a r] whose marker byte [a] is neither in [q] nor in the parts. *)
Context (a : ascii) (q r : string) (Hq : no_byte a q = true).
Let sep := q +:+ String a r.

Lemma sep_not_early b u t :
  no_byte a (String b u) = true -> starts_with sep (String b u +:+ sep +:+ t) = false.
Proof.
  intros Hu. apply not_true_iff_false. intros [z Hz]%starts_with_spec.
  apply (f_equal (first_byte a)) in Hz. unfold sep in Hz.
  rewrite first_byte_app, !first_byte_sep in Hz by done. simpl in Hz.
  injection Hz. lia.
Qed.

Lemma sep_not_in s : no_byte a s = true -> starts_with sep s = false.
Proof.
  intros Hs. apply not_true_iff_false. intros [z ->]%starts_with_spec. unfold sep in Hs.
  rewrite !no_byte_app in Hs. simpl in Hs. rewrite Ascii.eqb_refl in Hs.
  simpl in Hs. by rewrite andb_false_r in Hs.
Qed.

Lemma split_sep s t :
  no_byte a s = true -> split sep (s +:+ sep +:+ t) = s :: split sep t.
Proof.
  unfold split. induction s as [|b s IH]; intros Hs.
  - rewrite append_nil_l. destruct sep as [|c p] eqn:E.
    { unfold sep in E. by apply append_eq_nil in E as [_ ?]. }
    rewrite append_cons. unfold split_go at 1; fold split_go.
    rewrite <- append_cons, starts_with_app. f_equal.
    unfold len. simpl. rewrite Nat.sub_0_r. apply split_go_skip.
  - pose proof (sep_not_early b s t Hs) as He. rewrite append_cons in He |- *.
    simpl in Hs. apply andb_true_iff in Hs as [_ Hs].
    unfold split_go; fold split_go. by rewrite He, IH.
Qed.

Lemma split_none s : no_byte a s = true -> split sep s = [s].
Proof.
  unfold split. induction s as [|b s IH]; intros Hs; [done|].
  pose proof (sep_not_in _ Hs) as He.
  simpl in Hs. apply andb_true_iff in Hs as [_ Hs].
  unfold split_go; fold split_go. by rewrite He, IH.
Qed.
End Separator.

(** ** Characters and trimming *)

(** The bytes after the first of a character are continuation bytes. *)
Definition char_ok (c : string) : Prop :=
  match c with EmptyString => False | String _ r => all_bytes is_cont r = true end.

Definition lead_ok (c : string) : Prop :=
  match c with EmptyString => False | String a _ => is_cont a = false end.

(** A list of characters as [chars] produces it: every element but the first
    begins with a leading byte. *)
Definition chars_ok (l : list string) : Prop :=
  Forall char_ok l /\ Forall lead_ok (tail l).

Lemma concat_chars s : concat (chars s) = s.
Proof.
  induction s as [|a s IH]; [done|]. destruct s as [|b s]; [done|].
  change (chars (String a (String b s))) with
    (if is_cont b
     then match chars (String b s) with
          | c :: cs => String a c :: cs | [] => [String a ""] end
     else String a "" :: chars (String b s)).
  destruct (is_cont b).
  - destruct (chars (String b s)) as [|c cs] eqn:E; [done|].
    simpl in IH |- *. rewrite append_cons. by rewrite IH.
  - simpl in IH |- *. rewrite append_cons, append_nil_l. by rewrite IH.
Qed.

Lemma chars_head a s : exists r cs, chars (String a s) = String a r :: cs.
Proof.
  destruct s as [|b s]; simpl; [by eauto|].
  destruct (is_cont b); [|by eauto].
  destruct (match s with "" => _ | _ => _ end); by eauto.
Qed.

Lemma chars_chars_ok s : chars_ok (chars s).
Proof.
  induction s as [|a s IH]; [by repeat constructor|].
  destruct s as [|b s]; [by repeat constructor|].
  destruct (chars_head b s) as (r & cs & E).
  change (chars (String a (String b s))) with
    (if is_cont b
     then match chars (String b s) with
          | c :: cs => String a c :: cs | [] => [String a ""] end
     else String a "" :: chars (String b s)).
  rewrite E in IH |- *. destruct IH as [HF HL].
  inversion HF as [|?? Hc HF']; subst.
  destruct (is_cont b) eqn:Eb; split; simpl in *; try done.
  - constructor; [|done]. simpl. by rewrite Eb.
  - repeat constructor; done.
  - by constructor.
Qed.

Lemma chars_app_cont a r t :
  all_bytes is_cont r = true ->
  match t with "" => True | String b _ => is_cont b = false end ->
  chars (String a r +:+ t) = String a r :: chars t.
Proof.
  intros Hr Ht. revert a. induction r as [|b r IH]; intros a; simpl in Hr.
  - rewrite append_cons, append_nil_l. destruct t as [|b t]; [done|]. simpl in Ht |- *.
    by rewrite Ht.
  - apply andb_true_iff in Hr as [Hb Hr].
    rewrite append_cons, append_cons.
    change (chars (String a (String b (r +:+ t)))) with
      (if is_cont b
       then match chars (String b (r +:+ t)) with
            | c :: cs => String a c :: cs | [] => [String a ""] end
       else String a "" :: chars (String b (r +:+ t))).
    rewrite Hb. rewrite <- append_cons, IH by done. done.
Qed.

Lemma chars_concat l : chars_ok l -> chars (concat l) = l.
Proof.
  induction l as [|c l IH]; intros [HF HL]; [done|].
  inversion HF as [|?? Hc HF']; subst. simpl in HL.
  destruct c as [|a r]; [done|]. simpl in Hc.
  change (concat (String a r :: l)) with (String a r +:+ concat l).
  rewrite chars_app_cont; [|done|].
  - f_equal. apply IH. split; [done|]. destruct l; [done|]. by inversion HL.
  - destruct l as [|d l]; [done|]. inversion HL as [|?? Hd _]; subst.
    by destruct d.
Qed.

Lemma drop_while_suffix {A} (p : A -> bool) l : exists k, drop_while p l = drop k l.
Proof.
  induction l as [|x l [k IH]]; [by exists 0|]. simpl.
  destruct (p x); [by exists (S k)|by exists 0].
Qed.

Lemma chars_ok_drop k l : chars_ok l -> chars_ok (drop k l).
Proof.
  intros [HF HL]. revert l HF HL. induction k as [|k IH]; intros l HF HL; [by destruct l|].
  destruct l as [|c l]; [done|]. simpl in *. inversion HF; subst. apply IH; [done|].
  destruct l; [done|]. by inversion HL.
Qed.

Lemma chars_ok_take k l : chars_ok l -> chars_ok (take k l).
Proof.
  intros [HF HL]. split; [by apply Forall_take|].
  destruct k, l as [|c l]; try done. simpl in *. by apply Forall_take.
Qed.

Lemma rev_drop_while {A} (p : A -> bool) l : exists k, rev (drop_while p (rev l)) = take k l.
Proof.
  destruct (drop_while_suffix p (rev l)) as [k ->].
  exists (length l - k). by rewrite skipn_rev, rev_involutive.
Qed.

Lemma chars_trim s :
  chars (trim s) = rev (drop_while is_whitespace (rev (drop_while is_whitespace (chars s)))).
Proof.
  unfold trim. apply chars_concat.
  destruct (drop_while_suffix is_whitespace (chars s)) as [k ->].
  destruct (rev_drop_while is_whitespace (drop k (chars s))) as [j ->].
  apply chars_ok_take, chars_ok_drop, chars_chars_ok.
Qed.

Lemma drop_while_id {A} (p : A -> bool) l :
  (forall x, head l = Some x -> p x = false) -> drop_while p l = l.
Proof. destruct l as [|x l]; [done|]. simpl. intros H. by rewrite H. Qed.

Lemma drop_while_head {A} (p : A -> bool) l x :
  head (drop_while p l) = Some x -> p x = false.
Proof. induction l as [|y l IH]; [done|]. simpl. destruct (p y) eqn:E; [done|]. by intros [= ->]. Qed.

Lemma head_take {A} k (l : list A) x : head (take k l) = Some x -> head l = Some x.
Proof. destruct k, l; done. Qed.

Lemma rev_reverse {A} (l : list A) : rev l = reverse l.
Proof. unfold reverse. apply rev_alt. Qed.

Lemma trim_trim s : trim (trim s) = trim s.
Proof.
  unfold trim at 1. rewrite chars_trim.
  set (m := drop_while is_whitespace (chars s)).
  rewrite (drop_while_id is_whitespace (rev (drop_while is_whitespace (rev m)))).
  - rewrite rev_involutive, (drop_while_id is_whitespace (drop_while _ _)); [done|].
    apply drop_while_head.
  - destruct (rev_drop_while is_whitespace m) as [k ->].
    intros x Hx%head_take. by eapply drop_while_head.
Qed.

(** A string whose first and last characters are not white space. *)
Lemma trim_id s :
  (forall c, head (chars s) = Some c -> is_whitespace c = false) ->
  (forall c, last (chars s) = Some c -> is_whitespace c = false) ->
  trim s = s.
Proof.
  intros Hh Hl. unfold trim. rewrite (drop_while_id _ (chars s)) by done.
  rewrite drop_while_id, rev_involutive; [apply concat_chars|].
  intros x. rewrite rev_reverse, head_reverse. apply Hl.
Qed.

Lemma trim_last s c : trim s = s -> last (chars s) = Some c -> is_whitespace c = false.
Proof.
  intros Hs Hl. apply (f_equal chars) in Hs. rewrite chars_trim in Hs.
  rewrite <- Hs in Hl. rewrite rev_reverse, last_reverse in Hl.
  by eapply drop_while_head.
Qed.

Lemma chars_app s t :
  match t with "" => True | String b _ => is_cont b = false end ->
  chars (s +:+ t) = chars s ++ chars t.
Proof.
  intros Ht. rewrite <- (concat_chars s) at 1.
  pose proof (chars_chars_ok s) as Hok. revert Hok.
  generalize (chars s) as l. clear s. intros l.
  induction l as [|c l IH]; intros [HF HL]; [done|].
  inversion HF as [|?? Hc HF']; subst. destruct c as [|a r]; [done|]. simpl in Hc, HL.
  change (concat (String a r :: l)) with (String a r +:+ concat l).
  rewrite append_assoc, chars_app_cont; [|done|].
  - rewrite IH; [done|]. split; [done|]. destruct l; [done|]. by inversion HL.
  - destruct l as [|d l]; [by rewrite append_nil_l|].
    inversion HL as [|?? Hd _]; subst. by destruct d.
Qed.

(** Leading byte of a well-formed string. *)
Definition starts_char (s : string) : Prop :=
  match s with "" => False | String b _ => is_cont b = false end.

#[export] Instance starts_char_dec s : Decision (starts_char s).
Proof. destruct s; simpl; apply _. Defined.

(** Text in front of a trimmed, non-empty string stays trimmed. *)
Lemma trim_app s t :
  (forall c, head (chars s) = Some c -> is_whitespace c = false) ->
  s <> "" -> starts_char t -> trim t = t -> trim (s +:+ t) = s +:+ t.
Proof.
  intros Hh Hs Ht Htr. assert (Hc : chars (s +:+ t) = chars s ++ chars t).
  { apply chars_app. by destruct t. }
  apply trim_id; rewrite Hc.
  - destruct s as [|a s]; [done|]. destruct (chars_head a s) as (r & cs & E).
    rewrite E in Hh |- *. simpl in *. done.
  - destruct t as [|a t]; [done|]. destruct (chars_head a t) as (r & cs & E).
    intros c Hlast. eapply (trim_last (String a t)); [done|].
    rewrite E in Hlast |- *. rewrite last_app_cons in Hlast. done.
Qed.

Lemma trim_head s c : trim s = s -> head (chars s) = Some c -> is_whitespace c = false.
Proof.
  intros Hs Hc. apply (f_equal chars) in Hs. rewrite chars_trim in Hs. rewrite <- Hs in Hc.
  destruct (rev_drop_while is_whitespace (drop_while is_whitespace (chars s))) as [k Hk].
  rewrite Hk in Hc. apply head_take in Hc. by eapply drop_while_head.
Qed.

(** ** Splitting once around a byte *)

Lemma split_once_none a s : no_byte a s = true -> split_once (String a "") s = None.
Proof.
  induction s as [|b s IH]; intros H; [done|]. cbn in *.
  apply andb_true_iff in H as [Hb Hs]. apply negb_true_iff in Hb.
  by rewrite Hb, IH.
Qed.

Lemma split_once_sep a s t :
  no_byte a s = true -> split_once (String a "") (s +:+ String a "" +:+ t) = Some (s, t).
Proof.
  induction s as [|b s IH]; intros H.
  - rewrite append_nil_l, append_cons, append_nil_l. cbn. by rewrite Ascii.eqb_refl.
  - cbn in H. apply andb_true_iff in H as [Hb Hs]. apply negb_true_iff in Hb.
    rewrite append_cons. cbn [split_once strip_prefix]. by rewrite Hb, IH.
Qed.

(** ** ASCII strings *)

Lemma chars_ascii s : all_bytes is_ascii s = true -> chars s = map (fun a => String a "") (String.list_ascii_of_string s).
Proof.
  induction s as [|a s IH]; intros H; [done|]. simpl in H.
  apply andb_true_iff in H as [Ha H]. destruct s as [|b s]; [done|].
  specialize (IH H). simpl in H. apply andb_true_iff in H as [Hb H].
  change (chars (String a (String b s))) with
    (if is_cont b
     then match chars (String b s) with
          | c :: cs => String a c :: cs | [] => [String a ""] end
     else String a "" :: chars (String b s)).
  rewrite IH. replace (is_cont b) with false; [done|].
  symmetry. unfold is_cont, is_ascii in *. apply N.ltb_lt in Hb.
  apply andb_false_iff. left. apply N.leb_gt. lia.
Qed.

Definition is_ascii_ws (a : ascii) : bool := is_whitespace (String a "").

Lemma trim_no_ws s :
  all_bytes (fun a => is_ascii a && negb (is_ascii_ws a)) s = true -> trim s = s.
Proof.
  intros H.
  assert (Ha : all_bytes is_ascii s = true).
  { clear -H. induction s as [|a s IH]; [done|]. simpl in *.
    apply andb_true_iff in H as [[Ha _]%andb_true_iff H]. by rewrite Ha, IH. }
  assert (Hw : Forall (fun c => is_whitespace c = false) (chars s)).
  { rewrite chars_ascii by done. clear Ha. induction s as [|a s IH]; [constructor|].
    simpl in H. apply andb_true_iff in H as [[_ Hn]%andb_true_iff H].
    simpl. constructor; [|by apply IH]. unfold is_ascii_ws in Hn. by apply negb_true_iff. }
  rewrite Forall_forall in Hw. apply trim_id; intros c Hc; apply Hw.
  - destruct (chars s); [done|]. simplify_eq/=. by left.
  - by apply last_Some_elem_of.
Qed.

(** A character of UTF-8 text: one ASCII byte, or bytes that are all outside ASCII. *)
Definition utf8_char (c : string) : bool :=
  match c with
  | EmptyString => false
  | String a EmptyString => true
  | String _ _ => all_bytes (fun a => negb (is_ascii a)) c
  end.

Definition utf8 (s : string) : bool := forallb utf8_char (chars s).

Lemma all_bytes_app p s t : all_bytes p (s +:+ t) = all_bytes p s && all_bytes p t.
Proof. induction s as [|a s IH]; [done|]. rewrite append_cons. cbn [all_bytes]. by rewrite IH, andb_assoc. Qed.

Lemma all_bytes_impl (p q : ascii -> bool) s :
  (forall a, p a = true -> q a = true) -> all_bytes p s = true -> all_bytes q s = true.
Proof. intros Hpq. induction s as [|a s IH]; [done|]. cbn. rewrite !andb_true_iff. naive_solver. Qed.

Lemma no_byte_all_bytes a s : no_byte a s = all_bytes (fun b => negb (a =? b)%char) s.
Proof. induction s as [|b s IH]; [done|]. cbn. by rewrite IH. Qed.

(** ** Decimal round trip *)

Lemma digit_spec d : (0 <= d < 10)%Z ->
  is_digit (digit d) = true /\ (Z.of_N (byte (digit d)) - 48 = d)%Z.
Proof.
  intros H. assert (byte (digit d) = Z.to_N (48 + d)) as E.
  { unfold byte, digit. apply N_ascii_embedding. lia. }
  unfold is_digit. rewrite E. split; [|lia].
  apply andb_true_iff; split; apply N.leb_le; lia.
Qed.

Lemma show_go_parse f n acc :
  (0 <= n < 10 ^ Z.of_nat f)%Z -> digits_acc 0 (show_go f n acc) = digits_acc n acc.
Proof.
  revert n acc; induction f as [|f IH]; intros n acc Hn.
  { change (10 ^ Z.of_nat 0)%Z with 1%Z in Hn. by replace n with 0%Z by lia. }
  assert (Hd : (0 <= n mod 10 < 10)%Z) by (apply Z.mod_pos_bound; lia).
  destruct (digit_spec _ Hd) as [H1 H2]. cbn [show_go]. destruct (Z.ltb_spec n 10) as [Hlt|Hge].
  - cbn [digits_acc]. rewrite H1, H2. f_equal. rewrite Z.mod_small by lia. lia.
  - rewrite IH.
    + cbn [digits_acc]. rewrite H1, H2. f_equal. pose proof (Z.div_mod n 10). lia.
    + rewrite Nat2Z.inj_succ, Z.pow_succ_r in Hn by lia.
      split; [apply Z.div_pos; lia|apply Z.div_lt_upper_bound; lia].
Qed.

Lemma show_go_digits f n acc :
  (0 <= n)%Z -> all_bytes is_digit acc = true -> all_bytes is_digit (show_go f n acc) = true.
Proof.
  revert n acc; induction f as [|f IH]; intros n acc Hn Ha; [done|]. cbn [show_go].
  assert (Hd : is_digit (digit (n mod 10)) = true)
    by (apply digit_spec, Z.mod_pos_bound; lia).
  destruct (n <? 10)%Z; [cbn; by rewrite Hd|].
  apply IH; [apply Z.div_pos; lia|]. cbn. by rewrite Hd.
Qed.

Lemma show_go_nonempty f n acc : acc <> "" -> show_go f n acc <> "".
Proof.
  revert n acc; induction f as [|f IH]; intros n acc Ha; [done|]. cbn [show_go].
  destruct (n <? 10)%Z; [done|]. by apply IH.
Qed.

Lemma show_go_S_nonempty f n acc : show_go (S f) n acc <> "".
Proof. cbn [show_go]. destruct (n <? 10)%Z; [done|]. by apply show_go_nonempty. Qed.

Lemma digit_not_plus a : is_digit a = true -> a <> "+"%char.
Proof. by intros H ->. Qed.

Lemma parse_unsigned_digits s :
  all_bytes is_digit s = true -> s <> "" -> parse_unsigned s = digits_acc 0 s.
Proof.
  intros Hd Hne. destruct s as [|a s]; [done|]. simpl in Hd.
  apply andb_true_iff in Hd as [Ha%digit_not_plus _].
  unfold parse_unsigned.
  replace (match String a s with String "+"%char r => r | _ => String a s end)
    with (String a s); [done|].
  destruct a as [[] [] [] [] [] [] [] []]; done.
Qed.

Lemma show_u64_digits n : (0 <= n)%Z -> all_bytes is_digit (show_u64 n) = true.
Proof. intros Hn. by apply show_go_digits. Qed.

Lemma show_u64_nonempty n : show_u64 n <> "".
Proof. apply show_go_S_nonempty. Qed.

Lemma show_u64_trim n : (0 <= n)%Z -> trim (show_u64 n) = show_u64 n.
Proof.
  intros Hn. apply trim_no_ws. pose proof (show_u64_digits n Hn) as H.
  revert H. generalize (show_u64 n) as s. induction s as [|a s IH]; [done|]. simpl.
  intros [Ha Hs]%andb_true_iff. rewrite IH by done. clear -Ha.
  destruct a as [[] [] [] [] [] [] [] []]; done.
Qed.

(** The decimal rendering of a [u64] parses back to it. *)
Lemma parse_show_u64 n : (0 <= n <= u64_max)%Z -> parse_u64 (show_u64 n) = Some n.
Proof.
  intros Hn. unfold parse_u64.
  rewrite parse_unsigned_digits;
    [|apply show_u64_digits; lia|apply show_u64_nonempty].
  unfold show_u64. rewrite show_go_parse.
  - simpl. destruct (Z.leb_spec n u64_max); [done|lia].
  - unfold u64_max in Hn. lia.
Qed.

(** ** Substrings *)

Lemma contains_true p a b : contains p (a +:+ p +:+ b) = true.
Proof.
  unfold contains. induction a as [|x a IH].
  - change ("" +:+ p +:+ b) with (p +:+ b). pose proof (strip_prefix_app p b) as H.
    destruct (p +:+ b); cbn [split_once]; by rewrite H.
  - change (String x a +:+ p +:+ b) with (String x (a +:+ p +:+ b)). cbn [split_once].
    destruct (strip_prefix p (String x (a +:+ p +:+ b))); [done|].
    by destruct (split_once p (a +:+ p +:+ b)) as [[? ?]|].
Qed.

Lemma split_go_prefix p s h t : split_go p 0 s = h :: t -> exists b, s = h +:+ b.
Proof.
  revert h t. induction s as [|a s IH]; intros h t; cbn [split_go].
  - intros [= <- _]. by exists "".
  - destruct (starts_with p (String a s)); [intros [= <- _]; by eexists|].
    destruct (split_go p 0 s) as [|h' t'] eqn:E; [done|]. intros [= <- _].
    destruct (IH _ _ eq_refl) as [b ->]. by exists b.
Qed.

(** Every piece of a split is a substring. *)
Lemma split_go_infix p k s x : x ∈ split_go p k s -> exists a b, s = a +:+ x +:+ b.
Proof.
  revert k. induction s as [|c s IH]; intros k; cbn [split_go].
  - intros ->%list_elem_of_singleton. by exists "", "".
  - destruct k as [|k]; [|intros (a & b & ->)%IH; by exists (String c a), b].
    destruct (starts_with p (String c s)).
    + intros [->|Hx]%elem_of_cons; [by exists "", (String c s)|].
      destruct (IH _ Hx) as (a & b & ->). by exists (String c a), b.
    + destruct (split_go p 0 s) as [|h t] eqn:E; [by intros ?%elem_of_nil|].
      intros [->|Hx]%elem_of_cons.
      * destruct (split_go_prefix _ _ _ _ E) as [b ->]. by exists "", b.
      * destruct (IH 0%nat) as (a & b & Eq); [rewrite E; by right|]. rewrite Eq. by exists (String c a), b.
Qed.

Lemma split_infix p s x : x ∈ split p s -> exists a b, s = a +:+ x +:+ b.
Proof. apply split_go_infix. Qed.

(** ** Occurrences and replacement *)
Section Occurrences.
Variables (p : string).
Hypothesis Hp : p <> "".

Lemma split_once_Some s l r : split_once p s = Some (l, r) -> s = l +:+ p +:+ r.
Proof.
  revert l r. induction s as [|a s IH]; intros l r; cbn [split_once].
  - destruct (strip_prefix p "") as [r'|] eqn:E; [|done]. intros [= <- <-]. by apply strip_prefix_Some in E.
  - destruct (strip_prefix p (String a s)) as [r'|] eqn:E.
    + intros [= <- <-]. by apply strip_prefix_Some in E.
    + destruct (split_once p s) as [[l' r']|]; [|done]. intros [= <- <-]. rewrite append_cons. f_equal. by apply IH.
Qed.

Lemma contains_spec s : contains p s = true <-> exists l r, s = l +:+ p +:+ r.
Proof.
  split.
  - unfold contains. destruct (split_once p s) as [[l r]|] eqn:E; [|done]. intros _. exists l, r. by apply split_once_Some.
  - intros (l & r & ->). apply contains_true.
Qed.

(** A part of a text without the pattern is without it. *)
Lemma contains_infix a s b : contains p (a +:+ s +:+ b) = false -> contains p s = false.
Proof.
  intros H. apply not_true_iff_false. intros (l & r & ->)%contains_spec. apply not_true_iff_false in H. apply H.
  apply contains_spec. exists (a +:+ l), (r +:+ b). by rewrite !append_assoc.
Qed.

Definition total_len (l : list string) : nat := foldr (fun s n => len s + n) 0 l.

Lemma split_go_len k s : k <= len s ->
  k + total_len (split_go p k s) + (length (split_go p k s) - 1) * len p = len s.
Proof.
  assert (Hlen : 0 < len p) by (destruct p; [done|unfold len; cbn; lia]).
  revert k. induction s as [|a s IH]; intros k Hk; unfold len in *; cbn [String.length] in *; cbn [split_go].
  - cbn. lia.
  - destruct k as [|k]; [|rewrite <- (IH k) by lia; lia].
    destruct (starts_with p (String a s)) eqn:E.
    + apply starts_with_spec in E as [r Er]. apply (f_equal String.length) in Er.
      rewrite length_append in Er. cbn [String.length] in Er. unfold len.
      specialize (IH (String.length p - 1) ltac:(lia)). pose proof (split_go_nonempty p (String.length p - 1) s).
      destruct (split_go p (String.length p - 1) s) as [|h t]; [done|].
      change (total_len ("" :: h :: t)) with (total_len (h :: t)). cbn [length] in *.
      rewrite !Nat.sub_succ, !Nat.sub_0_r in *. lia.
    + specialize (IH 0 ltac:(lia)). destruct (split_go p 0 s) as [|h t] eqn:Es; [by apply split_go_nonempty in Es|].
      cbn [total_len foldr length] in *. unfold len in *. cbn [String.length]. lia.
Qed.

Lemma join_len sep l : l <> [] -> len (join sep l) = total_len l + (length l - 1) * len sep.
Proof.
  induction l as [|x [|y l] IH]; [done|unfold total_len; cbn [foldr length join]; lia|]. intros _. unfold len in *.
  change (join sep (x :: y :: l)) with (x +:+ sep +:+ join sep (y :: l)). rewrite !length_append, IH by done.
  change (total_len (x :: y :: l)) with (String.length x + total_len (y :: l)). cbn [length].
  rewrite !Nat.sub_succ, !Nat.sub_0_r. lia.
Qed.

Lemma split_many s : contains p s = true -> 2 <= length (split p s).
Proof.
  unfold contains, split. induction s as [|a s IH]; cbn [split_once split_go].
  - destruct p; [done|]. cbn. done.
  - unfold starts_with. destruct (strip_prefix p (String a s)).
    + intros _. pose proof (split_go_nonempty p (len p - 1) s). destruct (split_go p (len p - 1) s); [done|cbn; lia].
    + destruct (split_once p s) as [[l r]|]; [|done]. intros _. specialize (IH eq_refl).
      by destruct (split_go p 0 s).
Qed.

(** Replacing by something shorter makes a text that has the pattern shorter. *)
Lemma replace_shorter new s : len new < len p -> contains p s = true -> len (replace p new s) < len s.
Proof.
  intros Hn Hc. unfold replace. pose proof (split_many s Hc) as H2. unfold split in *.
  rewrite join_len by (by apply split_go_nonempty).
  pose proof (split_go_len 0 s ltac:(lia)) as E. nia.
Qed.
End Occurrences.

Lemma all_bytes_infix q a s b : all_bytes q (a +:+ s +:+ b) = true -> all_bytes q s = true.
Proof. rewrite !all_bytes_app. by intros [_ [H _]%andb_true_iff]%andb_true_iff. Qed.

Lemma all_bytes_join q sep l : all_bytes q sep = true -> Forall (fun s => all_bytes q s = true) l ->
  all_bytes q (join sep l) = true.
Proof.
  intros Hs. induction 1 as [|x l Hx Hl IH]; [done|]. destruct l as [|y l]; [done|].
  change (join sep (x :: y :: l)) with (x +:+ sep +:+ join sep (y :: l)). by rewrite !all_bytes_app, Hx, Hs, IH.
Qed.

Lemma all_bytes_replace q p new s : all_bytes q new = true -> all_bytes q s = true ->
  all_bytes q (replace p new s) = true.
Proof.
  intros Hn Hs. apply all_bytes_join; [done|]. apply Forall_forall. intros x (a & b & ->)%split_infix.
  by eapply all_bytes_infix.
Qed.

Lemma all_bytes_concat q l : Forall (fun s => all_bytes q s = true) l -> all_bytes q (concat l) = true.
Proof.
  induction 1 as [|x l Hx Hl IH]; [done|]. change (concat (x :: l)) with (x +:+ concat l).
  by rewrite all_bytes_app, Hx, IH.
Qed.
