(* ===== verification/Urls.v ===== *)
(** * URLs in logs and configuration ([src/lib.rs], [src/paths.rs], [src/error.rs])

    Credentials are removed from a database URL before it is logged; the listen address is
    read from a base URL. The url crate's parser is an interface: a type of parsed URLs, the
    operations the code calls, and what these promise to each other. *)
From S2P Require Import Prelude StrLemmas.
From Stdlib Require Import Ascii.
Import Str.

(** ** The url crate *)

Class UrlOps (U : Type) := {
  url_parse : string -> option U;
  url_print : U -> string;
  url_password : U -> option string;
  url_set_password : string -> U -> U;
  url_pairs : U -> list (string * string);
  url_clear_query : U -> U;
  url_append_pair : string -> string -> U -> U;
  url_host : U -> option string;
  url_port : U -> option Z;
}.

Class UrlLaws (U : Type) `{UrlOps U} := {
  url_set_password_password p u : url_password u <> None -> url_password (url_set_password p u) = Some p;
  url_set_password_pairs p u : url_pairs (url_set_password p u) = url_pairs u;
  url_clear_query_pairs u : url_pairs (url_clear_query u) = [];
  url_clear_query_password u : url_password (url_clear_query u) = url_password u;
  url_append_pair_pairs k v u : url_pairs (url_append_pair k v u) = url_pairs u ++ [(k, v)];
  url_append_pair_password k v u : url_password (url_append_pair k v u) = url_password u;
}.

(** ** Redaction *)

Definition is_sensitive_query_key (key : string) : bool :=
  existsb (String.eqb (to_ascii_lowercase key))
    ["password"; "passwd"; "pwd"; "sslpassword"; "key"; "secret"; "token"].

Definition MASK : string := "***".

Definition mask_pair (p : string * string) : string * string :=
  (p.1, if is_sensitive_query_key p.1 then MASK else p.2).

Section Redact.
Context {U : Type} `{UrlOps U}.

Definition redact_sensitive_query_params (url : U) : U :=
  let pairs := url_pairs url in
  match pairs with
  | [] => url
  | _ =>
      if existsb (fun p => is_sensitive_query_key p.1) pairs
      then foldl (fun u p => url_append_pair (mask_pair p).1 (mask_pair p).2 u) (url_clear_query url) pairs
      else url
  end.

Definition redact_parsed (url : U) : U :=
  redact_sensitive_query_params
    (match url_password url with Some _ => url_set_password MASK url | None => url end).

(** For text that is not a URL to the parser: the part between the first colon of the
    credentials and the first at sign. *)
Definition redact_text (url : string) : string :=
  match split_once "://" url with
  | Some (scheme, after_scheme) =>
      match split_once "@" after_scheme with
      | Some (creds, rest) =>
          match split_once ":" creds with
          | Some (user, _) => scheme +:+ "://" +:+ user +:+ ":***@" +:+ rest
          | None => url
          end
      | None => url
      end
  | None => url
  end.

Definition redact_database_url (url : string) : string :=
  match url_parse url with
  | Some parsed => url_print (redact_parsed parsed)
  | None => redact_text url
  end.

(** ** Listen address *)

Definition DEFAULT_HUB_PORT : Z := 8765.

Definition parse_host_port (s : string) : option string :=
  let s := trim s in
  let from_url :=
    match url_parse s with
    | Some url =>
        match url_host url with
        | Some host => Some (host +:+ ":" +:+ show_u64 (unwrap_or (url_port url) DEFAULT_HUB_PORT))
        | None => None
        end
    | None => None
    end in
  match from_url with
  | Some r => Some r
  | None => if contains ":" s then Some s else None
  end.

(** *** Properties *)
Context `{!UrlLaws U}.

Lemma append_pairs l u :
  let u' := foldl (fun u (p : string * string) => url_append_pair (mask_pair p).1 (mask_pair p).2 u) u l in
  url_pairs u' = url_pairs u ++ map mask_pair l /\ url_password u' = url_password u.
Proof.
  revert u. induction l as [|p l IH]; intros u; [cbn; by rewrite app_nil_r|]. cbn [foldl].
  destruct (IH (url_append_pair (mask_pair p).1 (mask_pair p).2 u)) as [E1 E2]. cbv zeta in *.
  rewrite E1, E2, url_append_pair_pairs, url_append_pair_password, <-app_assoc. by destruct p.
Qed.

Lemma mask_insensitive l : existsb (fun p : string * string => is_sensitive_query_key p.1) l = false ->
  map mask_pair l = l.
Proof.
  induction l as [|[k v] l IH]; [done|]. cbn. intros [Hk Hl]%orb_false_iff.
  unfold mask_pair at 1. cbn. by rewrite Hk, IH.
Qed.

Lemma redact_query_spec u :
  url_pairs (redact_sensitive_query_params u) = map mask_pair (url_pairs u) /\
  url_password (redact_sensitive_query_params u) = url_password u.
Proof.
  unfold redact_sensitive_query_params. destruct (url_pairs u) as [|p l] eqn:E; [by rewrite E|].
  destruct (existsb _ (p :: l)) eqn:Ex.
  - destruct (append_pairs (p :: l) (url_clear_query u)) as [E1 E2].
    by rewrite E1, E2, url_clear_query_pairs, url_clear_query_password.
  - by rewrite E, mask_insensitive.
Qed.

(** A URL the parser understands is logged without its password and without the values of
    the sensitive query parameters; every other parameter keeps its value and its place. *)
Theorem redaction_exact (u : U) :
  url_password (redact_parsed u) = (if url_password u then Some MASK else None) /\
  url_pairs (redact_parsed u) = map mask_pair (url_pairs u).
Proof.
  unfold redact_parsed. destruct (redact_query_spec
    (match url_password u with Some _ => url_set_password MASK u | None => u end)) as [E1 E2].
  rewrite E1, E2. destruct (url_password u) as [p|] eqn:Ep; [|done].
  split; [by rewrite url_set_password_password by congruence|by rewrite url_set_password_pairs].
Qed.

(** Text the parser refuses: a password with an at sign is only removed up to it. *)
Lemma password_tail_leaks :
  redact_text "mysql://user:p@ss@host:notaport/db" = "mysql://user:***@ss@host:notaport/db".
Proof. vm_compute. reflexivity. Qed.

(** A bare host is not completed with the default port. *)
Lemma bare_host_refused : url_parse "myhost" = None -> parse_host_port "myhost" = None.
Proof.
  intros E. unfold parse_host_port. replace (trim "myhost") with "myhost" by (vm_compute; reflexivity).
  by rewrite E.
Qed.
End Redact.
