(* ===== verification/Types.v ===== *)
(** * The iLink wire types ([src/src/ilink/types.rs])

    The message record every component passes around, the request and response
    bodies of the bot API, and the accessors and builders defined on them.
    Random identifiers (UUID v4) and the clock are arguments. *)
From S2P Require Import Prelude.
Import Str.
Local Open Scope hub_scope.

(** ** JSON values ([serde_json::Value]) *)

Inductive json_number : Type :=
| NInt (n : Z)          (* an integer literal in the [i64]/[u64] range *)
| NFloat (repr : string).

Inductive json : Type :=
| JNull
| JBool (b : bool)
| JNum (n : json_number)
| JStr (s : string)
| JArr (l : list json)
| JObj (fields : list (string * json)).

Fixpoint assoc {A} (k : string) (l : list (string * A)) : option A :=
  match l with
  | [] => None
  | (k', v) :: l => if String.eqb k k' then Some v else assoc k l
  end.

Definition as_object (v : json) : option (list (string * json)) :=
  match v with JObj f => Some f | _ => None end.

(** [Value::get]: the member of an object; [None] on any other value. *)
Definition json_get (k : string) (v : json) : option json :=
  as_object v ≫= assoc k.

Definition as_str (v : json) : option string :=
  match v with JStr s => Some s | _ => None end.

Definition json_as_i64 (v : json) : option Z :=
  match v with
  | JNum (NInt n) => if ((i64_min <=? n) && (n <=? i64_max))%Z then Some n else None
  | _ => None
  end.

(** ** QR login and pairing *)

Record GetQrcodeResponse := {
  gq_ret : Z;
  gq_qrcode : option string;
  gq_img_content : option string;
  gq_errmsg : option string;
}.

Record QrcodeStatusResponse := {
  qs_ret : Z;
  qs_status : option string;
  qs_bot_token : option string;
  qs_baseurl : option string;
  qs_ilink_bot_id : option string;
  qs_ilink_user_id : option string;
  qs_errmsg : option string;
}.

(** ** Message items *)

Definition msg_type_TEXT : Z := 1.
Definition msg_type_IMAGE : Z := 2.
Definition msg_type_VOICE : Z := 3.
Definition msg_type_FILE : Z := 4.
Definition msg_type_VIDEO : Z := 5.
Definition message_state_FINISH : Z := 2.

Record TextItem := { text_item_text : option string }.
Record VoiceItem := { voice_item_text : option string }.

Record CDNMedia := {
  encrypt_query_param : option string;
  aes_key : option string;
  encrypt_type : option Z;
  full_url : option string;
}.

Record ImageItem := {
  image_media : option CDNMedia;
  image_thumb_media : option CDNMedia;
  image_mid_size : option Z;
  image_thumb_size : option Z;
  image_cdn_url : option string;
  image_md5 : option string;
  image_media_id : option string;
}.

Record FileItem := {
  file_name : option string;
  file_cdn_url : option string;
  file_size : option Z;
  file_md5 : option string;
  file_media_id : option string;
}.

Record VideoItem := {
  video_cdn_url : option string;
  video_duration_ms : option Z;
  video_md5 : option string;
  video_media_id : option string;
}.

Record MessageItem := {
  item_type : option Z;
  text_item : option TextItem;
  voice_item : option VoiceItem;
  image_item : option ImageItem;
  file_item : option FileItem;
  video_item : option VideoItem;
  item_extra : json;
}.

Definition MessageItem_default : MessageItem :=
  {| item_type := None; text_item := None; voice_item := None; image_item := None;
     file_item := None; video_item := None; item_extra := JNull |}.

Definition set_item_text (t : string) (i : MessageItem) : MessageItem :=
  {| item_type := item_type i; text_item := Some {| text_item_text := Some t |};
     voice_item := voice_item i; image_item := image_item i; file_item := file_item i;
     video_item := video_item i; item_extra := item_extra i |}.

(** ** Hub extension and messages *)

Record HubExt := {
  ext_session_id : option string;
  ext_session_name : option string;
  ext_cli_session_id : option string;
  ext_a2a_call_id : option string;
  ext_a2a_depth : option Z;
  ext_usage : option json;
}.

Record WeixinMessage := {
  seq : option Z;
  message_id : option Z;
  from_user_id : option string;
  to_user_id : option string;
  client_id : option string;
  create_time_ms : option Z;
  update_time_ms : option Z;
  session_id : option string;
  group_id : option string;
  message_type : option Z;
  message_state : option Z;
  item_list : option (list MessageItem);
  context_token : option string;
  ilink_hub_ext : option HubExt;
}.

Definition WeixinMessage_default : WeixinMessage :=
  {| seq := None; message_id := None; from_user_id := None; to_user_id := None;
     client_id := None; create_time_ms := None; update_time_ms := None;
     session_id := None; group_id := None; message_type := None; message_state := None;
     item_list := None; context_token := None; ilink_hub_ext := None |}.

(** Field assignments [msg.f = v]. *)
Section Setters.
Context (m : WeixinMessage).

Definition set_seq (v : option Z) : WeixinMessage :=
  {| seq := v; message_id := message_id m; from_user_id := from_user_id m;
     to_user_id := to_user_id m; client_id := client_id m;
     create_time_ms := create_time_ms m; update_time_ms := update_time_ms m;
     session_id := session_id m; group_id := group_id m; message_type := message_type m;
     message_state := message_state m; item_list := item_list m;
     context_token := context_token m; ilink_hub_ext := ilink_hub_ext m |}.

Definition set_items (v : option (list MessageItem)) : WeixinMessage :=
  {| seq := seq m; message_id := message_id m; from_user_id := from_user_id m;
     to_user_id := to_user_id m; client_id := client_id m;
     create_time_ms := create_time_ms m; update_time_ms := update_time_ms m;
     session_id := session_id m; group_id := group_id m; message_type := message_type m;
     message_state := message_state m; item_list := v;
     context_token := context_token m; ilink_hub_ext := ilink_hub_ext m |}.

Definition set_context (ctx : option string) (e : option HubExt) : WeixinMessage :=
  {| seq := seq m; message_id := message_id m; from_user_id := from_user_id m;
     to_user_id := to_user_id m; client_id := client_id m;
     create_time_ms := create_time_ms m; update_time_ms := update_time_ms m;
     session_id := session_id m; group_id := group_id m; message_type := message_type m;
     message_state := message_state m; item_list := item_list m;
     context_token := ctx; ilink_hub_ext := e |}.

Definition set_to_user (v : option string) : WeixinMessage :=
  {| seq := seq m; message_id := message_id m; from_user_id := from_user_id m;
     to_user_id := v; client_id := client_id m;
     create_time_ms := create_time_ms m; update_time_ms := update_time_ms m;
     session_id := session_id m; group_id := group_id m; message_type := message_type m;
     message_state := message_state m; item_list := item_list m;
     context_token := context_token m; ilink_hub_ext := ilink_hub_ext m |}.
End Setters.

(** First element with a defined image, as [Iterator::find_map]. *)
Fixpoint find_map {A B} (f : A -> option B) (l : list A) : option B :=
  match l with [] => None | x :: l => f x <|> find_map f l end.

(** [WeixinMessage::text]: a text item first, else a voice transcript. *)
Definition text (m : WeixinMessage) : option string :=
  items ← item_list m;
  find_map (fun i => t ← text_item i; text_item_text t) items
  <|> find_map (fun i => v ← voice_item i; voice_item_text v) items.

Definition first_item_type (m : WeixinMessage) : option Z :=
  items ← item_list m; i ← head items; item_type i.

Definition has_content (m : WeixinMessage) : bool :=
  match item_list m with Some (_ :: _) => true | _ => false end.

Definition is_media_item (i : MessageItem) : bool :=
  match item_type i with None => false | Some t => negb (t =? msg_type_TEXT)%Z end.

Definition has_media_content (m : WeixinMessage) : bool :=
  match item_list m with Some l => existsb is_media_item l | None => false end.

(** ** Identifiers *)

(** [new_outbound_msg_id]: [millis] is the wall clock, [n] the value of the
    process-wide counter before the increment. *)
Definition new_outbound_msg_id (millis n : Z) : Z :=
  as_i64 (wrap_u64 (wrap_u64 millis * 1000000 + n mod 1000000)).

Definition new_client_id (uuid : string) : string := "ilink-hub:" +:+ uuid.

(** [WeixinMessage::ensure_outbound]. *)
Definition ensure_outbound (uuid : string) (millis n : Z) (m : WeixinMessage) : WeixinMessage :=
  {| seq := seq m;
     message_id := message_id m <|> Some (new_outbound_msg_id millis n);
     from_user_id := Some "";
     to_user_id := to_user_id m;
     client_id :=
       if match client_id m with Some s => is_empty s | None => true end
       then Some (new_client_id uuid) else client_id m;
     create_time_ms := create_time_ms m; update_time_ms := update_time_ms m;
     session_id := session_id m; group_id := group_id m;
     message_type := message_type m <|> Some 2%Z;
     message_state := message_state m <|> Some message_state_FINISH;
     item_list := item_list m; context_token := context_token m;
     ilink_hub_ext := ilink_hub_ext m |}.

Definition reply_message (ctx uuid : string) (millis n : Z) (i : MessageItem) : WeixinMessage :=
  ensure_outbound uuid millis n
    {| seq := None; message_id := None; from_user_id := Some ""; to_user_id := None;
       client_id := Some (new_client_id uuid); create_time_ms := None;
       update_time_ms := None; session_id := None; group_id := None;
       message_type := Some 2%Z; message_state := Some message_state_FINISH;
       item_list := Some [i]; context_token := Some ctx; ilink_hub_ext := None |}.

Definition text_only_item (t : string) : MessageItem :=
  {| item_type := Some msg_type_TEXT; text_item := Some {| text_item_text := Some t |};
     voice_item := None; image_item := None; file_item := None; video_item := None;
     item_extra := JNull |}.

Definition build_text_reply (ctx t uuid : string) (millis n : Z) : WeixinMessage :=
  reply_message ctx uuid millis n (text_only_item t).

Definition build_image_reply (ctx media_id uuid : string) (millis n : Z) : WeixinMessage :=
  reply_message ctx uuid millis n
    {| item_type := Some msg_type_IMAGE; text_item := None; voice_item := None;
       image_item := Some {| image_media := None; image_thumb_media := None;
         image_mid_size := None; image_thumb_size := None; image_cdn_url := None;
         image_md5 := None; image_media_id := Some media_id |};
       file_item := None; video_item := None; item_extra := JNull |}.

Definition build_file_reply (ctx media_id : string) (name : option string)
    (uuid : string) (millis n : Z) : WeixinMessage :=
  reply_message ctx uuid millis n
    {| item_type := Some msg_type_FILE; text_item := None; voice_item := None;
       image_item := None;
       file_item := Some {| file_name := name; file_cdn_url := None; file_size := None;
         file_md5 := None; file_media_id := Some media_id |};
       video_item := None; item_extra := JNull |}.

(** ** Requests and responses *)

Record BaseInfo := { channel_version : option string; bot_agent : option string }.

(** [CARGO_PKG_VERSION] of the crate is 0.4.0. *)
Definition BaseInfo_default : BaseInfo :=
  {| channel_version := Some "2.4.6"; bot_agent := Some "ilink-hub/0.4.0" |}.

(** [0x00MMNNPP] packing of the client version header. *)
Definition pack_client_version (major minor patch : Z) : Z :=
  Z.lor (Z.lor (Z.shiftl (Z.land major 255) 16) (Z.shiftl (Z.land minor 255) 8))
        (Z.land patch 255).

Record SendMessageRequest := {
  req_msg : option WeixinMessage;
  req_base_info : option BaseInfo;
}.

Record SendMessageResponse := { resp_ret : option Z; resp_errmsg : option string }.

Definition SendMessageResponse_ok : SendMessageResponse :=
  {| resp_ret := Some 0%Z; resp_errmsg := None |}.

Definition SendMessageResponse_err (code : Z) (msg : string) : SendMessageResponse :=
  {| resp_ret := Some code; resp_errmsg := Some msg |}.

Definition SendMessageResponse_default : SendMessageResponse :=
  {| resp_ret := None; resp_errmsg := None |}.

(** [SendMessageRequest::reply_text]. *)
Definition reply_text (ctx t to : string) (cli_session_id : option string)
    (uuid : string) (millis n : Z) : SendMessageRequest :=
  let msg := build_text_reply ctx t uuid millis n in
  let msg := if is_empty to then msg else set_to_user msg (Some to) in
  let msg :=
    match cli_session_id with
    | None => msg
    | Some _ => set_context msg (context_token msg)
        (Some {| ext_session_id := None; ext_session_name := None;
                 ext_cli_session_id := cli_session_id; ext_a2a_call_id := None;
                 ext_a2a_depth := None; ext_usage := None |})
    end in
  {| req_msg := Some msg; req_base_info := Some BaseInfo_default |}.

Definition reply (ctx t to uuid : string) (millis n : Z) : SendMessageRequest :=
  reply_text ctx t to None uuid millis n.

Record GetUpdatesRequest := {
  get_updates_buf : string;
  last_ack_id : option Z;
  gu_base_info : option BaseInfo;
  gu_timeout : option Z;
}.

(** [u64::try_from] of an [i64]. *)
Definition u64_try_from (n : Z) : option Z := if (0 <=? n)%Z then Some n else None.

(** [GetUpdatesRequest::ack_watermark]. *)
Definition ack_watermark (r : GetUpdatesRequest) : option Z :=
  let from_buf := parse_u64 (trim (get_updates_buf r)) in
  let from_field := last_ack_id r ≫= u64_try_from in
  match from_buf, from_field with
  | Some a, Some b => Some (Z.max a b)
  | Some a, None => Some a
  | None, Some b => Some b
  | None, None => None
  end.

Record GetUpdatesResponse := {
  gur_ret : option Z;
  gur_errcode : option Z;
  gur_errmsg : option string;
  gur_msgs : option (list WeixinMessage);
  gur_get_updates_buf : option string;
}.

Record GetConfigRequest := {
  gc_ilink_user_id : option string;
  gc_context_token : option string;
  gc_base_info : option BaseInfo;
}.

Record GetConfigResponse := {
  gcr_ret : option Z;
  gcr_errmsg : option string;
  gcr_typing_ticket : option string;
}.

Record SendTypingRequest := {
  st_ilink_user_id : option string;
  st_typing_ticket : option string;
  st_status : option Z;
  st_base_info : option BaseInfo;
}.

Record GetUploadUrlRequest := {
  filekey : option string;
  media_type : option Z;
  gup_to_user_id : option string;
  rawsize : option Z;
  rawfilemd5 : option string;
  filesize : option Z;
  thumb_rawsize : option Z;
  thumb_rawfilemd5 : option string;
  thumb_filesize : option Z;
  no_need_thumb : option bool;
  aeskey : option string;
}.

Record GetUploadUrlResponse := {
  gup_ret : option Z;
  gup_errmsg : option string;
  upload_param : option string;
  thumb_upload_param : option string;
  upload_full_url : option string;
}.

(** ** Properties of the identifiers *)

Lemma as_i64_small n : (0 <= n <= i64_max)%Z -> as_i64 n = n.
Proof.
  intros Hn. unfold as_i64. rewrite Z.mod_small by (unfold i64_max in *; lia).
  destruct (Z.leb_spec n i64_max); [done|lia].
Qed.

Lemma new_outbound_msg_id_value millis n :
  (0 <= millis <= 9223372036853)%Z ->
  new_outbound_msg_id millis n = (millis * 1000000 + n mod 1000000)%Z.
Proof.
  intros Hm. unfold new_outbound_msg_id, wrap_u64.
  pose proof (Z.mod_pos_bound n 1000000 ltac:(lia)).
  rewrite (Z.mod_small millis), Z.mod_small by lia.
  apply as_i64_small. unfold i64_max. lia.
Qed.
