(* ===== verification/Queue.v ===== *)
(** * The per-client delivery queue ([src/src/hub/queue.rs])

    [PerClientSlot] (bounded buffer with a delivery-id allocator), the
    [InMemoryQueue] that holds one slot per virtual token, and the
    [MessageQueue] trait as a type class with the laws its clients rely on.
    The slot refines an abstract delivery log ([Log]) in which a message is
    retired exactly by an acknowledgement of its id. *)
From S2P Require Import Prelude StrLemmas Types.
Local Open Scope hub_scope.
Local Open Scope Z_scope.

(** ** Errors ([src/src/error.rs]) *)

Inductive HubError : Type :=
| UpstreamHttp (status : Z) (msg : string)
| UpstreamParse (msg : string)
| Upstream (msg : string)
| ClientNotFound (msg : string)
| InvalidToken
| SessionNotFound (msg : string)
| Config (msg : string)
| Io (msg : string)
| Database (msg : string)
| Timeout_
| QueueBackend (msg : string).

Definition DEFAULT_MAX_QUEUE_SIZE : nat := 200.

Record PollBatch := { msgs : list WeixinMessage; cursor : Z }.

Definition PollBatch_default : PollBatch := {| msgs := []; cursor := 0 |}.

Definition PollBatch_is_empty (b : PollBatch) : bool :=
  match msgs b with [] => true | _ => false end.

(** ** One client's slot *)

Record PerClientSlot := {
  messages : list WeixinMessage;
  next_seq : Z;                 (* next delivery id to hand out, a [u64] *)
  max_queue_size : nat;
}.

Definition slot_new (max : nat) : PerClientSlot :=
  {| messages := []; next_seq := 1; max_queue_size := max |}.

Definition slot_push (s : PerClientSlot) (m : WeixinMessage) : bool * PerClientSlot :=
  if (max_queue_size s <=? length (messages s))%nat then (true, s)
  else (false,
        {| messages := messages s ++ [set_seq m (Some (as_i64 (next_seq s)))];
           next_seq := wrap_u64 (next_seq s + 1);
           max_queue_size := max_queue_size s |}).

(** The loop condition of [poll]: the front message carries an id at or below
    the watermark. *)
Definition acked_by (w : Z) (m : WeixinMessage) : bool :=
  match seq m with Some q => (0 <=? q) && (q <=? w) | None => false end.

Fixpoint pop_acked (w : Z) (l : list WeixinMessage) : list WeixinMessage :=
  match l with
  | [] => []
  | m :: l' => if acked_by w m then pop_acked w l' else l
  end.

Definition slot_poll (s : PerClientSlot) (ack : option Z) : PollBatch * PerClientSlot :=
  let allocated_max := sat_sub (next_seq s) 1 in
  let watermark := (fun a => Z.min a allocated_max) <$> ack in
  let kept :=
    match watermark with Some w => pop_acked w (messages s) | None => messages s end in
  let cursor :=
    unwrap_or ((m ← last kept; q ← seq m; u64_try_from q) <|> watermark) allocated_max in
  ({| msgs := kept; cursor := cursor |},
   {| messages := kept; next_seq := next_seq s; max_queue_size := max_queue_size s |}).

Definition slot_len (s : PerClientSlot) : nat := length (messages s).

(** ** Slot invariant *)

(** The ids of the buffered messages are consecutive from [b]. *)
Fixpoint consec (b : Z) (l : list WeixinMessage) : Prop :=
  match l with [] => True | m :: l => seq m = Some b /\ consec (b + 1) l end.

Record slot_wf (s : PerClientSlot) : Prop := {
  wf_next : 1 <= next_seq s <= i64_max;
  wf_len : (length (messages s) <= max_queue_size s)%nat;
  wf_base : Z.of_nat (length (messages s)) < next_seq s;
  wf_ids : consec (next_seq s - Z.of_nat (length (messages s))) (messages s);
}.

Lemma consec_app b l l' :
  consec b (l ++ l') <-> consec b l /\ consec (b + Z.of_nat (length l)) l'.
Proof.
  revert b; induction l as [|m l IH]; intros b; simpl.
  - rewrite Z.add_0_r. tauto.
  - rewrite IH. replace (b + 1 + Z.of_nat (length l)) with (b + Z.of_nat (S (length l))) by lia.
    tauto.
Qed.

Lemma consec_lookup b l i m : consec b l -> l !! i = Some m -> seq m = Some (b + Z.of_nat i).
Proof.
  revert b i; induction l as [|x l IH]; intros b i; [done|]. intros [Hx Hl].
  destruct i as [|i]; simpl.
  - intros [= ->]. by rewrite Z.add_0_r.
  - intros Hi. rewrite (IH _ _ Hl Hi). f_equal. lia.
Qed.

Lemma consec_last b l m :
  consec b l -> last l = Some m -> seq m = Some (b + Z.of_nat (length l) - 1).
Proof.
  intros Hc Hl. rewrite last_lookup in Hl. rewrite (consec_lookup _ _ _ _ Hc Hl).
  destruct l; [done|]. simpl. f_equal. lia.
Qed.

(** The front-popping loop keeps exactly the messages above the watermark. *)
Lemma pop_acked_drop b w l :
  0 <= b -> consec b l -> pop_acked w l = drop (Z.to_nat (w + 1 - b)) l.
Proof.
  revert b; induction l as [|m l IH]; intros b Hb; [by rewrite drop_nil|]. intros [Hm Hl].
  simpl. unfold acked_by. rewrite Hm.
  destruct (Z.leb_spec 0 b); [|lia]. destruct (Z.leb_spec b w) as [Hw|Hw]; simpl.
  - rewrite (IH (b + 1)) by (done || lia).
    replace (Z.to_nat (w + 1 - b)) with (S (Z.to_nat (w + 1 - (b + 1)))) by lia. done.
  - by replace (Z.to_nat (w + 1 - b)) with 0%nat by lia.
Qed.

Lemma consec_drop b k l :
  consec b l -> consec (b + Z.of_nat (Nat.min k (length l))) (drop k l).
Proof.
  revert b l; induction k as [|k IH]; intros b l; [by rewrite Z.add_0_r|].
  destruct l as [|m l]; [done|]. intros [_ Hl]. simpl.
  replace (b + Z.of_nat (S (Nat.min k (length l))))
    with (b + 1 + Z.of_nat (Nat.min k (length l))) by lia. by apply IH.
Qed.

Lemma wf_pop s w :
  slot_wf s ->
  pop_acked w (messages s)
  = drop (Z.to_nat (w + 1 - (next_seq s - Z.of_nat (length (messages s))))) (messages s).
Proof. intros [H1 H2 H3 H4]. apply pop_acked_drop; [lia|done]. Qed.

Lemma slot_new_wf max : slot_wf (slot_new max).
Proof. split; simpl; try done; unfold i64_max; lia. Qed.

Lemma slot_push_wf s m b s' :
  slot_wf s -> next_seq s < i64_max -> slot_push s m = (b, s') -> slot_wf s'.
Proof.
  intros [H1 H2 H3 H4] Hlt. unfold slot_push.
  destruct (Nat.leb_spec (max_queue_size s) (length (messages s))); intros [= <- <-]; [done|].
  assert (Hw : wrap_u64 (next_seq s + 1) = next_seq s + 1).
  { unfold wrap_u64. rewrite Z.mod_small; unfold i64_max in *; lia. }
  split; cbn [messages next_seq max_queue_size]; rewrite ?Hw, ?length_app; cbn [length].
  - lia.
  - lia.
  - lia.
  - apply consec_app. split.
    + by replace (next_seq s + 1 - Z.of_nat (length (messages s) + 1))
        with (next_seq s - Z.of_nat (length (messages s))) by lia.
    + split; [|done]. simpl. rewrite as_i64_small by lia. f_equal. lia.
Qed.

Lemma slot_poll_wf s a b s' : slot_wf s -> slot_poll s a = (b, s') -> slot_wf s'.
Proof.
  intros [H1 H2 H3 H4] [= <- <-].
  set (l := match _ <$> a with Some w => _ | None => _ end).
  assert (exists k, l = drop k (messages s)) as [k Hk].
  { unfold l. destruct a as [a|]; simpl; [|by exists 0%nat].
    eexists. eapply pop_acked_drop; [|done]. lia. }
  rewrite Hk. split; cbn [messages next_seq max_queue_size]; rewrite ?length_drop; try lia.
  pose proof (consec_drop _ k _ H4) as Hd.
  replace (next_seq s - Z.of_nat (length (messages s) - k))
    with (next_seq s - Z.of_nat (length (messages s))
          + Z.of_nat (Nat.min k (length (messages s)))) by lia. done.
Qed.

(** ** Abstract delivery log

    What a slot promises: every accepted message gets the next id; an
    acknowledgement [a] retires the ids up to [a], as far as they are allocated;
    a poll returns the accepted, unacknowledged messages in order. *)
Module Log.
Record t := { accepted : list WeixinMessage; acked : Z; cap : nat }.

Definition init (cap : nat) : t := {| accepted := []; acked := 0; cap := cap |}.

(** Stamp ids [b], [b+1], ... on a list of payloads. *)
Fixpoint stamp (b : Z) (l : list WeixinMessage) : list WeixinMessage :=
  match l with [] => [] | m :: l => set_seq m (Some b) :: stamp (b + 1) l end.

Definition allocated (d : t) : Z := Z.of_nat (length (accepted d)).

Definition waiting (d : t) : list WeixinMessage :=
  drop (Z.to_nat (acked d)) (stamp 1 (accepted d)).

Definition append (d : t) (m : WeixinMessage) : bool * t :=
  if (Z.of_nat (cap d) <=? allocated d - acked d) then (true, d)
  else (false, {| accepted := accepted d ++ [m]; acked := acked d; cap := cap d |}).

Definition read (d : t) (ack : option Z) : list WeixinMessage * t :=
  let d' := {| accepted := accepted d;
               acked := match ack with
                        | Some a => Z.max (acked d) (Z.min a (allocated d))
                        | None => acked d
                        end;
               cap := cap d |} in
  (waiting d', d').
End Log.

(** Operations on one slot, and their observable results. *)
Inductive slot_op := OpPush (m : WeixinMessage) | OpPoll (ack : option Z).
Inductive slot_out := OutPush (rejected : bool) | OutPoll (batch : list WeixinMessage).

Definition slot_step (s : PerClientSlot) (o : slot_op) : slot_out * PerClientSlot :=
  match o with
  | OpPush m => let '(r, s') := slot_push s m in (OutPush r, s')
  | OpPoll a => let '(b, s') := slot_poll s a in (OutPoll (msgs b), s')
  end.

Definition log_step (d : Log.t) (o : slot_op) : slot_out * Log.t :=
  match o with
  | OpPush m => let '(r, d') := Log.append d m in (OutPush r, d')
  | OpPoll a => let '(b, d') := Log.read d a in (OutPoll b, d')
  end.

Fixpoint run {S} (step : S -> slot_op -> slot_out * S) (s : S) (os : list slot_op)
  : list slot_out * S :=
  match os with
  | [] => ([], s)
  | o :: os =>
      let '(r, s) := step s o in
      let '(rs, s) := run step s os in (r :: rs, s)
  end.

(** The acks of a trace are [u64] values. *)
Definition op_ok (o : slot_op) : Prop :=
  match o with OpPoll (Some a) => 0 <= a <= u64_max | _ => True end.

(** ** Refinement *)

Lemma stamp_app b l l' :
  Log.stamp b (l ++ l') = Log.stamp b l ++ Log.stamp (b + Z.of_nat (length l)) l'.
Proof.
  revert b; induction l as [|m l IH]; intros b; simpl; [by rewrite Z.add_0_r|].
  rewrite IH. do 3 f_equal. lia.
Qed.

Lemma length_stamp b l : length (Log.stamp b l) = length l.
Proof. revert b; induction l as [|m l IH]; intros b; simpl; [done|]. by rewrite IH. Qed.

Lemma consec_stamp b l : consec b (Log.stamp b l).
Proof. revert b; induction l as [|m l IH]; intros b; simpl; [done|]. split; [done|apply IH]. Qed.

(** The simulation relation between a slot and its log. *)
Record refines (s : PerClientSlot) (d : Log.t) : Prop := {
  rf_next : next_seq s = Log.allocated d + 1;
  rf_range : 0 <= Log.acked d <= Log.allocated d;
  rf_msgs : messages s = Log.waiting d;
  rf_cap : max_queue_size s = Log.cap d;
  rf_bound : Log.allocated d < i64_max;
}.

Lemma refines_length s d :
  refines s d -> Z.of_nat (length (messages s)) = Log.allocated d - Log.acked d.
Proof.
  intros [H1 H2 H3 H4 H5]. rewrite H3. unfold Log.waiting.
  rewrite length_drop, length_stamp. unfold Log.allocated in *. lia.
Qed.

Lemma refines_init cap : refines (slot_new cap) (Log.init cap).
Proof. split; cbn; try done; unfold i64_max; lia. Qed.

Lemma refines_push s d m :
  refines s d -> Log.allocated d + 1 < i64_max ->
  fst (slot_push s m) = fst (Log.append d m) /\
  refines (snd (slot_push s m)) (snd (Log.append d m)).
Proof.
  intros R Hb. pose proof (refines_length _ _ R) as Hl. destruct R as [H1 H2 H3 H4 H5].
  unfold slot_push, Log.append. rewrite H4.
  destruct (Nat.leb_spec (Log.cap d) (length (messages s)));
    destruct (Z.leb_spec (Z.of_nat (Log.cap d)) (Log.allocated d - Log.acked d)); try lia.
  { split; [done|]. by split. }
  split; [done|].
  assert (Ha : Log.allocated {| Log.accepted := Log.accepted d ++ [m];
             Log.acked := Log.acked d; Log.cap := Log.cap d |} = Log.allocated d + 1).
  { unfold Log.allocated. cbn. rewrite length_app. cbn. lia. }
  split; cbn [snd messages next_seq max_queue_size]; rewrite ?Ha; cbn [Log.acked Log.cap]; try done; try lia.
  - unfold wrap_u64. rewrite H1, Z.mod_small; unfold i64_max in *; lia.
  - rewrite H3. unfold Log.waiting. cbn [Log.acked Log.accepted].
    rewrite stamp_app, drop_app_le
      by (rewrite length_stamp; unfold Log.allocated in *; lia).
    f_equal. cbn. rewrite H1, as_i64_small by lia.
    unfold Log.allocated in *. do 3 f_equal. lia.
Qed.

Lemma refines_poll s d a :
  refines s d -> op_ok (OpPoll a) ->
  msgs (fst (slot_poll s a)) = fst (Log.read d a) /\
  refines (snd (slot_poll s a)) (snd (Log.read d a)).
Proof.
  intros R Ha. destruct R as [H1 H2 H3 H4 H5].
  assert (Hk : messages (snd (slot_poll s a)) = fst (Log.read d a)).
  { unfold slot_poll, Log.read. cbn [fst snd messages]. destruct a as [a|]; cbn [fmap option_fmap option_map]; [|done].
    rewrite H3. unfold Log.waiting at 1. cbn [Log.acked Log.accepted] in *.
    pose proof (consec_drop 1 (Z.to_nat (Log.acked d)) _ (consec_stamp 1 (Log.accepted d))) as Hc.
    rewrite (pop_acked_drop _ _ _ (Z.add_nonneg_nonneg _ _ Z.le_0_1 (Nat2Z.is_nonneg _)) Hc), drop_drop.
    unfold Log.waiting. cbn [Log.acked Log.accepted].
    f_equal. rewrite length_stamp, H1. unfold op_ok in Ha. unfold Log.allocated, sat_sub in *. lia. }
  split; [exact Hk|].
  split; try done.
  - cbn [snd Log.read Log.acked]. unfold op_ok in Ha.
    replace (Log.allocated (snd (Log.read d a))) with (Log.allocated d) by done.
    destruct a; unfold Log.allocated in *; cbn [Log.acked Log.accepted] in *; lia.
Qed.

Lemma run_refines os s d :
  refines s d -> Forall op_ok os -> Log.allocated d + Z.of_nat (length os) < i64_max ->
  fst (run slot_step s os) = fst (run log_step d os) /\
  refines (snd (run slot_step s os)) (snd (run log_step d os)).
Proof.
  revert s d; induction os as [|o os IH]; intros s d R Hok Hb; [by split|].
  inversion Hok as [|?? Ho Hos]; subst. cbn [length] in Hb. destruct o as [m|a]; cbn [run slot_step log_step].
  - destruct (refines_push s d m R ltac:(lia)) as [E R'].
    assert (Hle : Log.allocated (snd (Log.append d m)) <= Log.allocated d + 1).
    { unfold Log.append, Log.allocated. case_match; cbn; rewrite ?length_app; cbn; lia. }
    destruct (slot_push s m) as [r s'], (Log.append d m) as [r' d']; cbn in *. subst r'.
    destruct (IH s' d' R' Hos ltac:(lia)) as [E2 R2].
    destruct (run slot_step s' os), (run log_step d' os); cbn in *. by subst.
  - destruct (refines_poll s d a R Ho) as [E R'].
    assert (Hle : Log.allocated (snd (Log.read d a)) = Log.allocated d) by done.
    destruct (slot_poll s a) as [r s'], (Log.read d a) as [r' d']; cbn [fst snd] in *. subst r'.
    destruct (IH s' d' R' Hos ltac:(lia)) as [E2 R2].
    destruct (run slot_step s' os), (run log_step d' os); cbn in *. by subst.
Qed.

(** (C3) The slot implements the delivery log: on every sequence of pushes and
    polls, the backpressure flags and the returned batches are those of the
    abstract log, in which acceptance allocates consecutive ids and only an
    acknowledgement of an allocated id retires a message. The length bound keeps
    the id allocator inside [i64]. *)
Theorem slot_refines_log (cap : nat) (os : list slot_op)
    (Hacks : Forall op_ok os) (Hlen : Z.of_nat (length os) < i64_max) :
  fst (run slot_step (slot_new cap) os) = fst (run log_step (Log.init cap) os).
Proof. by apply run_refines; [apply refines_init| |]. Qed.

Lemma slot_refines_log_witness :
  fst (run slot_step (slot_new 1)
         [OpPush WeixinMessage_default; OpPush WeixinMessage_default; OpPoll (Some 9);
          OpPush WeixinMessage_default; OpPoll None])
  = [OutPush false; OutPush true; OutPoll [];
     OutPush false; OutPoll [set_seq WeixinMessage_default (Some 2)]].
Proof.
  rewrite (slot_refines_log 1).
  - reflexivity.
  - repeat constructor; cbn; unfold u64_max; lia.
  - cbn. unfold i64_max. lia.
Defined.

(** ** Delivery until acknowledged *)

Lemma elem_of_drop {A} k (l : list A) x : x ∈ drop k l -> x ∈ l.
Proof. intros H. rewrite <- (take_drop k l). apply elem_of_app. by right. Qed.

Lemma slot_step_wf s o :
  slot_wf s -> next_seq s < i64_max -> slot_wf (snd (slot_step s o)).
Proof.
  intros Hwf Hlt. destruct o as [m|a]; cbn.
  - destruct (slot_push s m) eqn:E. by eapply slot_push_wf.
  - destruct (slot_poll s a) eqn:E. by eapply slot_poll_wf.
Qed.

Lemma slot_step_next s o :
  slot_wf s -> next_seq s < i64_max ->
  next_seq s <= next_seq (snd (slot_step s o)) <= next_seq s + 1.
Proof.
  intros Hwf Hlt. destruct o as [m|a]; cbn; [|lia].
  unfold slot_push. destruct (_ <=? _)%nat; cbn; [lia|].
  destruct Hwf. unfold wrap_u64. rewrite Z.mod_small; unfold i64_max in *; lia.
Qed.

(** A buffered id stays buffered exactly when the step does not acknowledge it. *)
Lemma slot_step_keeps s o m q :
  slot_wf s -> next_seq s < i64_max -> seq m = Some q -> m ∈ messages s ->
  (m ∈ messages (snd (slot_step s o)) <-> match o with OpPoll (Some a) => a < q | _ => True end).
Proof.
  intros Hwf Hlt Hq Hin. destruct o as [x|a]; cbn.
  - unfold slot_push. destruct (_ <=? _)%nat; cbn; [done|]. set_solver.
  - destruct a as [a|]; [|done]. cbn [fmap option_fmap option_map snd slot_poll messages].
    rewrite wf_pop by done. destruct Hwf as [H1 H2 H3 H4].
    apply list_elem_of_lookup in Hin as [i Hi].
    pose proof (consec_lookup _ _ _ _ H4 Hi) as Hs. rewrite Hq in Hs. injection Hs as Hs.
    pose proof (lookup_lt_Some _ _ _ Hi).
    rewrite list_elem_of_lookup. unfold sat_sub. split.
    + intros [j Hj]. rewrite lookup_drop in Hj.
      pose proof (consec_lookup _ _ _ _ H4 Hj) as Hs'. rewrite Hq in Hs'. injection Hs'. lia.
    + intros Ha. exists (i - Z.to_nat (Z.min a (Z.max 0 (next_seq s - 1)) + 1
        - (next_seq s - Z.of_nat (length (messages s)))))%nat.
      rewrite lookup_drop, <- Hi. f_equal. lia.
Qed.

(** A retired id never comes back. *)
Lemma slot_step_gone s o m q :
  slot_wf s -> next_seq s < i64_max -> seq m = Some q -> q < next_seq s ->
  m ∉ messages s -> m ∉ messages (snd (slot_step s o)).
Proof.
  intros Hwf Hlt Hq Hb Hout. destruct o as [x|a]; cbn.
  - unfold slot_push. destruct (_ <=? _)%nat; cbn; [done|].
    rewrite elem_of_app, list_elem_of_singleton. intros [?|Heq]; [done|]. subst m.
    cbn in Hq. destruct Hwf. rewrite as_i64_small in Hq by lia. simplify_eq. lia.
  - destruct a as [a|]; [|done]. cbn [fmap option_fmap option_map snd slot_poll messages].
    intros Hin. apply Hout. rewrite wf_pop in Hin by done.
    by eapply elem_of_drop.
Qed.

Lemma run_cons (s : PerClientSlot) o os :
  snd (run slot_step s (o :: os)) = snd (run slot_step (snd (slot_step s o)) os).
Proof.
  cbn [run]. destruct (slot_step s o) as [r s']. cbn [snd].
  by destruct (run slot_step s' os).
Qed.

Definition not_acking (q : Z) (o : slot_op) : Prop :=
  match o with OpPoll (Some a) => a < q | _ => True end.

Lemma run_gone os s m q :
  slot_wf s -> next_seq s + Z.of_nat (length os) < i64_max -> seq m = Some q ->
  q < next_seq s -> m ∉ messages s -> m ∉ messages (snd (run slot_step s os)).
Proof.
  revert s; induction os as [|o os IH]; intros s Hwf Hb Hq Hlt Hout; [done|].
  cbn [length] in Hb. rewrite run_cons.
  pose proof (slot_step_next s o Hwf ltac:(lia)).
  apply IH; [apply slot_step_wf; [done|lia]|lia|done|lia|].
  eapply slot_step_gone; (done || lia).
Qed.

Lemma run_keeps os s m q :
  slot_wf s -> next_seq s + Z.of_nat (length os) < i64_max -> seq m = Some q ->
  q < next_seq s -> m ∈ messages s ->
  (m ∈ messages (snd (run slot_step s os)) <-> Forall (not_acking q) os).
Proof.
  revert s; induction os as [|o os IH]; intros s Hwf Hb Hq Hlt Hin.
  { split; [constructor|done]. }
  cbn [length] in Hb. rewrite run_cons, Forall_cons.
  pose proof (slot_step_next s o Hwf ltac:(lia)) as Hnx.
  pose proof (slot_step_wf s o Hwf ltac:(lia)) as Hwf'.
  pose proof (slot_step_keeps s o m q Hwf ltac:(lia) Hq Hin) as Hk. fold (not_acking q o) in Hk.
  assert (Hdec : not_acking q o \/ ~ not_acking q o).
  { destruct o as [|[a|]]; cbn; [by left| |by left]. lia. }
  destruct Hdec as [Hn|Hn].
  - rewrite IH by (done || lia || tauto). tauto.
  - split; [|tauto]. intros Habs. exfalso. revert Habs.
    eapply run_gone; [done|lia|done|lia|tauto].
Qed.

(** (C9) At-least-once delivery: a message that a slot accepted is part of what
    the next poll returns, after any further pushes and polls, if and only if
    none of those polls acknowledged its delivery id. In particular a forged or
    stale cursor sent before the message was accepted never silences it. *)
Theorem delivered_until_acked (s : PerClientSlot) (m : WeixinMessage) (s1 : PerClientSlot)
    (os : list slot_op) (Hwf : slot_wf s)
    (Hpush : slot_push s m = (false, s1))
    (Hlen : next_seq s + Z.of_nat (length os) + 1 < i64_max) :
  set_seq m (Some (next_seq s)) ∈ msgs (fst (slot_poll (snd (run slot_step s1 os)) None))
  <-> Forall (not_acking (next_seq s)) os.
Proof.
  assert (Hwf1 : slot_wf s1) by (eapply slot_push_wf; [done| |done]; lia).
  unfold slot_push in Hpush. destruct (_ <=? _)%nat; [done|].
  assert (Hs : as_i64 (next_seq s) = next_seq s)
    by (apply as_i64_small; destruct Hwf; lia).
  assert (Hnx : next_seq s < next_seq s1).
  { injection Hpush as <-. cbn. destruct Hwf. unfold wrap_u64.
    rewrite Z.mod_small; unfold i64_max in *; lia. }
  cbn [slot_poll fst msgs fmap option_fmap option_map].
  assert (Hle : next_seq s1 <= next_seq s + 1).
  { injection Hpush as <-. cbn. destruct Hwf. unfold wrap_u64.
    rewrite Z.mod_small; unfold i64_max in *; lia. }
  eapply run_keeps; [done|lia|done|lia|].
  injection Hpush as <-. cbn. rewrite Hs. set_solver.
Qed.

Lemma delivered_until_acked_witness :
  set_seq WeixinMessage_default (Some 1)
    ∈ msgs (fst (slot_poll (snd (run slot_step (snd (slot_push (slot_new 3) WeixinMessage_default))
                   [OpPoll (Some 0); OpPush WeixinMessage_default; OpPoll None])) None)).
Proof.
  eapply (delivered_until_acked (slot_new 3)).
  - apply slot_new_wf.
  - reflexivity.
  - cbn. unfold i64_max. lia.
  - repeat constructor; cbn; lia.
Defined.

(** ** Cursors *)

Lemma slot_poll_cursor s a b s1 :
  slot_wf s -> op_ok (OpPoll a) -> slot_poll s a = (b, s1) -> msgs b <> [] ->
  cursor b = next_seq s - 1.
Proof.
  intros Hwf Ha Hp Hne. pose proof (slot_poll_wf _ _ _ _ Hwf Hp) as [H1 H2 H3 H4].
  assert (E : messages s1 = msgs b /\ next_seq s1 = next_seq s) by (injection Hp as <- <-; done).
  destruct E as [E En]. rewrite E, En in H4.
  destruct (last (msgs b)) as [x|] eqn:El.
  2: { apply last_None in El. done. }
  pose proof (consec_last _ _ _ H4 El) as Hx.
  injection Hp as <- <-. cbn [msgs cursor messages next_seq] in *. rewrite El. cbn [mbind option_bind].
  rewrite Hx. cbn [mbind option_bind]. unfold u64_try_from.
  replace (0 <=? _) with true; [cbn; lia|]. symmetry. apply Z.leb_le. lia.
Qed.

Lemma slot_poll_cursor_range s a b s1 :
  slot_wf s -> op_ok (OpPoll a) -> slot_poll s a = (b, s1) -> 0 <= cursor b <= u64_max.
Proof.
  intros Hwf Ha Hp. destruct (msgs b) as [|x l] eqn:E.
  - injection Hp as <- <-. cbn [msgs] in E. cbn [cursor]. rewrite E. cbn [last mbind option_bind].
    destruct Hwf. unfold sat_sub, i64_max, u64_max in *. destruct a as [a|]; cbn in *; lia.
  - rewrite (slot_poll_cursor s a b s1); [|done..|by rewrite E].
    destruct Hwf. unfold i64_max, u64_max in *. lia.
Qed.

(** Cursor round trip: the cursor of a non-empty batch, rendered in decimal
    in [get_updates_buf] and echoed by the client, is read back exactly, and the
    next poll with it retires that whole batch and nothing accepted since: after
    one more accepted push it returns just that message. *)
Theorem cursor_echo_retires_batch (s : PerClientSlot) (a : option Z) (b : PollBatch)
    (s1 s2 : PerClientSlot) (m : WeixinMessage) (t : option Z)
    (Hwf : slot_wf s) (Ha : op_ok (OpPoll a)) (Hb : next_seq s < i64_max)
    (Hpoll : slot_poll s a = (b, s1)) (Hne : msgs b <> [])
    (Hpush : slot_push s1 m = (false, s2)) :
  let echo := {| get_updates_buf := Str.show_u64 (cursor b); last_ack_id := None;
                 gu_base_info := None; gu_timeout := t |} in
  ack_watermark echo = Some (cursor b) /\
  msgs (fst (slot_poll s2 (ack_watermark echo))) = [set_seq m (Some (next_seq s))].
Proof.
  intros echo.
  assert (He : ack_watermark echo = Some (cursor b)).
  { pose proof (slot_poll_cursor_range _ _ _ _ Hwf Ha Hpoll).
    unfold ack_watermark, echo. cbn [get_updates_buf last_ack_id mbind option_bind].
    rewrite show_u64_trim, parse_show_u64 by lia. done. }
  split; [done|]. rewrite He.
  pose proof (slot_poll_cursor _ _ _ _ Hwf Ha Hpoll Hne) as Hc.
  pose proof (slot_poll_wf _ _ _ _ Hwf Hpoll) as Hwf1.
  assert (En : next_seq s1 = next_seq s) by (by injection Hpoll as <- <-).
  assert (Hwf2 : slot_wf s2) by (eapply slot_push_wf; [done| |done]; lia).
  unfold slot_push in Hpush. destruct (_ <=? _)%nat; [done|]. injection Hpush as <-.
  cbn [slot_poll fst msgs fmap option_fmap option_map].
  rewrite wf_pop by done. destruct Hwf1 as [H1 H2 H3 H4]. cbn [messages next_seq].
  assert (Hw : wrap_u64 (next_seq s1 + 1) = next_seq s + 1).
  { unfold wrap_u64. rewrite Z.mod_small; unfold i64_max in *; lia. }
  rewrite Hw, Hc, length_app. cbn [length].
  rewrite drop_app_length' by (unfold sat_sub; lia).
  rewrite as_i64_small by lia. by rewrite En.
Qed.

Lemma cursor_echo_retires_batch_witness :
  let s := snd (slot_push (slot_new 2) WeixinMessage_default) in
  msgs (fst (slot_poll (snd (slot_push s WeixinMessage_default)) (Some 1)))
  = [set_seq WeixinMessage_default (Some 2)].
Proof.
  intros s.
  refine (proj2 (cursor_echo_retires_batch s None _ _ _ WeixinMessage_default None _ _ _ eq_refl _ eq_refl)).
  - eapply (slot_push_wf (slot_new 2)); [apply slot_new_wf| |reflexivity].
    cbn. unfold i64_max. lia.
  - done.
  - by vm_compute.
  - done.
Defined.

(** ** The trait and its in-memory implementation *)

(** [trait MessageQueue]: operations on a queue of type [Q]. [wait_notify] takes
    the outcome of the wait (notified or timed out) as an argument: it is decided
    by the scheduler. *)
Class MessageQueue (Q : Type) := {
  mq_push : Q -> string -> WeixinMessage -> result bool HubError * Q;
  mq_push_shared : Q -> string -> WeixinMessage -> option string -> option HubExt ->
                   result bool HubError * Q;
  mq_poll : Q -> string -> option Z -> result PollBatch HubError * Q;
  mq_wait_notify : Q -> string -> bool -> result bool HubError * Q;
  mq_remove_client : Q -> string -> result unit HubError * Q;
}.

(** What the trait documentation promises, stated over the messages [mq_pending]
    that are queued and unacknowledged for a virtual token. *)
Class MessageQueueLaws (Q : Type) `{MessageQueue Q} := {
  mq_pending : Q -> string -> list WeixinMessage;
  mq_push_accepted : forall q v m q',
    mq_push q v m = (Ok false, q') ->
    exists id, mq_pending q' v = mq_pending q v ++ [set_seq m (Some id)];
  mq_push_rejected : forall q v m q',
    mq_push q v m = (Ok true, q') -> mq_pending q' v = mq_pending q v;
  mq_push_other : forall q v m r q' v',
    mq_push q v m = (r, q') -> v' <> v -> mq_pending q' v' = mq_pending q v';
  mq_push_shared_default : forall q v m ctx ext,
    mq_push_shared q v m ctx ext = mq_push q v (set_context m ctx ext);
  mq_poll_reads : forall q v a b q',
    mq_poll q v a = (Ok b, q') ->
    msgs b = mq_pending q' v /\ mq_pending q' v `suffix_of` mq_pending q v;
  mq_poll_no_ack : forall q v b q',
    mq_poll q v None = (Ok b, q') -> mq_pending q' v = mq_pending q v;
  mq_poll_other : forall q v a r q' v',
    mq_poll q v a = (r, q') -> v' <> v -> mq_pending q' v' = mq_pending q v';
  mq_wait_pending : forall q v b v', mq_pending (mq_wait_notify q v b).2 v' = mq_pending q v';
  mq_remove_pending : forall q v v',
    mq_pending (mq_remove_client q v).2 v' = if decide (v = v') then [] else mq_pending q v';
}.

Record InMemoryQueue := {
  slots : gmap string PerClientSlot;
  q_max_queue_size : nat;
}.

Definition with_limit (max : nat) : InMemoryQueue := {| slots := ∅; q_max_queue_size := max |}.

Definition InMemoryQueue_new : InMemoryQueue := with_limit DEFAULT_MAX_QUEUE_SIZE.

(** [get_or_create], without the map update its caller stores. *)
Definition get_or_create (q : InMemoryQueue) (v : string) : PerClientSlot :=
  unwrap_or (slots q !! v) (slot_new (q_max_queue_size q)).

Definition set_slot (q : InMemoryQueue) (v : string) (s : PerClientSlot) : InMemoryQueue :=
  {| slots := <[v := s]> (slots q); q_max_queue_size := q_max_queue_size q |}.

Definition push (q : InMemoryQueue) (v : string) (m : WeixinMessage)
    : result bool HubError * InMemoryQueue :=
  let '(r, s) := slot_push (get_or_create q v) m in (Ok r, set_slot q v s).

Definition push_shared (q : InMemoryQueue) (v : string) (base : WeixinMessage)
    (ctx : option string) (ext : option HubExt) : result bool HubError * InMemoryQueue :=
  let '(r, s) := slot_push (get_or_create q v) (set_context base ctx ext) in
  (Ok r, set_slot q v s).

(** Polling an unknown token does not create a slot. *)
Definition poll (q : InMemoryQueue) (v : string) (ack : option Z)
    : result PollBatch HubError * InMemoryQueue :=
  match slots q !! v with
  | Some s => let '(b, s') := slot_poll s ack in (Ok b, set_slot q v s')
  | None => (Ok PollBatch_default, q)
  end.

Definition wait_notify (q : InMemoryQueue) (v : string) (notified : bool)
    : result bool HubError * InMemoryQueue :=
  (Ok notified, set_slot q v (get_or_create q v)).

Definition remove_client (q : InMemoryQueue) (v : string) : result unit HubError * InMemoryQueue :=
  (Ok tt, {| slots := delete v (slots q); q_max_queue_size := q_max_queue_size q |}).

Definition queue_sizes (q : InMemoryQueue) : gmap string nat := slot_len <$> slots q.

#[export] Instance InMemoryQueue_MessageQueue : MessageQueue InMemoryQueue := {|
  mq_push := push; mq_push_shared := push_shared; mq_poll := poll;
  mq_wait_notify := wait_notify; mq_remove_client := remove_client;
|}.

Definition pending (q : InMemoryQueue) (v : string) : list WeixinMessage :=
  match slots q !! v with Some s => messages s | None => [] end.

Lemma pending_set q v s v' :
  pending (set_slot q v s) v' = if decide (v = v') then messages s else pending q v'.
Proof. unfold pending, set_slot. cbn. rewrite lookup_insert. by case_decide. Qed.

Lemma pending_get q v : pending q v = messages (get_or_create q v).
Proof. unfold pending, get_or_create. by destruct (slots q !! v). Qed.

Lemma pop_acked_suffix w l : pop_acked w l `suffix_of` l.
Proof.
  induction l as [|m l IH]; cbn; [done|]. case_match; [|done]. by apply suffix_cons_r.
Qed.

(** The in-memory queue satisfies the trait contract. *)
#[export] Instance InMemoryQueue_Laws : MessageQueueLaws InMemoryQueue.
Proof.
  refine {| mq_pending := pending |}; cbn; intros q v.
  - unfold push, slot_push. intros m q'. rewrite (pending_get q).
    destruct (_ <=? _)%nat; intros [= <-].
    eexists. rewrite pending_set. by case_decide.
  - unfold push, slot_push. intros m q'. rewrite (pending_get q).
    destruct (_ <=? _)%nat; intros [= <-]. rewrite pending_set. by case_decide.
  - unfold push. intros m r q' v'. destruct (slot_push _ _); intros [= <- <-] Hne.
    rewrite pending_set. by case_decide.
  - done.
  - unfold poll, pending. intros a b q'. destruct (slots q !! v) as [s|] eqn:E.
    + destruct (slot_poll s a) as [b' s'] eqn:Hp. intros [= <- <-]. cbn. rewrite lookup_insert.
      case_decide; [|done]. destruct a as [a|]; injection Hp as <- <-; cbn; [|done].
      split; [done|apply pop_acked_suffix].
    + intros [= <- <-]. by rewrite E.
  - unfold poll, pending. intros b q'. destruct (slots q !! v) as [s|] eqn:E.
    + intros [= <- <-]. cbn. rewrite lookup_insert. by case_decide.
    + intros [= <- <-]. by rewrite E.
  - unfold poll. intros a r q' v'. destruct (slots q !! v).
    + destruct (slot_poll _ _). intros [= <- <-] Hne. rewrite pending_set. by case_decide.
    + by intros [= <- <-].
  - intros b v'. unfold wait_notify. cbn. rewrite pending_set. case_decide; [|done]. subst.
    symmetry. apply pending_get.
  - intros v'. unfold remove_client, pending. cbn. rewrite lookup_delete. by case_decide.
Defined.

(** Every slot of the map is well formed and uses the queue's limit. *)
Definition queue_wf (q : InMemoryQueue) : Prop :=
  map_Forall (fun _ s => slot_wf s /\ max_queue_size s = q_max_queue_size q) (slots q).
