(* ===== verification/QueueSteps.v ===== *)
(** * The queue under concurrency ([src/hub/queue.rs], [src/server/routes/bot.rs])

    [Queue] models the operations of the queue one at a time. Here handlers run at once:
    a push looks its slot up and then enters it, a long-poll looks its slot up, enrolls at
    the slot's [Notify], waits, and then reads the slot its token has at that time; clients
    go away while they wait, slots are removed while others hold them. The [Notify] of
    Tokio is a parameter, with its documented behaviour as laws; [Reference] is a type that
    has them. *)
From S2P Require Import Prelude Types Queue.
Local Open Scope hub_scope.

(** ** Notifications *)

(** [enroll t] is the first poll of the future [notified()] that task [t] holds, [finish t]
    its completion, [withdraw t] its being dropped before it completes. *)
Class Notify (Nf : Type) := {
  notify_new : Nf;
  notify_one : Nf -> Nf;
  enroll : nat -> Nf -> Nf;
  finish : nat -> Nf -> Nf;
  withdraw : nat -> Nf -> Nf;
  has_permit : Nf -> bool;
  waiting : Nf -> nat -> bool;
  notified : Nf -> nat -> bool;
}.

(** Two notifiers that look the same to every task but [t]. *)
Definition same_but {Nf} `{Notify Nf} (t : nat) (n n' : Nf) : Prop :=
  forall u, u <> t -> waiting n' u = waiting n u /\ notified n' u = notified n u.

(** [notify_one] wakes a waiting task, or else stores the one permit, which the next task
    that enrolls takes; a task that was woken and goes away passes its wake-up on. *)
Class NotifyLaws (Nf : Type) `{Notify Nf} : Prop := {
  new_quiet : has_permit notify_new = false /\ forall t, waiting notify_new t = false /\ notified notify_new t = false;
  one_wakes : forall n,
    (exists t, waiting n t = true /\ has_permit (notify_one n) = has_permit n /\ same_but t n (notify_one n) /\
       waiting (notify_one n) t = false /\ notified (notify_one n) t = true) \/
    (forall t, waiting n t = false) /\ has_permit (notify_one n) = true /\
       forall t, waiting (notify_one n) t = false /\ notified (notify_one n) t = notified n t;
  enroll_takes : forall t n, waiting n t = false -> notified n t = false ->
    same_but t n (enroll t n) /\ has_permit (enroll t n) = false /\
    waiting (enroll t n) t = negb (has_permit n) /\ notified (enroll t n) t = has_permit n;
  finish_leaves : forall t n, notified n t = true ->
    same_but t n (finish t n) /\ has_permit (finish t n) = has_permit n /\
    waiting (finish t n) t = false /\ notified (finish t n) t = false;
  withdraw_waiting : forall t n, waiting n t = true ->
    same_but t n (withdraw t n) /\ has_permit (withdraw t n) = has_permit n /\
    waiting (withdraw t n) t = false /\ notified (withdraw t n) t = false;
  withdraw_passes_on : forall t n, notified n t = true -> withdraw t n = notify_one (finish t n);
}.

(** Somebody is told: the permit is there, or a task is woken. *)
Definition awake {Nf} `{Notify Nf} (n : Nf) : Prop := has_permit n = true \/ exists t, notified n t = true.

(** The permit is stored only while nobody waits, and nobody waits and is woken at once. *)
Definition permit_idle {Nf} `{Notify Nf} (n : Nf) : Prop :=
  (has_permit n = true -> forall t, waiting n t = false) /\ forall t, waiting n t = true -> notified n t = false.

Section Notifications.
Context {Nf : Type} `{NotifyLaws Nf}.
Implicit Types n : Nf.

Lemma permit_idle_new : permit_idle notify_new.
Proof. destruct new_quiet as [E Hq]. split; [congruence|]. intros t. by rewrite (proj1 (Hq t)). Qed.

Lemma awake_one n : awake (notify_one n).
Proof. destruct (one_wakes n) as [(t & _ & _ & _ & _ & E)|(_ & E & _)]; [right; by exists t|by left]. Qed.

Lemma permit_idle_one n : permit_idle n -> permit_idle (notify_one n).
Proof.
  intros [P1 P2]. destruct (one_wakes n) as [(t & Ew & Ep & Hs & E1 & E2)|(Hn & Ep & Hs)].
  - split; [rewrite Ep; intros Hp; specialize (P1 Hp t); congruence|]. intros u Hu.
    destruct (decide (u = t)) as [->|Hne]; [congruence|]. destruct (Hs u Hne) as [E3 E4]. rewrite E4. apply P2. congruence.
  - split; [intros _ u; by destruct (Hs u)|]. intros u. by rewrite (proj1 (Hs u)).
Qed.

(** A task that [notify_one] knows of was there before. *)
Lemma one_members n u :
  waiting (notify_one n) u = true \/ notified (notify_one n) u = true -> waiting n u = true \/ notified n u = true.
Proof.
  destruct (one_wakes n) as [(t & Ew & _ & Hs & E1 & E2)|(Hn & _ & Hs)].
  - destruct (decide (u = t)) as [->|Hne]; [by left|]. destruct (Hs u Hne) as [-> ->]. done.
  - destruct (Hs u) as [-> ->]. by intros [|]; [|right].
Qed.

Lemma awake_enroll t n : waiting n t = false -> notified n t = false -> awake n -> awake (enroll t n).
Proof.
  intros Hw Hn. destruct (enroll_takes t n Hw Hn) as (Hs & _ & _ & En). intros [Hp|[u Hu]].
  - right. exists t. congruence.
  - right. exists u. destruct (decide (u = t)) as [->|Hne]; [congruence|]. by destruct (Hs u Hne) as [_ ->].
Qed.

Lemma permit_idle_enroll t n : waiting n t = false -> notified n t = false -> permit_idle n -> permit_idle (enroll t n).
Proof.
  intros Hw Hn [P1 P2]. destruct (enroll_takes t n Hw Hn) as (Hs & Ep & Ew & En). split; [congruence|].
  intros u Hu. destruct (decide (u = t)) as [->|Hne].
  - rewrite En. rewrite Ew in Hu. by destruct (has_permit n).
  - destruct (Hs u Hne) as [E1 E2]. rewrite E2. apply P2. congruence.
Qed.

Lemma permit_idle_finish t n : notified n t = true -> permit_idle n -> permit_idle (finish t n).
Proof.
  intros Hn [P1 P2]. destruct (finish_leaves t n Hn) as (Hs & Ep & Ew & En). split.
  - rewrite Ep. intros Hp u. destruct (decide (u = t)) as [->|Hne]; [done|]. destruct (Hs u Hne) as [-> _]. auto.
  - intros u. destruct (decide (u = t)) as [->|Hne]; [congruence|]. destruct (Hs u Hne) as [-> ->]. auto.
Qed.

(** Going away while enrolled, waiting or woken, leaves somebody told. *)
Lemma awake_withdraw t n : waiting n t = true \/ notified n t = true -> permit_idle n -> awake n -> awake (withdraw t n).
Proof.
  intros [Hw|Hn] [P1 P2] Ha; [|rewrite withdraw_passes_on by done; apply awake_one].
  destruct (withdraw_waiting t n Hw) as (Hs & Ep & _ & _). destruct Ha as [Hp|[u Hu]].
  - specialize (P1 Hp t). congruence.
  - right. exists u. destruct (decide (u = t)) as [->|Hne]; [specialize (P2 t Hw); congruence|].
    by destruct (Hs u Hne) as [_ ->].
Qed.

Lemma permit_idle_withdraw t n : waiting n t = true \/ notified n t = true -> permit_idle n -> permit_idle (withdraw t n).
Proof.
  intros [Hw|Hn] Hi; [|rewrite withdraw_passes_on by done; by apply permit_idle_one, permit_idle_finish].
  destruct (withdraw_waiting t n Hw) as (Hs & Ep & Ew & En). destruct Hi as [P1 P2]. split.
  - rewrite Ep. intros Hp u. destruct (decide (u = t)) as [->|Hne]; [done|]. destruct (Hs u Hne) as [-> _]. auto.
  - intros u. destruct (decide (u = t)) as [->|Hne]; [congruence|]. destruct (Hs u Hne) as [-> ->]. auto.
Qed.

Lemma withdraw_members t n u : waiting n t = true \/ notified n t = true ->
  waiting (withdraw t n) u = true \/ notified (withdraw t n) u = true ->
  u <> t /\ (waiting n u = true \/ notified n u = true).
Proof.
  intros [Hw|Hn] Hu.
  - destruct (withdraw_waiting t n Hw) as (Hs & _ & Ew & En). destruct (decide (u = t)) as [->|Hne]; [naive_solver congruence|].
    split; [done|]. by destruct (Hs u Hne) as [<- <-].
  - rewrite withdraw_passes_on in Hu by done. apply one_members in Hu.
    destruct (finish_leaves t n Hn) as (Hs & _ & Ew & En). destruct (decide (u = t)) as [->|Hne]; [naive_solver congruence|].
    split; [done|]. by destruct (Hs u Hne) as [<- <-].
Qed.
End Notifications.

(** ** The state *)
Section Steps.
Context {Nf : Type} `{NotifyLaws Nf}.

(** A slot with its notifier. [cl_fresh] is a ghost: a message was accepted since the slot
    was last read. *)
Record Cell := { cl_vtoken : string; cl_slot : PerClientSlot; cl_notify : Nf; cl_fresh : bool }.

(** Where a long-poll is: it holds its slot, its future was polled, its wait is over, it
    has its batch. *)
Inductive Phase := Holding (s : nat) | Enrolled (s : nat) | Leaving | Answered (b : PollBatch).

Record Poller := { pl_vtoken : string; pl_ack : option Z; pl_phase : Phase }.

(** Where a push is: it holds the slot its look-up gave, or it has returned whether the
    message was rejected. *)
Inductive PushPhase := HasSlot (s : nat) | Pushed (rejected : bool).

Record Pusher := { ps_vtoken : string; ps_msg : WeixinMessage; ps_phase : PushPhase }.

(** [q_table] is the map of slots, which are shared: [q_cells] are all that anybody may
    still hold. [q_polls] and [q_pushes] are the calls that were made, with what they
    returned once they have. *)
Record QState := {
  q_table : gmap string nat;
  q_cells : gmap nat Cell;
  q_next : nat;
  q_max : nat;
  q_polls : gmap nat Poller;
  q_pushes : gmap nat Pusher;
}.

Definition QState_new (max : nat) : QState :=
  {| q_table := ∅; q_cells := ∅; q_next := 0; q_max := max; q_polls := ∅; q_pushes := ∅ |}.

Definition set_table (tb : gmap string nat) (cs : gmap nat Cell) (n : nat) (st : QState) : QState :=
  {| q_table := tb; q_cells := cs; q_next := n; q_max := q_max st; q_polls := q_polls st; q_pushes := q_pushes st |}.
Definition on_cell (s : nat) (f : Cell -> Cell) (st : QState) : QState :=
  set_table (q_table st) (alter f s (q_cells st)) (q_next st) st.
Definition set_polls (ps : gmap nat Poller) (st : QState) : QState :=
  {| q_table := q_table st; q_cells := q_cells st; q_next := q_next st; q_max := q_max st; q_polls := ps; q_pushes := q_pushes st |}.
Definition set_pushes (ps : gmap nat Pusher) (st : QState) : QState :=
  {| q_table := q_table st; q_cells := q_cells st; q_next := q_next st; q_max := q_max st; q_polls := q_polls st; q_pushes := ps |}.
Definition set_phase (t : nat) (p : Poller) (ph : Phase) (st : QState) : QState :=
  set_polls (<[t := {| pl_vtoken := pl_vtoken p; pl_ack := pl_ack p; pl_phase := ph |}]> (q_polls st)) st.

(** [get_or_create]: the slot of a token, a new one if it has none. *)
Definition lookup_slot (vt : string) (st : QState) : nat * QState :=
  match q_table st !! vt with
  | Some s => (s, st)
  | None =>
      let s := q_next st in
      let c := {| cl_vtoken := vt; cl_slot := slot_new (q_max st); cl_notify := notify_new; cl_fresh := false |} in
      (s, set_table (<[vt := s]> (q_table st)) (<[s := c]> (q_cells st)) (S s) st)
  end.

(** [PerClientSlot::push] with its notification, under the slot's mutex. *)
Definition push_cell (m : WeixinMessage) (c : Cell) : Cell :=
  let '(rejected, s) := slot_push (cl_slot c) m in
  if rejected then c
  else {| cl_vtoken := cl_vtoken c; cl_slot := s; cl_notify := notify_one (cl_notify c); cl_fresh := true |}.

(** [PerClientSlot::poll]. *)
Definition poll_cell (ack : option Z) (c : Cell) : Cell :=
  {| cl_vtoken := cl_vtoken c; cl_slot := (slot_poll (cl_slot c) ack).2; cl_notify := cl_notify c; cl_fresh := false |}.

Definition on_notify (f : Nf -> Nf) (c : Cell) : Cell :=
  {| cl_vtoken := cl_vtoken c; cl_slot := cl_slot c; cl_notify := f (cl_notify c); cl_fresh := cl_fresh c |}.

Definition is_notified (s t : nat) (st : QState) : bool :=
  match q_cells st !! s with Some c => notified (cl_notify c) t | None => false end.

(** ** Steps *)

(** The events, of task [t]: a push looks its slot up and enters it; a long-poll looks its
    slot up (or finds the shutdown flag and does not wait), enrolls, is woken, leaves its
    wait for the time limit or the shutdown, is cancelled with its connection, reads; a
    client is removed. *)
Inductive Event :=
| EvLookup (t : nat) (vt : string) (m : WeixinMessage)
| EvPush (t : nat)
| EvWait (t : nat) (vt : string) (ack : option Z)
| EvSkip (t : nat) (vt : string) (ack : option Z)
| EvEnroll (t : nat)
| EvWake (t : nat)
| EvLeave (t : nat)
| EvCancel (t : nat)
| EvPoll (t : nat)
| EvRemove (vt : string).

(** The effect of an event; [None] where it cannot happen. *)
Definition happen (e : Event) (st : QState) : option QState :=
  match e with
  | EvLookup t vt m =>
      match q_pushes st !! t with
      | Some _ => None
      | None =>
          let '(s, st) := lookup_slot vt st in
          Some (set_pushes (<[t := {| ps_vtoken := vt; ps_msg := m; ps_phase := HasSlot s |}]> (q_pushes st)) st)
      end
  | EvPush t =>
      p ← q_pushes st !! t;
      match ps_phase p with
      | HasSlot s =>
          c ← q_cells st !! s;
          let rejected := (slot_push (cl_slot c) (ps_msg p)).1 in
          let p' := {| ps_vtoken := ps_vtoken p; ps_msg := ps_msg p; ps_phase := Pushed rejected |} in
          Some (on_cell s (push_cell (ps_msg p)) (set_pushes (<[t := p']> (q_pushes st)) st))
      | Pushed _ => None
      end
  | EvWait t vt ack =>
      match q_polls st !! t with
      | Some _ => None
      | None =>
          let '(s, st) := lookup_slot vt st in
          Some (set_polls (<[t := {| pl_vtoken := vt; pl_ack := ack; pl_phase := Holding s |}]> (q_polls st)) st)
      end
  | EvSkip t vt ack =>
      match q_polls st !! t with
      | Some _ => None
      | None => Some (set_polls (<[t := {| pl_vtoken := vt; pl_ack := ack; pl_phase := Leaving |}]> (q_polls st)) st)
      end
  | EvEnroll t =>
      p ← q_polls st !! t;
      match pl_phase p with
      | Holding s => Some (set_phase t p (Enrolled s) (on_cell s (on_notify (enroll t)) st))
      | _ => None
      end
  | EvWake t =>
      p ← q_polls st !! t;
      match pl_phase p with
      | Enrolled s => if is_notified s t st then Some (set_phase t p Leaving (on_cell s (on_notify (finish t)) st)) else None
      | _ => None
      end
  | EvLeave t =>
      p ← q_polls st !! t;
      match pl_phase p with
      | Holding s => Some (set_phase t p Leaving st)
      | Enrolled s => Some (set_phase t p Leaving (on_cell s (on_notify (withdraw t)) st))
      | _ => None
      end
  | EvCancel t =>
      p ← q_polls st !! t;
      match pl_phase p with
      | Holding s => Some (set_polls (delete t (q_polls st)) st)
      | Enrolled s => Some (set_polls (delete t (q_polls st)) (on_cell s (on_notify (withdraw t)) st))
      | _ => None
      end
  | EvPoll t =>
      p ← q_polls st !! t;
      match pl_phase p with
      | Leaving =>
          match q_table st !! pl_vtoken p ≫= fun s => c ← q_cells st !! s; Some (s, c) with
          | Some (s, c) =>
              Some (set_phase t p (Answered (slot_poll (cl_slot c) (pl_ack p)).1) (on_cell s (poll_cell (pl_ack p)) st))
          | None => Some (set_phase t p (Answered PollBatch_default) st)
          end
      | _ => None
      end
  | EvRemove vt => Some (set_table (delete vt (q_table st)) (q_cells st) (q_next st) st)
  end.

Definition qstep (st st' : QState) : Prop := exists e, happen e st = Some st'.

(** ** Invariant *)

Definition member (n : Nf) (t : nat) : Prop := waiting n t = true \/ notified n t = true.

Definition enrolled (st : QState) (t s : nat) : Prop := exists p, q_polls st !! t = Some p /\ pl_phase p = Enrolled s.

(** A long-poll of the token is about to read. *)
Definition leaving (st : QState) (vt : string) : Prop :=
  exists t p, q_polls st !! t = Some p /\ pl_vtoken p = vt /\ pl_phase p = Leaving.

Definition refers (p : Poller) (s : nat) : Prop := pl_phase p = Holding s \/ pl_phase p = Enrolled s.

Record qinv (st : QState) : Prop := {
  qi_live : forall vt s, q_table st !! vt = Some s -> exists c, q_cells st !! s = Some c /\ cl_vtoken c = vt;
  qi_next : forall s, is_Some (q_cells st !! s) -> (s < q_next st)%nat;
  qi_refs : forall t p s, q_polls st !! t = Some p -> refers p s ->
    exists c, q_cells st !! s = Some c /\ cl_vtoken c = pl_vtoken p;
  qi_members : forall s c t, q_cells st !! s = Some c -> member (cl_notify c) t <-> enrolled st t s;
  qi_idle : forall s c, q_cells st !! s = Some c -> permit_idle (cl_notify c);
  qi_told : forall vt s c, q_table st !! vt = Some s -> q_cells st !! s = Some c -> cl_fresh c = true ->
    awake (cl_notify c) \/ leaving st vt;
}.

(** A step that changes one cell, and long-polls that are no news for the other cells. *)
Lemma cell_step st st' s c c' : qinv st -> q_cells st !! s = Some c ->
  q_table st' = q_table st -> q_next st' = q_next st -> q_cells st' = <[s := c']> (q_cells st) ->
  cl_vtoken c' = cl_vtoken c -> permit_idle (cl_notify c') ->
  (forall t s', s' <> s -> enrolled st' t s' <-> enrolled st t s') ->
  (forall t, member (cl_notify c') t <-> enrolled st' t s) ->
  (forall t p s', q_polls st' !! t = Some p -> refers p s' ->
     exists p', q_polls st !! t = Some p' /\ refers p' s' /\ pl_vtoken p' = pl_vtoken p) ->
  (cl_fresh c' = true -> q_table st !! cl_vtoken c = Some s -> awake (cl_notify c') \/ leaving st' (cl_vtoken c)) ->
  (forall vt, q_table st !! vt <> Some s -> leaving st vt -> leaving st' vt) ->
  qinv st'.
Proof.
  intros Hi Ec Et En Ecs Ev Hidle Hoth Hmem Hrefs Htold Hleave.
  assert (Hcell : forall s1 c1, q_cells st' !! s1 = Some c1 -> s1 = s /\ c1 = c' \/ s1 <> s /\ q_cells st !! s1 = Some c1).
  { intros s1 c1. rewrite Ecs. destruct (decide (s1 = s)) as [->|Hne].
    - rewrite lookup_insert_eq. intros [= <-]. by left.
    - rewrite lookup_insert_ne by done. by right. }
  assert (Hold : forall s1 c1, q_cells st !! s1 = Some c1 -> exists c2, q_cells st' !! s1 = Some c2 /\ cl_vtoken c2 = cl_vtoken c1).
  { intros s1 c1 E1. rewrite Ecs. destruct (decide (s1 = s)) as [->|Hne].
    - rewrite lookup_insert_eq. exists c'. split; [done|]. congruence.
    - rewrite lookup_insert_ne by done. eauto. }
  split.
  - intros vt s1. rewrite Et. intros (c1 & E1 & <-)%(qi_live _ Hi). by apply Hold.
  - intros s1 [c1 E1]. rewrite En. apply (qi_next _ Hi). destruct (Hcell _ _ E1) as [[-> _]|[_ E2]]; by eexists.
  - intros t p s1 Hp (p' & Hp' & Hr & <-)%(Hrefs _ _ _ Hp). destruct (qi_refs _ Hi _ _ _ Hp' Hr) as (c1 & E1 & <-). by apply Hold.
  - intros s1 c1 t E1. destruct (Hcell _ _ E1) as [[-> ->]|[Hne E2]]; [apply Hmem|].
    rewrite Hoth by done. by apply (qi_members _ Hi).
  - intros s1 c1 E1. destruct (Hcell _ _ E1) as [[-> ->]|[_ E2]]; [done|]. by apply (qi_idle _ Hi s1).
  - intros vt s1 c1. rewrite Et. intros Hvt E1 Hf. destruct (qi_live _ Hi _ _ Hvt) as (c2 & E2 & Hv2).
    destruct (Hcell _ _ E1) as [[-> ->]|[Hne E3]].
    + assert (c2 = c) as -> by congruence. subst vt. by apply Htold.
    + destruct (qi_told _ Hi vt s1 c1 Hvt E3 Hf) as [?|Hl]; [by left|right]. apply Hleave; [congruence|done].
Qed.

(** Looking a slot up changes nothing that is there. *)
Lemma lookup_spec vt st s st' : qinv st -> lookup_slot vt st = (s, st') ->
  qinv st' /\ q_table st' !! vt = Some s /\ q_polls st' = q_polls st /\ q_pushes st' = q_pushes st /\
  (exists c, q_cells st' !! s = Some c /\ cl_vtoken c = vt).
Proof.
  intros Hi. unfold lookup_slot. destruct (q_table st !! vt) as [s0|] eqn:Et.
  { intros [= <- <-]. split; [done|]. split; [done|]. split; [done|]. split; [done|]. by apply (qi_live _ Hi). }
  intros [= <- <-]. set (c := {| cl_vtoken := vt |}).
  assert (Hnew : q_cells st !! q_next st = None).
  { destruct (q_cells st !! q_next st) eqn:E; [|done]. specialize (qi_next _ Hi (q_next st)). rewrite E.
    intros Hn. specialize (Hn (ex_intro _ _ eq_refl)). lia. }
  assert (Hold : forall s1 c1, q_cells st !! s1 = Some c1 -> <[q_next st := c]> (q_cells st) !! s1 = Some c1).
  { intros s1 c1 E1. rewrite lookup_insert_ne; [done|]. congruence. }
  assert (Hcell : forall s1 c1, <[q_next st := c]> (q_cells st) !! s1 = Some c1 ->
            s1 = q_next st /\ c1 = c \/ s1 <> q_next st /\ q_cells st !! s1 = Some c1).
  { intros s1 c1. destruct (decide (s1 = q_next st)) as [->|Hne].
    - rewrite lookup_insert_eq. intros [= <-]. by left.
    - rewrite lookup_insert_ne by done. by right. }
  split; [|split; [apply lookup_insert_eq|split; [done|split; [done|exists c; split; [apply lookup_insert_eq|done]]]]].
  split; cbn.
  - intros vt1 s1. destruct (decide (vt1 = vt)) as [->|Hne].
    + rewrite lookup_insert_eq. intros [= <-]. exists c. by rewrite lookup_insert_eq.
    + rewrite lookup_insert_ne by done. intros (c1 & E1 & <-)%(qi_live _ Hi). eauto.
  - intros s1 [c1 E1]. destruct (Hcell _ _ E1) as [[-> _]|[_ E2]]; [lia|]. specialize (qi_next _ Hi s1 (ex_intro _ _ E2)). lia.
  - intros t p s1 Hp Hr. destruct (qi_refs _ Hi _ _ _ Hp Hr) as (c1 & E1 & <-). eauto.
  - intros s1 c1 t E1. destruct (Hcell _ _ E1) as [[-> ->]|[_ E2]]; [|by apply (qi_members _ Hi)].
    cbn. destruct new_quiet as [_ Hq]. destruct (Hq t) as [Ew En]. unfold member. rewrite Ew, En. split; [naive_solver|].
    intros (p & Hp & Hph). destruct (qi_refs _ Hi _ _ _ Hp (or_intror Hph)) as (c1 & E3 & _). congruence.
  - intros s1 c1 E1. destruct (Hcell _ _ E1) as [[-> ->]|[_ E2]]; [apply permit_idle_new|by apply (qi_idle _ Hi s1)].
  - intros vt1 s1 c1 Hvt E1 Hf. destruct (Hcell _ _ E1) as [[-> ->]|[Hne E2]]; [done|].
    destruct (decide (vt1 = vt)) as [->|Hne1]; [rewrite lookup_insert_eq in Hvt; congruence|].
    rewrite lookup_insert_ne in Hvt by done. by apply (qi_told _ Hi vt1 s1).
Qed.

(** The long-polls after one of them changed or went. *)
Definition polls_after (t : nat) (o : option Poller) (st : QState) : gmap nat Poller :=
  match o with Some p => <[t := p]> (q_polls st) | None => delete t (q_polls st) end.

Lemma polls_after_lookup t o st u : polls_after t o st !! u = if decide (u = t) then o else q_polls st !! u.
Proof.
  unfold polls_after. destruct o as [p|]; case_decide; subst.
  - apply lookup_insert_eq.
  - by apply lookup_insert_ne.
  - apply lookup_delete_eq.
  - by apply lookup_delete_ne.
Qed.

Section After.
Context (st st' : QState) (t : nat) (o : option Poller) (Hps : q_polls st' = polls_after t o st).

Lemma enrolled_after u s :
  enrolled st' u s <-> if decide (u = t) then exists p, o = Some p /\ pl_phase p = Enrolled s else enrolled st u s.
Proof. unfold enrolled. rewrite Hps. setoid_rewrite polls_after_lookup. by case_decide. Qed.

Lemma leaving_after vt : (forall p, q_polls st !! t = Some p -> pl_phase p = Leaving -> pl_vtoken p <> vt) ->
  leaving st vt -> leaving st' vt.
Proof.
  intros Hno (u & p & Hp & Hv & Hl). exists u, p. split; [|done]. rewrite Hps, polls_after_lookup.
  case_decide; [|done]. subst. by destruct (Hno p Hp Hl).
Qed.

Lemma leaving_now p : o = Some p -> pl_phase p = Leaving -> leaving st' (pl_vtoken p).
Proof. intros -> Hl. exists t, p. rewrite Hps, polls_after_lookup. by rewrite decide_True. Qed.

(** Only a long-poll changes: one that was not enrolled, and is not after. *)
Lemma polls_step : qinv st ->
  q_table st' = q_table st -> q_cells st' = q_cells st -> q_next st' = q_next st ->
  (forall s, ~ enrolled st t s) -> (forall p s, o = Some p -> pl_phase p <> Enrolled s) ->
  (forall p s, o = Some p -> refers p s -> exists c, q_cells st !! s = Some c /\ cl_vtoken c = pl_vtoken p) ->
  (forall p, q_polls st !! t = Some p -> pl_phase p = Leaving -> q_table st !! pl_vtoken p = None) ->
  qinv st'.
Proof.
  intros Hi Et Ec En Hne Hno Hrefs Hl. split; rewrite ?Et, ?Ec, ?En; try apply Hi.
  - intros u p s. rewrite Hps, polls_after_lookup. case_decide; [by apply Hrefs|]. by apply (qi_refs _ Hi).
  - intros s c u E. rewrite (qi_members _ Hi s c u E), enrolled_after. case_decide; [|done]. subst. split.
    + intros Hu. by destruct (Hne s).
    + intros (p & -> & Hph). by destruct (Hno p s eq_refl).
  - intros vt s c Hvt E Hf. destruct (qi_told _ Hi vt s c Hvt E Hf) as [?|Hlv]; [by left|right].
    apply leaving_after; [|done]. intros p Hp Hph <-. rewrite (Hl p Hp Hph) in Hvt. done.
Qed.

(** A long-poll and the notifier of the slot it refers to change. *)
Lemma notify_step s c p f : qinv st -> q_polls st !! t = Some p -> refers p s -> q_cells st !! s = Some c ->
  q_table st' = q_table st -> q_next st' = q_next st -> q_cells st' = <[s := on_notify f c]> (q_cells st) ->
  (forall p', o = Some p' -> pl_vtoken p' = pl_vtoken p /\ (pl_phase p' = Leaving \/ pl_phase p' = Enrolled s)) ->
  permit_idle (f (cl_notify c)) ->
  (forall u, u <> t -> member (f (cl_notify c)) u <-> member (cl_notify c) u) ->
  (member (f (cl_notify c)) t <-> exists p', o = Some p' /\ pl_phase p' = Enrolled s) ->
  (awake (cl_notify c) -> awake (f (cl_notify c)) \/ exists p', o = Some p' /\ pl_phase p' = Leaving) ->
  qinv st'.
Proof.
  intros Hi Hp Hr Ec Et En Ecs Ho Hidle Hoth Hmem Haw.
  destruct (qi_refs _ Hi _ _ _ Hp Hr) as (c0 & Ec0 & Hv). assert (c0 = c) as -> by congruence.
  assert (Hnl : forall p1, q_polls st !! t = Some p1 -> pl_phase p1 <> Leaving) by (unfold refers in Hr; naive_solver congruence).
  apply (cell_step st st' s c (on_notify f c)); try done.
  - intros u s1 Hne. rewrite enrolled_after. case_decide; [|done]. subst u. unfold enrolled, refers in *.
    naive_solver congruence.
  - intros u. rewrite enrolled_after. case_decide; [by subst|]. cbn. rewrite Hoth by done. by apply (qi_members _ Hi).
  - intros u p1 s1. rewrite Hps, polls_after_lookup. case_decide; [|by eauto]. subst u. intros -> Hr1.
    destruct (Ho p1 eq_refl) as [Hv1 Hph]. exists p. split; [done|]. split; [|done]. unfold refers in Hr1 |- *.
    destruct Hr as [Hr|Hr], Hr1 as [Hr1|Hr1], Hph as [Hph|Hph]; rewrite Hph in Hr1; simplify_eq; auto.
  - intros Hf Hvt. cbn in Hf |- *. destruct (qi_told _ Hi _ _ _ Hvt Ec Hf) as [Ha|Hl].
    + destruct (Haw Ha) as [?|(p' & Eo & Hph)]; [by left|right]. rewrite Hv. destruct (Ho p' Eo) as [<- _]. by apply leaving_now.
    + right. apply leaving_after; [|done]. intros p1 Hp1 Hph. by destruct (Hnl p1 Hp1).
  - intros vt _. apply leaving_after. intros p1 Hp1 Hph. by destruct (Hnl p1 Hp1).
Qed.
End After.

Lemma on_cell_cells s f st c : q_cells st !! s = Some c -> q_cells (on_cell s f st) = <[s := f c]> (q_cells st).
Proof.
  intros E. cbn. apply map_eq. intros i. destruct (decide (i = s)) as [->|Hne].
  - by rewrite lookup_alter_eq, lookup_insert_eq, E.
  - by rewrite lookup_alter_ne, lookup_insert_ne.
Qed.

Lemma same_but_members t (n n' : Nf) : same_but t n n' -> forall u, u <> t -> member n' u <-> member n u.
Proof. intros Hs u Hne. unfold member. by destruct (Hs u Hne) as [-> ->]. Qed.

Lemma one_keeps (n : Nf) u : member n u -> member (notify_one n) u.
Proof.
  destruct (one_wakes n) as [(t & _ & _ & Hs & _ & E)|(Hn & _ & Hs)].
  - destruct (decide (u = t)) as [->|Hne]; [by right|]. by apply (same_but_members t).
  - unfold member. destruct (Hs u) as [_ ->]. rewrite Hn. intros [|]; [done|by right].
Qed.

Lemma withdraw_keeps t (n : Nf) : member n t -> forall u, u <> t -> member (withdraw t n) u <-> member n u.
Proof.
  intros Ht u Hne. split; [by intros (_ & ?)%(withdraw_members t n u Ht)|]. destruct Ht as [Hw|Hn]; intros Hu.
  - apply (same_but_members t n (withdraw t n)); [by apply withdraw_waiting|done|done].
  - rewrite withdraw_passes_on by done. apply one_keeps, (same_but_members t n (finish t n)); [by apply finish_leaves|done|done].
Qed.

(** A push that enters its slot. *)
Lemma push_inv st s c m : qinv st -> q_cells st !! s = Some c -> qinv (on_cell s (push_cell m) st).
Proof.
  intros Hi Ec. apply (cell_step st _ s c (push_cell m c)); try done; try by apply on_cell_cells.
  - unfold push_cell. destruct (slot_push _ _) as [[] ?]; done.
  - unfold push_cell. destruct (slot_push _ _) as [[] ?]; cbn; [by apply (qi_idle _ Hi s)|].
    by apply permit_idle_one, (qi_idle _ Hi s).
  - intros t. rewrite <- (qi_members _ Hi s c t Ec). unfold push_cell. destruct (slot_push _ _) as [[] ?]; [done|].
    split; [apply one_members|apply one_keeps].
  - by eauto.
  - unfold push_cell. destruct (slot_push _ _) as [[] ?]; cbn; intros Hf Hvt; [by apply (qi_told _ Hi _ s)|].
    left. apply awake_one.
Qed.

(** A long-poll that reads its token's slot. *)
Lemma poll_inv st t p s c : qinv st -> q_polls st !! t = Some p -> pl_phase p = Leaving ->
  q_table st !! pl_vtoken p = Some s -> q_cells st !! s = Some c ->
  qinv (set_phase t p (Answered (slot_poll (cl_slot c) (pl_ack p)).1) (on_cell s (poll_cell (pl_ack p)) st)).
Proof.
  intros Hi Hp Hl Ht Ec.
  set (o := Some {| pl_vtoken := pl_vtoken p; pl_ack := pl_ack p; pl_phase := Answered (slot_poll (cl_slot c) (pl_ack p)).1 |}).
  set (st' := set_phase _ _ _ _). assert (Hps : q_polls st' = polls_after t o st) by done.
  assert (Hno : forall s1, ~ enrolled st t s1) by (intros s1 (p1 & Hp1 & Hph); congruence).
  apply (cell_step st st' s c (poll_cell (pl_ack p) c)); try done.
  - exact (on_cell_cells s (poll_cell (pl_ack p)) st c Ec).
  - exact (qi_idle _ Hi s c Ec).
  - intros u s1 _. rewrite (enrolled_after st st' t o Hps). case_decide; [subst u|done]. split; [naive_solver|]. by intros ?%Hno.
  - intros u. rewrite (enrolled_after st st' t o Hps). rewrite (qi_members _ Hi s c u Ec). case_decide; [subst u|done].
    split; [by intros ?%Hno|naive_solver].
  - intros u p1 s1. rewrite Hps, polls_after_lookup. case_decide; [|by eauto]. intros [= <-] [|]; done.
  - intros vt Hne. apply (leaving_after st st' t o Hps). intros p1 Hp1 _ <-. congruence.
Qed.

Lemma on_cell_none s f st : q_cells st !! s = None -> on_cell s f st = st.
Proof.
  intros E. destruct st. unfold on_cell, set_table. cbn in *. f_equal. apply map_eq. intros i.
  destruct (decide (i = s)) as [->|Hne]; [by rewrite lookup_alter_eq, E|by rewrite lookup_alter_ne].
Qed.

(** The three ways an enrolled long-poll stops waiting, and the way it starts. *)
Lemma enroll_inv st t p s : qinv st -> q_polls st !! t = Some p -> pl_phase p = Holding s ->
  qinv (set_phase t p (Enrolled s) (on_cell s (on_notify (enroll t)) st)).
Proof.
  intros Hi Hp Hph. destruct (qi_refs _ Hi _ _ _ Hp (or_introl Hph)) as (c & Ec & Hv).
  assert (Hno : ~ member (cl_notify c) t) by (rewrite (qi_members _ Hi s c t Ec); intros (p1 & Hp1 & Hph1); congruence).
  unfold member in Hno. assert (Hw : waiting (cl_notify c) t = false) by (destruct (waiting _ t); naive_solver).
  assert (Hn : notified (cl_notify c) t = false) by (destruct (notified _ t); naive_solver).
  destruct (enroll_takes t (cl_notify c) Hw Hn) as (Hs & _ & Ew & En).
  eapply notify_step with (st := st) (t := t) (o := Some _) (s := s) (c := c) (p := p) (f := enroll t); try done.
  - by left.
  - exact (on_cell_cells s _ st c Ec).
  - intros p' [= <-]. by auto.
  - apply permit_idle_enroll; [done..|]. by apply (qi_idle _ Hi s).
  - by apply same_but_members.
  - unfold member. rewrite Ew, En. destruct (has_permit _); cbn; naive_solver.
  - intros Ha. left. by apply awake_enroll.
Qed.

Lemma wake_inv st t p s c : qinv st -> q_polls st !! t = Some p -> pl_phase p = Enrolled s -> q_cells st !! s = Some c ->
  notified (cl_notify c) t = true -> qinv (set_phase t p Leaving (on_cell s (on_notify (finish t)) st)).
Proof.
  intros Hi Hp Hph Ec Hn. destruct (finish_leaves t (cl_notify c) Hn) as (Hs & Ep & Ew & En).
  eapply notify_step with (st := st) (t := t) (o := Some _) (s := s) (c := c) (p := p) (f := finish t); try done.
  - by right.
  - exact (on_cell_cells s _ st c Ec).
  - intros p' [= <-]. by auto.
  - apply permit_idle_finish; [done|]. by apply (qi_idle _ Hi s).
  - by apply same_but_members.
  - unfold member. rewrite Ew, En. naive_solver.
  - intros _. right. by eexists.
Qed.

Lemma withdraw_inv st t p s (o : option Poller) st' : qinv st -> q_polls st !! t = Some p -> pl_phase p = Enrolled s ->
  (forall p', o = Some p' -> pl_vtoken p' = pl_vtoken p /\ pl_phase p' = Leaving) ->
  q_polls st' = polls_after t o st -> q_table st' = q_table st -> q_next st' = q_next st ->
  q_cells st' = q_cells (on_cell s (on_notify (withdraw t)) st) -> qinv st'.
Proof.
  intros Hi Hp Hph Ho Hps Et En Ecs. destruct (qi_refs _ Hi _ _ _ Hp (or_intror Hph)) as (c & Ec & Hv).
  rewrite (on_cell_cells s _ st c Ec) in Ecs.
  assert (Hm : member (cl_notify c) t) by (rewrite (qi_members _ Hi s c t Ec); by exists p).
  eapply (notify_step st st' t o Hps s c p (withdraw t)); try done.
  - by right.
  - intros p' Hp'. destruct (Ho p' Hp') as [? ?]. by auto.
  - apply permit_idle_withdraw; [done|]. by apply (qi_idle _ Hi s).
  - by apply withdraw_keeps.
  - split.
    + by intros (? & _)%(withdraw_members t (cl_notify c) t Hm).
    + intros (p' & Hp' & Hph'). destruct (Ho p' Hp'). congruence.
  - intros Ha. left. apply awake_withdraw; [done| |done]. by apply (qi_idle _ Hi s).
Qed.

Lemma happen_inv e st st' : qinv st -> happen e st = Some st' -> qinv st'.
Proof.
  intros Hi. destruct e as [t vt m|t|t vt ack|t vt ack|t|t|t|t|t|vt]; cbn [happen].
  - destruct (q_pushes st !! t); [done|]. destruct (lookup_slot vt st) as [s st1] eqn:El. intros [= <-].
    destruct (lookup_spec vt st s st1 Hi El) as (Hi1 & _). by destruct Hi1; split.
  - destruct (q_pushes st !! t) as [p|]; [|done]. cbn. destruct (ps_phase p) as [s|]; [|done].
    destruct (q_cells st !! s) as [c|] eqn:Ec; [|done]. cbn. intros [= <-].
    set (st1 := set_pushes _ st). assert (Hi1 : qinv st1) by (by destruct Hi; split). by apply (push_inv st1 s c).
  - destruct (q_polls st !! t) eqn:Ep; [done|]. destruct (lookup_slot vt st) as [s st1] eqn:El. intros [= <-].
    destruct (lookup_spec vt st s st1 Hi El) as (Hi1 & _ & Eps & _ & Hc).
    eapply polls_step with (st := st1) (t := t) (o := Some _); try done.
    + intros s1 (p & Hp & _). congruence.
    + by intros p s1 [= <-].
    + by intros p s1 [= <-] [[= <-]|].
    + intros p Hp. congruence.
  - destruct (q_polls st !! t) eqn:Ep; [done|]. intros [= <-].
    eapply polls_step with (st := st) (t := t) (o := Some _); try done.
    + intros s1 (p & Hp & _). congruence.
    + by intros p s1 [= <-].
    + by intros p s1 [= <-] [|].
    + intros p Hp. congruence.
  - destruct (q_polls st !! t) as [p|] eqn:Ep; [|done]. cbn. destruct (pl_phase p) as [s| | |] eqn:Eph; [|done..].
    intros [= <-]. by apply enroll_inv.
  - destruct (q_polls st !! t) as [p|] eqn:Ep; [|done]. cbn. destruct (pl_phase p) as [|s| |] eqn:Eph; [done| |done..].
    unfold is_notified. destruct (q_cells st !! s) as [c|] eqn:Ec; [|done]. destruct (notified _ t) eqn:En; [|done].
    intros [= <-]. by apply (wake_inv st t p s c).
  - destruct (q_polls st !! t) as [p|] eqn:Ep; [|done]. cbn. destruct (pl_phase p) as [s|s| |] eqn:Eph; [| |done..]; intros [= <-].
    + eapply polls_step with (st := st) (t := t) (o := Some _); try done.
      * intros s1 (p1 & Hp1 & Hph1). congruence.
      * by intros p1 s1 [= <-].
      * by intros p1 s1 [= <-] [|].
      * intros p1 Hp1 Hph1. congruence.
    + eapply (withdraw_inv st t p s (Some _)); try done. by intros p' [= <-].
  - destruct (q_polls st !! t) as [p|] eqn:Ep; [|done]. cbn. destruct (pl_phase p) as [s|s| |] eqn:Eph; [| |done..]; intros [= <-].
    + eapply polls_step with (st := st) (t := t) (o := None); try done.
      * intros s1 (p1 & Hp1 & Hph1). congruence.
      * intros p1 Hp1 Hph1. congruence.
    + by eapply (withdraw_inv st t p s None).
  - destruct (q_polls st !! t) as [p|] eqn:Ep; [|done]. cbn. destruct (pl_phase p) as [| | |] eqn:Eph; [done..| |done].
    destruct (q_table st !! pl_vtoken p) as [s|] eqn:Et; cbn.
    + destruct (qi_live _ Hi _ _ Et) as (c & Ec & _). rewrite Ec. cbn. intros [= <-]. by apply poll_inv.
    + intros [= <-]. eapply polls_step with (st := st) (t := t) (o := Some _); try done.
      * intros s1 (p1 & Hp1 & Hph1). congruence.
      * by intros p1 s1 [= <-].
      * by intros p1 s1 [= <-] [|].
      * intros p1 Hp1 _. congruence.
  - intros [= <-]. destruct Hi as [I1 I2 I3 I4 I5 I6]. split; cbn; try done.
    + intros v s. rewrite lookup_delete. case_decide; [done|]. apply I1.
    + intros v s c. rewrite lookup_delete. case_decide; [done|]. apply I6.
Qed.

Lemma qinv_new max : qinv (QState_new max).
Proof. split; cbn; intros *; rewrite ?lookup_empty; done. Qed.

Lemma reachable_inv max st : rtc qstep (QState_new max) st -> qinv st.
Proof.
  intros Hr. remember (QState_new max) as st0 eqn:E0. assert (Hi : qinv st0) by (subst; apply qinv_new). clear E0.
  induction Hr as [|x y z [e He] _ IH]; [done|]. by apply IH, (happen_inv e x).
Qed.

(** ** No wake-up is lost *)

Fixpoint run_events (es : list Event) (st : QState) : option QState :=
  match es with [] => Some st | e :: es => st' ← happen e st; run_events es st' end.

(** Task [t] has its batch after these events. *)
Definition answers (t : nat) (es : list Event) (st : QState) (b : PollBatch) : Prop :=
  exists st' p, run_events es st = Some st' /\ q_polls st' !! t = Some p /\ pl_phase p = Answered b.

Lemma leaving_answers st t p s c : q_polls st !! t = Some p -> pl_phase p = Leaving ->
  q_table st !! pl_vtoken p = Some s -> q_cells st !! s = Some c ->
  answers t [EvPoll t] st (slot_poll (cl_slot c) (pl_ack p)).1.
Proof.
  intros Hp Hph Et Ec. unfold answers. cbn. rewrite Hp. cbn. rewrite Hph, Et. cbn. rewrite Ec. cbn.
  eexists _, _. split; [done|]. cbn. by rewrite lookup_insert_eq.
Qed.

Lemma notified_answers st t p s c : q_polls st !! t = Some p -> pl_phase p = Enrolled s ->
  q_table st !! pl_vtoken p = Some s -> q_cells st !! s = Some c -> notified (cl_notify c) t = true ->
  answers t [EvWake t; EvPoll t] st (slot_poll (cl_slot c) (pl_ack p)).1.
Proof.
  intros Hp Hph Et Ec Hn. unfold answers. cbn [run_events happen]. rewrite Hp. cbn [mbind option_bind]. rewrite Hph.
  unfold is_notified. rewrite Ec, Hn. cbn [mbind option_bind].
  set (p' := {| pl_vtoken := pl_vtoken p; pl_ack := pl_ack p; pl_phase := Leaving |}).
  destruct (leaving_answers (set_phase t p Leaving (on_cell s (on_notify (finish t)) st)) t p' s (on_notify (finish t) c))
    as (st' & q & Hrun & Hq & Hb); [apply lookup_insert_eq|done|done|cbn; by rewrite lookup_alter_eq, Ec|].
  exists st', q. by split.
Qed.

(** (C38) No wake-up is lost: in every state that pushes, long-polls, time-outs, shutdowns,
    disconnects and removals can reach, interleaved in any way, when the slot of a token
    holds a message that no read has seen, then a long-poll of the token is on its way to
    read it, woken or done with its wait, and needs nothing but its own next steps to
    return it; or nobody waits at the slot, and the next long-poll of the token, whoever
    it is, returns it without waiting. *)
Theorem no_lost_wakeup (max : nat) (st : QState) (vt : string) (s : nat) (c : Cell)
    (Hr : rtc qstep (QState_new max) st) (Hvt : q_table st !! vt = Some s) (Hc : q_cells st !! s = Some c)
    (Hf : cl_fresh c = true) :
  (exists t p, q_polls st !! t = Some p /\ pl_vtoken p = vt /\
     exists es, (es = [EvPoll t] \/ es = [EvWake t; EvPoll t]) /\ answers t es st (slot_poll (cl_slot c) (pl_ack p)).1) \/
  (forall t, waiting (cl_notify c) t = false) /\
  (forall t ack, q_polls st !! t = None ->
     answers t [EvWait t vt ack; EvEnroll t; EvWake t; EvPoll t] st (slot_poll (cl_slot c) ack).1).
Proof.
  pose proof (reachable_inv max st Hr) as Hi. destruct (qi_told _ Hi vt s c Hvt Hc Hf) as [[Hp|[t Ht]]|(t & p & Hp & Hv & Hl)].
  - right. destruct (qi_idle _ Hi s c Hc) as [Hidle _]. split; [by apply Hidle|]. intros t ack Hnone.
    assert (Hno : ~ member (cl_notify c) t) by (rewrite (qi_members _ Hi s c t Hc); intros (q & Hq & _); congruence).
    unfold member in Hno. destruct (enroll_takes t (cl_notify c)) as (_ & _ & _ & En).
    { destruct (waiting _ t); naive_solver. } { destruct (notified _ t); naive_solver. }
    rewrite Hp in En. unfold answers. cbn [run_events happen]. rewrite Hnone. unfold lookup_slot. rewrite Hvt.
    cbn [mbind option_bind]. cbn [q_polls set_polls]. rewrite lookup_insert_eq. cbn [mbind option_bind pl_phase].
    set (p := {| pl_vtoken := vt |}). set (st1 := set_phase t p (Enrolled s) _).
    destruct (notified_answers st1 t {| pl_vtoken := vt; pl_ack := ack; pl_phase := Enrolled s |} s (on_notify (enroll t) c))
      as (st' & q & Hrun & Hq & Hb); [apply lookup_insert_eq|done|done|cbn; by rewrite lookup_alter_eq, Hc|done|].
    exists st', q. by split.
  - left. destruct (proj1 (qi_members _ Hi s c t Hc) (or_intror Ht)) as (p & Hp & Hph).
    destruct (qi_refs _ Hi _ _ _ Hp (or_intror Hph)) as (c' & Ec' & Hv). assert (c' = c) as -> by congruence.
    destruct (qi_live _ Hi _ _ Hvt) as (c' & Ec'' & Hv'). assert (c' = c) as -> by congruence.
    exists t, p. split; [done|]. split; [congruence|]. eexists. split; [by right|].
    eapply (notified_answers st t p s c); try done. congruence.
  - left. exists t, p. split; [done|]. split; [done|]. eexists. split; [by left|].
    by eapply (leaving_answers st t p s c); rewrite ?Hv.
Qed.

(** ** Every interleaving is a sequence of whole operations *)

(** The queue the table shows. *)
Definition abs (st : QState) : InMemoryQueue :=
  {| slots := omap (fun s => cl_slot <$> (q_cells st !! s)) (q_table st); q_max_queue_size := q_max st |}.

Lemma abs_lookup st vt : slots (abs st) !! vt = s ← q_table st !! vt; cl_slot <$> (q_cells st !! s).
Proof. apply lookup_omap. Qed.

Lemma abs_eq st st' : q_table st' = q_table st -> q_cells st' = q_cells st -> q_max st' = q_max st -> abs st' = abs st.
Proof. unfold abs. by intros -> -> ->. Qed.

(** A change of a cell shows in the table under its token, or not at all. *)
Lemma abs_on_cell st s c f : qinv st -> q_cells st !! s = Some c ->
  abs (on_cell s f st) = if decide (q_table st !! cl_vtoken c = Some s) then set_slot (abs st) (cl_vtoken c) (cl_slot (f c)) else abs st.
Proof.
  intros Hi Ec.
  assert (Hsl : forall vt, slots (abs (on_cell s f st)) !! vt
            = if decide (q_table st !! vt = Some s) then Some (cl_slot (f c)) else slots (abs st) !! vt).
  { intros vt. rewrite !abs_lookup. cbn. destruct (q_table st !! vt) as [s1|] eqn:Et; cbn; [|done].
    destruct (decide (s1 = s)) as [->|Hne].
    - rewrite lookup_alter_eq, Ec. cbn. by rewrite decide_True.
    - rewrite lookup_alter_ne by done. rewrite decide_False; [done|]. congruence. }
  assert (Hvt : forall vt, q_table st !! vt = Some s -> vt = cl_vtoken c).
  { intros vt Et. destruct (qi_live _ Hi _ _ Et) as (c' & E' & <-). congruence. }
  case_decide as Hd; unfold abs, set_slot; f_equal; apply map_eq; intros vt; specialize (Hsl vt); cbn in Hsl; cbn; rewrite Hsl.
  - case_decide as Hd1; [rewrite (Hvt vt Hd1); by rewrite lookup_insert_eq|]. rewrite lookup_insert_ne; [done|]. congruence.
  - case_decide as Hd1; [|done]. rewrite (Hvt vt Hd1) in Hd1. done.
Qed.

Lemma set_same_slot (q : InMemoryQueue) vt sl : slots q !! vt = Some sl -> set_slot q vt sl = q.
Proof. intros E. destruct q. unfold set_slot. cbn in *. by rewrite insert_id. Qed.

Lemma abs_same_slot st s c f : qinv st -> q_cells st !! s = Some c -> cl_slot (f c) = cl_slot c -> abs (on_cell s f st) = abs st.
Proof.
  intros Hi Ec Ef. rewrite (abs_on_cell st s c f Hi Ec), Ef. case_decide as Hd; [|done]. apply set_same_slot.
  by rewrite abs_lookup, Hd; cbn; rewrite Ec.
Qed.

Lemma abs_on_notify st s f : qinv st -> abs (on_cell s (on_notify f) st) = abs st.
Proof.
  intros Hi. destruct (q_cells st !! s) as [c|] eqn:Ec; [by apply (abs_same_slot st s c)|by rewrite on_cell_none].
Qed.

(** The look-up is what [wait_notify] does to the map. *)
Lemma abs_lookup_slot vt st s st' b : qinv st -> lookup_slot vt st = (s, st') -> abs st' = (wait_notify (abs st) vt b).2.
Proof.
  intros Hi. unfold lookup_slot, wait_notify, get_or_create. cbn [snd]. destruct (q_table st !! vt) as [s0|] eqn:Et.
  - intros [= <- <-]. destruct (qi_live _ Hi _ _ Et) as (c & Ec & _).
    assert (El : slots (abs st) !! vt = Some (cl_slot c)) by (rewrite abs_lookup, Et; cbn; by rewrite Ec).
    rewrite El. symmetry. by apply set_same_slot.
  - intros [= <- <-]. assert (El : slots (abs st) !! vt = None) by (by rewrite abs_lookup, Et). rewrite El.
    unfold abs, set_slot. cbn. f_equal. apply map_eq. intros v. rewrite lookup_omap. destruct (decide (v = vt)) as [->|Hne].
    + rewrite !lookup_insert_eq. cbn. by rewrite lookup_insert_eq.
    + rewrite !lookup_insert_ne, lookup_omap by done. destruct (q_table st !! v) as [s1|] eqn:Ev; cbn; [|done].
      destruct (qi_live _ Hi _ _ Ev) as (c & Ec & _). rewrite lookup_insert_ne; [done|]. intros <-.
      specialize (qi_next _ Hi _ (ex_intro _ _ Ec)). lia.
Qed.

(** The calls of the trait, with the task that makes them. [CallTouch] is what a look-up
    does to the map before anything enters or waits: it makes the slot if there is none,
    as the trait's [wait_notify] does. *)
Inductive Call :=
| CallTouch (vt : string)
| CallPush (t : nat) (vt : string) (m : WeixinMessage)
| CallPoll (t : nat) (vt : string) (ack : option Z)
| CallRemove (vt : string).

Inductive Answer := Done | Verdict (r : result bool HubError) | Batch (r : result PollBatch HubError).

(** The trait's operations, whole and one after the other. *)
Definition serve (c : Call) (q : InMemoryQueue) : Answer * InMemoryQueue :=
  match c with
  | CallTouch vt => (Done, (wait_notify q vt true).2)
  | CallPush _ vt m => let '(r, q) := push q vt m in (Verdict r, q)
  | CallPoll _ vt ack => let '(r, q) := poll q vt ack in (Batch r, q)
  | CallRemove vt => (Done, (remove_client q vt).2)
  end.

Fixpoint serves (cs : list Call) (q : InMemoryQueue) : list Answer * InMemoryQueue :=
  match cs with
  | [] => ([], q)
  | c :: cs => let '(a, q) := serve c q in let '(l, q) := serves cs q in (a :: l, q)
  end.

(** What a push and a long-poll were called with and have returned, if they have. *)
Definition returned (t : nat) (st : QState) : list (Call * Answer) :=
  match q_pushes st !! t with
  | Some {| ps_vtoken := vt; ps_msg := m; ps_phase := Pushed r |} => [(CallPush t vt m, Verdict (Ok r))]
  | _ => []
  end.
Definition answered (t : nat) (st : QState) : list (Call * Answer) :=
  match q_polls st !! t with
  | Some {| pl_vtoken := vt; pl_ack := ack; pl_phase := Answered b |} => [(CallPoll t vt ack, Batch (Ok b))]
  | _ => []
  end.

Definition holds (t s : nat) (st : QState) : bool :=
  match q_pushes st !! t with
  | Some p => match ps_phase p with HasSlot s' => bool_decide (s' = s) | Pushed _ => false end
  | None => false
  end.

(** The slot that push [t] holds is still the one of its token. *)
Definition in_table (t : nat) (st : QState) : bool :=
  match q_pushes st !! t with
  | Some p => match ps_phase p with HasSlot s => bool_decide (q_table st !! ps_vtoken p = Some s) | Pushed _ => false end
  | None => false
  end.

(** The pushes that enter slot [s] in a run, with what they return. *)
Fixpoint late (s : nat) (es : list Event) (st : QState) : list (Call * Answer) :=
  match es with
  | [] => []
  | e :: es =>
      match happen e st with
      | Some st' => match e with EvPush t => if holds t s st then returned t st' else [] | _ => [] end ++ late s es st'
      | None => []
      end
  end.

(** The calls that take effect with an event, [es] being the events to come: a push when
    its message enters, a long-poll when it reads, a removal when the entry goes. Those
    that still hold the removed slot and will enter it come before the removal. *)
Definition shows (e : Event) (es : list Event) (st st' : QState) : list (Call * Answer) :=
  match e with
  | EvLookup _ vt _ | EvWait _ vt _ => [(CallTouch vt, Done)]
  | EvPush t => if in_table t st then returned t st' else []
  | EvPoll t => answered t st'
  | EvRemove vt => match q_table st !! vt with Some s => late s es st' | None => [] end ++ [(CallRemove vt, Done)]
  | _ => []
  end.

(** The calls of a run, in the order they take effect. *)
Fixpoint history (es : list Event) (st : QState) : list (Call * Answer) :=
  match es with
  | [] => []
  | e :: es => match happen e st with Some st' => shows e es st st' ++ history es st' | None => [] end
  end.

Definition pushes_of (t : nat) (h : list (Call * Answer)) : list (Call * Answer) :=
  List.filter (fun x => match x.1 with CallPush u _ _ => bool_decide (u = t) | _ => false end) h.
Definition polls_of (t : nat) (h : list (Call * Answer)) : list (Call * Answer) :=
  List.filter (fun x => match x.1 with CallPoll u _ _ => bool_decide (u = t) | _ => false end) h.

Lemma pushes_of_app t h1 h2 : pushes_of t (h1 ++ h2) = pushes_of t h1 ++ pushes_of t h2.
Proof. apply List.filter_app. Qed.
Lemma polls_of_app t h1 h2 : polls_of t (h1 ++ h2) = polls_of t h1 ++ polls_of t h2.
Proof. apply List.filter_app. Qed.

Lemma pushes_of_returned t u st : pushes_of t (returned u st) = if decide (u = t) then returned t st else [].
Proof.
  case_decide as Hd; [subst u|]; unfold returned; destruct (q_pushes st !! _) as [[vt m []]|]; try done; cbn.
  - by rewrite bool_decide_true.
  - by rewrite bool_decide_false.
Qed.
Lemma polls_of_returned t u st : polls_of t (returned u st) = [].
Proof. unfold returned. by destruct (q_pushes st !! u) as [[vt m []]|]. Qed.
Lemma polls_of_answered t u st : polls_of t (answered u st) = if decide (u = t) then answered t st else [].
Proof.
  case_decide as Hd; [subst u|]; unfold answered; destruct (q_polls st !! _) as [[vt m []]|]; try done; cbn.
  - by rewrite bool_decide_true.
  - by rewrite bool_decide_false.
Qed.
Lemma pushes_of_answered t u st : pushes_of t (answered u st) = [].
Proof. unfold answered. by destruct (q_polls st !! u) as [[vt m []]|]. Qed.
Lemma polls_of_late t s es st : polls_of t (late s es st) = [].
Proof.
  revert st. induction es as [|e es IH]; intros st; [done|]. cbn [late]. destruct (happen e st) as [st'|]; [|done].
  rewrite polls_of_app, IH. destruct e; try done. destruct (holds _ _ _); [|done]. by rewrite polls_of_returned.
Qed.

Lemma serves_app cs1 cs2 q : serves (cs1 ++ cs2) q =
  let '(l1, q1) := serves cs1 q in let '(l2, q2) := serves cs2 q1 in (l1 ++ l2, q2).
Proof.
  revert q. induction cs1 as [|c cs1 IH]; intros q; cbn; [by destruct (serves cs2 q)|]. destruct (serve c q) as [a q1].
  rewrite IH. destruct (serves cs1 q1) as [l1 q2]. by destruct (serves cs2 q2).
Qed.

Lemma serves_history h1 h2 q q1 q2 : serves (map fst h1) q = (map snd h1, q1) -> serves (map fst h2) q1 = (map snd h2, q2) ->
  serves (map fst (h1 ++ h2)) q = (map snd (h1 ++ h2), q2).
Proof. intros E1 E2. by rewrite !map_app, serves_app, E1, E2. Qed.

(** *** What an event does to the pushes, the long-polls and the table *)

(** Each push that has not entered holds a slot of its token. *)
Definition pinv (st : QState) : Prop := forall t p s, q_pushes st !! t = Some p -> ps_phase p = HasSlot s ->
  exists c, q_cells st !! s = Some c /\ cl_vtoken c = ps_vtoken p.

Lemma lookup_slot_cells vt st s st' : lookup_slot vt st = (s, st') ->
  q_polls st' = q_polls st /\ q_pushes st' = q_pushes st /\ (q_next st <= q_next st')%nat /\
  q_table st' !! vt = Some s /\
  (forall v s1, (s1 < q_next st)%nat -> q_table st' !! v = Some s1 <-> q_table st !! v = Some s1) /\
  (forall s1, (s1 < q_next st)%nat -> q_cells st' !! s1 = q_cells st !! s1).
Proof.
  unfold lookup_slot. destruct (q_table st !! vt) as [s0|] eqn:Et; intros [= <- <-]; [done|]. cbn.
  split; [done|]. split; [done|]. split; [lia|]. split; [apply lookup_insert_eq|]. split.
  - intros v s1 Hlt. destruct (decide (v = vt)) as [->|Hne]; [|by rewrite lookup_insert_ne].
    rewrite lookup_insert_eq, Et. split; [intros [= <-]; lia|done].
  - intros s1 Hlt. rewrite lookup_insert_ne; [done|lia].
Qed.

(** The events that are no push, no look-up of one and no removal. *)
Definition quiet (e : Event) : Prop :=
  match e with EvLookup _ _ _ | EvPush _ | EvRemove _ => False | _ => True end.

(** The slots that are there stay with their tokens, in or out of the table as before, and
    only those of [T] change what they hold. *)
Record frame (T : nat -> Prop) (st st' : QState) : Prop := {
  fr_next : (q_next st <= q_next st')%nat;
  fr_table : forall v s, (s < q_next st)%nat -> q_table st' !! v = Some s <-> q_table st !! v = Some s;
  fr_cells : forall s c, (s < q_next st)%nat -> q_cells st !! s = Some c ->
    exists c', q_cells st' !! s = Some c' /\ cl_vtoken c' = cl_vtoken c /\ (~ T s -> cl_slot c' = cl_slot c);
}.

Definition in_use (st : QState) (s : nat) : Prop := exists v, q_table st !! v = Some s.

Lemma frame_same T st st' : q_next st' = q_next st -> q_table st' = q_table st -> q_cells st' = q_cells st -> frame T st st'.
Proof. intros En Et Ec. split; rewrite ?En, ?Et, ?Ec; [done|done|eauto]. Qed.

Lemma frame_cell T st st' s f : q_next st' = q_next st -> q_table st' = q_table st -> q_cells st' = alter f s (q_cells st) ->
  (forall c, cl_vtoken (f c) = cl_vtoken c) -> (T s \/ forall c, cl_slot (f c) = cl_slot c) -> frame T st st'.
Proof.
  intros En Et Ec Hv Hs. split; rewrite ?En, ?Et, ?Ec; [done|done|]. intros s1 c _ E1.
  destruct (decide (s1 = s)) as [->|Hne]; [rewrite lookup_alter_eq, E1|rewrite lookup_alter_ne by done; eauto].
  eexists. split; [done|]. split; [apply Hv|]. destruct Hs as [Hs|Hs]; [done|by intros _].
Qed.

Lemma frame_lookup T vt st s st' st'' : lookup_slot vt st = (s, st') ->
  q_next st'' = q_next st' -> q_table st'' = q_table st' -> q_cells st'' = q_cells st' -> frame T st st''.
Proof.
  intros (_ & _ & Hn & _ & Ht & Hc)%lookup_slot_cells En Et Ec. split; rewrite ?En, ?Et; [done|done|].
  intros s1 c Hlt E1. exists c. by rewrite Ec, Hc.
Qed.

Lemma push_cell_slot m c : cl_slot (push_cell m c) = (slot_push (cl_slot c) m).2.
Proof. unfold push_cell, slot_push. by destruct (_ <=? _)%nat. Qed.
Lemma push_cell_vtoken m c : cl_vtoken (push_cell m c) = cl_vtoken c.
Proof. unfold push_cell. by destruct (slot_push _ _) as [[] ?]. Qed.

(** The events of a long-poll that waits. *)
Definition waits (e : Event) : bool :=
  match e with EvEnroll _ | EvWake _ | EvLeave _ | EvCancel _ => true | _ => false end.

(** A long-poll that has not answered moves on or goes, and at most a notifier changes. *)
Record wait_moves (st st' : QState) (u : nat) (p : Poller) (o : option Poller) : Prop := {
  wm_poll : q_polls st !! u = Some p;
  wm_open : forall b, pl_phase p <> Answered b;
  wm_next : match o with Some p' => pl_vtoken p' = pl_vtoken p /\ pl_ack p' = pl_ack p /\ forall b, pl_phase p' <> Answered b | None => True end;
  wm_polls : q_polls st' = polls_after u o st;
  wm_rest : q_pushes st' = q_pushes st /\ q_table st' = q_table st /\ q_next st' = q_next st /\ q_max st' = q_max st;
  wm_cells : q_cells st' = q_cells st \/ exists s f, q_cells st' = alter (on_notify f) s (q_cells st);
}.

Lemma wait_step e st st' : waits e = true -> happen e st = Some st' -> exists u p o, wait_moves st st' u p o.
Proof.
  intros Hw He. destruct e as [| | | |u|u|u|u| |]; try done; cbn [happen] in He;
    destruct (q_polls st !! u) as [p|] eqn:Ep; try done; cbn in He; destruct (pl_phase p) as [s|s| |] eqn:Eph; try done.
  - injection He as <-. eexists u, p, (Some _). split; try done; [congruence|by cbn|by right; eexists _, _].
  - destruct (is_notified s u st); [|done]. injection He as <-. eexists u, p, (Some _). split; try done; [congruence|by cbn|by right; eexists _, _].
  - injection He as <-. eexists u, p, (Some _). split; try done; [congruence|by cbn|by left].
  - injection He as <-. eexists u, p, (Some _). split; try done; [congruence|by cbn|by right; eexists _, _].
  - injection He as <-. exists u, p, None. split; try done; [congruence|by left].
  - injection He as <-. exists u, p, None. split; try done; [congruence|by right; eexists _, _].
Qed.

(** A step that is not of a push leaves the pushes, and what is out of the table. *)
Lemma quiet_step e st st' : quiet e -> happen e st = Some st' -> q_pushes st' = q_pushes st /\ frame (in_use st) st st'.
Proof.
  intros Hq He. destruct (waits e) eqn:Hw.
  { destruct (wait_step e st st' Hw He) as (u & p & o & [_ _ _ _ (Eps & Et & En & _) Ec]). split; [done|].
    destruct Ec as [Ec|(s & f & Ec)]; [by apply frame_same|]. eapply frame_cell; try done. by right. }
  destruct e as [|t|t vt ack|t vt ack| | | | |t|vt]; try done; cbn [happen] in He.
  - destruct (q_polls st !! t); [done|]. destruct (lookup_slot vt st) as [s st1] eqn:El. injection He as <-.
    destruct (lookup_slot_cells _ _ _ _ El) as (_ & Ep & _). split; [done|]. by eapply (frame_lookup _ vt st s st1).
  - destruct (q_polls st !! t); [done|]. injection He as <-. split; [done|]. by apply frame_same.
  - destruct (q_polls st !! t) as [p|]; [|done]. cbn in He. destruct (pl_phase p); [done..| |done].
    destruct (q_table st !! pl_vtoken p) as [s|] eqn:Et; cbn in He.
    + destruct (q_cells st !! s) as [c|]; cbn in He; injection He as <-; (split; [done|]); [|by apply frame_same].
      eapply frame_cell; try done. left. by exists (pl_vtoken p).
    + injection He as <-. split; [done|]. by apply frame_same.
Qed.

(** The look-up of a push. *)
Lemma lookup_step t vt m st st' : happen (EvLookup t vt m) st = Some st' ->
  q_pushes st !! t = None /\ frame (in_use st) st st' /\
  exists s, q_table st' !! vt = Some s /\
    q_pushes st' = <[t := {| ps_vtoken := vt; ps_msg := m; ps_phase := HasSlot s |}]> (q_pushes st).
Proof.
  cbn [happen]. destruct (q_pushes st !! t) eqn:Ep; [done|]. destruct (lookup_slot vt st) as [s st1] eqn:El. intros [= <-].
  destruct (lookup_slot_cells _ _ _ _ El) as (_ & Eps & _ & Et & _). split; [done|].
  split; [by eapply (frame_lookup _ vt st s st1)|]. exists s. split; [done|]. cbn. by rewrite Eps.
Qed.

(** The entry of a push. *)
Lemma push_step t st st' : happen (EvPush t) st = Some st' ->
  exists p s c, q_pushes st !! t = Some p /\ ps_phase p = HasSlot s /\ q_cells st !! s = Some c /\
    q_table st' = q_table st /\ q_max st' = q_max st /\ q_cells st' = alter (push_cell (ps_msg p)) s (q_cells st) /\
    frame (eq s) st st' /\
    q_pushes st' = <[t := {| ps_vtoken := ps_vtoken p; ps_msg := ps_msg p;
                             ps_phase := Pushed (slot_push (cl_slot c) (ps_msg p)).1 |}]> (q_pushes st).
Proof.
  cbn [happen]. destruct (q_pushes st !! t) as [p|]; [|done]. cbn. destruct (ps_phase p) as [s|] eqn:Eph; [|done].
  destruct (q_cells st !! s) as [c|] eqn:Ec; [|done]. cbn. intros [= <-]. exists p, s, c. split_and!; try done.
  eapply frame_cell; try done; [apply push_cell_vtoken|by left].
Qed.

Lemma push_keeps_polls t st st' : happen (EvPush t) st = Some st' -> q_polls st' = q_polls st.
Proof.
  cbn [happen]. destruct (q_pushes st !! t) as [p|]; [|done]. cbn. destruct (ps_phase p) as [s|]; [|done].
  destruct (q_cells st !! s); [|done]. by intros [= <-].
Qed.

Lemma remove_step vt st st' : happen (EvRemove vt) st = Some st' ->
  q_pushes st' = q_pushes st /\ q_next st' = q_next st /\ q_cells st' = q_cells st /\ q_table st' = delete vt (q_table st).
Proof. by intros [= <-]. Qed.

Lemma pinv_frame T st st' : qinv st -> frame T st st' -> pinv st ->
  forall t p s, q_pushes st !! t = Some p -> ps_phase p = HasSlot s ->
  exists c, q_cells st' !! s = Some c /\ cl_vtoken c = ps_vtoken p.
Proof.
  intros Hi Hf Hp t p s Et Es. destruct (Hp t p s Et Es) as (c & Ec & <-).
  destruct (fr_cells _ _ _ Hf s c) as (c' & Ec' & Hv & _); [apply (qi_next _ Hi); by eexists|done|eauto].
Qed.

Lemma event_cases e : quiet e \/ (exists t vt m, e = EvLookup t vt m) \/ (exists t, e = EvPush t) \/ exists vt, e = EvRemove vt.
Proof. destruct e; cbn; eauto 7. Qed.

Ltac event_cases e := destruct (event_cases e) as [Hq|[(u & vt & m & ->)|[(u & ->)|(vt & ->)]]].

Lemma pinv_step e st st' : qinv st -> pinv st -> happen e st = Some st' -> pinv st'.
Proof.
  intros Hi Hp He. event_cases e.
  - destruct (quiet_step e st st' Hq He) as [Eps Hf]. intros t p s. rewrite Eps. by apply (pinv_frame _ st st' Hi Hf).
  - assert (Hi' : qinv st') by (by eapply happen_inv). destruct (lookup_step u vt m st st' He) as (_ & Hf & s & Et & Eps).
    intros t p s1. rewrite Eps. destruct (decide (t = u)) as [->|Hne].
    + rewrite lookup_insert_eq. intros [= <-] [= <-]. by apply (qi_live _ Hi').
    + rewrite lookup_insert_ne by done. by apply (pinv_frame _ st st' Hi Hf).
  - destruct (push_step u st st' He) as (p & s & c & _ & _ & _ & _ & _ & _ & Hf & Eps). intros t p1 s1. rewrite Eps.
    destruct (decide (t = u)) as [->|Hne]; [rewrite lookup_insert_eq; by intros [= <-]|].
    rewrite lookup_insert_ne by done. by apply (pinv_frame _ st st' Hi Hf).
  - destruct (remove_step vt st st' He) as (Eps & _ & Ec & _). intros t p s. rewrite Eps, Ec. apply Hp.
Qed.

Lemma pinv_new max : pinv (QState_new max).
Proof. intros t p s. cbn. by rewrite lookup_empty. Qed.

(** What a push has returned stays. *)
Lemma returned_step e st st' t : happen e st = Some st' -> returned t st <> [] -> returned t st' = returned t st.
Proof.
  intros He Hr. unfold returned in *. event_cases e.
  - by destruct (quiet_step e st st' Hq He) as [-> _].
  - destruct (lookup_step u vt m st st' He) as (Hn & _ & s & _ & ->). rewrite lookup_insert_ne; [done|].
    intros <-. by rewrite Hn in Hr.
  - destruct (push_step u st st' He) as (p & s & c & Hu & Hph & _ & _ & _ & _ & _ & ->). rewrite lookup_insert_ne; [done|].
    intros <-. rewrite Hu in Hr. destruct p. cbn in Hph. by subst.
  - by destruct (remove_step vt st st' He) as [-> _].
Qed.

Lemma returned_run es st st' t : run_events es st = Some st' -> returned t st <> [] -> returned t st' = returned t st.
Proof.
  revert st. induction es as [|e es IH]; intros st; cbn; [by intros [= <-]|].
  destruct (happen e st) as [st1|] eqn:He; [|done]. cbn. intros Hrun Hr. pose proof (returned_step e st st1 t He Hr) as E.
  rewrite (IH st1 Hrun); congruence.
Qed.

(** What a long-poll has returned is what it showed. *)
Lemma answered_after st st' u o t : q_polls st' = polls_after u o st -> answered u st = [] ->
  (forall p b, o = Some p -> pl_phase p = Answered b -> u <> t) -> answered t st' = answered t st.
Proof.
  intros E Hu Ho. unfold answered in *. rewrite E, polls_after_lookup. case_decide as Hd; [|done]. subst u.
  rewrite Hu. destruct o as [[v a ph]|]; [|done]. destruct ph as [| | |b]; try done. by destruct (Ho _ b eq_refl eq_refl).
Qed.

Lemma unanswered t p st : q_polls st !! t = Some p -> (forall b, pl_phase p <> Answered b) -> answered t st = [].
Proof. intros E Hp. unfold answered. rewrite E. destruct p as [v a [| | |b]]; try done. by destruct (Hp b). Qed.

Lemma answered_step e es st st' t : happen e st = Some st' -> answered t st' = answered t st ++ polls_of t (shows e es st st').
Proof.
  intros He. destruct (waits e) eqn:Hw.
  { destruct (wait_step e st st' Hw He) as (u & p & o & [Ep Hopen Hnext Eps _ _]).
    assert (E0 : polls_of t (shows e es st st') = []) by (by destruct e). rewrite E0, app_nil_r.
    eapply answered_after; [exact Eps|by eapply unanswered|]. intros p' b -> Hb. by destruct Hnext as (_ & _ & []%(fun H => H b)). }
  destruct e as [u vt m|u|u vt ack|u vt ack| | | | |u|vt]; try done; cbn [shows]; cbn [happen] in He.
  - destruct (q_pushes st !! u); [done|]. destruct (lookup_slot vt st) as [s st1] eqn:El. injection He as <-.
    rewrite app_nil_r. unfold answered. cbn. by destruct (lookup_slot_cells _ _ _ _ El) as (-> & _).
  - assert (Hn : polls_of t (if in_table u st then returned u st' else []) = [])
      by (destruct (in_table u st); [apply polls_of_returned|done]).
    rewrite Hn, app_nil_r. unfold answered. by rewrite (push_keeps_polls u st st' He).
  - destruct (q_polls st !! u) eqn:Ep; [done|]. destruct (lookup_slot vt st) as [s st1] eqn:El. injection He as <-.
    rewrite app_nil_r. eapply (answered_after _ _ u (Some _)); [|unfold answered; by rewrite Ep|].
    + cbn. by destruct (lookup_slot_cells _ _ _ _ El) as (-> & _).
    + by intros p b [= <-].
  - destruct (q_polls st !! u) eqn:Ep; [done|]. injection He as <-.
    rewrite app_nil_r. eapply (answered_after _ _ u (Some _)); [done|unfold answered; by rewrite Ep|by intros p b [= <-]].
  - destruct (q_polls st !! u) as [p|] eqn:Ep; [|done]. cbn in He. destruct (pl_phase p) eqn:Eph; [done..| |done].
    assert (Hu : answered u st = []) by (eapply unanswered; [done|congruence]).
    assert (Ho : exists p', q_polls st' = polls_after u (Some p') st)
      by (destruct (q_table st !! pl_vtoken p ≫= _) as [[s c]|]; injection He as <-; by eexists).
    destruct Ho as (p' & Ho). rewrite polls_of_answered. case_decide as Hd; [subst u; by rewrite Hu|].
    rewrite app_nil_r. by eapply answered_after.
  - assert (E : q_polls st' = q_polls st) by (by injection He as <-).
    assert (Hn : polls_of t (match q_table st !! vt with Some s => late s es st' | None => [] end ++ [(CallRemove vt, Done)]) = []).
    { rewrite polls_of_app. destruct (q_table st !! vt); [|done]. by rewrite polls_of_late. }
    rewrite Hn, app_nil_r. unfold answered. by rewrite E.
Qed.

Lemma answered_run es st st' t : run_events es st = Some st' -> answered t st' = answered t st ++ polls_of t (history es st).
Proof.
  revert st. induction es as [|e es IH]; intros st; cbn [run_events history]; [intros [= <-]; by rewrite app_nil_r|].
  destruct (happen e st) as [st1|] eqn:He; [|done]. cbn [mbind option_bind]. intros Hrun.
  rewrite (IH st1 Hrun), (answered_step e es st st1 t He), polls_of_app. by rewrite (assoc_L (++)).
Qed.

(** *** Slots that were removed *)

Definition detached (s : nat) (st : QState) : Prop := (s < q_next st)%nat /\ ~ in_use st s.

Lemma detached_frame T st st' s : frame T st st' -> detached s st -> detached s st'.
Proof.
  intros Hf [Hlt Hd]. split; [pose proof (fr_next _ _ _ Hf); lia|]. intros [v Hv]. apply Hd. exists v. by apply (fr_table _ _ _ Hf).
Qed.

Lemma detached_step e st st' s : happen e st = Some st' -> detached s st -> detached s st'.
Proof.
  intros He Hd. event_cases e.
  - destruct (quiet_step e st st' Hq He) as [_ Hf]. by eapply detached_frame.
  - destruct (lookup_step u vt m st st' He) as (_ & Hf & _). by eapply detached_frame.
  - destruct (push_step u st st' He) as (p & s0 & c & _ & _ & _ & _ & _ & _ & Hf & _). by eapply detached_frame.
  - destruct (remove_step vt st st' He) as (_ & En & _ & Et). destruct Hd as [Hlt Hd]. split; [by rewrite En|].
    intros [v Hv]. apply Hd. exists v. rewrite Et in Hv. by apply lookup_delete_Some in Hv as [_ ?].
Qed.

(** Who holds a removed slot does so until it has pushed, and nobody else comes. *)
Lemma holds_detached e st st' t s : happen e st = Some st' -> detached s st -> e <> EvPush t -> holds t s st' = holds t s st.
Proof.
  intros He Hd Hne. unfold holds. event_cases e.
  - by destruct (quiet_step e st st' Hq He) as [-> _].
  - destruct (lookup_step u vt m st st' He) as (Hn & Hf & s0 & Et & ->). destruct (decide (t = u)) as [->|Htu]; [|by rewrite lookup_insert_ne].
    rewrite lookup_insert_eq, Hn. cbn. apply bool_decide_eq_false. intros ->.
    destruct (detached_frame _ _ _ _ Hf Hd) as [_ Hd']. apply Hd'. by exists vt.
  - destruct (push_step u st st' He) as (p & s0 & c & _ & _ & _ & _ & _ & _ & _ & ->). rewrite lookup_insert_ne; [done|congruence].
  - by destruct (remove_step vt st st' He) as [-> _].
Qed.

Lemma holds_pushed t s st : returned t st <> [] -> holds t s st = false.
Proof. unfold returned, holds. by destruct (q_pushes st !! t) as [[vt m []]|]. Qed.

Lemma push_returned t st st' : happen (EvPush t) st = Some st' -> returned t st' <> [].
Proof.
  intros (p & s & c & _ & _ & _ & _ & _ & _ & _ & E)%push_step. unfold returned. by rewrite E, lookup_insert_eq.
Qed.

#[local] Instance is_push_dec e t : Decision (e = EvPush t).
Proof. destruct e as [|u| | | | | | | |]; try (right; congruence). destruct (decide (u = t)); [left|right]; congruence. Defined.

(** Each of them shows once, with what it returned. *)
Lemma late_pushes s es st stf t : detached s st -> run_events es st = Some stf ->
  pushes_of t (late s es st) = if holds t s st then returned t stf else [].
Proof.
  revert st. induction es as [|e es IH]; intros st Hd; cbn [run_events late].
  { intros [= <-]. destruct (holds t s st) eqn:Eh; [|done]. destruct (returned t st) eqn:Er; [done|].
    rewrite holds_pushed in Eh; [done|congruence]. }
  destruct (happen e st) as [st1|] eqn:He; [|done]. cbn [mbind option_bind]. intros Hrun.
  rewrite pushes_of_app, (IH st1 (detached_step e st st1 s He Hd) Hrun).
  destruct (decide (e = EvPush t)) as [->|Hne].
  - pose proof (push_returned t st st1 He) as Hr. rewrite (holds_pushed t s st1 Hr), app_nil_r.
    destruct (holds t s st); [|done]. rewrite pushes_of_returned, decide_True by done. symmetry. by apply (returned_run es).
  - rewrite (holds_detached e st st1 t s He Hd Hne). replace (pushes_of t _) with (@nil (Call * Answer)); [done|].
    destruct e; try done. destruct (holds _ _ _); [|done]. rewrite pushes_of_returned, decide_False; [done|congruence].
Qed.

Lemma push_some q vt sl m : slots q !! vt = Some sl -> push q vt m = (Ok (slot_push sl m).1, set_slot q vt (slot_push sl m).2).
Proof. intros E. unfold push, get_or_create. rewrite E. cbn. by destruct (slot_push sl m). Qed.

Lemma set_slot_twice q vt s1 s2 : set_slot (set_slot q vt s1) vt s2 = set_slot q vt s2.
Proof. unfold set_slot. cbn. by rewrite insert_insert_eq. Qed.

(** The trait's [push] gives the same verdicts on a queue where the slot is as it was when
    it was removed. *)
Lemma late_serves s es st stf c q : qinv st -> pinv st -> detached s st -> q_cells st !! s = Some c ->
  slots q !! cl_vtoken c = Some (cl_slot c) -> run_events es st = Some stf ->
  exists sl, serves (map fst (late s es st)) q = (map snd (late s es st), set_slot q (cl_vtoken c) sl).
Proof.
  revert st c q. induction es as [|e es IH]; intros st c q Hi Hp Hd Ec Eq; cbn [run_events late].
  { intros _. exists (cl_slot c). by rewrite set_same_slot. }
  destruct (happen e st) as [st1|] eqn:He; [|done]. cbn [mbind option_bind]. intros Hrun.
  pose proof (happen_inv e st st1 Hi He) as Hi1. pose proof (pinv_step e st st1 Hi Hp He) as Hp1.
  pose proof (detached_step e st st1 s He Hd) as Hd1.
  assert (Hskip : forall T, frame T st st1 -> ~ T s ->
            exists sl, serves (map fst (late s es st1)) q = (map snd (late s es st1), set_slot q (cl_vtoken c) sl)).
  { intros T Hf HT. destruct (fr_cells _ _ _ Hf s c (proj1 Hd) Ec) as (c1 & Ec1 & Hv & Es). rewrite <- Hv.
    apply (IH st1); try done. by rewrite Hv, Es. }
  event_cases e.
  - destruct (quiet_step e st st1 Hq He) as [_ Hf]. destruct e; try done; by apply (Hskip _ Hf), (proj2 Hd).
  - destruct (lookup_step u vt m st st1 He) as (_ & Hf & _). by apply (Hskip _ Hf), (proj2 Hd).
  - destruct (push_step u st st1 He) as (p & s0 & c0 & Hu & Hph & Ec0 & _ & _ & Ecs & Hf & Eps).
    assert (Eh : holds u s st = bool_decide (s0 = s)) by (unfold holds; by rewrite Hu, Hph). rewrite Eh.
    case_bool_decide as Hs; [subst s0|by apply (Hskip _ Hf)].
    assert (c0 = c) as -> by congruence. destruct (Hp u p s Hu Hph) as (c1 & Ec1 & Hv). assert (c1 = c) as -> by congruence.
    assert (Er : returned u st1 = [(CallPush u (ps_vtoken p) (ps_msg p), Verdict (Ok (slot_push (cl_slot c) (ps_msg p)).1))])
      by (unfold returned; by rewrite Eps, lookup_insert_eq).
    rewrite Er. cbn [map fst snd app serves serve].
    rewrite <- Hv, (push_some q _ (cl_slot c) (ps_msg p) Eq). set (q1 := set_slot q _ _).
    destruct (IH st1 (push_cell (ps_msg p) c) q1 Hi1 Hp1 Hd1) as (sl & E); [by rewrite Ecs, lookup_alter_eq, Ec| |done|].
    { rewrite push_cell_vtoken, push_cell_slot. unfold q1. cbn. apply lookup_insert_eq. }
    exists sl. rewrite E, push_cell_vtoken. unfold q1. by rewrite set_slot_twice.
  - destruct (remove_step vt st st1 He) as (_ & _ & Ec1 & _). apply (IH st1); try done. by rewrite Ec1.
Qed.

(** *** The history of a run *)

(** A push that has not been made, or holds a slot that is in the table. *)
Definition outstanding (t : nat) (st : QState) : bool :=
  match q_pushes st !! t with None => true | Some _ => in_table t st end.

Lemma in_table_frame T t st st' : qinv st -> pinv st -> frame T st st' -> q_pushes st' !! t = q_pushes st !! t ->
  in_table t st' = in_table t st.
Proof.
  intros Hi Hp Hf E. unfold in_table. rewrite E. destruct (q_pushes st !! t) as [p|] eqn:Et; [|done].
  destruct (ps_phase p) as [s|] eqn:Es; [|done]. apply bool_decide_ext, (fr_table _ _ _ Hf), (qi_next _ Hi).
  destruct (Hp t p s Et Es) as (c & Ec & _). by eexists.
Qed.

Lemma outstanding_frame T t st st' : qinv st -> pinv st -> frame T st st' -> q_pushes st' !! t = q_pushes st !! t ->
  outstanding t st' = outstanding t st.
Proof. intros Hi Hp Hf E. unfold outstanding. by rewrite E, (in_table_frame T t st st'). Qed.

Lemma in_table_pushed t st : returned t st <> [] -> in_table t st = false /\ outstanding t st = false.
Proof. unfold returned, outstanding, in_table. by destruct (q_pushes st !! t) as [[vt m []]|]. Qed.

(** A removal takes the slot of its token out of the table, and nothing else. *)
Lemma outstanding_remove vt st st' t : happen (EvRemove vt) st = Some st' -> qinv st -> pinv st ->
  outstanding t st' = outstanding t st && negb (match q_table st !! vt with Some s => holds t s st | None => false end).
Proof.
  intros (Eps & _ & _ & Et)%remove_step Hi Hp. unfold outstanding, in_table, holds. rewrite Eps.
  destruct (q_pushes st !! t) as [p|] eqn:Ep; [|by destruct (q_table st !! vt)].
  destruct (ps_phase p) as [s|] eqn:Es; [|done]. rewrite Et. destruct (decide (ps_vtoken p = vt)) as [<-|Hne].
  - rewrite lookup_delete_eq. destruct (q_table st !! ps_vtoken p) as [s1|] eqn:Es1; [|done].
    rewrite (bool_decide_false (None = _)) by done. destruct (decide (s = s1)) as [->|Hs]; [by rewrite !bool_decide_true|].
    rewrite bool_decide_false by congruence. by rewrite bool_decide_false.
  - rewrite lookup_delete_ne by done. destruct (q_table st !! vt) as [s1|] eqn:Es1; [|by rewrite andb_true_r].
    rewrite (bool_decide_false (s = s1)); [by rewrite andb_true_r|]. intros ->. destruct (Hp t p s1 Ep Es) as (c & Ec & Hv).
    destruct (qi_live _ Hi vt s1 Es1) as (c1 & Ec1 & Hv1). congruence.
Qed.

Lemma remove_detached vt st st' s : happen (EvRemove vt) st = Some st' -> qinv st -> q_table st !! vt = Some s -> detached s st'.
Proof.
  intros (_ & En & _ & Et)%remove_step Hi Es. destruct (qi_live _ Hi vt s Es) as (c & Ec & Hv). split.
  - rewrite En. apply (qi_next _ Hi). by eexists.
  - intros [v Hv1]. rewrite Et in Hv1. apply lookup_delete_Some in Hv1 as [Hne Hv1].
    destruct (qi_live _ Hi v s Hv1) as (c1 & Ec1 & Hv2). congruence.
Qed.

(** Each push that returns shows once in the history, with its arguments and its verdict. *)
Lemma history_pushes es st stf t : qinv st -> pinv st -> run_events es st = Some stf ->
  pushes_of t (history es st) = if outstanding t st then returned t stf else [].
Proof.
  revert st. induction es as [|e es IH]; intros st Hi Hp; cbn [run_events history].
  { intros [= <-]. destruct (outstanding t st) eqn:Eo; [|done]. destruct (returned t st) eqn:Er; [done|].
    destruct (in_table_pushed t st) as [_ E]; congruence. }
  destruct (happen e st) as [st1|] eqn:He; [|done]. cbn [mbind option_bind]. intros Hrun.
  rewrite pushes_of_app, (IH st1 (happen_inv e st st1 Hi He) (pinv_step e st st1 Hi Hp He) Hrun).
  event_cases e.
  - destruct (quiet_step e st st1 Hq He) as [Eps Hf]. rewrite (outstanding_frame _ t st st1 Hi Hp Hf) by (by rewrite Eps).
    destruct e; try done. cbn [shows]. by rewrite pushes_of_answered.
  - destruct (lookup_step u vt m st st1 He) as (Hn & Hf & s & Et & Eps). destruct (decide (t = u)) as [->|Hne].
    + unfold outstanding, in_table. rewrite Hn, Eps, lookup_insert_eq. cbn [ps_phase ps_vtoken]. by rewrite Et, bool_decide_true.
    + rewrite (outstanding_frame _ t st st1 Hi Hp Hf); [done|]. by rewrite Eps, lookup_insert_ne.
  - destruct (push_step u st st1 He) as (p & s & c & Hu & _ & _ & _ & _ & _ & Hf & Eps).
    cbn [shows]. destruct (decide (t = u)) as [->|Hne].
    + pose proof (push_returned u st st1 He) as Hr. destruct (in_table_pushed u st1 Hr) as [_ ->].
      unfold outstanding. rewrite Hu, app_nil_r, (returned_run es st1 stf u Hrun Hr).
      destruct (in_table u st); [|done]. by rewrite pushes_of_returned, decide_True.
    + rewrite (outstanding_frame _ t st st1 Hi Hp Hf) by (by rewrite Eps, lookup_insert_ne).
      destruct (in_table u st); [|done]. by rewrite pushes_of_returned, decide_False.
  - rewrite (outstanding_remove vt st st1 t He Hi Hp). cbn [shows]. rewrite pushes_of_app, app_nil_r.
    destruct (q_table st !! vt) as [s|] eqn:Es; [|by rewrite andb_true_r].
    rewrite (late_pushes s es st1 stf t (remove_detached vt st st1 s He Hi Es) Hrun).
    destruct (remove_step vt st st1 He) as (Eps & _). assert (Eh : holds t s st1 = holds t s st) by (unfold holds; by rewrite Eps).
    rewrite Eh. destruct (holds t s st) eqn:Ehs; cbn [negb]; [|by rewrite andb_true_r]. rewrite andb_false_r, app_nil_r.
    assert (Eo : outstanding t st = true); [|by rewrite Eo]. unfold outstanding, in_table, holds in *.
    destruct (q_pushes st !! t) as [p|] eqn:Ep; [|done]. destruct (ps_phase p) as [s1|] eqn:Eph; [|done].
    apply bool_decide_eq_true in Ehs as ->. destruct (Hp t p s Ep Eph) as (c & Ec & <-).
    destruct (qi_live _ Hi vt s Es) as (c1 & Ec1 & <-). apply bool_decide_eq_true. congruence.
Qed.

(** A read is the trait's [poll], result included. *)
Lemma poll_linear st st' t : qinv st -> happen (EvPoll t) st = Some st' ->
  serves (map fst (answered t st')) (abs st) = (map snd (answered t st'), abs st').
Proof.
  intros Hi. cbn [happen]. destruct (q_polls st !! t) as [p|] eqn:Ep; [|done]. cbn [mbind option_bind].
  destruct (pl_phase p); [done..| |done]. unfold answered.
  destruct (q_table st !! pl_vtoken p) as [s|] eqn:Et; cbn [mbind option_bind].
  - destruct (qi_live _ Hi _ _ Et) as (c & Ec & Hv). rewrite Ec. cbn [mbind option_bind]. intros [= <-].
    rewrite (abs_eq (on_cell s (poll_cell (pl_ack p)) st) (set_phase t p _ _)) by done.
    cbn [q_polls set_phase set_polls]. rewrite lookup_insert_eq. cbn [map fst snd serves serve]. unfold poll.
    rewrite abs_lookup, Et. cbn [mbind option_bind]. rewrite Ec. cbn [fmap option_fmap option_map].
    rewrite (abs_on_cell st s c _ Hi Ec), Hv, decide_True by done. cbn [cl_slot poll_cell].
    reflexivity.
  - intros [= <-]. cbn [q_polls set_phase set_polls]. rewrite lookup_insert_eq. cbn [map fst snd serves serve]. unfold poll.
    rewrite abs_lookup, Et. done.
Qed.

(** An entry into a slot of the table is the trait's [push], result included; one into a
    removed slot does not show in the table. *)
Lemma push_linear st st' t : qinv st -> pinv st -> happen (EvPush t) st = Some st' ->
  let h := if in_table t st then returned t st' else [] in
  serves (map fst h) (abs st) = (map snd h, abs st').
Proof.
  intros Hi Hp He. destruct (push_step t st st' He) as (p & s & c & Ht & Hph & Ec & Etb & Em & Ecs & _ & Eps).
  destruct (Hp t p s Ht Hph) as (c1 & Ec1 & Hv). assert (c1 = c) as -> by congruence.
  rewrite (abs_eq (on_cell s (push_cell (ps_msg p)) st) st') by done. rewrite (abs_on_cell st s c _ Hi Ec), Hv.
  unfold in_table, returned. rewrite Ht, Hph, Eps, lookup_insert_eq. cbn [ps_vtoken ps_msg ps_phase].
  case_decide as Hd; [rewrite bool_decide_true by done|by rewrite bool_decide_false]. cbn [map fst snd serves serve].
  assert (Es : slots (abs st) !! ps_vtoken p = Some (cl_slot c)) by (rewrite abs_lookup, Hd; cbn; by rewrite Ec).
  by rewrite (push_some _ _ _ _ Es), push_cell_slot.
Qed.

Lemma abs_remove vt st st' : happen (EvRemove vt) st = Some st' -> abs st' = (remove_client (abs st) vt).2.
Proof.
  intros [= <-]. unfold remove_client, abs. cbn. f_equal. apply map_eq. intros v.
  rewrite lookup_omap, !lookup_delete. case_decide; [done|]. by rewrite lookup_omap.
Qed.

Lemma remove_linear vt es st st' stf : qinv st -> pinv st -> happen (EvRemove vt) st = Some st' -> run_events es st' = Some stf ->
  let h := shows (EvRemove vt) es st st' in serves (map fst h) (abs st) = (map snd h, abs st').
Proof.
  intros Hi Hp He Hrun. cbn [shows]. rewrite (abs_remove vt st st' He).
  destruct (q_table st !! vt) as [s|] eqn:Es; [|done]. destruct (qi_live _ Hi vt s Es) as (c & Ec & Hv).
  destruct (remove_step vt st st' He) as (_ & _ & Ecs & _).
  destruct (late_serves s es st' stf c (abs st)) as (sl & E); try done.
  - by eapply happen_inv.
  - by eapply pinv_step.
  - by eapply remove_detached.
  - by rewrite Ecs.
  - by rewrite Hv, abs_lookup, Es; cbn; rewrite Ec.
  - eapply serves_history; [exact E|]. cbn. rewrite Hv. unfold remove_client, set_slot. cbn. by rewrite delete_insert_eq.
Qed.

Lemma shows_serves e es st st' stf : qinv st -> pinv st -> happen e st = Some st' -> run_events es st' = Some stf ->
  let h := shows e es st st' in serves (map fst h) (abs st) = (map snd h, abs st').
Proof.
  intros Hi Hp He Hrun. destruct (waits e) eqn:Hw.
  { destruct (wait_step e st st' Hw He) as (u & p & o & [_ _ _ _ (_ & Et & _ & Em) Ec]).
    assert (Ea : abs st' = abs st).
    { destruct Ec as [Ec|(s & f & Ec)]; [by apply abs_eq|].
      rewrite (abs_eq (on_cell s (on_notify f) st) st') by done. by apply abs_on_notify. }
    rewrite Ea. by destruct e. }
  destruct e as [t vt m|t|t vt ack|t vt ack| | | | |t|vt]; try done;
    [|by apply push_linear| | |by apply poll_linear|by eapply remove_linear]; cbn [happen] in He; cbn [shows map fst snd serves serve].
  - destruct (q_pushes st !! t); [done|]. destruct (lookup_slot vt st) as [s st1] eqn:El. injection He as <-.
    by rewrite (abs_eq st1 (set_pushes _ st1)), (abs_lookup_slot vt st s st1 true).
  - destruct (q_polls st !! t); [done|]. destruct (lookup_slot vt st) as [s st1] eqn:El. injection He as <-.
    by rewrite (abs_eq st1 (set_polls _ st1)), (abs_lookup_slot vt st s st1 true).
  - destruct (q_polls st !! t); [done|]. by injection He as <-.
Qed.

Lemma history_serves es st stf : qinv st -> pinv st -> run_events es st = Some stf ->
  serves (map fst (history es st)) (abs st) = (map snd (history es st), abs stf).
Proof.
  revert st. induction es as [|e es IH]; intros st Hi Hp; cbn [run_events history]; [by intros [= <-]|].
  destruct (happen e st) as [st1|] eqn:He; [|done]. cbn [mbind option_bind]. intros Hrun.
  eapply serves_history; [by eapply shows_serves|]. apply IH; [by eapply happen_inv|by eapply pinv_step|done].
Qed.

(** *** Arguments and order *)

Lemma run_app es1 es2 st st' : run_events (es1 ++ es2) st = Some st' ->
  exists st1, run_events es1 st = Some st1 /\ run_events es2 st1 = Some st'.
Proof.
  revert st. induction es1 as [|e es1 IH]; intros st; cbn; [eauto|]. destruct (happen e st) as [st1|]; [|done]. cbn. apply IH.
Qed.

Lemma history_app es1 es2 st st1 : run_events es1 st = Some st1 -> exists h1, history (es1 ++ es2) st = h1 ++ history es2 st1.
Proof.
  revert st. induction es1 as [|e es1 IH]; intros st; cbn [app run_events history]; [intros [= <-]; by exists []|].
  destruct (happen e st) as [st2|]; [|done]. cbn [mbind option_bind]. intros (h1 & ->)%IH.
  exists (shows e (es1 ++ es2) st st2 ++ h1). by rewrite (assoc_L (++)).
Qed.

(** A push works with the token and the message it was called with. *)
Lemma push_args e st st' t p : happen e st = Some st' -> q_pushes st' !! t = Some p ->
  (exists p0, q_pushes st !! t = Some p0 /\ ps_vtoken p0 = ps_vtoken p /\ ps_msg p0 = ps_msg p) \/
  e = EvLookup t (ps_vtoken p) (ps_msg p).
Proof.
  intros He Ep. event_cases e.
  - destruct (quiet_step e st st' Hq He) as [E _]. rewrite E in Ep. eauto.
  - destruct (lookup_step u vt m st st' He) as (_ & _ & s & _ & E). rewrite E in Ep.
    apply lookup_insert_Some in Ep as [[<- <-]|[_ Ep]]; [by right|eauto].
  - destruct (push_step u st st' He) as (p0 & s & c & Hu & _ & _ & _ & _ & _ & _ & E). rewrite E in Ep.
    apply lookup_insert_Some in Ep as [[<- <-]|[_ Ep]]; eauto.
  - destruct (remove_step vt st st' He) as [E _]. rewrite E in Ep. eauto.
Qed.

Lemma pushes_invoked es st st' t p : run_events es st = Some st' -> q_pushes st' !! t = Some p ->
  (exists p0, q_pushes st !! t = Some p0 /\ ps_vtoken p0 = ps_vtoken p /\ ps_msg p0 = ps_msg p) \/
  EvLookup t (ps_vtoken p) (ps_msg p) ∈ es.
Proof.
  revert st. induction es as [|e es IH]; intros st; cbn; [intros [= <-]; eauto|].
  destruct (happen e st) as [st1|] eqn:He; [|done]. cbn. intros Hrun Ep. destruct (IH st1 Hrun Ep) as [(p1 & Ep1 & <- & <-)|Hin].
  - destruct (push_args e st st1 t p1 He Ep1) as [?|<-]; [by left|]. right. apply list_elem_of_here.
  - right. by apply list_elem_of_further.
Qed.

Lemma pushes_entered es st st' t : run_events es st = Some st' -> EvPush t ∈ es -> returned t st' <> [].
Proof.
  revert st. induction es as [|e es IH]; intros st; cbn; [by intros _ ?%not_elem_of_nil|].
  destruct (happen e st) as [st1|] eqn:He; [|done]. cbn. intros Hrun [<-|Hin]%elem_of_cons; [|by eapply IH].
  pose proof (push_returned t st st1 He) as Hr. by rewrite (returned_run es st1 st' t Hrun Hr).
Qed.

(** A long-poll works with the token and the cursor it was called with. *)
Lemma poll_args e st st' t p : happen e st = Some st' -> q_polls st' !! t = Some p ->
  (exists p0, q_polls st !! t = Some p0 /\ pl_vtoken p0 = pl_vtoken p /\ pl_ack p0 = pl_ack p) \/
  e = EvWait t (pl_vtoken p) (pl_ack p) \/ e = EvSkip t (pl_vtoken p) (pl_ack p).
Proof.
  intros He Ep. destruct (waits e) eqn:Hw.
  { left. destruct (wait_step e st st' Hw He) as (u & p0 & o & [Eu _ Hnext Eps _ _]).
    rewrite Eps, polls_after_lookup in Ep. case_decide; [|eauto]. subst. destruct Hnext as (Ev & Ea & _). by exists p0. }
  destruct e as [u vt m|u|u vt ack|u vt ack| | | | |u|vt]; try done; cbn [happen] in He.
  - destruct (q_pushes st !! u); [done|]. destruct (lookup_slot vt st) as [s st1] eqn:El. injection He as <-.
    left. cbn in Ep. destruct (lookup_slot_cells _ _ _ _ El) as (E & _). rewrite E in Ep. eauto.
  - left. rewrite (push_keeps_polls u st st' He) in Ep. eauto.
  - destruct (q_polls st !! u); [done|]. destruct (lookup_slot vt st) as [s st1] eqn:El. injection He as <-. cbn in Ep.
    destruct (lookup_slot_cells _ _ _ _ El) as (E & _). rewrite E in Ep.
    apply lookup_insert_Some in Ep as [[<- <-]|[_ Ep]]; [right; by left|eauto].
  - destruct (q_polls st !! u); [done|]. injection He as <-. cbn in Ep.
    apply lookup_insert_Some in Ep as [[<- <-]|[_ Ep]]; [right; by right|eauto].
  - left. destruct (q_polls st !! u) as [p1|] eqn:Eu; [|done]. cbn in He. destruct (pl_phase p1); [done..| |done].
    destruct (q_table st !! pl_vtoken p1 ≫= _) as [[s c]|]; injection He as <-; cbn in Ep;
      apply lookup_insert_Some in Ep as [[<- <-]|[_ Ep]]; eauto.
  - left. injection He as <-. eauto.
Qed.

Lemma polls_invoked es st st' t p : run_events es st = Some st' -> q_polls st' !! t = Some p ->
  (exists p0, q_polls st !! t = Some p0 /\ pl_vtoken p0 = pl_vtoken p /\ pl_ack p0 = pl_ack p) \/
  EvWait t (pl_vtoken p) (pl_ack p) ∈ es \/ EvSkip t (pl_vtoken p) (pl_ack p) ∈ es.
Proof.
  revert st. induction es as [|e es IH]; intros st; cbn; [intros [= <-]; eauto|].
  destruct (happen e st) as [st1|] eqn:He; [|done]. cbn. intros Hrun Ep. rewrite !elem_of_cons.
  destruct (IH st1 Hrun Ep) as [(p1 & Ep1 & <- & <-)|Hin]; [|naive_solver].
  destruct (poll_args e st st1 t p1 He Ep1) as [?|[<-|<-]]; auto.
Qed.

Lemma events_inv es st st' : qinv st -> pinv st -> run_events es st = Some st' -> qinv st' /\ pinv st'.
Proof.
  revert st. induction es as [|e es IH]; intros st Hi Hp; cbn; [by intros [= <-]|].
  destruct (happen e st) as [st1|] eqn:He; [|done]. cbn. apply IH; [by eapply happen_inv|by eapply pinv_step].
Qed.

(** The history keeps the order of calls that do not overlap: what had returned at some
    moment stands before it, what had not been called stands after. *)
Lemma history_order max es1 es2 st1 st h1 : run_events es1 (QState_new max) = Some st1 -> run_events es2 st1 = Some st ->
  history (es1 ++ es2) (QState_new max) = h1 ++ history es2 st1 -> run_events (es1 ++ es2) (QState_new max) = Some st -> forall t,
  (returned t st1 <> [] -> pushes_of t h1 = returned t st1) /\ (q_pushes st1 !! t = None -> pushes_of t h1 = []) /\
  polls_of t h1 = answered t st1.
Proof.
  intros Hr1 Hr2 Eh Hr t. destruct (events_inv es1 _ st1 (qinv_new max) (pinv_new max) Hr1) as [Hi1 Hp1].
  pose proof (history_pushes _ _ _ t (qinv_new max) (pinv_new max) Hr) as Ep. rewrite Eh, pushes_of_app, (history_pushes es2 st1 st t Hi1 Hp1 Hr2) in Ep.
  change (outstanding t (QState_new max)) with (match (∅ : gmap nat Pusher) !! t with None => true | Some _ => in_table t (QState_new max) end) in Ep.
  rewrite lookup_empty in Ep.
  pose proof (answered_run _ _ _ t Hr) as Ea. rewrite Eh, polls_of_app, (answered_run es2 st1 st t Hr2) in Ea.
  split; [|split].
  - intros Hret. destruct (in_table_pushed t st1 Hret) as [_ Eo]. rewrite Eo, app_nil_r in Ep.
    by rewrite Ep, (returned_run es2 st1 st t Hr2 Hret).
  - intros Hn. unfold outstanding in Ep. rewrite Hn in Ep. by apply (app_inv_tail (returned t st)).
  - assert (E0 : answered t (QState_new max) = []) by (unfold answered; cbn; by rewrite lookup_empty).
    rewrite E0 in Ea. cbn in Ea. apply app_inv_tail in Ea. done.
Qed.

(** (C32) The queue is linearizable. However the atomic steps of pushes, long-polls, removals,
    time-outs, shutdowns and disconnects interleave, the calls of a run have an order in
    which the operations of the trait, run whole and one after the other from the empty
    queue, give every call exactly the answer it got, a push its verdict and a long-poll
    its batch, and end in the map of slots that is there. Each push and each long-poll that
    has returned is in that order exactly once, with the token and the message or cursor
    it was called with, and every push that entered has returned; and the order is that of
    real time: at any moment of the run, the calls that have returned come before it and
    those not yet made come after. Besides the calls the order has the look-ups, which make
    the slot of a token before a message enters or a poll waits; a push whose slot is
    removed while it holds it comes before the removal, with the verdict it got. *)
Theorem queue_linearizable (max : nat) (es : list Event) (st : QState)
    (Hrun : run_events es (QState_new max) = Some st) :
  let h := history es (QState_new max) in
  serves (map fst h) (with_limit max) = (map snd h, abs st) /\
  (forall t, pushes_of t h = returned t st /\ polls_of t h = answered t st) /\
  (forall t p, q_pushes st !! t = Some p -> EvLookup t (ps_vtoken p) (ps_msg p) ∈ es) /\
  (forall t, EvPush t ∈ es -> returned t st <> []) /\
  (forall t p, q_polls st !! t = Some p -> EvWait t (pl_vtoken p) (pl_ack p) ∈ es \/ EvSkip t (pl_vtoken p) (pl_ack p) ∈ es) /\
  (forall es1 es2, es = es1 ++ es2 -> exists st1 h1,
     run_events es1 (QState_new max) = Some st1 /\ h = h1 ++ history es2 st1 /\ forall t,
     (returned t st1 <> [] -> pushes_of t h1 = returned t st1) /\ (q_pushes st1 !! t = None -> pushes_of t h1 = []) /\
     polls_of t h1 = answered t st1).
Proof.
  pose proof (qinv_new max) as Hi. pose proof (pinv_new max) as Hp.
  assert (E0 : abs (QState_new max) = with_limit max) by (unfold abs, with_limit; cbn; by rewrite omap_empty).
  intros h. split; [rewrite <- E0; by apply history_serves|]. split; [intros t; split|split; [|split; [|split]]].
  - unfold h. rewrite (history_pushes es _ st t Hi Hp Hrun). unfold outstanding. cbn. by rewrite lookup_empty.
  - symmetry. unfold h. rewrite (answered_run es _ st t Hrun). unfold answered at 1. cbn. by rewrite lookup_empty.
  - intros t p Et. destruct (pushes_invoked es _ st t p Hrun Et) as [(p0 & E & _)|]; [|done]. cbn in E. by rewrite lookup_empty in E.
  - intros t. by apply (pushes_entered es (QState_new max)).
  - intros t p Et. destruct (polls_invoked es _ st t p Hrun Et) as [(p0 & E & _)|]; [|done]. cbn in E. by rewrite lookup_empty in E.
  - intros es1 es2 ->. destruct (run_app es1 es2 _ st Hrun) as (st1 & Hr1 & Hr2).
    destruct (history_app es1 es2 _ st1 Hr1) as (h1 & Eh). exists st1, h1. split; [done|]. split; [done|].
    by eapply history_order.
Qed.
End Steps.

(** ** A notifier with these laws *)
Module Reference.

(** The permit, and the enrolled tasks with whether they are woken. *)
Record notifier := { permit : bool; tasks : gmap nat bool }.

Definition first_waiting (m : gmap nat bool) : option nat :=
  fst <$> List.find (fun p : nat * bool => negb p.2) (map_to_list m).

Definition wake_one (n : notifier) : notifier :=
  match first_waiting (tasks n) with
  | Some t => {| permit := permit n; tasks := <[t := true]> (tasks n) |}
  | None => {| permit := true; tasks := tasks n |}
  end.

Definition quit (t : nat) (n : notifier) : notifier := {| permit := permit n; tasks := delete t (tasks n) |}.

#[export] Instance notifier_Notify : Notify notifier := {|
  notify_new := {| permit := false; tasks := ∅ |};
  notify_one := wake_one;
  enroll t n := {| permit := false; tasks := <[t := permit n]> (tasks n) |};
  finish := quit;
  withdraw t n := if bool_decide (tasks n !! t = Some true) then wake_one (quit t n) else quit t n;
  has_permit := permit;
  waiting n t := bool_decide (tasks n !! t = Some false);
  notified n t := bool_decide (tasks n !! t = Some true) |}.

Lemma quit_same t n : same_but t n (quit t n).
Proof. intros u Hne. cbn. by rewrite lookup_delete_ne. Qed.

Lemma first_waiting_spec m :
  match first_waiting m with Some t => m !! t = Some false | None => forall t, m !! t <> Some false end.
Proof.
  unfold first_waiting. destruct (List.find _ _) as [[t b]|] eqn:E; cbn.
  - apply find_some in E as [Hin Hb]. apply list_elem_of_In, elem_of_map_to_list in Hin. by destruct b.
  - intros t Ht. eapply find_none in E; [|by apply list_elem_of_In, elem_of_map_to_list]. done.
Qed.

#[export] Instance notifier_laws : NotifyLaws notifier.
Proof.
  split; cbn.
  - split; [done|]. intros t. by rewrite lookup_empty.
  - intros n. unfold wake_one. pose proof (first_waiting_spec (tasks n)) as Hf. destruct (first_waiting (tasks n)) as [t|]; cbn.
    + left. exists t. split; [by apply bool_decide_eq_true|]. split; [done|]. split.
      * intros u Hne. cbn. by rewrite lookup_insert_ne.
      * by rewrite lookup_insert_eq.
    + right. split; [intros t; by apply bool_decide_eq_false|]. split; [done|]. intros t. split; [by apply bool_decide_eq_false|done].
  - intros t n _ _. split; [intros u Hne; cbn; by rewrite lookup_insert_ne|]. rewrite lookup_insert_eq. by destruct (permit n).
  - intros t n _. split; [apply quit_same|]. by rewrite lookup_delete_eq.
  - intros t n Hw%bool_decide_eq_true.
    assert (E : bool_decide (tasks n !! t = Some true) = false) by (apply bool_decide_eq_false; congruence).
    rewrite !E. split; [apply quit_same|]. cbn. by rewrite lookup_delete_eq.
  - intros t n ->. done.
Qed.
End Reference.

(** ** Instances *)

#[local] Existing Instances Reference.notifier_Notify Reference.notifier_laws.

Definition sample_message : WeixinMessage := build_text_reply "c" "hi" "u" 0 0.

Notation sample_state := (@QState Reference.notifier).

Lemma run_reachable (es : list Event) (max : nat) (st st' : sample_state) :
  rtc qstep (QState_new max) st -> run_events es st = Some st' -> rtc qstep (QState_new max) st'.
Proof.
  revert st. induction es as [|e es IH]; intros st Hr; cbn; [by intros [= <-]|].
  destruct (happen e st) as [st1|] eqn:E; [|done]. cbn. apply IH. eapply rtc_r; [exact Hr|]. by exists e.
Qed.

Definition after (es : list Event) : sample_state := unwrap_or (run_events es (QState_new 10)) (QState_new 10).

(** A long-poll waits and a message comes. *)
Definition waits_then_push : list Event :=
  [EvWait 1 "t" None; EvEnroll 1; EvLookup 2 "t" sample_message; EvPush 2].

(** The long-poll that waited is woken, and returns the message. *)
Lemma no_lost_wakeup_witness :
  exists t es b, answers t es (after waits_then_push) b /\ length (msgs b) = 1%nat.
Proof.
  destruct (no_lost_wakeup 10 (after waits_then_push) "t" 0
              (unwrap_or (q_cells (after waits_then_push) !! 0%nat) {| cl_vtoken := ""; cl_slot := slot_new 0; cl_notify := notify_new; cl_fresh := false |}))
    as [(t & p & Hp & _ & es & _ & Ha)|[_ Ha]].
  - apply (run_reachable waits_then_push 10 (QState_new 10)); [apply rtc_refl|]. vm_compute. reflexivity.
  - vm_compute. reflexivity.
  - vm_compute. reflexivity.
  - vm_compute. reflexivity.
  - eexists t, es, _. split; [exact Ha|]. assert (Hq : q_polls (after waits_then_push) = {[ 1%nat := {| pl_vtoken := "t"; pl_ack := None; pl_phase := Enrolled 0 |} ]})
      by (vm_compute; reflexivity).
    rewrite Hq in Hp. apply lookup_singleton_Some in Hp as [_ <-]. vm_compute. reflexivity.
  - eexists 9%nat, _, _. split; [apply (Ha 9%nat None); vm_compute; reflexivity|vm_compute; reflexivity].
Defined.

(** A message is read, another push is caught by the removal of its slot, a last one finds
    the queue full. *)
Definition busy_run : list Event :=
  waits_then_push ++ [EvWake 1; EvPoll 1; EvLookup 3 "t" sample_message; EvRemove "t"; EvLookup 4 "t" sample_message; EvPush 4;
                      EvPush 3; EvLookup 5 "t" sample_message; EvPush 5].

Definition busy_state : sample_state := unwrap_or (run_events busy_run (QState_new 1)) (QState_new 1).

Lemma queue_linearizable_witness :
  let h := history busy_run (QState_new 1 : sample_state) in
  serves (map fst h) (with_limit 1) = (map snd h, abs busy_state) /\
  map fst h = [CallTouch "t"; CallTouch "t"; CallPush 2 "t" sample_message; CallPoll 1 "t" None; CallTouch "t";
               CallPush 3 "t" sample_message; CallRemove "t"; CallTouch "t"; CallPush 4 "t" sample_message;
               CallTouch "t"; CallPush 5 "t" sample_message] /\
  concat (map (fun t => map snd (returned t busy_state)) [2; 3; 4; 5])%nat
  = [Verdict (Ok false); Verdict (Ok true); Verdict (Ok false); Verdict (Ok true)].
Proof.
  split; [|split; vm_compute; reflexivity]. apply (queue_linearizable 1 busy_run busy_state). vm_compute. reflexivity.
Defined.

(** The handler waits before it looks: a batch whose response was lost is not handed out
    again until the next message or the end of the wait. The message is pending, nobody
    is told, and the second long-poll waits. *)
Lemma redelivery_waits :
  let st := after (waits_then_push ++ [EvWake 1; EvPoll 1; EvWait 3 "t" None; EvEnroll 3]) in
  match q_cells st !! 0%nat with
  | Some c => length (Queue.messages (cl_slot c)) = 1%nat /\ waiting (cl_notify c) 3 = true /\
              has_permit (cl_notify c) = false /\ happen (EvWake 3) st = None
  | None => False
  end.
Proof. vm_compute. done. Qed.

(** A push that looked its slot up before the client was removed enters a slot nobody can
    read any more, and reports the message as accepted. *)
Lemma push_into_removed_slot :
  let st := after [EvLookup 2 "t" sample_message; EvRemove "t"; EvPush 2] in
  slots (abs st) !! "t" = None /\
  (fun c => length (Queue.messages (cl_slot c))) <$> q_cells st !! 0%nat = Some 1%nat.
Proof. vm_compute. done. Qed.
