(* ===== verification/Router.v ===== *)
(** * Command parsing and routing ([src/src/hub/router.rs])

    [parse_hub_command] and [parse_at_mention], the per-user routing table and
    the routing decision of an inbound message. The timestamp that names an
    unnamed session is an argument. *)
From S2P Require Import Prelude StrLemmas Types.
From Stdlib Require Import Ascii.
Import Str.
Local Open Scope hub_scope.

Inductive HubCommand : Type :=
| List_
| UseClient (name : string)
| Broadcast_ (body : string)
| Status
| Help
| SessionList
| SessionNew (name uuid : string)
| SessionUse (name : string)
| SessionDelete (name : string).

#[export] Instance HubCommand_eq_dec : EqDecision HubCommand.
Proof. solve_decision. Defined.

(** The [/session new] arguments: a name and an optional UUID. *)
Definition parse_session_new (ts rest : string) : HubCommand :=
  let rest := trim rest in
  let '(n, u) := unwrap_or (split_once " " rest) (rest, "") in
  let name := trim n in
  let uuid := trim u in
  let name := if is_empty name then "session-" +:+ ts else name in
  SessionNew name uuid.

(** The [/session use] and [/session delete] arguments: no command on a blank name. *)
Definition parse_session_arg (mk : string -> HubCommand) (rest : option string)
    : option HubCommand :=
  r ← rest; let name := trim r in if is_empty name then None else Some (mk name).

Definition parse_hub_command (ts text : string) : option HubCommand :=
  let text := trim text in
  let eqi := eq_ignore_ascii_case text in
  let after p := strip_prefix p text in
  if eqi "/list" || eqi "/ls" then Some List_
  else if eqi "/status" || eqi "/s" then Some Status
  else if eqi "/help" || eqi "/?" || eqi "/h" then Some Help
  else match after "/use " <|> after "/u " <|> after "/switch " with
  | Some rest => Some (UseClient (trim rest))
  | None =>
  match after "/broadcast " <|> after "/all " with
  | Some rest => Some (Broadcast_ (trim rest))
  | None =>
  if eqi "/session list" || eqi "/session ls" || eqi "/sl" then Some SessionList
  else match after "/session new " <|> after "/sn "
             <|> (if eqi "/session new" || eqi "/sn" then Some "" else None) with
  | Some rest => Some (parse_session_new ts rest)
  | None =>
  parse_session_arg SessionUse (after "/session use " <|> after "/su ")
  <|> parse_session_arg SessionDelete
        (after "/session delete " <|> after "/session rm " <|> after "/session del "
         <|> after "/sd ")
  end end end.

(** ** [@mention] parsing *)

Definition is_ascii_char (c : string) : bool :=
  match c with "" => false | String a _ => is_ascii a end.

(** The characters before the first one that satisfies [p], and the rest. *)
Fixpoint break {A} (p : A -> bool) (l : list A) : option (list A * list A) :=
  match l with
  | [] => None
  | x :: l' =>
      if p x then Some ([], l)
      else match break p l' with Some (a, b) => Some (x :: a, b) | None => None end
  end.

Definition parse_at_mention (text : string) : option (string * string) :=
  rest ← strip_prefix "@" (trim_start text);
  let cs := chars rest in
  let starts_with_ascii := match head cs with Some c => is_ascii_char c | None => false end in
  let '(name, message) :=
    if starts_with_ascii then
      match break (fun c => is_whitespace c || negb (is_ascii_char c)) cs with
      | Some (a, b) => (concat a, trim_start (concat b))
      | None => (rest, "")
      end
    else
      match break is_whitespace cs with
      | Some (a, b) => (concat a, concat (tail b))
      | None => (rest, "")
      end in
  let name := trim name in
  if is_empty name then None else Some (name, trim message).

(** ** Routing table *)

Inductive RoutingDecision : Type :=
| ForwardTo (vtoken : string) (session_override : option string)
| Broadcast
| HubInternal (cmd : HubCommand).

Record Router := {
  active_routes : gmap string string;
  default_client : option string;
}.

Definition Router_new (d : option string) : Router :=
  {| active_routes := ∅; default_client := d |}.

Definition set_default (r : Router) (v : string) : Router :=
  {| active_routes := active_routes r; default_client := Some v |}.

Definition unset_default (r : Router) : Router :=
  {| active_routes := active_routes r; default_client := None |}.

Definition set_route (r : Router) (user v : string) : Router :=
  {| active_routes := <[user := v]> (active_routes r); default_client := default_client r |}.

Definition remove_routes_for_vtoken (r : Router) (v : string) (new_default : option string)
    : Router :=
  {| active_routes := filter (fun '(_, vt) => vt <> v) (active_routes r);
     default_client := if decide (default_client r = Some v) then new_default
                       else default_client r |}.

Definition get_route (r : Router) (user : string) : option string :=
  active_routes r !! user <|> default_client r.

Definition route (ts : string) (r : Router) (m : WeixinMessage) : RoutingDecision :=
  match text m ≫= parse_hub_command ts with
  | Some cmd => HubInternal cmd
  | None =>
      match get_route r (unwrap_or (from_user_id m) "") with
      | Some v => ForwardTo v None
      | None => HubInternal Help
      end
  end.

(** ** Canonical spelling of a command *)

Definition print_command (c : HubCommand) : string :=
  match c with
  | List_ => "/list"
  | UseClient n => "/use " +:+ n
  | Broadcast_ t => "/broadcast " +:+ t
  | Status => "/status"
  | Help => "/help"
  | SessionList => "/session list"
  | SessionNew n u => "/session new " +:+ (if is_empty u then n else n +:+ " " +:+ u)
  | SessionUse n => "/session use " +:+ n
  | SessionDelete n => "/session delete " +:+ n
  end.

(** An argument as a user can type it: a well-formed, trimmed, non-empty string. *)
Definition arg_ok (s : string) : Prop := starts_char s /\ trim s = s.

#[export] Instance arg_ok_dec s : Decision (arg_ok s).
Proof. unfold arg_ok. apply _. Defined.

(** The arguments of a command are well formed; the name of a new session is one
    word, since the first space ends it. *)
Definition command_ok (c : HubCommand) : Prop :=
  match c with
  | UseClient n | SessionUse n | SessionDelete n | Broadcast_ n => arg_ok n
  | SessionNew n u => arg_ok n /\ no_byte " " n = true /\ (u = "" \/ arg_ok u)
  | _ => True
  end.

#[export] Instance command_ok_dec c : Decision (command_ok c).
Proof. destruct c; cbn; apply _. Defined.

(** ** Parser properties *)

Lemma arg_ok_nonempty s : arg_ok s -> is_empty s = false.
Proof. intros [H _]. by destruct s. Qed.

Lemma trim_prefixed p n :
  (forall c, head (chars p) = Some c -> is_whitespace c = false) -> p <> "" -> arg_ok n ->
  trim (p +:+ n) = p +:+ n.
Proof. intros Hp Hne [Hn1 Hn2]. by apply trim_app. Qed.

Ltac trim_command H :=
  rewrite trim_prefixed by (first [exact H | done | by intros ? [= <-]]).

Lemma parse_use ts n : arg_ok n -> parse_hub_command ts ("/use " +:+ n) = Some (UseClient n).
Proof.
  intros H. unfold parse_hub_command. trim_command H.
  destruct H as [_ H]. transitivity (Some (UseClient (trim n))); [reflexivity|]. by rewrite H.
Qed.

Lemma parse_broadcast ts n :
  arg_ok n -> parse_hub_command ts ("/broadcast " +:+ n) = Some (Broadcast_ n).
Proof.
  intros H. unfold parse_hub_command. trim_command H. destruct H as [_ H].
  transitivity (Some (Broadcast_ (trim n))); [reflexivity|]. by rewrite H.
Qed.

Lemma parse_session_use ts n :
  arg_ok n -> parse_hub_command ts ("/session use " +:+ n) = Some (SessionUse n).
Proof.
  intros H. unfold parse_hub_command. trim_command H.
  pose proof (arg_ok_nonempty _ H) as He. destruct H as [_ H].
  transitivity ((if is_empty (trim n) then None else Some (SessionUse (trim n)))
    <|> parse_session_arg SessionDelete None); [reflexivity|]. by rewrite H, He.
Qed.

Lemma parse_session_delete ts n :
  arg_ok n -> parse_hub_command ts ("/session delete " +:+ n) = Some (SessionDelete n).
Proof.
  intros H. unfold parse_hub_command. trim_command H.
  pose proof (arg_ok_nonempty _ H) as He. destruct H as [_ H].
  transitivity (if is_empty (trim n) then None else Some (SessionDelete (trim n)));
    [reflexivity|]. by rewrite H, He.
Qed.

(** A session argument: a word, or a word, a space and a trimmed UUID. *)
Lemma session_new_body n u :
  arg_ok n -> no_byte " " n = true -> u = "" \/ arg_ok u ->
  let body := if is_empty u then n else n +:+ " " +:+ u in
  arg_ok body /\ unwrap_or (split_once " " body) (body, "") = (n, u).
Proof.
  intros [Hn1 Hn2] Hsp Hu body. unfold body. destruct u as [|a u]; cbn [is_empty].
  - split; [done|]. by rewrite split_once_none.
  - destruct Hu as [?|Hu]; [done|]. split; [|by rewrite split_once_sep].
    split; [by destruct n|]. rewrite <- append_assoc. destruct Hu as [Hu1 Hu2].
    apply trim_app; [|by destruct n|done|done].
    intros c Hc. eapply trim_head; [exact Hn2|].
    destruct n as [|b n]; [done|]. rewrite chars_app in Hc by done.
    destruct (chars_head b n) as (r & cs & E). rewrite E in *. done.
Qed.

Lemma parse_session_new_ok ts n u :
  arg_ok n -> no_byte " " n = true -> u = "" \/ arg_ok u ->
  parse_hub_command ts (print_command (SessionNew n u)) = Some (SessionNew n u).
Proof.
  intros Hn Hsp Hu. destruct (session_new_body n u Hn Hsp Hu) as [Hb Hs].
  cbn [print_command]. set (body := if is_empty u then n else _) in *. clearbody body.
  unfold parse_hub_command. trim_command Hb. destruct Hb as [_ Hb].
  transitivity (Some (parse_session_new ts body)); [reflexivity|].
  unfold parse_session_new. rewrite Hb, Hs.
  rewrite (proj2 Hn), (arg_ok_nonempty _ Hn).
  destruct Hu as [->|[_ Hu]]; [done|by rewrite Hu].
Qed.

(** (C26) Command round trip: the canonical spelling of every command with
    well-formed arguments parses back to exactly that command, whatever the
    current timestamp. *)
Theorem parse_print_command (ts : string) (c : HubCommand) (Hok : command_ok c) :
  parse_hub_command ts (print_command c) = Some c.
Proof.
  destruct c; cbn [command_ok print_command] in *; try reflexivity.
  - by apply parse_use.
  - by apply parse_broadcast.
  - destruct Hok as (H1 & H2 & H3). by apply parse_session_new_ok.
  - by apply parse_session_use.
  - by apply parse_session_delete.
Qed.

Lemma parse_print_command_witness :
  parse_hub_command "20260101-000000" (print_command (SessionNew "feature-b" "some uuid"))
  = Some (SessionNew "feature-b" "some uuid").
Proof.
  apply (parse_print_command "20260101-000000" (SessionNew "feature-b" "some uuid")).
  apply (bool_decide_unpack _). by vm_compute.
Defined.

(** Text that does not begin with a slash is never a command. *)
Lemma strip_prefix_slash p s : starts_with "/" s = false -> strip_prefix ("/" +:+ p) s = None.
Proof.
  intros H. destruct (strip_prefix _ s) as [r|] eqn:E; [|done].
  apply strip_prefix_Some in E. subst s. by rewrite append_assoc, starts_with_app in H.
Qed.

Lemma lower_slash a : Ascii.eqb (lower a) "/" = true -> a = "/"%char.
Proof. destruct a as [[] [] [] [] [] [] [] []]; done. Qed.

Lemma eqi_slash p s :
  starts_with "/" s = false -> eq_ignore_ascii_case s ("/" +:+ p) = false.
Proof.
  intros H. apply not_true_iff_false. unfold eq_ignore_ascii_case.
  rewrite String.eqb_eq. rewrite append_cons, append_nil_l. cbn [to_ascii_lowercase].
  destruct s as [|a s]; [done|]. cbn [to_ascii_lowercase]. intros [= Ha _].
  assert (a = "/"%char) as -> by (apply lower_slash; by rewrite Ha). done.
Qed.

Lemma parse_not_slash ts s :
  starts_with "/" (trim s) = false -> parse_hub_command ts s = None.
Proof.
  intros H. unfold parse_hub_command. cbv zeta.
  pose proof (fun p => eqi_slash p _ H) as He. pose proof (fun p => strip_prefix_slash p _ H) as Hp.
  repeat match goal with
  | |- context [eq_ignore_ascii_case (trim s) (String "/"%char ?p)] =>
      rewrite (He p : eq_ignore_ascii_case (trim s) (String "/"%char p) = false)
  | |- context [strip_prefix (String "/"%char ?p) (trim s)] =>
      rewrite (Hp p : strip_prefix (String "/"%char p) (trim s) = None)
  end. done.
Qed.

(** A message without a leading slash in its text. *)
Definition plain (m : WeixinMessage) : Prop :=
  forall t, text m = Some t -> starts_with "/" (trim t) = false.

Lemma route_plain ts r m :
  plain m -> route ts r m = match get_route r (unwrap_or (from_user_id m) "") with
                            | Some v => ForwardTo v None
                            | None => HubInternal Help
                            end.
Proof.
  intros Hp. unfold route. destruct (text m) as [t|] eqn:E; [|done]. cbn [mbind option_bind].
  by rewrite parse_not_slash by (by apply Hp).
Qed.

(** Selecting a backend: after a user selects a backend, every message of that user
    that does not begin with a slash goes to it, and no other user's message is routed
    differently than before. *)
Theorem selection_is_per_user (ts u v : string) (r : Router) (m : WeixinMessage)
    (Hp : plain m) :
  (from_user_id m = Some u -> route ts (set_route r u v) m = ForwardTo v None) /\
  (unwrap_or (from_user_id m) "" <> u -> route ts (set_route r u v) m = route ts r m).
Proof.
  rewrite !route_plain by done. unfold get_route, set_route. cbn. split.
  - intros ->. cbn. by rewrite lookup_insert_eq.
  - intros Hne. by rewrite lookup_insert_ne.
Qed.

Definition text_message (user t : string) : WeixinMessage :=
  {| seq := None; message_id := None; from_user_id := Some user; to_user_id := None;
     client_id := None; create_time_ms := None; update_time_ms := None; session_id := None;
     group_id := None; message_type := None; message_state := None;
     item_list := Some [text_only_item t]; context_token := None; ilink_hub_ext := None |}.

Lemma selection_is_per_user_witness :
  route "ts" (set_route (Router_new (Some "d")) "bob" "v") (text_message "bob" "hello") = ForwardTo "v" None /\
  route "ts" (set_route (Router_new (Some "d")) "bob" "v") (text_message "eve" "hello") = ForwardTo "d" None.
Proof.
  split.
  - apply (selection_is_per_user "ts" "bob" "v" (Router_new (Some "d")) (text_message "bob" "hello"));
      [|done]. by intros t [= <-].
  - destruct (selection_is_per_user "ts" "bob" "v" (Router_new (Some "d")) (text_message "eve" "hello"))
      as [_ H]; [by intros t [= <-]|]. rewrite H; [reflexivity|done].
Defined.

Lemma remove_routes_lookup r v nd u :
  active_routes (remove_routes_for_vtoken r v nd) !! u
  = ofilter (fun w => bool_decide (w <> v)) (active_routes r !! u).
Proof.
  cbn. destruct (active_routes r !! u) as [w|] eqn:E; cbn.
  - case_bool_decide as Hw.
    + by apply map_lookup_filter_Some_2.
    + apply map_lookup_filter_None_2. right. intros x Hx Hne. simplify_eq.
  - apply map_lookup_filter_None_2. by left.
Qed.

Lemma route_avoids_removed ts r v nd m so :
  nd <> Some v -> route ts (remove_routes_for_vtoken r v nd) m <> ForwardTo v so.
Proof.
  intros Hnd. unfold route. destruct (_ ≫= _); [done|]. unfold get_route.
  assert (Hd : default_client (remove_routes_for_vtoken r v nd) <> Some v)
    by (cbn; case_decide; congruence).
  rewrite remove_routes_lookup. destruct (active_routes r !! _) as [w|]; cbn [ofilter or_else].
  - case_bool_decide; cbn [or_else]; [congruence|]. by repeat case_match; try congruence.
  - by repeat case_match; try congruence.
Qed.

(** A removed backend gets nothing: after its routes are removed (with a replacement
    default other than itself), no message of any user is forwarded to it; a user who had
    selected it is served by the default; everyone else is routed as before, except that
    a default which was the removed backend is the replacement. *)
Theorem removed_backend_is_isolated (ts v : string) (nd : option string) (r : Router)
    (Hnd : nd <> Some v) (m : WeixinMessage) :
  let r' := remove_routes_for_vtoken r v nd in
  (forall so, route ts r' m <> ForwardTo v so) /\
  (forall u, active_routes r !! u = Some v -> get_route r' u = default_client r') /\
  (forall u w, active_routes r !! u = Some w -> w <> v -> get_route r' u = Some w) /\
  (default_client r <> Some v -> default_client r' = default_client r).
Proof.
  intros r'. subst r'. split; [|split; [|split]].
  - intros so. by apply route_avoids_removed.
  - intros u Hu. unfold get_route. rewrite remove_routes_lookup, Hu. cbn.
    by rewrite bool_decide_false by auto.
  - intros u w Hu Hw. unfold get_route. rewrite remove_routes_lookup, Hu. cbn.
    by rewrite bool_decide_true by done.
  - intros Hr. cbn. by rewrite decide_False.
Qed.

Lemma removed_backend_is_isolated_witness :
  let r := set_route (Router_new (Some "v")) "bob" "v" in
  route "ts" (remove_routes_for_vtoken r "v" (Some "w")) (text_message "bob" "hi") <> ForwardTo "v" None.
Proof.
  intros r. by apply (removed_backend_is_isolated "ts" "v" (Some "w") r).
Defined.
