(* ===== verification/Footer.v ===== *)
(** * Origin footers and quote routing

    [src/src/hub/outbound_label.rs]: the persona header and origin footer written
    on outbound replies. [src/src/hub/quote_route.rs]: extracting the quoted
    message of an inbound reply, parsing the footer back and overriding the
    routing decision with the quoted origin. *)
From S2P Require Import Prelude StrLemmas Types Router.
From Stdlib Require Import Ascii.
Import Str.
Local Open Scope hub_scope.

Definition nl : string := String "010"%char "".

Module OutboundLabel.

Definition one_of (l : list string) (s : string) : bool := existsb (String.eqb s) l.

Definition should_append_outbound_origin_label (online : nat) (env : option string) : bool :=
  let v := ofilter (fun s => negb (is_empty s)) (trim <$> env) in
  match to_ascii_lowercase <$> v with
  | None => (1 <? online)%nat
  | Some s =>
      if one_of ["0"; "false"; "no"; "off"] s then false
      else if one_of ["1"; "true"; "yes"; "on"] s then true
      else (1 <? online)%nat
  end.

Definition dot : string := " · ".

Definition format_outbound_origin_line (name : string) (label : option string) : string :=
  match ofilter (fun s => negb (is_empty s)) (trim <$> label) with
  | Some l => if String.eqb l name then name else name +:+ dot +:+ l
  | None => name
  end.

Definition session_shown (session : option string) : option string :=
  ofilter (fun s => negb (is_empty s) && negb (String.eqb s "default")) (trim <$> session).

Definition format_outbound_footer (name : string) (label session : option string) : string :=
  let workspace := format_outbound_origin_line name label in
  match session_shown session with
  | Some s => workspace +:+ dot +:+ s
  | None => workspace
  end.

Definition build_persona_header (persona_name persona_emoji : option string) : option string :=
  p ← persona_name;
  let name := trim p in
  if is_empty name then None
  else
    let display :=
      match ofilter (fun s => negb (is_empty s)) (trim <$> persona_emoji) with
      | Some e => e +:+ " **" +:+ name +:+ "**"
      | None => "**" +:+ name +:+ "**"
      end in
    Some (display +:+ nl +:+ nl).

Definition build_session_only_footer (session : option string) : option string :=
  s ← session;
  let s := trim s in
  if is_empty s || String.eqb s "default" then None else Some s.

Definition rule : string := nl +:+ nl +:+ "---" +:+ nl.

(** Update of the text of the first item of a message, when it has one. *)
Definition map_first_text (f : string -> string) (m : WeixinMessage) : WeixinMessage :=
  match item_list m with
  | Some (first :: rest) =>
      match text_item first with
      | Some {| text_item_text := Some t |} =>
          set_items m (Some (set_item_text (f t) first :: rest))
      | _ => m
      end
  | _ => m
  end.

Definition has_persona (persona_name : option string) : bool :=
  match trim <$> persona_name with Some s => negb (is_empty s) | None => false end.

(** The text transformation of [apply_persona_and_footer_to_first_text_item]. *)
Definition persona_and_footer (persona_name persona_emoji : option string)
    (name : string) (label session : option string) (t : string) : string :=
  if has_persona persona_name then
    let header := unwrap_or (build_persona_header persona_name persona_emoji) "" in
    let body := header +:+ t in
    match build_session_only_footer session with
    | Some s => body +:+ rule +:+ s
    | None => body
    end
  else t +:+ rule +:+ format_outbound_footer name label session.

Definition apply_persona_and_footer_to_first_text_item (m : WeixinMessage)
    (persona_name persona_emoji : option string) (name : string)
    (label session : option string) : WeixinMessage :=
  map_first_text (persona_and_footer persona_name persona_emoji name label session) m.

Definition append_outbound_origin_footer_to_first_text_item (m : WeixinMessage)
    (name : string) (label session : option string) : WeixinMessage :=
  map_first_text (fun t => t +:+ rule +:+ format_outbound_footer name label session) m.

End OutboundLabel.

Module QuoteRoute.

Inductive QuoteOrigin : Type :=
| Client (vtoken name : string) (label session_name : option string)
| Hub (cmd : HubCommand).

Definition merge_routing_with_quote (base : RoutingDecision) (quoted : option QuoteOrigin)
    : RoutingDecision :=
  match base with
  | HubInternal _ => base
  | _ =>
      match quoted with
      | Some (Client vtoken _ _ session_name) => ForwardTo vtoken session_name
      | Some (Hub cmd) => HubInternal cmd
      | None => base
      end
  end.

Definition looks_like_session (p : string) : bool :=
  starts_with "at-" p || starts_with "session-" p.

(** Byte offsets: ["\n---\n"] is five bytes long; ["\n"] followed by the em dash four. *)
Definition footer_line (t : string) : option string :=
  match rfind (nl +:+ "---" +:+ nl) t with
  | Some pos => Some (trim (slice_from (pos + 5) t))
  | None =>
      match rfind (nl +:+ "— ") t with
      | Some pos => Some (trim (slice_from (pos + 4) t))
      | None => s ← strip_prefix "— " (trim t); Some (trim s)
      end
  end.

Definition parse_footer_from_quoted_text (t : string) : option (string * option string) :=
  line ← footer_line t;
  if is_empty line then None
  else
    let parts := split OutboundLabel.dot line in
    let name := trim (unwrap_or (head parts) "") in
    if is_empty name then None
    else
      let session :=
        find_map (fun p => let p := trim p in if looks_like_session p then Some p else None)
                 (rev parts) in
      Some (name, session).

(** The [ref_msg.message_item] of an item. *)
Definition ref_item (i : MessageItem) : option json :=
  extra ← as_object (item_extra i); r ← assoc "ref_msg" extra; json_get "message_item" r.

Definition collect_quoted_timestamp (m : WeixinMessage) : option Z :=
  items ← item_list m;
  find_map (fun i => mi ← ref_item i; v ← json_get "create_time_ms" mi; json_as_i64 v) items.

Definition collect_quoted_msg_id (m : WeixinMessage) : option string :=
  items ← item_list m;
  find_map (fun i =>
    mi ← ref_item i; v ← json_get "msg_id" mi; id ← as_str v;
    if is_empty (trim id) then None else Some id) items.

Definition collect_quoted_content (m : WeixinMessage) : option (string * option Z) :=
  items ← item_list m;
  find_map (fun i =>
    mi ← ref_item i;
    t ← (ti ← json_get "text_item" mi; v ← json_get "text" ti;
         ofilter (fun s => negb (is_empty (trim s))) (as_str v));
    Some (t, v ← json_get "create_time_ms" mi; json_as_i64 v)) items.

Definition collect_quoted (m : WeixinMessage) : option (string * option Z) :=
  collect_quoted_content m.

Definition footer_from_user_quote (m : WeixinMessage) : option (string * option string) :=
  '(t, _) ← collect_quoted_content m; parse_footer_from_quoted_text t.

End QuoteRoute.

(** ** Footer round trip *)

Import OutboundLabel QuoteRoute.

(** A footer part: one trimmed line without the two-byte characters U+0080..U+00BF
    (so without the middle dot that separates parts). *)
Definition part_ok (s : string) : Prop :=
  arg_ok s /\ no_byte "010" s = true /\ no_byte (ascii_of_N 194) s = true.

#[export] Instance part_ok_dec s : Decision (part_ok s).
Proof. unfold part_ok. apply _. Defined.

Lemma rfind_rule line :
  no_byte "010" line = true -> rfind (nl +:+ "---" +:+ nl) (nl +:+ "---" +:+ nl +:+ line) = Some 0.
Proof.
  intros H.
  assert (H1 : rfind (nl +:+ "---" +:+ nl) line = None)
    by (apply (absent_no_byte "010"%char "" ("---" +:+ nl) line H)).
  assert (H2 : starts_with (nl +:+ "---" +:+ nl) (nl +:+ line) = false).
  { pose proof (sep_not_in "010"%char "---" "" line H) as Hs.
    unfold starts_with in *. cbn in *. exact Hs. }
  change (nl +:+ "---" +:+ nl +:+ line) with (String "010" (String "-" (String "-" (String "-" (nl +:+ line))))).
  set (p := nl +:+ "---" +:+ nl) in *.
  assert (H3 : rfind p (nl +:+ line) = None).
  { change (nl +:+ line) with (String "010" line) in *. cbn [rfind]. by rewrite H1, H2. }
  cbn [rfind]. rewrite H3. reflexivity.
Qed.

(** The last line written after the rule is the line read back. *)
Lemma footer_line_rule t line :
  no_byte "010" line = true -> footer_line (t +:+ rule +:+ line) = Some (trim line).
Proof.
  intros H. unfold footer_line, rule.
  assert (E : t +:+ (nl +:+ nl +:+ "---" +:+ nl) +:+ line
              = (t +:+ nl) +:+ (nl +:+ "---" +:+ nl +:+ line)).
  { rewrite !append_assoc. done. }
  rewrite E, (rfind_app_absent _ _ _ 0) by by apply rfind_rule.
  rewrite Nat.add_0_r. by rewrite slice_from_add.
Qed.

Lemma part_ok_trim s : part_ok s -> trim s = s.
Proof. intros [[_ H] _]. done. Qed.

Lemma part_ok_nonempty s : part_ok s -> is_empty s = false.
Proof. intros [H _]. by apply arg_ok_nonempty. Qed.

Lemma arg_ok_app s t : arg_ok s -> arg_ok t -> arg_ok (s +:+ dot +:+ t).
Proof.
  intros [Hs1 Hs2] [Ht1 Ht2]. split; [by destruct s|]. rewrite <- append_assoc.
  apply trim_app; [|by destruct s|done|done].
  intros c Hc. eapply trim_head; [exact Hs2|].
  destruct s as [|b s]; [done|]. rewrite chars_app in Hc by done.
  destruct (chars_head b s) as (r & cs & E). rewrite E in *. done.
Qed.

(** A footer line made of parts, and splitting it again. *)
Fixpoint parts_line (l : list string) : string :=
  match l with [] => "" | [x] => x | x :: l' => x +:+ dot +:+ parts_line l' end.

Lemma split_parts l : Forall part_ok l -> l <> [] -> split dot (parts_line l) = l.
Proof.
  intros H Hne.
  induction H as [|x l Hx Hl IH]; [done|].
  pose proof (split_sep (ascii_of_N 194) " " (String (ascii_of_N 183) " ") eq_refl) as Hsep.
  pose proof (split_none (ascii_of_N 194) " " (String (ascii_of_N 183) " ")) as Hnone.
  change (" " +:+ String (ascii_of_N 194) (String (ascii_of_N 183) " ")) with dot in *.
  destruct Hx as (_ & _ & Hb). destruct l as [|y l].
  - by apply Hnone.
  - change (parts_line (x :: y :: l)) with (x +:+ dot +:+ parts_line (y :: l)).
    rewrite Hsep by done. f_equal. by apply IH.
Qed.

Lemma parts_line_ok l : Forall part_ok l -> l <> [] ->
  arg_ok (parts_line l) /\ no_byte "010" (parts_line l) = true.
Proof.
  intros H Hne. induction H as [|x l Hx Hl IH]; [done|].
  destruct Hx as (Ha & Hb & _). destruct l as [|y l]; [done|].
  destruct (IH ltac:(done)) as [IH1 IH2].
  change (parts_line (x :: y :: l)) with (x +:+ dot +:+ parts_line (y :: l)). split; [by apply arg_ok_app|].
  rewrite !no_byte_app, Hb, IH2. done.
Qed.

Definition session_part (p : string) : option string :=
  let p := trim p in if looks_like_session p then Some p else None.

(** What the parser makes of a rule followed by a line of parts. *)
Lemma parse_parts t x l :
  Forall part_ok (x :: l) ->
  parse_footer_from_quoted_text (t +:+ rule +:+ parts_line (x :: l))
  = Some (x, find_map session_part (rev (x :: l))).
Proof.
  intros H. destruct (parts_line_ok _ H ltac:(done)) as [Ha Hb].
  pose proof (split_parts _ H ltac:(done)) as Hs.
  unfold parse_footer_from_quoted_text. rewrite footer_line_rule by done. cbn [mbind option_bind].
  rewrite (proj2 Ha), (arg_ok_nonempty _ Ha), Hs. cbn [head unwrap_or].
  inversion H as [|?? Hx _]; subst. by rewrite (part_ok_trim _ Hx), (part_ok_nonempty _ Hx).
Qed.

Definition opt_list {A} (o : option A) : list A := match o with Some a => [a] | None => [] end.

(** The parts of an outbound footer. *)
Definition label_part (name : string) (label : option string) : option string :=
  ofilter (fun l => negb (String.eqb l name)) (ofilter (fun s => negb (is_empty s)) (trim <$> label)).

Lemma format_outbound_footer_parts name label session :
  format_outbound_footer name label session
  = parts_line (name :: opt_list (label_part name label) ++ opt_list (session_shown session)).
Proof.
  unfold format_outbound_footer, format_outbound_origin_line, label_part.
  destruct (ofilter _ (trim <$> label)) as [l|]; cbn [ofilter];
    [destruct (String.eqb l name)|]; cbn [negb opt_list app];
    destruct (session_shown session) as [s|]; cbn [opt_list parts_line app]; try done.
  by rewrite !append_assoc.
Qed.

Definition opt_part_ok (o : option string) : Prop :=
  match o with Some s => part_ok s | None => True end.

(** Only a session identifier is recognised as the session of a footer. *)
Definition not_session (o : option string) : Prop :=
  match o with Some s => looks_like_session s = false | None => True end.

(** The text of the first item of a message. *)
Definition first_text (m : WeixinMessage) : option string :=
  match item_list m with
  | Some (first :: _) => i ← text_item first; text_item_text i
  | _ => None
  end.

Lemma first_text_map f m t : first_text m = Some t -> first_text (map_first_text f m) = Some (f t).
Proof.
  unfold first_text, map_first_text. destruct (item_list m) as [[|first rest]|]; [done| |done].
  destruct (text_item first) as [[[x|]]|] eqn:E; cbn; [|done|done]. intros [= ->]. done.
Qed.

Lemma parse_outbound_footer (t name : string) (label session : option string) :
  part_ok name -> opt_part_ok (label_part name label) -> opt_part_ok (session_shown session) ->
  looks_like_session name = false -> not_session (label_part name label) ->
  parse_footer_from_quoted_text (t +:+ rule +:+ format_outbound_footer name label session)
  = Some (name, ofilter looks_like_session (session_shown session)).
Proof.
  intros Hname Hlabel Hsess Hns Hls.
  rewrite format_outbound_footer_parts, parse_parts.
  - f_equal. f_equal. unfold session_part.
    destruct (label_part name label) as [l|], (session_shown session) as [s|];
      cbn [opt_list app rev find_map ofilter opt_part_ok not_session] in *;
      rewrite ?(part_ok_trim name), ?(part_ok_trim l), ?(part_ok_trim s) by done;
      rewrite ?Hns, ?Hls; try done; by destruct (looks_like_session s).
  - constructor; [done|]. apply Forall_app. split.
    + destruct (label_part name label); [by apply Forall_singleton|apply Forall_nil_2].
    + destruct (session_shown session); [by apply Forall_singleton|apply Forall_nil_2].
Qed.

(** (C25) Footer round trip: take a reply whose first item has a text, of a backend without
    a persona, whose name, shown label and shown session are non-empty single trimmed
    lines without the middle dot (no byte 0xC2), and whose name and label do not look
    like a session identifier ([at-...], [session-...]). Then both functions that add
    the origin footer extend the text by the same footer, and what they add parses back,
    from the extended text, to the backend's name together with its session when that
    looks like a session identifier; a session with another name (chosen by the user) is
    not recovered. *)
Theorem footer_round_trip (m : WeixinMessage) (t name : string) (pn pe label session : option string)
    (Htext : first_text m = Some t) (Hpersona : has_persona pn = false)
    (Hname : part_ok name)
    (Hlabel : opt_part_ok (label_part name label))
    (Hsess : opt_part_ok (session_shown session))
    (Hns : looks_like_session name = false) (Hls : not_session (label_part name label)) :
  exists footer,
    first_text (append_outbound_origin_footer_to_first_text_item m name label session)
    = Some (t +:+ footer) /\
    first_text (apply_persona_and_footer_to_first_text_item m pn pe name label session)
    = Some (t +:+ footer) /\
    parse_footer_from_quoted_text (t +:+ footer)
    = Some (name, ofilter looks_like_session (session_shown session)).
Proof.
  exists (rule +:+ format_outbound_footer name label session). split; [|split].
  - unfold append_outbound_origin_footer_to_first_text_item. by rewrite (first_text_map _ _ _ Htext).
  - unfold apply_persona_and_footer_to_first_text_item. rewrite (first_text_map _ _ _ Htext).
    unfold persona_and_footer. by rewrite Hpersona.
  - by apply parse_outbound_footer.
Qed.

Definition demo_origin_reply : WeixinMessage :=
  set_items WeixinMessage_default (Some [set_item_text "done" MessageItem_default]).

Lemma footer_round_trip_witness :
  exists footer,
    first_text (append_outbound_origin_footer_to_first_text_item demo_origin_reply "claude" (Some "office")
      (Some "at-20260615")) = Some ("done" +:+ footer) /\
    first_text (apply_persona_and_footer_to_first_text_item demo_origin_reply None None "claude" (Some "office")
      (Some "at-20260615")) = Some ("done" +:+ footer) /\
    parse_footer_from_quoted_text ("done" +:+ footer) = Some ("claude", Some "at-20260615").
Proof.
  apply (footer_round_trip demo_origin_reply "done" "claude" None None (Some "office") (Some "at-20260615"));
    first [by vm_compute | (apply (bool_decide_unpack _); by vm_compute)].
Defined.

(** A backend whose name holds the middle dot is not found again by the footer. *)
Lemma dotted_name_not_recovered :
  parse_footer_from_quoted_text ("done" +:+ rule +:+ format_outbound_footer ("a" +:+ dot +:+ "b") None None)
  = Some ("a", None).
Proof. vm_compute. reflexivity. Qed.

Lemma build_session_only_footer_shown s : build_session_only_footer s = session_shown s.
Proof.
  destruct s as [s|]; [|done]. cbn.
  by destruct (is_empty (trim s)), (String.eqb (trim s) "default").
Qed.

(** Persona footers: a reply of a backend with a persona carries only the
    session, and parses back to that session identifier in both positions, from
    which the resolver looks up the owning backend. *)
Theorem persona_footer_round_trip (t name s : string) (pn pe label session : option string)
    (Hp : has_persona pn = true) (Hshown : session_shown session = Some s)
    (Hs : part_ok s) (Hlook : looks_like_session s = true) :
  parse_footer_from_quoted_text (persona_and_footer pn pe name label session t)
  = Some (s, Some s).
Proof.
  unfold persona_and_footer. rewrite Hp, build_session_only_footer_shown, Hshown.
  pose proof (parse_parts (unwrap_or (build_persona_header pn pe) "" +:+ t) s [] ) as E.
  cbn [parts_line] in E. rewrite E by by apply Forall_singleton.
  cbn. unfold session_part. by rewrite (part_ok_trim _ Hs), Hlook.
Qed.

Lemma persona_footer_round_trip_witness :
  parse_footer_from_quoted_text
    (persona_and_footer (Some "Claude") (Some "X") "claude" None (Some "at-20260615") "hi")
  = Some ("at-20260615", Some "at-20260615").
Proof.
  apply persona_footer_round_trip;
    first [by vm_compute | (apply (bool_decide_unpack _); by vm_compute)].
Defined.
