(* ===== verification/VToken.v ===== *)
(** * Virtual tokens ([src/src/hub/vtoken_hash.rs], [src/src/server/routes/auth.rs])

    Canonical hashing of a plaintext token, the syntactic checks on tokens and
    hashes, and the bearer-credential extraction and admin check of the HTTP
    layer. SHA-256 is a parameter: a function from byte strings to digests. *)
From S2P Require Import Prelude StrLemmas.
From Stdlib Require Import Ascii.
Import Str.

Definition HEX : list ascii :=
  ["0"; "1"; "2"; "3"; "4"; "5"; "6"; "7"; "8"; "9"; "a"; "b"; "c"; "d"; "e"; "f"]%char.

Definition hex_digit (n : N) : ascii := nth (N.to_nat n) HEX "0"%char.

Fixpoint hex_lower (bytes : list N) : string :=
  match bytes with
  | [] => ""
  | b :: bytes =>
      String (hex_digit (N.shiftr b 4))
        (String (hex_digit (N.land b 15)) (hex_lower bytes))
  end.

Definition hash_vtoken (sha256 : string -> list N) (plain : string) : string :=
  hex_lower (sha256 plain).

Definition lower_hex (b : ascii) : bool := is_ascii_hexdigit b && negb (is_ascii_uppercase b).

Definition is_vtoken_hash (s : string) : bool := (len s =? 64)%nat && all_bytes lower_hex s.

Definition is_valid_vtoken (s : string) : bool :=
  match strip_prefix "vhub_" s with
  | None => false
  | Some rest => (len rest =? 32)%nat && all_bytes lower_hex rest
  end.

(** The value of the [authorization] header, when present and visible ASCII. *)
Definition bearer (authorization : option string) : option string :=
  authorization ≫= strip_prefix "Bearer ".

Definition extract_vtoken (sha256 : string -> list N) (authorization : option string)
    : option string :=
  hash_vtoken sha256 <$> ofilter is_valid_vtoken (bearer authorization).

Record AdminConfig := {
  admin_token : option string;
  insecure_no_auth : bool;
  outbound_origin_label : option string;
}.

(** [AdminConfig::from_env], over the three environment variables it reads. *)
Definition AdminConfig_from_env (env_token env_insecure env_label : option string) : AdminConfig :=
  let token := ofilter (fun s => negb (is_empty s)) env_token in
  {| admin_token := token;
     insecure_no_auth :=
       match token with Some _ => false | None => true end &&
       match env_insecure with
       | Some v => existsb (String.eqb (to_ascii_lowercase (trim v))) ["1"; "true"; "yes"]
       | None => false
       end;
     outbound_origin_label := env_label |}.

(** [subtle::ConstantTimeEq] on byte slices decides equality. *)
Definition check_admin_auth (admin : AdminConfig) (authorization : option string) : bool :=
  match admin_token admin with
  | Some required => String.eqb (unwrap_or (bearer authorization) "") required
  | None => insecure_no_auth admin
  end.

(** ** Properties *)

Lemma hex_digit_lower n : lower_hex (hex_digit n) = true.
Proof.
  unfold hex_digit. destruct (decide (N.to_nat n < 16)%nat) as [H|H].
  - revert H. generalize (N.to_nat n). intros k H.
    do 16 (destruct k as [|k]; [reflexivity|]). lia.
  - rewrite nth_overflow; [reflexivity|]. cbn. lia.
Qed.

Lemma hex_lower_len l : len (hex_lower l) = (2 * length l)%nat.
Proof. unfold len. induction l as [|b l IH]; [done|]. cbn [hex_lower String.length length]. lia. Qed.

Lemma hex_lower_all l : all_bytes lower_hex (hex_lower l) = true.
Proof.
  induction l as [|b l IH]; [done|]. cbn [hex_lower all_bytes].
  by rewrite !hex_digit_lower, IH.
Qed.

Lemma hash_vtoken_canonical sha256 plain :
  length (sha256 plain) = 32%nat -> is_vtoken_hash (hash_vtoken sha256 plain) = true.
Proof.
  intros H. unfold is_vtoken_hash, hash_vtoken. by rewrite hex_lower_len, H, hex_lower_all.
Qed.

Lemma vtoken_hash_not_valid s : is_vtoken_hash s = true -> is_valid_vtoken s = false.
Proof.
  unfold is_vtoken_hash, is_valid_vtoken. intros [Hl Ha]%andb_true_iff.
  destruct (strip_prefix "vhub_" s) as [r|] eqn:E; [|done].
  apply strip_prefix_Some in E. subst s. cbn in Ha. discriminate.
Qed.

(** Tokens and hashes do not mix: with a digest of 32 bytes, the hash stored for
    any token is 64 lowercase hex digits and is itself refused as a bearer
    credential, so a value leaked from the store or the registry authenticates
    nobody; a freshly minted token is accepted and yields exactly its own hash. *)
Theorem hashed_token_is_no_credential (sha256 : string -> list N) (plain uuid : string)
    (Hdigest : forall s, length (sha256 s) = 32%nat)
    (Huuid : len uuid = 32%nat) (Hhex : all_bytes lower_hex uuid = true) :
  is_vtoken_hash (hash_vtoken sha256 plain) = true /\
  extract_vtoken sha256 (Some ("Bearer " +:+ hash_vtoken sha256 plain)) = None /\
  extract_vtoken sha256 (Some ("Bearer " +:+ "vhub_" +:+ uuid))
    = Some (hash_vtoken sha256 ("vhub_" +:+ uuid)).
Proof.
  pose proof (hash_vtoken_canonical sha256 plain (Hdigest plain)) as Hc.
  split; [done|]. unfold extract_vtoken, bearer. cbn [mbind option_bind].
  rewrite !strip_prefix_app. cbn [ofilter]. rewrite (vtoken_hash_not_valid _ Hc).
  split; [done|]. unfold is_valid_vtoken. rewrite strip_prefix_app, Huuid, Hhex. done.
Qed.

Lemma hashed_token_is_no_credential_witness :
  extract_vtoken (fun _ => replicate 32 171%N)
    (Some ("Bearer " +:+ hash_vtoken (fun _ => replicate 32 171%N) "vhub_x")) = None.
Proof.
  apply (hashed_token_is_no_credential (fun _ => replicate 32 171%N) "vhub_x"
           "0123456789abcdef0123456789abcdef"); done.
Defined.

(** Admin access: under a configuration read from the environment, a request
    passes exactly when its bearer value is the configured token, a missing header
    never passes, and without a token only the explicit opt-out variable
    opens the admin surface; an empty token variable counts as no token. *)
Theorem admin_auth_exact (tok ins lab auth : option string) :
  let cfg := AdminConfig_from_env tok ins lab in
  check_admin_auth cfg auth = true <->
  match tok with
  | Some required => (required <> "" /\ bearer auth = Some required)
                     \/ (required = "" /\ insecure_no_auth cfg = true)
  | None => insecure_no_auth cfg = true
  end.
Proof.
  intros cfg. unfold check_admin_auth, cfg. destruct tok as [t|]; [|done].
  destruct t as [|a t]; [cbn; naive_solver|].
  cbn [admin_token AdminConfig_from_env ofilter is_empty negb]. rewrite String.eqb_eq.
  destruct (bearer auth) as [b|]; cbn; naive_solver.
Qed.
