(* ===== verification/Registry.v ===== *)
(** * Client registry ([src/src/hub/registry.rs])

    The two maps of registered backends and every operation on them. Fresh
    UUIDs, the clock and SHA-256 are arguments; the order in which a hash map is
    iterated is the order of [map_to_list], on which no theorem depends. *)
From S2P Require Import Prelude StrLemmas VToken.
Import Str.
Local Open Scope hub_scope.

Record ClientInfo := {
  name : string;
  vtoken : string;
  label : option string;
  description : option string;
  registered_at : Z;
  online : bool;
  persona_name : option string;
  persona_emoji : option string;
}.

#[export] Instance ClientInfo_eq_dec : EqDecision ClientInfo.
Proof. solve_decision. Defined.

Inductive UpdateClientError := NotFound | NameTaken.

Record ClientRegistry := {
  by_vtoken : gmap string ClientInfo;
  by_name : gmap string string;
}.

Definition ClientRegistry_new : ClientRegistry := {| by_vtoken := ∅; by_name := ∅ |}.

Definition with_hashed_vtoken (now : Z) (n : string) (l d : option string) (h : string)
    : ClientInfo :=
  {| name := n; vtoken := h; label := l; description := d; registered_at := now;
     online := false; persona_name := None; persona_emoji := None |}.

(** The plaintext of a fresh token: [vhub_] and a UUID in simple form. *)
Definition mint (uuid : string) : string := "vhub_" +:+ uuid.

Definition ClientInfo_new (sha256 : string -> list N) (uuid : string) (now : Z)
    (n : string) (l d : option string) : ClientInfo * string :=
  let plain := mint uuid in
  (with_hashed_vtoken now n l d (hash_vtoken sha256 plain), plain).

(** The in-place refresh of an entry that registers again. *)
Definition refresh (l d : option string) (i : ClientInfo) : ClientInfo :=
  {| name := name i; vtoken := vtoken i; label := l <|> label i;
     description := d <|> description i; registered_at := registered_at i; online := true;
     persona_name := persona_name i; persona_emoji := persona_emoji i |}.

Definition alter_client (f : ClientInfo -> ClientInfo) (v : string) (r : ClientRegistry)
    : ClientRegistry :=
  {| by_vtoken := alter f v (by_vtoken r); by_name := by_name r |}.

Definition insert_client (n h : string) (i : ClientInfo) (r : ClientRegistry) : ClientRegistry :=
  {| by_vtoken := <[h := i]> (by_vtoken r); by_name := <[n := h]> (by_name r) |}.

(** [register]: [(plaintext, hash, is_new)]. *)
Definition register (sha256 : string -> list N) (uuid : string) (now : Z) (r : ClientRegistry)
    (n : string) (l d : option string) : (string * string * bool) * ClientRegistry :=
  match by_name r !! n with
  | Some h => (("", h, false), alter_client (refresh l d) h r)
  | None =>
      let '(info, plain) := ClientInfo_new sha256 uuid now n l d in
      ((plain, vtoken info, true), insert_client n (vtoken info) info r)
  end.

Definition register_with_vtoken (sha256 : string -> list N) (uuid : string) (now : Z)
    (r : ClientRegistry) (n : string) (l d vt : option string)
    : (string * bool) * ClientRegistry :=
  match by_name r !! n with
  | Some h => ((h, false), alter_client (refresh l d) h r)
  | None =>
      let '(info, plain_or_hash) :=
        match vt with
        | Some h => (with_hashed_vtoken now n l d h, h)
        | None => ClientInfo_new sha256 uuid now n l d
        end in
      ((plain_or_hash, true), insert_client n (vtoken info) info r)
  end.

Definition register_confirmed (now : Z) (r : ClientRegistry) (n : string) (l d : option string)
    (h : string) : result unit UpdateClientError * ClientRegistry :=
  match by_name r !! n with
  | Some _ => (Err NameTaken, r)
  | None => (Ok tt, insert_client n h (with_hashed_vtoken now n l d h) r)
  end.

Definition get_by_vtoken (r : ClientRegistry) (v : string) : option ClientInfo :=
  by_vtoken r !! v.

Definition get_by_name (r : ClientRegistry) (n : string) : option ClientInfo :=
  by_name r !! n ≫= fun v => by_vtoken r !! v.

(** Values of the map, in iteration order. *)
Definition clients (r : ClientRegistry) : list ClientInfo := (map_to_list (by_vtoken r)).*2.

Definition allowed_in (allowed : option (gset string)) (i : ClientInfo) : bool :=
  match allowed with None => true | Some set => bool_decide (name i ∈ set) end.

Definition all_clients_in (r : ClientRegistry) (allowed : option (gset string))
    : list ClientInfo :=
  List.filter (allowed_in allowed) (clients r).

Definition all_clients (r : ClientRegistry) : list ClientInfo := all_clients_in r None.

Definition online_clients (r : ClientRegistry) : list ClientInfo :=
  List.filter online (clients r).

(** [sort_by(|a, b| a.name.cmp(&b.name))]: byte order on names. *)
Definition name_le (a b : ClientInfo) : Prop := String.le (name a) (name b).

#[export] Instance name_le_dec a b : Decision (name_le a b).
Proof. unfold name_le. apply _. Defined.

Definition sorted_clients (r : ClientRegistry) (allowed : option (gset string))
    : list ClientInfo := merge_sort name_le (all_clients_in r allowed).

Definition get_by_alias_in (r : ClientRegistry) (n : string) (allowed : option (gset string))
    : option ClientInfo :=
  match get_by_name r n with
  | Some c => if allowed_in allowed c then Some c else None
  | None =>
      k ← parse_u64 n;
      if (k =? 0)%Z then None else sorted_clients r allowed !! Z.to_nat (k - 1)
  end.

Definition get_by_alias (r : ClientRegistry) (n : string) : option ClientInfo :=
  get_by_alias_in r n None.

Definition update_metadata (r : ClientRegistry) (v : string) (l d pn pe : option string)
    : ClientRegistry :=
  alter_client (fun i =>
    {| name := name i; vtoken := vtoken i; label := l <|> label i;
       description := d <|> description i; registered_at := registered_at i;
       online := online i; persona_name := pn <|> persona_name i;
       persona_emoji := pe <|> persona_emoji i |}) v r.

Definition set_persona (r : ClientRegistry) (v : string) (pn pe : option string)
    : ClientRegistry := update_metadata r v None None pn pe.

Definition set_description (r : ClientRegistry) (v : string) (d : option string)
    : ClientRegistry :=
  alter_client (fun i =>
    {| name := name i; vtoken := vtoken i; label := label i; description := d;
       registered_at := registered_at i; online := online i;
       persona_name := persona_name i; persona_emoji := persona_emoji i |}) v r.

Definition set_online (b : bool) (i : ClientInfo) : ClientInfo :=
  {| name := name i; vtoken := vtoken i; label := label i; description := description i;
     registered_at := registered_at i; online := b;
     persona_name := persona_name i; persona_emoji := persona_emoji i |}.

Definition mark_online (r : ClientRegistry) (v : string) : ClientRegistry :=
  alter_client (set_online true) v r.

Definition mark_offline (r : ClientRegistry) (v : string) : ClientRegistry :=
  alter_client (set_online false) v r.

(** The entry of a client whose token was replaced; it is offline until it polls. *)
Definition rotated (new : string) (i : ClientInfo) : ClientInfo :=
  {| name := name i; vtoken := new; label := label i; description := description i;
     registered_at := registered_at i; online := false;
     persona_name := persona_name i; persona_emoji := persona_emoji i |}.

(** [rotate_vtoken]: [(plaintext, hash)] of the token that replaces the old one. *)
Definition rotate_vtoken (sha256 : string -> list N) (uuid : string) (r : ClientRegistry)
    (n : string) : option (string * string) * ClientRegistry :=
  match by_name r !! n with
  | None => (None, r)
  | Some old =>
      match by_vtoken r !! old with
      | None => (None, r)
      | Some i =>
          let plain := mint uuid in
          let new := hash_vtoken sha256 plain in
          (Some (plain, new),
           {| by_vtoken := <[new := rotated new i]> (delete old (by_vtoken r));
              by_name := <[n := new]> (by_name r) |})
      end
  end.

Definition remove (r : ClientRegistry) (n : string) : bool * ClientRegistry :=
  match by_name r !! n with
  | Some v => (true, {| by_vtoken := delete v (by_vtoken r); by_name := delete n (by_name r) |})
  | None => (false, r)
  end.

Definition relabel (n : string) (l : option string) (i : ClientInfo) : ClientInfo :=
  {| name := n; vtoken := vtoken i; label := l <|> label i; description := description i;
     registered_at := registered_at i; online := online i;
     persona_name := persona_name i; persona_emoji := persona_emoji i |}.

Definition update_client (r : ClientRegistry) (old_name new_name : string) (l : option string)
    : result string UpdateClientError * ClientRegistry :=
  match by_name r !! old_name with
  | None => (Err NotFound, r)
  | Some v =>
      if bool_decide (new_name <> old_name) && bool_decide (is_Some (by_name r !! new_name))
      then (Err NameTaken, r)
      else match by_vtoken r !! v with
      | None => (Err NotFound, r)
      | Some i =>
          (Ok v,
           {| by_vtoken := <[v := relabel (if bool_decide (new_name <> old_name)
                                           then new_name else name i) l i]> (by_vtoken r);
              by_name := if bool_decide (new_name <> old_name)
                         then <[new_name := v]> (delete old_name (by_name r))
                         else by_name r |})
      end
  end.

Definition pick_default_after_remove (r : ClientRegistry) (removed : string) : option string :=
  let other i := negb (String.eqb (vtoken i) removed) in
  (vtoken <$> List.find other (online_clients r))
  <|> (vtoken <$> List.find other (all_clients r)).

(** ** Invariant: the two maps are inverse to each other *)

Record registry_wf (r : ClientRegistry) : Prop := {
  wf_name : forall n v, by_name r !! n = Some v ->
            exists i, by_vtoken r !! v = Some i /\ name i = n;
  wf_vtoken : forall v i, by_vtoken r !! v = Some i ->
              vtoken i = v /\ by_name r !! name i = Some v;
}.

Create HintDb registry.

Section Preservation.
Context (sha256 : string -> list N).

Lemma new_wf : registry_wf ClientRegistry_new.
Proof. split; intros *; cbn; by rewrite lookup_empty. Qed.

Lemma alter_wf f v r :
  (forall i, name (f i) = name i /\ vtoken (f i) = vtoken i) ->
  registry_wf r -> registry_wf (alter_client f v r).
Proof.
  intros Hf [H1 H2]. split; cbn.
  - intros n w Hn. destruct (H1 _ _ Hn) as (i & Hi & <-).
    rewrite lookup_alter. case_decide; subst; rewrite Hi; [|by eauto].
    exists (f i). split; [done|]. apply Hf.
  - intros w i. rewrite lookup_alter. case_decide as E; [|apply H2]. subst w.
    rewrite fmap_Some. intros (j & Hj & ->). destruct (Hf j) as [-> ->]. by apply H2.
Qed.

Lemma insert_wf n h i r :
  by_name r !! n = None -> by_vtoken r !! h = None -> name i = n -> vtoken i = h ->
  registry_wf r -> registry_wf (insert_client n h i r).
Proof.
  intros Hn Hh <- <- [H1 H2]. split; cbn.
  - intros n w. rewrite lookup_insert. case_decide as E; [intros [= <-]; subst n|].
    + exists i. by rewrite lookup_insert_eq.
    + intros Hw. destruct (H1 _ _ Hw) as (j & Hj & Hjn). exists j. split; [|done].
      rewrite lookup_insert_ne; [done|]. intros Heq. congruence.
  - intros w j. rewrite lookup_insert. case_decide as E; [intros [= <-]; subst w|].
    + by rewrite lookup_insert_eq.
    + intros Hj. destruct (H2 _ _ Hj) as [Hv Hm]. split; [done|].
      rewrite lookup_insert_ne; [done|]. intros Heq. rewrite <- Heq in Hm. congruence.
Qed.

Lemma remove_wf n r : registry_wf r -> registry_wf (snd (remove r n)).
Proof.
  intros [H1 H2]. unfold remove. destruct (by_name r !! n) as [v|] eqn:E; [|by split].
  destruct (H1 _ _ E) as (i & Hi & Hin). split; cbn.
  - intros m w [Hne Hw]%lookup_delete_Some. destruct (H1 _ _ Hw) as (j & Hj & Hjm).
    exists j. split; [|done]. rewrite lookup_delete_ne; [done|]. intros <-. congruence.
  - intros w j [Hne Hj]%lookup_delete_Some. destruct (H2 _ _ Hj) as [Hv Hm].
    split; [done|]. rewrite lookup_delete_ne; [done|]. intros Heq. congruence.
Qed.

Lemma rotate_wf uuid n r :
  by_vtoken r !! hash_vtoken sha256 (mint uuid) = None ->
  registry_wf r -> registry_wf (snd (rotate_vtoken sha256 uuid r n)).
Proof.
  intros Hfresh [H1 H2]. unfold rotate_vtoken.
  destruct (by_name r !! n) as [old|] eqn:E; [|by split].
  destruct (H1 _ _ E) as (i & Hi & Hin). rewrite Hi. cbn [snd].
  set (new := hash_vtoken sha256 (mint uuid)) in *. split; cbn.
  - intros m w. rewrite lookup_insert. case_decide as Em; [intros [= <-]; subst m|].
    + eexists. by rewrite lookup_insert_eq.
    + intros Hw. destruct (H1 _ _ Hw) as (j & Hj & Hjm). exists j. split; [|done].
      rewrite lookup_insert_ne by congruence.
      rewrite lookup_delete_ne; [done|]. intros <-. congruence.
  - intros w j. rewrite lookup_insert. case_decide as Ew; [intros [= <-]; subst w|].
    + cbn. rewrite Hin. by rewrite lookup_insert_eq.
    + intros [Hne Hj]%lookup_delete_Some. destruct (H2 _ _ Hj) as [Hv Hm].
      split; [done|]. rewrite lookup_insert_ne; [done|]. intros Heq. congruence.
Qed.

Lemma update_wf old new l r : registry_wf r -> registry_wf (snd (update_client r old new l)).
Proof.
  intros [H1 H2]. unfold update_client. destruct (by_name r !! old) as [v|] eqn:E; [|by split].
  destruct (H1 _ _ E) as (i & Hi & Hin). rewrite Hi.
  case_bool_decide as Hne; cbn [andb].
  - case_bool_decide as Hsome; cbn [snd]; [by split|].
    rewrite <- eq_None_not_Some in Hsome. split; cbn.
    + intros m w. rewrite lookup_insert. case_decide as Em; [intros [= <-]; subst m|].
      * eexists. by rewrite lookup_insert_eq.
      * intros [Hm Hw]%lookup_delete_Some. destruct (H1 _ _ Hw) as (j & Hj & Hjm).
        exists j. split; [|done]. rewrite lookup_insert_ne; [done|]. intros <-. congruence.
    + intros w j. rewrite lookup_insert. case_decide as Ew; [intros [= <-]; subst w|].
      * cbn. rewrite lookup_insert_eq. by destruct (H2 _ _ Hi).
      * intros Hj. destruct (H2 _ _ Hj) as [Hv Hm]. split; [done|].
        rewrite lookup_insert_ne by congruence. rewrite lookup_delete_ne; congruence.
  - cbn [snd]. split; cbn.
    + intros m w Hw. destruct (H1 _ _ Hw) as (j & Hj & Hjm). rewrite lookup_insert.
      case_decide; subst; [|by eauto]. eexists. split; [done|]. cbn. congruence.
    + intros w j. rewrite lookup_insert. case_decide as Ew; [intros [= <-]; subst w|apply H2].
      cbn. by destruct (H2 _ _ Hi).
Qed.
End Preservation.

#[export] Hint Resolve new_wf insert_wf remove_wf rotate_wf update_wf : registry.
#[export] Hint Extern 1 (registry_wf (alter_client _ _ _)) =>
  apply alter_wf; [by intros []|] : registry.

(** ** Reachable registries *)

(** One operation of the hub on its registry. A hash that enters the registry for a
    new name is not in it yet (tokens carry 122 random bits). *)
Inductive registry_step (sha256 : string -> list N) : ClientRegistry -> ClientRegistry -> Prop :=
| step_register uuid now n l d r :
    by_vtoken r !! hash_vtoken sha256 (mint uuid) = None ->
    registry_step sha256 r (snd (register sha256 uuid now r n l d))
| step_register_with_vtoken uuid now n l d vt r :
    by_vtoken r !! unwrap_or vt (hash_vtoken sha256 (mint uuid)) = None ->
    registry_step sha256 r (snd (register_with_vtoken sha256 uuid now r n l d vt))
| step_register_confirmed now n l d h r :
    by_vtoken r !! h = None ->
    registry_step sha256 r (snd (register_confirmed now r n l d h))
| step_update_metadata v l d pn pe r :
    registry_step sha256 r (update_metadata r v l d pn pe)
| step_set_description v d r : registry_step sha256 r (set_description r v d)
| step_mark_online v r : registry_step sha256 r (mark_online r v)
| step_mark_offline v r : registry_step sha256 r (mark_offline r v)
| step_rotate uuid n r :
    by_vtoken r !! hash_vtoken sha256 (mint uuid) = None ->
    registry_step sha256 r (snd (rotate_vtoken sha256 uuid r n))
| step_remove n r : registry_step sha256 r (snd (remove r n))
| step_update_client old new l r :
    registry_step sha256 r (snd (update_client r old new l)).

Lemma register_wf sha256 uuid now r n l d :
  by_vtoken r !! hash_vtoken sha256 (mint uuid) = None ->
  registry_wf r -> registry_wf (snd (register sha256 uuid now r n l d)).
Proof.
  intros Hf H. unfold register. destruct (by_name r !! n) eqn:E; cbn [snd]; auto with registry.
  by apply insert_wf.
Qed.

Lemma register_with_vtoken_wf sha256 uuid now r n l d vt :
  by_vtoken r !! unwrap_or vt (hash_vtoken sha256 (mint uuid)) = None ->
  registry_wf r -> registry_wf (snd (register_with_vtoken sha256 uuid now r n l d vt)).
Proof.
  intros Hf H. unfold register_with_vtoken.
  destruct (by_name r !! n) eqn:E; cbn [snd]; auto with registry.
  destruct vt; by apply insert_wf.
Qed.

Lemma register_confirmed_wf now r n l d h :
  by_vtoken r !! h = None -> registry_wf r -> registry_wf (snd (register_confirmed now r n l d h)).
Proof.
  intros Hf H. unfold register_confirmed. destruct (by_name r !! n) eqn:E; cbn [snd]; [done|].
  by apply insert_wf.
Qed.

#[export] Hint Resolve register_wf register_with_vtoken_wf register_confirmed_wf : registry.

Lemma registry_step_wf sha256 r r' : registry_step sha256 r r' -> registry_wf r -> registry_wf r'.
Proof.
  destruct 1; intros Hwf; unfold update_metadata, set_description, mark_online, mark_offline;
    auto with registry.
Qed.

Lemma reachable_wf sha256 r : rtc (registry_step sha256) ClientRegistry_new r -> registry_wf r.
Proof.
  revert r. apply rtc_ind_r; [apply new_wf|]. intros y z _ Hs Hy. by eapply registry_step_wf.
Qed.

(** (C27) Registry invariant: in every registry the hub can reach, names and token
    hashes are in bijection: looking a client up by name finds the client stored
    under its own hash, every stored client is found by its own name, and two
    clients never share a name or a token. *)
Theorem reachable_registry_bijective (sha256 : string -> list N) (r : ClientRegistry)
    (Hr : rtc (registry_step sha256) ClientRegistry_new r) :
  (forall n i, get_by_name r n = Some i <-> get_by_vtoken r (vtoken i) = Some i /\ name i = n) /\
  (forall i j, i ∈ clients r -> j ∈ clients r -> name i = name j \/ vtoken i = vtoken j -> i = j).
Proof.
  destruct (reachable_wf _ _ Hr) as [H1 H2]. unfold get_by_name, get_by_vtoken. split.
  - intros n i. rewrite bind_Some. split.
    + intros (v & Hn & Hv). destruct (H1 _ _ Hn) as (j & Hj & Hm), (H2 _ _ Hv) as [<- _].
      split; congruence.
    + intros [Hv <-]. exists (vtoken i). split; [by apply H2|done].
  - intros i j Hi Hj Heq. apply list_elem_of_fmap in Hi as ([v ?] & -> & Hv%elem_of_map_to_list).
    apply list_elem_of_fmap in Hj as ([w ?] & -> & Hw%elem_of_map_to_list). cbn in *.
    destruct (H2 _ _ Hv), (H2 _ _ Hw). destruct Heq; congruence.
Qed.

Lemma reachable_registry_bijective_witness :
  let r := snd (register (fun _ => []) "u" 0 ClientRegistry_new "mac" None None) in
  get_by_name r "mac" = Some (with_hashed_vtoken 0 "mac" None None "").
Proof.
  intros r. apply (reachable_registry_bijective (fun _ => []) r).
  - apply rtc_once. by apply step_register.
  - split; reflexivity.
Defined.

(** ** Aliases and visibility *)

Lemma sorted_clients_perm r allowed : sorted_clients r allowed ≡ₚ all_clients_in r allowed.
Proof. apply merge_sort_Permutation. Qed.

#[export] Instance name_le_total : Total name_le.
Proof. intros a b. apply String.le_total. Qed.

#[export] Instance name_le_trans : Transitive name_le.
Proof. intros a b c. unfold name_le. apply String.le_po. Qed.

Lemma sorted_clients_sorted r allowed : Sorted name_le (sorted_clients r allowed).
Proof. apply Sorted_merge_sort. apply _. Qed.

Lemma elem_of_all_clients_in r allowed c :
  c ∈ all_clients_in r allowed <-> c ∈ clients r /\ allowed_in allowed c = true.
Proof. unfold all_clients_in. rewrite !list_elem_of_In. apply filter_In. Qed.

Lemma get_by_name_clients r n c : get_by_name r n = Some c -> c ∈ clients r.
Proof.
  unfold get_by_name. rewrite bind_Some. intros (v & _ & Hv).
  apply list_elem_of_fmap. exists (v, c). split; [done|]. by apply elem_of_map_to_list.
Qed.

(** Aliases respect visibility: whatever a user types, a backend is resolved
    only if it is registered and visible to that user; a numeric alias resolves
    within the list sorted by name of the visible backends only, so number [k]
    is exactly the [k]-th line of the filtered listing. *)
Theorem alias_respects_visibility (r : ClientRegistry) (allowed : option (gset string)) :
  (forall n c, get_by_alias_in r n allowed = Some c -> c ∈ all_clients_in r allowed) /\
  Sorted name_le (sorted_clients r allowed) /\
  sorted_clients r allowed ≡ₚ all_clients_in r allowed /\
  (forall k : nat, get_by_name r (show_nat (S k)) = None -> (Z.of_nat (S k) <= u64_max)%Z ->
     get_by_alias_in r (show_nat (S k)) allowed = sorted_clients r allowed !! k).
Proof.
  split; [|split; [apply sorted_clients_sorted|split; [apply sorted_clients_perm|]]].
  - intros n c. unfold get_by_alias_in. destruct (get_by_name r n) as [x|] eqn:E.
    + destruct (allowed_in allowed x) eqn:Ea; [|done]. intros [= <-].
      apply elem_of_all_clients_in. split; [by eapply get_by_name_clients|done].
    + rewrite bind_Some. intros (k & _ & Hk). destruct (k =? 0)%Z; [done|].
      rewrite <- sorted_clients_perm. by eapply list_elem_of_lookup_2.
  - intros k Hn Hk. unfold get_by_alias_in, show_nat in *.
    rewrite Hn, parse_show_u64 by lia. cbn [mbind option_bind].
    destruct (Z.eqb_spec (Z.of_nat (S k)) 0); [lia|]. f_equal. lia.
Qed.

(** ** Rotating a token, removing a client *)

(** Rotation: rotating the token of a registered client mints a token whose
    hash is now the client's, drops every authority of the old hash, keeps the
    metadata, takes the client offline and leaves every other client alone. *)
Theorem rotate_vtoken_revokes (sha256 : string -> list N) (uuid : string) (r : ClientRegistry)
    (n : string) (i : ClientInfo)
    (Hr : rtc (registry_step sha256) ClientRegistry_new r)
    (Hi : get_by_name r n = Some i)
    (Hfresh : get_by_vtoken r (hash_vtoken sha256 (mint uuid)) = None) :
  exists r' i',
    rotate_vtoken sha256 uuid r n = (Some (mint uuid, hash_vtoken sha256 (mint uuid)), r') /\
    get_by_vtoken r' (vtoken i) = None /\
    get_by_vtoken r' (hash_vtoken sha256 (mint uuid)) = Some i' /\
    get_by_name r' n = Some i' /\ online i' = false /\
    (name i', label i', description i', registered_at i', persona_name i', persona_emoji i')
    = (name i, label i, description i, registered_at i, persona_name i, persona_emoji i) /\
    (forall m, m <> n -> get_by_name r' m = get_by_name r m).
Proof.
  destruct (reachable_wf _ _ Hr) as [H1 H2]. unfold get_by_name, get_by_vtoken in *.
  apply bind_Some in Hi as (v & Hn & Hv). destruct (H2 _ _ Hv) as [Hvt Hnm].
  unfold rotate_vtoken. rewrite Hn, Hv. set (new := hash_vtoken _ _) in *.
  eexists _, _. split; [done|]. cbn.
  rewrite !lookup_insert_eq. cbn. rewrite !lookup_insert_eq, Hvt.
  repeat split; auto.
  - rewrite lookup_insert_ne by congruence. apply lookup_delete_eq.
  - intros m Hm. rewrite lookup_insert_ne by done. destruct (by_name r !! m) as [w|] eqn:E; [cbn|done].
    destruct (H1 _ _ E) as (j & Hj & Hjm).
    rewrite lookup_insert_ne by congruence. apply lookup_delete_ne. intros <-.
    destruct (H1 _ _ Hn) as (k & Hk & Hkn). congruence.
Qed.

Lemma rotate_vtoken_revokes_witness :
  let sha s := [N.of_nat (String.length s)] in
  let r := snd (register sha "u" 0 ClientRegistry_new "mac" None None) in
  exists i r' i', get_by_name r "mac" = Some i /\
    rotate_vtoken sha "uu" r "mac" = (Some (mint "uu", hash_vtoken sha (mint "uu")), r') /\
    get_by_vtoken r' (vtoken i) = None /\ get_by_name r' "mac" = Some i'.
Proof.
  intros sha r.
  destruct (rotate_vtoken_revokes sha "uu" r "mac"
              (with_hashed_vtoken 0 "mac" None None (hash_vtoken sha (mint "u"))))
    as (r' & i' & H & H0 & _ & H1 & _).
  - apply rtc_once. by apply step_register.
  - reflexivity.
  - reflexivity.
  - exists (with_hashed_vtoken 0 "mac" None None (hash_vtoken sha (mint "u"))), r', i'.
    repeat split; auto.
Defined.

Lemma find_Some_iff {A} (f : A -> bool) l :
  is_Some (List.find f l) <-> exists x, x ∈ l /\ f x = true.
Proof.
  split.
  - intros [x [Hx Hf]%List.find_some]. exists x. by rewrite list_elem_of_In.
  - intros (x & Hx & Hf). destruct (List.find f l) eqn:E; [done|].
    apply List.find_none with (x := x) in E; [congruence|by apply list_elem_of_In].
Qed.

Lemma elem_of_online_clients r c : c ∈ online_clients r <-> c ∈ clients r /\ online c = true.
Proof. unfold online_clients. rewrite !list_elem_of_In. apply filter_In. Qed.

Lemma elem_of_all_clients r c : c ∈ all_clients r <-> c ∈ clients r.
Proof. unfold all_clients. rewrite elem_of_all_clients_in. cbn. intuition. Qed.

Lemma pick_default_other r v : pick_default_after_remove r v <> Some v.
Proof.
  unfold pick_default_after_remove. cbv zeta.
  assert (Hf : forall l, vtoken <$> List.find (fun i => negb (String.eqb (vtoken i) v)) l <> Some v).
  { intros l. destruct (List.find _ l) as [i|] eqn:E; [|done]. apply List.find_some in E as [_ E].
    cbn. intros [= Hv]. by rewrite Hv, String.eqb_refl in E. }
  pose proof (Hf (online_clients r)) as H1. pose proof (Hf (all_clients r)) as H2.
  by destruct (vtoken <$> List.find _ (online_clients r)).
Qed.

(** The default backend after a removal: another registered client whenever
    one exists and an online one whenever one of them is online; never the client
    that was removed. *)
Theorem pick_default_after_remove_spec (r : ClientRegistry) (removed : string) :
  (forall v, pick_default_after_remove r removed = Some v -> v <> removed /\
     exists c, c ∈ clients r /\ vtoken c = v /\
       ((exists d, d ∈ clients r /\ vtoken d <> removed /\ online d = true) -> online c = true)) /\
  (pick_default_after_remove r removed = None <->
     forall c, c ∈ clients r -> vtoken c = removed).
Proof.
  unfold pick_default_after_remove. set (other i := negb (vtoken i =? removed)%string).
  assert (Ho : forall i, other i = true <-> vtoken i <> removed).
  { intros i. unfold other. by rewrite negb_true_iff, String.eqb_neq. }
  pose proof (find_Some_iff other (online_clients r)) as Fo.
  pose proof (find_Some_iff other (all_clients r)) as Fa.
  destruct (List.find other (online_clients r)) as [c|] eqn:Eo; cbn.
  - apply List.find_some in Eo as [Hin Hc]. rewrite <- list_elem_of_In, elem_of_online_clients in Hin.
    split.
    + intros v [= <-]. split; [by apply Ho|]. exists c. naive_solver.
    + split; [done|]. intros H. exfalso. apply Ho in Hc. naive_solver.
  - assert (Hno : forall d, d ∈ clients r -> vtoken d <> removed -> online d = true -> False).
    { intros d Hd Hn Hon. destruct Fo as [_ Fo]. destruct Fo as [? [=]].
      exists d. rewrite elem_of_online_clients, Ho. auto. }
    destruct (List.find other (all_clients r)) as [c|] eqn:Ea; cbn.
    + apply List.find_some in Ea as [Hin Hc]. rewrite <- list_elem_of_In, elem_of_all_clients in Hin.
      split; [|split; [done|intros H; exfalso; apply Ho in Hc; naive_solver]].
      intros v [= <-]. split; [by apply Ho|]. exists c. split; [done|]. split; [done|].
      intros (d & ? & ? & ?). exfalso. eauto.
    + split; [done|]. split; [|done]. intros _ d Hd. destruct (decide (vtoken d = removed)); [done|].
      destruct Fa as [_ [? [=]]]. exists d. rewrite elem_of_all_clients, Ho. auto.
Qed.
