(* ===== verification/Acl.v ===== *)
(** * Agent access control ([src/src/hub/acl.rs])

    The parser of the allowlist specification and the three questions the hub
    asks it: may one agent call another, which agents does an agent see, which
    backends does a WeChat user see. *)
From S2P Require Import Prelude StrLemmas.
Import Str.

Definition WILDCARD : string := "*".

Record AgentAcl := {
  a2a : gmap string (gset string);
  wechat_users : gmap string (gset string);
  wechat_public : gset string;
  spec_present : bool;
}.

Definition AgentAcl_default : AgentAcl :=
  {| a2a := ∅; wechat_users := ∅; wechat_public := ∅; spec_present := false |}.

(** [m.entry(k).or_default().insert(v)]. *)
Definition entry_insert (k v : string) (m : gmap string (gset string)) : gmap string (gset string) :=
  <[k := {[v]} ∪ default ∅ (m !! k)]> m.

Definition add_a2a (l r : string) (acl : AgentAcl) : AgentAcl :=
  {| a2a := entry_insert l r (a2a acl); wechat_users := wechat_users acl;
     wechat_public := wechat_public acl; spec_present := spec_present acl |}.

Definition add_user (u r : string) (acl : AgentAcl) : AgentAcl :=
  {| a2a := a2a acl; wechat_users := entry_insert u r (wechat_users acl);
     wechat_public := wechat_public acl; spec_present := spec_present acl |}.

Definition add_public (b : string) (acl : AgentAcl) : AgentAcl :=
  {| a2a := a2a acl; wechat_users := wechat_users acl;
     wechat_public := {[b]} ∪ wechat_public acl; spec_present := spec_present acl |}.

Definition set_present (acl : AgentAcl) : AgentAcl :=
  {| a2a := a2a acl; wechat_users := wechat_users acl;
     wechat_public := wechat_public acl; spec_present := true |}.

(** The body of the loop of [parse]. *)
Definition parse_entry (acl : AgentAcl) (raw : string) : AgentAcl :=
  let entry := trim raw in
  if is_empty entry then acl else
  let acl := set_present acl in
  match split_once "->" entry with
  | Some (lhs, rhs) =>
      let lhs := trim lhs in
      let rhs := trim rhs in
      if is_empty lhs || is_empty rhs then acl else
      match strip_prefix "user:" lhs with
      | Some uid =>
          let uid := trim uid in
          if is_empty uid || (uid =? WILDCARD)%string || (rhs =? WILDCARD)%string then acl
          else add_user uid rhs acl
      | None => add_a2a lhs rhs acl
      end
  | None =>
      if (entry =? WILDCARD)%string then add_a2a WILDCARD WILDCARD acl
      else match strip_prefix "user:" entry with
           | Some _ => acl
           | None => add_public entry acl
           end
  end.

Definition parse (spec : string) : AgentAcl :=
  foldl parse_entry AgentAcl_default (split "," spec).

(** [from_env]: [None] is an unset (or non-Unicode) variable. *)
Definition from_env (var : option string) : AgentAcl :=
  match var with
  | Some spec => if is_empty (trim spec) then AgentAcl_default else parse spec
  | None => AgentAcl_default
  end.

Definition is_configured (acl : AgentAcl) : bool := spec_present acl.

Definition sum_sizes (m : gmap string (gset string)) : nat :=
  sum_list (size <$> (map_to_list m).*2).

Definition a2a_edge_count (acl : AgentAcl) : nat := sum_sizes (a2a acl).

Definition wechat_entry_count (acl : AgentAcl) : nat :=
  size (wechat_public acl) + sum_sizes (wechat_users acl).

Definition allows_a2a (acl : AgentAcl) (caller target : string) : bool :=
  let grants (o : option (gset string)) :=
    match o with
    | Some targets => bool_decide (target ∈ targets) || bool_decide (WILDCARD ∈ targets)
    | None => false
    end in
  grants (a2a acl !! caller) || grants (a2a acl !! WILDCARD).

(** The inner loop of [visible_targets_for_agent] over one edge set. *)
Fixpoint collect_targets (targets : list string) (visible : gset string) : option (gset string) :=
  match targets with
  | [] => Some visible
  | t :: rest =>
      if (t =? WILDCARD)%string then None else collect_targets rest ({[t]} ∪ visible)
  end.

Definition collect_key (acl : AgentAcl) (key : string) (visible : gset string)
    : option (gset string) :=
  match a2a acl !! key with
  | Some targets => collect_targets (elements targets) visible
  | None => Some visible
  end.

Definition visible_targets_for_agent (acl : AgentAcl) (caller : string) : option (gset string) :=
  v ← collect_key acl caller ∅; collect_key acl WILDCARD v.

Definition wechat_visible (acl : AgentAcl) (user_id : string) (registered : list string)
    : option (gset string) :=
  if bool_decide (wechat_public acl = ∅) && bool_decide (wechat_users acl = ∅) then None
  else Some (filter (fun n => n ∈ registered)
               (wechat_public acl ∪ default ∅ (wechat_users acl !! user_id))).

(** ** The meaning of a specification *)

(** What one entry of the documented grammar grants. *)
Inductive Grant := A2A (caller target : string) | User (uid backend : string) | Public (backend : string).

(** [denotes e g]: the trimmed text [e] is an entry of the grammar that grants [g];
    the arrow of an edge is its first [->]. *)
Inductive denotes : string -> Grant -> Prop :=
| den_edge e l r :
    split_once "->" e = Some (l, r) -> trim l <> "" -> trim r <> "" ->
    (forall u, trim l <> "user:" +:+ u) ->
    denotes e (A2A (trim l) (trim r))
| den_user e l r u :
    split_once "->" e = Some (l, r) -> trim l = "user:" +:+ u ->
    trim u <> "" -> trim u <> WILDCARD -> trim r <> "" -> trim r <> WILDCARD ->
    denotes e (User (trim u) (trim r))
| den_star : denotes WILDCARD (A2A WILDCARD WILDCARD)
| den_public e :
    e <> "" -> e <> WILDCARD -> split_once "->" e = None -> (forall u, e <> "user:" +:+ u) ->
    denotes e (Public e).

Definition granted (spec : string) (g : Grant) : Prop :=
  exists raw, raw ∈ split "," spec /\ denotes (trim raw) g.

(** What an ACL has stored. *)
Definition stored (acl : AgentAcl) (g : Grant) : Prop :=
  match g with
  | A2A c t => t ∈ default ∅ (a2a acl !! c)
  | User u b => b ∈ default ∅ (wechat_users acl !! u)
  | Public b => b ∈ wechat_public acl
  end.

Lemma entry_insert_spec k v m k' v' :
  v' ∈ default ∅ (entry_insert k v m !! k') <-> (k' = k /\ v' = v) \/ v' ∈ default ∅ (m !! k').
Proof.
  unfold entry_insert. rewrite lookup_insert. case_decide as E; subst; cbn; set_solver.
Qed.

Lemma denotes_nonempty e g : denotes e g -> e <> "".
Proof. by destruct 1 as [? ? ? H|? ? ? ? H| |]; [intros ->; by vm_compute in H..| |]. Qed.

Lemma strip_user_None s : strip_prefix "user:" s = None <-> forall u, s <> "user:" +:+ u.
Proof.
  split.
  - intros H u ->. by rewrite strip_prefix_app in H.
  - intros H. destruct (strip_prefix "user:" s) as [u|] eqn:E; [|done].
    apply strip_prefix_Some in E. by apply H in E.
Qed.

Lemma stored_present acl g : stored (set_present acl) g <-> stored acl g.
Proof. by destruct g. Qed.

(** Functional form of [denotes]. *)
Definition entry_grant (e : string) : option Grant :=
  match split_once "->" e with
  | Some (l, r) =>
      if is_empty (trim l) || is_empty (trim r) then None else
      match strip_prefix "user:" (trim l) with
      | Some u =>
          if is_empty (trim u) || (trim u =? WILDCARD)%string || (trim r =? WILDCARD)%string
          then None else Some (User (trim u) (trim r))
      | None => Some (A2A (trim l) (trim r))
      end
  | None =>
      if is_empty e then None
      else if (e =? WILDCARD)%string then Some (A2A WILDCARD WILDCARD)
      else match strip_prefix "user:" e with Some _ => None | None => Some (Public e) end
  end.

Lemma is_empty_false s : is_empty s = false <-> s <> "".
Proof. by destruct s. Qed.

Lemma denotes_entry_grant e g : denotes e g -> entry_grant e = Some g.
Proof.
  unfold entry_grant. destruct 1 as [e l r Es Hl Hr Hu|e l r u Es Hl Hu Hw Hr Hrw| |e He Hw Es Hu].
  - apply is_empty_false in Hl, Hr. apply strip_user_None in Hu. by rewrite Es, Hl, Hr, Hu.
  - apply is_empty_false in Hu, Hr. apply String.eqb_neq in Hw, Hrw.
    rewrite Es, Hl, strip_prefix_app, Hu, Hr, Hw, Hrw. by rewrite append_cons.
  - done.
  - apply is_empty_false in He. apply strip_user_None in Hu. apply String.eqb_neq in Hw.
    by rewrite Es, He, Hw, Hu.
Qed.

Lemma entry_grant_denotes e g : entry_grant e = Some g -> denotes e g.
Proof.
  unfold entry_grant. destruct (split_once "->" e) as [[l r]|] eqn:Es.
  - destruct (is_empty (trim l)) eqn:Hl, (is_empty (trim r)) eqn:Hr; try done; cbn [orb].
    apply is_empty_false in Hl, Hr.
    destruct (strip_prefix "user:" (trim l)) as [u|] eqn:Eu.
    + apply strip_prefix_Some in Eu.
      destruct (is_empty (trim u)) eqn:Hu, (String.eqb_spec (trim u) WILDCARD),
        (String.eqb_spec (trim r) WILDCARD); try done. intros [= <-].
      apply is_empty_false in Hu. by econstructor.
    + rewrite strip_user_None in Eu. intros [= <-]. by constructor.
  - destruct (is_empty e) eqn:He; [done|]. apply is_empty_false in He.
    destruct (String.eqb_spec e WILDCARD) as [->|Hw]; [intros [= <-]; constructor|].
    destruct (strip_prefix "user:" e) eqn:Eu; [done|]. rewrite strip_user_None in Eu. intros [= <-].
    by constructor.
Qed.

Definition add_grant (acl : AgentAcl) (g : Grant) : AgentAcl :=
  match g with
  | A2A c t => add_a2a c t acl
  | User u b => add_user u b acl
  | Public b => add_public b acl
  end.

Lemma add_grant_stored acl g g' : stored (add_grant acl g) g' <-> g' = g \/ stored acl g'.
Proof.
  destruct g, g'; cbn; rewrite ?entry_insert_spec; try set_solver; naive_solver.
Qed.

Lemma parse_entry_grant acl raw :
  parse_entry acl raw
  = if is_empty (trim raw) then acl
    else from_option (add_grant (set_present acl)) (set_present acl) (entry_grant (trim raw)).
Proof.
  unfold parse_entry, entry_grant. destruct (is_empty (trim raw)) eqn:E; [done|].
  destruct (split_once _ _) as [[l r]|]; repeat case_match; done.
Qed.

Lemma parse_entry_stored acl raw g :
  stored (parse_entry acl raw) g <-> stored acl g \/ denotes (trim raw) g.
Proof.
  rewrite parse_entry_grant. destruct (is_empty (trim raw)) eqn:E.
  { apply is_empty_spec in E. split; [auto|]. intros [|H]; [done|]. by apply denotes_nonempty in H. }
  destruct (entry_grant (trim raw)) as [h|] eqn:Eh; cbn.
  - rewrite add_grant_stored, stored_present. split.
    + intros [->|]; [right; by apply entry_grant_denotes|auto].
    + intros [|H%denotes_entry_grant]; [auto|left; congruence].
  - rewrite stored_present. split; [auto|]. intros [|H%denotes_entry_grant]; [done|congruence].
Qed.

Lemma parse_stored spec g : stored (parse spec) g <-> granted spec g.
Proof.
  unfold parse, granted. set (l := split "," spec).
  assert (H : forall acl, stored (foldl parse_entry acl l) g <->
              stored acl g \/ exists raw, raw ∈ l /\ denotes (trim raw) g).
  { induction l as [|raw l IH]; intros acl; cbn.
    - split; [auto|]. intros [|(? & H & _)]; [done|set_solver].
    - rewrite IH, parse_entry_stored. set_solver. }
  rewrite H. assert (~ stored AgentAcl_default g) by (destruct g; cbn; set_solver). tauto.
Qed.

Lemma allows_a2a_stored acl c t :
  allows_a2a acl c t = true <->
  exists c' t', stored acl (A2A c' t') /\ (c' = c \/ c' = WILDCARD) /\ (t' = t \/ t' = WILDCARD).
Proof.
  unfold allows_a2a. cbn.
  assert (H : forall o : option (gset string),
    match o with Some ts => bool_decide (t ∈ ts) || bool_decide (WILDCARD ∈ ts) | None => false end = true
    <-> t ∈ default ∅ o \/ WILDCARD ∈ default ∅ o).
  { intros [ts|]; cbn; [|set_solver]. by rewrite orb_true_iff, !bool_decide_eq_true. }
  rewrite orb_true_iff, !H. split; [naive_solver|]. intros (c' & t' & Hs & [-> | ->] & [-> | ->]); auto.
Qed.

(** No user is listed without a backend. *)
Definition users_listed (acl : AgentAcl) : Prop := map_Forall (fun _ bs => bs <> ∅) (wechat_users acl).

Lemma parse_users_listed spec : users_listed (parse spec).
Proof.
  unfold parse. assert (H : users_listed AgentAcl_default) by apply map_Forall_empty.
  revert H. generalize AgentAcl_default. induction (split "," spec) as [|raw l IH]; intros acl H; [done|].
  cbn. apply IH. rewrite parse_entry_grant. destruct (is_empty _); [done|].
  destruct (entry_grant _) as [[]|]; cbn; try done.
  unfold users_listed. cbn. apply map_Forall_insert_2; [set_solver|done].
Qed.

Lemma wechat_visible_None acl u reg :
  users_listed acl ->
  wechat_visible acl u reg = None <->
  forall b, ~ stored acl (Public b) /\ forall u', ~ stored acl (User u' b).
Proof.
  intros Hu. unfold wechat_visible, stored. case_bool_decide as Hp; cbn [andb].
  - case_bool_decide as Hw.
    + split; [|done]. intros _ b. rewrite Hp, Hw. split; [set_solver|]. intros u'.
      rewrite lookup_empty. set_solver.
    + split; [done|]. intros H. destruct Hw. apply map_empty. intros u'.
      destruct (wechat_users acl !! u') as [bs|] eqn:E; [|done].
      destruct (Hu _ _ E). apply set_eq. intros b. destruct (H b) as [_ Hb].
      specialize (Hb u'). rewrite E in Hb. set_solver.
  - split; [done|]. intros H. destruct Hp. apply set_eq. intros b. destruct (H b). set_solver.
Qed.

(** (C34) The allowlist means what its grammar says: after parsing any text, an A2A
    call is allowed exactly when an entry of the text grants it, directly or through
    a wildcard; a WeChat user sees exactly the registered backends that an entry
    makes public or grants to that user, and is unrestricted exactly when no entry
    grants a backend to anybody. Malformed entries are as if absent, and neither order
    nor repetition of entries matters; so a text whose only WeChat entries are
    malformed leaves every user unrestricted, against the module's promise that a typo
    narrows access ([typo_opens_visibility]). *)
Theorem allowlist_meaning (spec : string) :
  (forall c t, allows_a2a (parse spec) c t = true <->
     exists c' t', granted spec (A2A c' t') /\ (c' = c \/ c' = WILDCARD) /\ (t' = t \/ t' = WILDCARD)) /\
  (forall u reg, wechat_visible (parse spec) u reg = None <->
     forall b, ~ granted spec (Public b) /\ forall u', ~ granted spec (User u' b)) /\
  (forall u reg s b, wechat_visible (parse spec) u reg = Some s ->
     b ∈ s <-> b ∈ reg /\ (granted spec (Public b) \/ granted spec (User u b))).
Proof.
  split; [|split].
  - intros c t. rewrite allows_a2a_stored. by setoid_rewrite parse_stored.
  - intros u reg. setoid_rewrite <- parse_stored. apply wechat_visible_None, parse_users_listed.
  - intros u reg s b. rewrite <- !parse_stored. unfold wechat_visible.
    destruct (_ && _); [done|]. intros [= <-]. cbn. rewrite elem_of_filter. set_solver.
Qed.

(** One forgotten backend name turns an allowlist that shows [codex] to [alice] alone
    into one that shows every backend to everybody. *)
Lemma typo_opens_visibility :
  wechat_visible (parse "user:alice->codex") "bob" ["claude"; "codex"] = Some ∅ /\
  wechat_visible (parse "user:alice->") "bob" ["claude"; "codex"] = None /\
  is_configured (parse "user:alice->") = true.
Proof. split_and!; vm_compute; reflexivity. Qed.

Lemma collect_targets_spec ts visible :
  match collect_targets ts visible with
  | None => WILDCARD ∈ ts
  | Some s => WILDCARD ∉ ts /\ forall t, t ∈ s <-> t ∈ ts \/ t ∈ visible
  end.
Proof.
  revert visible. induction ts as [|t ts IH]; intros visible; cbn [collect_targets]; [set_solver|].
  destruct (String.eqb_spec t WILDCARD) as [->|Hn]; [set_solver|].
  specialize (IH ({[t]} ∪ visible)). destruct (collect_targets _ _); set_solver.
Qed.

Lemma collect_key_spec acl key visible :
  match collect_key acl key visible with
  | None => stored acl (A2A key WILDCARD)
  | Some s => ~ stored acl (A2A key WILDCARD) /\
              forall t, t ∈ s <-> stored acl (A2A key t) \/ t ∈ visible
  end.
Proof.
  unfold collect_key. cbn. destruct (a2a acl !! key) as [ts|]; cbn; [|set_solver].
  pose proof (collect_targets_spec (elements ts) visible) as H.
  destruct (collect_targets _ _); set_solver.
Qed.

(** Listing and calling agree: an agent that is shown an unrestricted list may
    call every target, and otherwise may call exactly the targets it is shown. *)
Theorem visible_targets_agree (acl : AgentAcl) (caller : string) :
  match visible_targets_for_agent acl caller with
  | None => forall t, allows_a2a acl caller t = true
  | Some s => forall t, allows_a2a acl caller t = true <-> t ∈ s
  end.
Proof.
  unfold visible_targets_for_agent. pose proof (collect_key_spec acl caller ∅) as H1.
  destruct (collect_key acl caller ∅) as [v|] eqn:E1; cbn [mbind option_bind].
  - pose proof (collect_key_spec acl WILDCARD v) as H2.
    destruct (collect_key acl WILDCARD v) as [s|]; intros t; rewrite allows_a2a_stored.
    + destruct H1 as [Hn1 H1], H2 as [Hn2 H2]. rewrite H2, H1, elem_of_empty. split.
      * intros (c' & t' & Hs & [-> | ->] & [-> | ->]); tauto.
      * intros [Hs|[Hs|[]]]; [exists WILDCARD, t|exists caller, t]; auto.
    + exists WILDCARD, WILDCARD. auto.
  - intros t. rewrite allows_a2a_stored. exists caller, WILDCARD. auto.
Qed.
