(* ===== verification/Pairing.v ===== *)
(** * Pairing sessions ([src/src/hub/pairing.rs])

    The registry behind the QR login of backends. An [Instant] is a number of
    nanoseconds on the monotonic clock; an operation runs under the registry's
    write lock and reads the clock once. Random codes and CSRF tokens are
    arguments of the operations that mint them. *)
From S2P Require Import Prelude StrLemmas VToken.
Import Str.

Definition secs (n : Z) : Z := n * 1000000000.
Definition PAIRING_TTL : Z := secs 600.
Definition SCANNED_TTL : Z := secs 60.
Definition CONFIRMED_TTL : Z := secs 86400.
Definition VTOKEN_CLAIM_WINDOW : Z := secs 120.
Definition MAX_PAIRING_SESSIONS : nat := 1024.

(** [Instant::elapsed], which saturates at zero. *)
Definition elapsed (now t : Z) : Z := Z.max 0 (now - t).

Inductive PairingStatus := Wait | Scanned | Confirmed | Expired.

#[export] Instance PairingStatus_eq_dec : EqDecision PairingStatus.
Proof. solve_decision. Defined.

Record PairingSession := {
  code : string;
  created_at : Z;
  scanned_at : option Z;
  status : PairingStatus;
  vtoken : option string;
  client_name : option string;
  client_label : option string;
  csrf : option string;
}.

Inductive PairingError :=
  NotFound | Expired_ | AlreadyConfirmed | NotScanned | CsrfMismatch | TooManySessions
| NameCollision.

#[export] Instance PairingError_eq_dec : EqDecision PairingError.
Proof. solve_decision. Defined.

Definition scan_or_created_over (now : Z) (s : PairingSession) : bool :=
  match scanned_at s with
  | Some t => (SCANNED_TTL <? elapsed now t)%Z
  | None => (PAIRING_TTL <? elapsed now (created_at s))%Z
  end.

Definition is_expired (now : Z) (s : PairingSession) : bool :=
  match status s with
  | Confirmed => false
  | Scanned => scan_or_created_over now s
  | _ => (PAIRING_TTL <? elapsed now (created_at s))%Z
  end.

Definition should_evict (now : Z) (s : PairingSession) : bool :=
  match status s with
  | Confirmed => (CONFIRMED_TTL <? elapsed now (created_at s))%Z
  | Scanned => scan_or_created_over now s
  | _ => (PAIRING_TTL <? elapsed now (created_at s))%Z
  end.

Definition public_status (now : Z) (s : PairingSession) : PairingStatus :=
  if is_expired now s then Expired else status s.

Definition status_str (now : Z) (s : PairingSession) : string :=
  match public_status now s with
  | Wait => "wait" | Scanned => "scaned" | Confirmed => "confirmed" | Expired => "expired"
  end.

Record PairingRegistry := {
  sessions : gmap string PairingSession;
  confirmed_sessions : gmap string (PairingSession * Z);
}.

Definition PairingRegistry_new : PairingRegistry :=
  {| sessions := ∅; confirmed_sessions := ∅ |}.

Definition purge_expired (now : Z) (r : PairingRegistry) : PairingRegistry :=
  {| sessions := filter (fun p => should_evict now p.2 = false) (sessions r);
     confirmed_sessions :=
       filter (fun p => (elapsed now p.2.2 < CONFIRMED_TTL)%Z) (confirmed_sessions r) |}.

Definition set_sessions (m : gmap string PairingSession) (r : PairingRegistry) : PairingRegistry :=
  {| sessions := m; confirmed_sessions := confirmed_sessions r |}.

Definition set_confirmed (m : gmap string (PairingSession * Z)) (r : PairingRegistry)
    : PairingRegistry :=
  {| sessions := sessions r; confirmed_sessions := m |}.

Definition new_session (now : Z) (c : string) : PairingSession :=
  {| code := c; created_at := now; scanned_at := None; status := Wait; vtoken := None;
     client_name := None; client_label := None; csrf := None |}.

Definition create (now : Z) (uuid : string) (r : PairingRegistry)
    : result string PairingError * PairingRegistry :=
  let r := purge_expired now r in
  if (MAX_PAIRING_SESSIONS <=? size (sessions r) + size (confirmed_sessions r))
  then (Err TooManySessions, r)
  else let c := "pair_" +:+ uuid in
       (Ok c, set_sessions (<[c := new_session now c]> (sessions r)) r).

Definition get (r : PairingRegistry) (c : string) : option PairingSession :=
  match sessions r !! c with
  | Some s => Some s
  | None => fst <$> confirmed_sessions r !! c
  end.

Definition without_vtoken (s : PairingSession) : PairingSession :=
  {| code := code s; created_at := created_at s; scanned_at := scanned_at s; status := status s;
     vtoken := None; client_name := client_name s; client_label := client_label s;
     csrf := csrf s |}.

Definition claim_confirmed_vtoken (now : Z) (r : PairingRegistry) (c : string)
    : option (PairingSession * option string) * PairingRegistry :=
  let r := purge_expired now r in
  match confirmed_sessions r !! c with
  | Some (s, confirmed_at) =>
      match vtoken s with
      | None => (Some (s, None), r)
      | Some token =>
          if (elapsed now confirmed_at <? VTOKEN_CLAIM_WINDOW)%Z then (Some (s, Some token), r)
          else let s := without_vtoken s in
               (Some (s, None),
                set_confirmed (<[c := (s, confirmed_at)]> (confirmed_sessions r)) r)
      end
  | None => ((fun s => (s, None)) <$> sessions r !! c, r)
  end.

Definition set_status (st : PairingStatus) (s : PairingSession) : PairingSession :=
  {| code := code s; created_at := created_at s; scanned_at := scanned_at s; status := st;
     vtoken := vtoken s; client_name := client_name s; client_label := client_label s;
     csrf := csrf s |}.

Definition scan (now : Z) (s : PairingSession) : PairingSession :=
  if bool_decide (status s = Wait) then
    {| code := code s; created_at := created_at s; scanned_at := Some now; status := Scanned;
       vtoken := vtoken s; client_name := client_name s; client_label := client_label s;
       csrf := csrf s |}
  else s.

Definition mint_csrf (fresh : string) (s : PairingSession) : PairingSession :=
  match csrf s with
  | None =>
      {| code := code s; created_at := created_at s; scanned_at := scanned_at s;
         status := status s; vtoken := vtoken s; client_name := client_name s;
         client_label := client_label s; csrf := Some fresh |}
  | Some _ => s
  end.

(** [generate_csrf]: the hex rendering of sixteen bytes of the OS generator. *)
Definition generate_csrf (bytes : list N) : string := hex_lower bytes.

Definition mark_scanned (now : Z) (rng : list N) (r : PairingRegistry) (c : string)
    : bool * PairingRegistry :=
  let r := purge_expired now r in
  match sessions r !! c with
  | Some s =>
      if is_expired now s
      then (false, set_sessions (<[c := set_status Expired s]> (sessions r)) r)
      else (true, set_sessions (<[c := mint_csrf (generate_csrf rng) (scan now s)]> (sessions r)) r)
  | None => (false, r)
  end.

(** [constant_time_eq]: the accumulated difference of two byte strings. *)
Fixpoint zip_diff (a b : string) (diff : N) : N :=
  match a, b with
  | String x a, String y b => zip_diff a b (N.lor diff (N.lxor (byte x) (byte y)))
  | _, _ => diff
  end.

Definition constant_time_eq (a b : string) : bool :=
  if negb (Str.len a =? Str.len b) then false else (zip_diff a b 0 =? 0)%N.

Definition csrf_matches (s : PairingSession) (header : string) : bool :=
  match csrf s with Some token => constant_time_eq token header | None => false end.

Definition pre_check_confirm (now : Z) (r : PairingRegistry) (c header : string)
    : result unit PairingError * PairingRegistry :=
  let r := purge_expired now r in
  (if bool_decide (is_Some (confirmed_sessions r !! c)) then Err AlreadyConfirmed else
   match sessions r !! c with
   | None => Err NotFound
   | Some s =>
       if is_expired now s then Err Expired_
       else if bool_decide (status s = Confirmed) then Err AlreadyConfirmed
       else if negb (csrf_matches s header) then Err CsrfMismatch
       else if bool_decide (status s <> Scanned) then Err NotScanned
       else Ok tt
   end, r).

Definition confirmed_session (n : string) (l : option string) (vt : string) (s : PairingSession)
    : PairingSession :=
  {| code := code s; created_at := created_at s; scanned_at := scanned_at s;
     status := Confirmed; vtoken := Some vt; client_name := Some n; client_label := l;
     csrf := None |}.

(** [confirm] takes the session out of the live map before it checks it. *)
Definition confirm (now : Z) (r : PairingRegistry) (c n : string) (l : option string)
    (vt header : string) : result unit PairingError * PairingRegistry :=
  let r := purge_expired now r in
  if bool_decide (is_Some (confirmed_sessions r !! c)) then (Err AlreadyConfirmed, r) else
  match sessions r !! c with
  | None => (Err NotFound, r)
  | Some s =>
      let r := set_sessions (delete c (sessions r)) r in
      if is_expired now s then (Err Expired_, r)
      else if bool_decide (status s = Confirmed) then (Err AlreadyConfirmed, r)
      else if negb (csrf_matches s header) then (Err CsrfMismatch, r)
      else if bool_decide (status s <> Scanned) then (Err NotScanned, r)
      else (Ok tt, set_confirmed (<[c := (confirmed_session n l vt s, now)]>
                                    (confirmed_sessions r)) r)
  end.

Definition remove_confirmed (r : PairingRegistry) (c : string) : PairingRegistry :=
  set_confirmed (delete c (confirmed_sessions r)) r.

(** ** Runs of the registry *)

Inductive Event :=
| Create (uuid : string)
| MarkScanned (c : string) (rng : list N)
| PreCheck (c header : string)
| Confirm (c n : string) (l : option string) (vt header : string)
| Claim (c : string)
| RemoveConfirmed (c : string).

Inductive Reply :=
| Created (x : result string PairingError)
| ScanReply (b : bool)
| Checked (x : result unit PairingError)
| Claimed (x : option (PairingSession * option string))
| Done.

Definition step (now : Z) (e : Event) (r : PairingRegistry) : Reply * PairingRegistry :=
  match e with
  | Create u => let '(x, r) := create now u r in (Created x, r)
  | MarkScanned c rng => let '(b, r) := mark_scanned now rng r c in (ScanReply b, r)
  | PreCheck c h => let '(x, r) := pre_check_confirm now r c h in (Checked x, r)
  | Confirm c n l vt h => let '(x, r) := confirm now r c n l vt h in (Checked x, r)
  | Claim c => let '(x, r) := claim_confirmed_vtoken now r c in (Claimed x, r)
  | RemoveConfirmed c => (Done, remove_confirmed r c)
  end.

(** A history, latest entry first: at which time which operation was called, and
    what it answered. *)
Definition History := list (Z * Event * Reply).

(** [run h t r]: the calls [h], the last of them not after [t], lead to [r]. *)
Inductive run : History -> Z -> PairingRegistry -> Prop :=
| run_nil t : run [] t PairingRegistry_new
| run_step h t r now e :
    run h t r -> (t <= now)%Z ->
    run ((now, e, (step now e r).1) :: h) now (step now e r).2.

(** What a live session owes to the history. *)
Definition session_ok (h : History) (c : string) (s : PairingSession) : Prop :=
  match status s with
  | Wait => scanned_at s = None /\ csrf s = None /\ vtoken s = None
  | Scanned => exists t rng, scanned_at s = Some t /\ csrf s = Some (generate_csrf rng) /\
      vtoken s = None /\ (t, MarkScanned c rng, ScanReply true) ∈ h
  | _ => False
  end.

Definition confirmed_ok (h : History) (c : string) (p : PairingSession * Z) : Prop :=
  status p.1 = Confirmed /\
  exists n l vt hd, (p.2, Confirm c n l vt hd, Checked (Ok tt)) ∈ h /\
    (vtoken p.1 = Some vt \/ vtoken p.1 = None).

Record inv (h : History) (r : PairingRegistry) : Prop := {
  inv_sessions : map_Forall (session_ok h) (sessions r);
  inv_confirmed : map_Forall (confirmed_ok h) (confirmed_sessions r);
  inv_size : size (sessions r) + size (confirmed_sessions r) <= MAX_PAIRING_SESSIONS;
}.

Lemma session_ok_cons x h c s : session_ok h c s -> session_ok (x :: h) c s.
Proof. unfold session_ok. destruct (status s); set_solver. Qed.

Lemma confirmed_ok_cons x h c p : confirmed_ok h c p -> confirmed_ok (x :: h) c p.
Proof. unfold confirmed_ok. set_solver. Qed.

Lemma inv_cons x h r : inv h r -> inv (x :: h) r.
Proof.
  intros [H1 H2 H3]. split; [| |done]; (eapply map_Forall_impl; [eassumption|]);
    intros; by (apply session_ok_cons || apply confirmed_ok_cons).
Qed.

Lemma size_filter_le {V} (P : string * V -> Prop) `{!forall x, Decision (P x)} (m : gmap string V) :
  size (filter P m) <= size m.
Proof. apply map_subseteq_size, map_filter_subseteq. Qed.

Lemma purge_inv now h r : inv h r -> inv h (purge_expired now r).
Proof.
  intros [H1 H2 H3]. split; cbn.
  - intros c s [? _]%map_lookup_filter_Some. by eapply H1.
  - intros c s [? _]%map_lookup_filter_Some. by eapply H2.
  - pose proof (size_filter_le (fun p => should_evict now p.2 = false) (sessions r)).
    pose proof (size_filter_le (fun p => (elapsed now p.2.2 < CONFIRMED_TTL)%Z) (confirmed_sessions r)).
    lia.
Qed.

Lemma size_insert_le {V} (m : gmap string V) k x : size (<[k := x]> m) <= S (size m).
Proof. rewrite map_size_insert. destruct (m !! k); cbn; lia. Qed.


Lemma size_move {V W} (m : gmap string V) (m' : gmap string W) k x :
  is_Some (m !! k) -> size (delete k m) + size (<[k := x]> m') <= size m + size m'.
Proof.
  intros [y Hy]. pose proof (size_insert_le m' k x). rewrite map_size_delete, Hy.
  assert (size m <> 0) by (intros E; apply map_size_empty_inv in E; subst; by rewrite lookup_empty in Hy).
  lia.
Qed.

Lemma purged_live now r c s :
  sessions (purge_expired now r) !! c = Some s -> status s <> Confirmed -> is_expired now s = false.
Proof.
  intros [_ H]%map_lookup_filter_Some Hs. unfold should_evict, is_expired in *. cbn in H.
  by destruct (status s).
Qed.

(** Steps of the invariant: replacing a live session, adding and dropping entries. *)
Lemma inv_set_session h r c s :
  inv h r -> is_Some (sessions r !! c) -> session_ok h c s ->
  inv h (set_sessions (<[c := s]> (sessions r)) r).
Proof.
  intros [H1 H2 H3] Hc Hs. split; cbn; [|done|by rewrite map_size_insert_Some].
  by apply map_Forall_insert_2.
Qed.

Lemma inv_drop_session h r c : inv h r -> inv h (set_sessions (delete c (sessions r)) r).
Proof.
  intros [H1 H2 H3]. split; cbn; [by apply map_Forall_delete|done|].
  pose proof (map_subseteq_size _ _ (delete_subseteq (sessions r) c)). lia.
Qed.

Lemma inv_set_confirmed h r c p :
  inv h r -> is_Some (confirmed_sessions r !! c) -> confirmed_ok h c p ->
  inv h (set_confirmed (<[c := p]> (confirmed_sessions r)) r).
Proof.
  intros [H1 H2 H3] Hc Hs. split; cbn; [done| |by rewrite map_size_insert_Some].
  by apply map_Forall_insert_2.
Qed.

Lemma create_inv now u h r x r' :
  inv h r -> create now u r = (x, r') -> inv h r'.
Proof.
  intros H%(purge_inv now). unfold create. destruct (Nat.leb_spec MAX_PAIRING_SESSIONS
    (size (sessions (purge_expired now r)) + size (confirmed_sessions (purge_expired now r))))
    as [Hle|Hlt]; intros [= <- <-]; [done|]. destruct H as [H1 H2 H3]. split; cbn; [|done|].
  - by apply map_Forall_insert_2.
  - cbn in Hlt. pose proof (size_insert_le (sessions (purge_expired now r)) ("pair_" +:+ u)
      (new_session now ("pair_" +:+ u))) as Hs. cbn in Hs. lia.
Qed.

Lemma scan_ok now rng h c s :
  session_ok h c s ->
  session_ok ((now, MarkScanned c rng, ScanReply true) :: h) c
    (mint_csrf (generate_csrf rng) (scan now s)).
Proof.
  unfold session_ok, scan, mint_csrf. destruct (status s) eqn:Es; try done.
  - intros (Ht & Hc & Hv). rewrite bool_decide_true by done. cbn. rewrite Hc. cbn.
    exists now, rng. set_solver.
  - intros (t & g & Ht & Hc & Hv & Hin). rewrite bool_decide_false by done. rewrite Hc, Es.
    exists t, g. set_solver.
Qed.

Lemma mark_scanned_inv now rng h r c b r' :
  inv h r -> mark_scanned now rng r c = (b, r') ->
  inv ((now, MarkScanned c rng, ScanReply b) :: h) r'.
Proof.
  intros H%(purge_inv now). unfold mark_scanned.
  destruct (sessions (purge_expired now r) !! c) as [s|] eqn:E; cbv zeta.
  - pose proof (inv_sessions _ _ H _ _ E) as Hs.
    rewrite (purged_live _ _ _ _ E) by (unfold session_ok in Hs; destruct (status s); done).
    intros Heq. apply pair_equal_spec in Heq as [<- <-]. apply inv_set_session; [by apply inv_cons|by eauto|by apply scan_ok].
  - intros [= <- <-]. by apply inv_cons.
Qed.

Lemma confirm_Ok now r c n l vt hd r' :
  confirm now r c n l vt hd = (Ok tt, r') ->
  let p := purge_expired now r in
  confirmed_sessions p !! c = None /\
  exists s, sessions p !! c = Some s /\ is_expired now s = false /\ status s = Scanned /\
    csrf_matches s hd = true /\
    r' = {| sessions := delete c (sessions p);
            confirmed_sessions := <[c := (confirmed_session n l vt s, now)]> (confirmed_sessions p) |}.
Proof.
  unfold confirm. cbv zeta.
  case_bool_decide as Hc; [done|]. rewrite <- eq_None_not_Some in Hc.
  destruct (sessions (purge_expired now r) !! c) as [s|] eqn:E; [|done].
  destruct (is_expired now s) eqn:Ex; [done|]. case_bool_decide as Hst; [done|].
  destruct (csrf_matches s hd) eqn:Em; [cbn [negb]|done]. case_bool_decide as Hsc; [done|].
  assert (status s = Scanned) by auto.
  intros Heq. apply pair_equal_spec in Heq as [_ <-]. split; [done|]. by exists s.
Qed.

Lemma confirm_inv now h r c n l vt hd x r' :
  inv h r -> confirm now r c n l vt hd = (x, r') ->
  inv ((now, Confirm c n l vt hd, Checked x) :: h) r'.
Proof.
  intros H Hc. destruct x as [[]|err].
  - destruct (confirm_Ok _ _ _ _ _ _ _ _ Hc) as (Hn & s & Hs & Hx & Hst & Hm & ->).
    apply (purge_inv now) in H. destruct H as [H1 H2 H3]. split; cbn.
    + apply map_Forall_delete. eapply map_Forall_impl; [exact H1|]. intros. by apply session_ok_cons.
    + apply map_Forall_insert_2; [|eapply map_Forall_impl; [exact H2|]; intros; by apply confirmed_ok_cons].
      split; [done|]. exists n, l, vt, hd. cbn. set_solver.
    + etrans; [apply size_move|exact H3]. by eauto.
  - apply inv_cons. apply (purge_inv now) in H. unfold confirm in Hc. cbv zeta in Hc.
    repeat (case_match; simplify_eq); auto using inv_drop_session.
Qed.

Lemma claim_inv now h r c x r' :
  inv h r -> claim_confirmed_vtoken now r c = (x, r') -> inv h r'.
Proof.
  intros H%(purge_inv now). unfold claim_confirmed_vtoken. cbv zeta.
  destruct (confirmed_sessions (purge_expired now r) !! c) as [[s t]|] eqn:E; [|by intros [= <- <-]].
  destruct (vtoken s) eqn:Ev; [|by intros [= <- <-]].
  destruct (_ <? _)%Z; intros [= <- <-]; [done|]. apply inv_set_confirmed; [done|by eauto|].
  destruct (inv_confirmed _ _ H _ _ E) as (Hst & n & l & vt & hd & Hin & _).
  split; [done|]. exists n, l, vt, hd. auto.
Qed.

Lemma remove_confirmed_inv h r c : inv h r -> inv h (remove_confirmed r c).
Proof.
  intros [H1 H2 H3]. split; cbn; [done|by apply map_Forall_delete|].
  pose proof (map_subseteq_size _ _ (delete_subseteq (confirmed_sessions r) c)). lia.
Qed.

Lemma run_inv h t r : run h t r -> inv h r.
Proof.
  induction 1 as [|h t r now e Hrun IH Hle].
  { split; cbn; [apply map_Forall_empty..|]. rewrite !map_size_empty. unfold MAX_PAIRING_SESSIONS. lia. }
  destruct e; cbn [step].
  - destruct (create now uuid r) eqn:E. by eapply inv_cons, create_inv.
  - destruct (mark_scanned now rng r c) eqn:E. by eapply mark_scanned_inv.
  - cbn. by apply inv_cons, purge_inv.
  - destruct (confirm now r c n l vt header) eqn:E. by eapply confirm_inv.
  - destruct (claim_confirmed_vtoken now r c) eqn:E. by eapply inv_cons, claim_inv.
  - by apply inv_cons, remove_confirmed_inv.
Qed.

(** ** Confirmation *)

Lemma zip_diff_zero a b d :
  Str.len a = Str.len b -> zip_diff a b d = 0%N <-> d = 0%N /\ a = b.
Proof.
  revert b d. induction a as [|x a IH]; intros [|y b] d; cbn; try done; [naive_solver|].
  intros [= Hl]. rewrite (IH b) by done. rewrite N.lor_eq_0_iff, N.lxor_eq_0_iff.
  assert (Hxy : byte x = byte y <-> x = y).
  { unfold byte. split; [|by intros ->]. intros H%(f_equal Ascii.ascii_of_N).
    by rewrite !Ascii.ascii_N_embedding in H. }
  rewrite Hxy. naive_solver.
Qed.

Lemma constant_time_eq_spec a b : constant_time_eq a b = true <-> a = b.
Proof.
  unfold constant_time_eq. destruct (Nat.eqb_spec (Str.len a) (Str.len b)) as [E|E]; cbn [negb].
  - rewrite N.eqb_eq, zip_diff_zero by done. naive_solver.
  - split; [done|]. by intros ->.
Qed.

(** A session stays confirmed for the rest of its day. *)
Lemma confirm_again now r c n l vt hd s t :
  confirmed_sessions r !! c = Some (s, t) -> (elapsed now t < CONFIRMED_TTL)%Z ->
  (confirm now r c n l vt hd).1 = Err AlreadyConfirmed.
Proof.
  intros Hc Ht. unfold confirm. rewrite bool_decide_true; [done|]. exists (s, t).
  by apply map_lookup_filter_Some.
Qed.

(** (C13) Confirmation: in every run, a confirm succeeds only for a code that was
    scanned in this run at most sixty seconds ago, and only with the CSRF token
    that scan minted; it stores the new credential, takes the code out of the
    live sessions, and every further confirm of that code within a day is refused
    as already confirmed, whatever it presents. *)
Theorem confirm_needs_fresh_scan (h : History) (t now : Z) (r r' : PairingRegistry)
    (c n : string) (l : option string) (vt hd : string)
    (Hrun : run h t r) (Hok : confirm now r c n l vt hd = (Ok tt, r')) :
  (exists t0 rng, (t0, MarkScanned c rng, ScanReply true) ∈ h /\
     (elapsed now t0 <= SCANNED_TTL)%Z /\ hd = generate_csrf rng) /\
  (exists s, get r' c = Some s /\ status s = Confirmed /\ vtoken s = Some vt /\
     client_name s = Some n /\ client_label s = l /\ csrf s = None) /\
  (forall now' n' l' vt' hd', (now' - now < CONFIRMED_TTL)%Z ->
     (confirm now' r' c n' l' vt' hd').1 = Err AlreadyConfirmed).
Proof.
  pose proof (run_inv _ _ _ Hrun) as Hinv.
  destruct (confirm_Ok _ _ _ _ _ _ _ _ Hok) as (_ & s & Hs & Hx & Hst & Hm & ->).
  pose proof (inv_sessions _ _ (purge_inv now _ _ Hinv) _ _ Hs) as Hok'.
  unfold session_ok in Hok'. rewrite Hst in Hok'. destruct Hok' as (t0 & rng & Ht0 & Hcs & Hv & Hin).
  split; [|split].
  - exists t0, rng. split; [done|]. unfold is_expired, scan_or_created_over in Hx.
    rewrite Hst, Ht0, Z.ltb_ge in Hx. split; [done|].
    unfold csrf_matches in Hm. rewrite Hcs in Hm. by apply constant_time_eq_spec in Hm.
  - exists (confirmed_session n l vt s). unfold get. cbn [sessions confirmed_sessions].
    by rewrite lookup_delete_eq, lookup_insert_eq.
  - intros now' n' l' vt' hd' Hlt. eapply confirm_again; [apply lookup_insert_eq|].
    unfold elapsed, CONFIRMED_TTL, secs in *. lia.
Qed.

(** Executing a list of calls, latest first. *)
Fixpoint exec (calls : list (Z * Event)) : History * PairingRegistry :=
  match calls with
  | [] => ([], PairingRegistry_new)
  | (now, e) :: calls =>
      let '(h, r) := exec calls in
      let '(reply, r) := step now e r in ((now, e, reply) :: h, r)
  end.

Definition last_time (calls : list (Z * Event)) : Z :=
  match calls with [] => 0 | (now, _) :: _ => now end.

Fixpoint in_order (calls : list (Z * Event)) : bool :=
  match calls with
  | [] => true
  | (now, _) :: calls => (last_time calls <=? now)%Z && in_order calls
  end.

Lemma exec_run calls :
  in_order calls = true -> run (exec calls).1 (last_time calls) (exec calls).2.
Proof.
  induction calls as [|[now e] calls IH]; intros H; [constructor|].
  cbn [in_order] in H. apply andb_true_iff in H as [Hle%Z.leb_le Ho]. specialize (IH Ho).
  cbn [exec last_time]. destruct (exec calls) as [h r]. cbn [fst snd] in IH.
  pose proof (run_step _ _ _ _ e IH Hle) as Hr. by destruct (step now e r).
Qed.

(** A pairing that succeeds: created at 0 s, scanned at 1 s, confirmed at 2 s. *)
Definition demo_rng : list N := repeat 171%N 16.
Definition demo_csrf : string := generate_csrf demo_rng.
Definition demo_scanned : list (Z * Event) :=
  [(secs 1, MarkScanned "pair_u" demo_rng); (0%Z, Create "u")].
Definition demo_confirm : Event := Confirm "pair_u" "mac" None "vhub_x" demo_csrf.
Definition demo_confirmed : list (Z * Event) := (secs 2, demo_confirm) :: demo_scanned.

Lemma confirm_needs_fresh_scan_witness :
  let r := (exec demo_scanned).2 in
  let r' := (exec demo_confirmed).2 in
  confirm (secs 2) r "pair_u" "mac" None "vhub_x" demo_csrf = (Ok tt, r') /\
  (confirm (secs 3) r' "pair_u" "mac" None "vhub_x" demo_csrf).1 = Err AlreadyConfirmed.
Proof.
  intros r r'. split; [vm_compute; reflexivity|].
  apply (confirm_needs_fresh_scan (exec demo_scanned).1 (secs 1) (secs 2) r r'
           "pair_u" "mac" None "vhub_x" demo_csrf).
  - apply (exec_run demo_scanned). reflexivity.
  - vm_compute. reflexivity.
  - vm_compute. reflexivity.
Defined.

(** *** One confirmation per code *)

Definition is_create (c : string) (x : Z * Event * Reply) : bool :=
  match x.2 with Created (Ok c') => (c' =? c)%string | _ => false end.

Definition is_confirm (c : string) (x : Z * Event * Reply) : bool :=
  match x with (_, Confirm c' _ _ _ _, Checked (Ok _)) => (c' =? c)%string | _ => false end.

Definition count {A} (p : A -> bool) (l : list A) : nat := length (List.filter p l).

Definition live (r : PairingRegistry) (c : string) : nat :=
  if sessions r !! c then 1 else 0.

Lemma count_cons {A} (p : A -> bool) x l : count p (x :: l) = (if p x then 1 else 0) + count p l.
Proof. unfold count. cbn. by destruct (p x). Qed.

Lemma purge_live_le now r c : live (purge_expired now r) c <= live r c.
Proof.
  unfold live. destruct (sessions (purge_expired now r) !! c) as [s|] eqn:E; [|lia].
  apply map_lookup_filter_Some in E as [-> _]. done.
Qed.

Lemma confirm_Err_sessions now r c n l vt hd err r' :
  confirm now r c n l vt hd = (Err err, r') ->
  sessions r' = sessions (purge_expired now r) \/ sessions r' = delete c (sessions (purge_expired now r)).
Proof.
  unfold confirm. cbv zeta. generalize (purge_expired now r). intros p E.
  repeat (case_match; simplify_eq); auto.
Qed.

Lemma claim_sessions now r c :
  sessions (claim_confirmed_vtoken now r c).2 = sessions (purge_expired now r).
Proof.
  unfold claim_confirmed_vtoken. cbv zeta. generalize (purge_expired now r). intros p.
  by repeat (case_match; simplify_eq).
Qed.

(** Credit of a step: what it confirms plus what stays live was live or created. *)
Lemma step_credit now e h r c :
  inv h r ->
  let '(reply, r') := step now e r in
  (if is_confirm c (now, e, reply) then 1 else 0) + live r' c
  <= live r c + (if is_create c (now, e, reply) then 1 else 0).
Proof.
  intros Hinv. pose proof (purge_live_le now r c) as Hp. unfold live in *.
  destruct e as [u|c' rng|c' hd|c' n l vt hd|c'|c']; cbn [step].
  - unfold create. generalize dependent (purge_expired now r). intros p Hp.
    destruct (_ <=? _); cbn; [lia|]. rewrite lookup_insert. case_decide as E.
    + rewrite (proj2 (String.eqb_eq _ _) E). lia.
    + rewrite (proj2 (String.eqb_neq _ _) E). lia.
  - unfold mark_scanned. generalize dependent (purge_expired now r). intros p Hp.
    destruct (sessions p !! c') as [s|] eqn:E; [|cbn; lia].
    destruct (is_expired now s); cbn; rewrite lookup_insert; case_decide; subst;
      rewrite ?E in Hp; lia.
  - cbn in *. lia.
  - destruct (confirm now r c' n l vt hd) as [x r'] eqn:E. destruct x as [[]|err].
    + destruct (confirm_Ok _ _ _ _ _ _ _ _ E) as (_ & s & Hs & _ & _ & _ & ->).
      cbn [is_confirm is_create sessions snd]. rewrite lookup_delete.
      case_decide as Ec; subst; [rewrite Hs in Hp; rewrite String.eqb_refl; lia|].
      rewrite (proj2 (String.eqb_neq _ _) Ec). lia.
    + cbn [is_confirm is_create snd]. destruct (confirm_Err_sessions _ _ _ _ _ _ _ _ _ E) as [-> | ->].
      * lia.
      * rewrite lookup_delete. case_decide; lia.
  - pose proof (claim_sessions now r c') as E. destruct (claim_confirmed_vtoken now r c') as [x r'].
    cbn in E |- *. rewrite E. cbn in Hp. lia.
  - cbn. lia.
Qed.

(** Single confirmation: in every run a code is confirmed successfully at most
    once per time it was created, even when confirmed entries are removed, purged
    or claimed in between. *)
Theorem single_confirmation (h : History) (t : Z) (r : PairingRegistry) (c : string)
    (Hrun : run h t r) : count (is_confirm c) h <= count (is_create c) h.
Proof.
  cut (count (is_confirm c) h + live r c <= count (is_create c) h); [lia|].
  induction Hrun as [|h t r now e Hrun IH Hle]; [done|].
  pose proof (step_credit now e h r c (run_inv _ _ _ Hrun)) as Hc.
  destruct (step now e r) as [reply r']. rewrite !count_cons. cbn [fst snd]. lia.
Qed.

Lemma single_confirmation_witness :
  count (is_confirm "pair_u") (exec demo_confirmed).1 = 1 /\
  count (is_confirm "pair_u") (exec demo_confirmed).1
  <= count (is_create "pair_u") (exec demo_confirmed).1.
Proof.
  split; [vm_compute; reflexivity|].
  apply (single_confirmation _ (secs 2) (exec demo_confirmed).2).
  apply (exec_run demo_confirmed). reflexivity.
Defined.

(** *** The claim window *)

Lemma claim_Some now r c s tok :
  (claim_confirmed_vtoken now r c).1 = Some (s, Some tok) ->
  exists t, confirmed_sessions r !! c = Some (s, t) /\ vtoken s = Some tok /\
            (elapsed now t < VTOKEN_CLAIM_WINDOW)%Z.
Proof.
  unfold claim_confirmed_vtoken. cbv zeta.
  destruct (confirmed_sessions (purge_expired now r) !! c) as [[s' t]|] eqn:E.
  - apply map_lookup_filter_Some in E as [E _]. destruct (vtoken s') as [v|] eqn:Ev; [|done].
    destruct (Z.ltb_spec (elapsed now t) VTOKEN_CLAIM_WINDOW) as [Hlt|_]; [|done].
    cbn. intros [= <- <-]. by exists t.
  - cbn [fst]. by destruct (sessions (purge_expired now r) !! c).
Qed.

Definition removes (c : string) (x : Z * Event * Reply) : bool :=
  match x with (_, RemoveConfirmed c', _) => (c' =? c)%string | _ => false end.

Lemma purge_keeps now r c s t :
  confirmed_sessions r !! c = Some (s, t) -> (elapsed now t < CONFIRMED_TTL)%Z ->
  confirmed_sessions (purge_expired now r) !! c = Some (s, t).
Proof. intros. by apply map_lookup_filter_Some. Qed.

(** A confirmed entry survives every call but its own removal while its window lasts. *)
Lemma step_keeps now e r c s t tok :
  confirmed_sessions r !! c = Some (s, t) -> vtoken s = Some tok ->
  (elapsed now t < VTOKEN_CLAIM_WINDOW)%Z -> removes c (now, e, Done) = false ->
  confirmed_sessions (step now e r).2 !! c = Some (s, t).
Proof.
  intros Hc Hv Ht Hrm.
  assert (Hp : confirmed_sessions (purge_expired now r) !! c = Some (s, t)).
  { apply purge_keeps; [done|]. unfold VTOKEN_CLAIM_WINDOW, CONFIRMED_TTL, secs in *. lia. }
  destruct e as [u|c' rng|c' hd|c' n l vt hd|c'|c']; cbn [step];
    [..|cbn in Hrm |- *; apply String.eqb_neq in Hrm; by rewrite lookup_delete_ne];
    unfold create, mark_scanned, pre_check_confirm, confirm, claim_confirmed_vtoken; cbv zeta;
    generalize dependent (purge_expired now r); intros p Hp.
  - by destruct (_ <=? _).
  - destruct (sessions p !! c') as [s'|]; [|done]. by destruct (is_expired _ _).
  - done.
  - case_bool_decide as Hb; [done|].
    destruct (sessions p !! c') as [s'|]; [|done]. repeat case_match; simplify_eq; try done.
    cbn. rewrite lookup_insert_ne; [done|]. intros ->. destruct Hb. by eauto.
  - destruct (confirmed_sessions p !! c') as [[s' t']|] eqn:E; [|done].
    destruct (vtoken s') eqn:Ev; [|done]. destruct (Z.ltb_spec (elapsed now t') VTOKEN_CLAIM_WINDOW); [done|].
    cbn. rewrite lookup_insert_ne; [done|]. intros ->. simplify_eq. lia.
Qed.

Lemma run_confirmed l tc c n lb vt hd h t r :
  run (l ++ (tc, Confirm c n lb vt hd, Checked (Ok tt)) :: h) t r ->
  existsb (removes c) l = false -> (t - tc < VTOKEN_CLAIM_WINDOW)%Z ->
  (tc <= t)%Z /\ exists s, confirmed_sessions r !! c = Some (s, tc) /\ vtoken s = Some vt /\
    client_name s = Some n /\ client_label s = lb /\ status s = Confirmed.
Proof.
  revert t r. induction l as [|x l IH]; intros t r Hrun Hrm Hlt; inversion Hrun as [|h0 t0 r0 now e Hr0 Hle].
  - subst. split; [done|]. cbn [step] in *. destruct (confirm t r0 c n lb vt hd) as [y r'] eqn:E.
    match goal with H : Checked (Ok tt) = _ |- _ => injection H as <- | H : _ = Checked (Ok tt) |- _ => injection H as -> end.
    destruct (confirm_Ok _ _ _ _ _ _ _ _ E) as (_ & s & _ & _ & _ & _ & ->).
    exists (confirmed_session n lb vt s). cbn. by rewrite lookup_insert_eq.
  - subst. cbn [existsb] in Hrm. apply orb_false_iff in Hrm as [Hx Hrm].
    destruct (IH _ _ Hr0 Hrm) as (Htc & s & Hs & Hv & Hrest); [lia|].
    split; [lia|]. exists s. split; [|done]. eapply step_keeps; [done|done| |].
    + unfold elapsed. unfold VTOKEN_CLAIM_WINDOW, secs in *. lia.
    + destruct e; done.
Qed.

(** The claim window: in every run, polling hands out a token only for a code
    that was confirmed with exactly that token less than two minutes ago; and in
    that window every poll gets it, however many calls (polls included) came in
    between, unless the entry was rolled back. *)
Theorem claim_window (h : History) (t now : Z) (r : PairingRegistry) (c : string)
    (Hrun : run h t r) (Hnow : (t <= now)%Z) :
  (forall s tok, (claim_confirmed_vtoken now r c).1 = Some (s, Some tok) ->
     exists tc n l hd, (tc, Confirm c n l tok hd, Checked (Ok tt)) ∈ h /\
       (elapsed now tc < VTOKEN_CLAIM_WINDOW)%Z) /\
  (forall l tc n lb tok hd h0, h = l ++ (tc, Confirm c n lb tok hd, Checked (Ok tt)) :: h0 ->
     existsb (removes c) l = false -> (now - tc < VTOKEN_CLAIM_WINDOW)%Z ->
     exists s, (claim_confirmed_vtoken now r c).1 = Some (s, Some tok) /\
       client_name s = Some n /\ client_label s = lb /\ status s = Confirmed).
Proof.
  split.
  - intros s tok (tc & Hc & Hv & Hlt)%claim_Some.
    destruct (inv_confirmed _ _ (run_inv _ _ _ Hrun) _ _ Hc) as (_ & n & l & vt & hd & Hin & Hvt).
    cbn in *. destruct Hvt as [Hvt|Hvt]; [|congruence]. rewrite Hvt in Hv. injection Hv as ->.
    by exists tc, n, l, hd.
  - intros l tc n lb tok hd h0 -> Hrm Hlt.
    destruct (run_confirmed _ _ _ _ _ _ _ _ _ _ Hrun Hrm) as (Htc & s & Hc & Hv & Hrest); [lia|].
    exists s. split; [|tauto]. unfold claim_confirmed_vtoken.
    assert (He : (elapsed now tc < VTOKEN_CLAIM_WINDOW)%Z) by (unfold elapsed, VTOKEN_CLAIM_WINDOW, secs in *; lia).
    rewrite (purge_keeps now _ _ _ _ Hc) by (unfold VTOKEN_CLAIM_WINDOW, CONFIRMED_TTL, secs in *; lia).
    rewrite Hv. by rewrite (proj2 (Z.ltb_lt _ _) He).
Qed.

Lemma claim_window_witness :
  exists s, (claim_confirmed_vtoken (secs 60) (exec ((secs 9, Claim "pair_u") :: demo_confirmed)).2 "pair_u").1
    = Some (s, Some "vhub_x").
Proof.
  destruct (claim_window (exec ((secs 9, Claim "pair_u") :: demo_confirmed)).1 (secs 9) (secs 60)
    (exec ((secs 9, Claim "pair_u") :: demo_confirmed)).2 "pair_u") as [_ H].
  - apply (exec_run ((secs 9, Claim "pair_u") :: demo_confirmed)). reflexivity.
  - unfold secs. lia.
  - destruct (H (take 1 (exec ((secs 9, Claim "pair_u") :: demo_confirmed)).1) (secs 2) "mac" None "vhub_x"
      demo_csrf (exec demo_scanned).1) as (s & Hs & _).
    + vm_compute. reflexivity.
    + vm_compute. reflexivity.
    + unfold secs, VTOKEN_CLAIM_WINDOW, secs. lia.
    + by exists s.
Defined.

(** Bounded memory: in every run the registry holds at most 1024 sessions, live
    and confirmed together, and a request beyond that is refused. *)
Theorem sessions_bounded (h : History) (t now : Z) (r : PairingRegistry) (u : string)
    (Hrun : run h t r) :
  size (sessions r) + size (confirmed_sessions r) <= MAX_PAIRING_SESSIONS /\
  (size (sessions (purge_expired now r)) + size (confirmed_sessions (purge_expired now r))
     = MAX_PAIRING_SESSIONS -> (create now u r).1 = Err TooManySessions).
Proof.
  split; [by apply (inv_size h), (run_inv _ t)|]. intros Hfull. unfold create.
  by rewrite Hfull, Nat.leb_refl.
Qed.

Lemma sessions_bounded_witness :
  size (sessions (exec demo_scanned).2) + size (confirmed_sessions (exec demo_scanned).2) <= 1024.
Proof.
  apply (sessions_bounded (exec demo_scanned).1 (secs 1) 0 (exec demo_scanned).2 "u").
  apply (exec_run demo_scanned). reflexivity.
Defined.
