(* ===== verification/PollTracker.v ===== *)
(** * Long-poll admission and latency histograms ([src/src/hub/state.rs])

    [enter] and the drop of its guard as whole operations, and again as the atomic
    steps they consist of, so that any number of handlers can interleave. The
    hub-wide counter is a wrapping [usize]; the per-token map sits behind a mutex
    that can be poisoned. *)
From S2P Require Import Prelude.

(** ** Histogram *)

Definition HISTOGRAM_BUCKETS_MS : list Z := [1; 5; 25; 100; 500; 2500; 10000]%Z.
Definition HISTOGRAM_BUCKET_COUNT : nat := length HISTOGRAM_BUCKETS_MS + 1.

Record LatencyHistogram := {
  h_count : Z;
  h_sum_us : Z;
  h_buckets : list Z;
}.

Definition LatencyHistogram_new : LatencyHistogram :=
  {| h_count := 0; h_sum_us := 0; h_buckets := repeat 0%Z HISTOGRAM_BUCKET_COUNT |}.

(** Index of the first boundary that admits [ms], or the overflow slot. *)
Fixpoint bucket_from (i : nat) (bounds : list Z) (ms : Z) : nat :=
  match bounds with
  | [] => i
  | b :: bounds => if (ms <=? b)%Z then i else bucket_from (S i) bounds ms
  end.

(** [observe]: [ns] is the elapsed [Duration] in nanoseconds. *)
Definition observe (h : LatencyHistogram) (ns : Z) : LatencyHistogram :=
  let us := Z.min (ns / 1000) u64_max in
  let ms := wrap_u64 (ns / 1000000) in
  {| h_count := wrap_u64 (h_count h + 1);
     h_sum_us := wrap_u64 (h_sum_us h + us);
     h_buckets := alter (fun n => wrap_u64 (n + 1)) (bucket_from 0 HISTOGRAM_BUCKETS_MS ms)
                    (h_buckets h) |}.

(** ** Tracker *)

Definition MAX_CONCURRENT_POLLS_PER_VTOKEN : nat := 3.
Definition MAX_HUB_POLLS_DEFAULT : Z := 8192.

Record PollTracker := {
  counts : gmap string Z;
  poisoned : bool;
  total : Z;
  hub_cap : Z;
}.

Definition PollTracker_default : PollTracker :=
  {| counts := ∅; poisoned := false; total := 0; hub_cap := 0 |}.

Definition set_hub_cap (cap : Z) (t : PollTracker) : PollTracker :=
  {| counts := counts t; poisoned := poisoned t; total := total t; hub_cap := cap |}.

Definition total_polls (t : PollTracker) : Z := total t.

Definition set_total (n : Z) (t : PollTracker) : PollTracker :=
  {| counts := counts t; poisoned := poisoned t; total := wrap_u64 n; hub_cap := hub_cap t |}.

Definition set_counts (m : gmap string Z) (t : PollTracker) : PollTracker :=
  {| counts := m; poisoned := poisoned t; total := total t; hub_cap := hub_cap t |}.

Definition poison (t : PollTracker) : PollTracker :=
  {| counts := counts t; poisoned := true; total := total t; hub_cap := hub_cap t |}.

(** [EnterOutcome]; a guard is the token it will release. *)
Inductive EnterOutcome :=
| EOk (per_vtoken : Z) (guard : string)
| HubLimitReached (total cap : Z)
| Poisoned (guard : string).

Definition guard (o : EnterOutcome) : option string :=
  match o with EOk _ g | Poisoned g => Some g | HubLimitReached _ _ => None end.

(** The section of [enter] under the mutex. *)
Definition enter_locked (t : PollTracker) (v : string) : EnterOutcome * PollTracker :=
  if poisoned t then (Poisoned v, t)
  else let c := (default 0 (counts t !! v) + 1)%Z in
       (EOk c v, set_counts (<[v := c]> (counts t)) t).

Definition enter (t : PollTracker) (v : string) : EnterOutcome * PollTracker :=
  let cap := hub_cap t in
  let prev := total t in
  let t := set_total (total t + 1) t in
  if (cap <=? prev)%Z then (HubLimitReached prev cap, set_total (total t - 1) t)
  else enter_locked t v.

(** The section of the guard's [drop] under the mutex. *)
Definition release_locked (t : PollTracker) (v : string) : PollTracker :=
  if poisoned t then t else
  match counts t !! v with
  | Some c =>
      let c := sat_sub c 1 in
      set_counts (if (c =? 0)%Z then delete v (counts t) else <[v := c]> (counts t)) t
  | None => t
  end.

Definition drop_guard (t : PollTracker) (v : string) : PollTracker :=
  release_locked (set_total (total t - 1) t) v.

(** ** Interleaved handlers *)

(** Where a handler stands: the atomic action it does next. *)
Inductive Phase :=
| LoadCap (v : string)
| FetchAdd (v : string) (cap : Z)
| Rollback (v : string) (prev cap : Z)
| LockEnter (v : string)
| Serving (v : string) (o : EnterOutcome)
| LockDrop (v : string)
| Finished.

(** One atomic action; [Serving] ends when the handler returns. *)
Definition act (p : Phase) (t : PollTracker) : Phase * PollTracker :=
  match p with
  | LoadCap v => (FetchAdd v (hub_cap t), t)
  | FetchAdd v cap =>
      ((if (cap <=? total t)%Z then Rollback v (total t) cap else LockEnter v),
       set_total (total t + 1) t)
  | Rollback v prev cap => (Finished, set_total (total t - 1) t)
  | LockEnter v => let '(o, t) := enter_locked t v in (Serving v o, t)
  | Serving v _ => (LockDrop v, set_total (total t - 1) t)
  | LockDrop v => (Finished, release_locked t v)
  | Finished => (Finished, t)
  end.

Inductive world_step : list Phase * PollTracker -> list Phase * PollTracker -> Prop :=
| ws_request ps t v : world_step (ps, t) (LoadCap v :: ps, t)
| ws_act l1 p l2 t :
    world_step (l1 ++ p :: l2, t) (l1 ++ (act p t).1 :: l2, (act p t).2)
| ws_poison ps t : world_step (ps, t) (ps, poison t).

(** A hub that just started with cap [cap]. *)
Definition started (cap : Z) : list Phase * PollTracker := ([], set_hub_cap cap PollTracker_default).

(** Counted in the hub-wide total. *)
Definition holds_total (p : Phase) : bool :=
  match p with Rollback _ _ _ | LockEnter _ | Serving _ _ => true | _ => false end.

(** Admitted and not yet released. *)
Definition admitted (p : Phase) : bool :=
  match p with LockEnter _ | Serving _ _ => true | _ => false end.

(** Counted under token [v] in the per-token map. *)
Definition holds_count (v : string) (p : Phase) : bool :=
  match p with
  | Serving w (EOk _ _) | LockDrop w => (w =? v)%string
  | _ => false
  end.

Definition cnt (f : Phase -> bool) (ps : list Phase) : Z := Z.of_nat (length (List.filter f ps)).

(** The whole operations are their atomic steps run without interruption. *)
Definition acts (n : nat) (x : Phase * PollTracker) : Phase * PollTracker :=
  Nat.iter n (fun x => act x.1 x.2) x.

Lemma enter_acts t v :
  acts 3 (LoadCap v, t)
  = match enter t v with
    | (HubLimitReached _ _, t') => (Finished, t')
    | (o, t') => (Serving v o, t')
    end.
Proof.
  unfold acts, enter. cbn. destruct (hub_cap t <=? total t)%Z; cbn; [done|].
  unfold enter_locked. destruct (poisoned _) eqn:E; cbn in E |- *; by rewrite ?E.
Qed.

Lemma drop_acts t v o : acts 2 (Serving v o, t) = (Finished, drop_guard t v).
Proof. done. Qed.

(** ** Invariant *)

#[local] Arguments Z.add : simpl never.

Lemma cnt_cons f p ps : cnt f (p :: ps) = ((if f p then 1 else 0) + cnt f ps)%Z.
Proof. unfold cnt. cbn. destruct (f p); cbn; lia. Qed.

Lemma cnt_middle f l1 p l2 : cnt f (l1 ++ p :: l2) = ((if f p then 1 else 0) + cnt f (l1 ++ l2))%Z.
Proof. unfold cnt. rewrite !List.filter_app, !length_app. cbn. destruct (f p); cbn; lia. Qed.

Lemma cnt_bounds f ps : (0 <= cnt f ps <= Z.of_nat (length ps))%Z.
Proof. unfold cnt. pose proof (List.filter_length_le f ps). lia. Qed.

(** A phase agrees with the tracker. *)
Definition phase_ok (cap : Z) (t : PollTracker) (p : Phase) : Prop :=
  match p with
  | FetchAdd _ c => c = cap
  | Serving _ (Poisoned _) => poisoned t = true
  | Serving _ (HubLimitReached _ _) => False
  | _ => True
  end.

Definition shown_count (n : Z) : option Z := if (n =? 0)%Z then None else Some n.

Record world_ok (cap : Z) (w : list Phase * PollTracker) : Prop := {
  ok_cap : hub_cap w.2 = cap;
  ok_total : total w.2 = wrap_u64 (cnt holds_total w.1);
  ok_admitted : (cnt admitted w.1 <= cap)%Z;
  ok_phases : Forall (phase_ok cap w.2) w.1;
  ok_counts : poisoned w.2 = false ->
              forall v, counts w.2 !! v = shown_count (cnt (holds_count v) w.1);
}.

Lemma wrap_u64_step a b : wrap_u64 (wrap_u64 a + b) = wrap_u64 (b + a).
Proof. unfold wrap_u64. rewrite Zplus_mod_idemp_l. f_equal. lia. Qed.

Lemma admitted_le_total ps : (cnt admitted ps <= cnt holds_total ps)%Z.
Proof. induction ps as [|p ps IH]; [done|]. rewrite !cnt_cons. destruct p; cbn in *; lia. Qed.

Lemma act_poisoned p t : poisoned (act p t).2 = poisoned t.
Proof.
  destruct p; cbn; try done.
  - unfold enter_locked. by destruct (poisoned t) eqn:E.
  - unfold release_locked. destruct (poisoned t) eqn:E; [done|]. by destruct (counts t !! v).
Qed.

Lemma act_cap p t : hub_cap (act p t).2 = hub_cap t.
Proof.
  destruct p; cbn; try done.
  - unfold enter_locked. by destruct (poisoned t).
  - unfold release_locked. destruct (poisoned t); [done|]. by destruct (counts t !! v).
Qed.

Lemma act_phase_ok cap p t : hub_cap t = cap -> phase_ok cap t p -> phase_ok cap (act p t).2 (act p t).1.
Proof.
  intros Hc. destruct p; cbn; try done.
  - by destruct (_ <=? _)%Z.
  - intros _. unfold enter_locked. by destruct (poisoned t) eqn:E.
Qed.

Lemma phase_ok_eq cap t t' p : poisoned t' = poisoned t -> phase_ok cap t p -> phase_ok cap t' p.
Proof. destruct p as [| | | |? []| |]; cbn; congruence. Qed.

Lemma act_total p t rest :
  total t = wrap_u64 ((if holds_total p then 1 else 0) + rest) ->
  total (act p t).2 = wrap_u64 ((if holds_total (act p t).1 then 1 else 0) + rest).
Proof.
  intros H. destruct p; cbn in *; try done.
  - rewrite H. destruct (_ <=? _)%Z; cbn; rewrite wrap_u64_step; f_equal; lia.
  - rewrite H, <- Z.add_opp_r, wrap_u64_step. f_equal. lia.
  - unfold enter_locked. by destruct (poisoned t).
  - rewrite H, <- Z.add_opp_r, wrap_u64_step. f_equal. lia.
  - unfold release_locked. destruct (poisoned t); [done|]. by destruct (counts t !! v).
Qed.

Lemma act_counts p t cap rest :
  poisoned t = false -> phase_ok cap t p -> (forall v, 0 <= rest v)%Z ->
  (forall v, counts t !! v = shown_count ((if holds_count v p then 1 else 0) + rest v)) ->
  forall v, counts (act p t).2 !! v
            = shown_count ((if holds_count v (act p t).1 then 1 else 0) + rest v).
Proof.
  intros Hp Hok Hr H v. specialize (Hr v). unfold shown_count in *. destruct p; cbn in *; try apply H.
  - rewrite H. by destruct (_ <=? _)%Z.
  - unfold enter_locked. rewrite Hp. cbn. rewrite lookup_insert.
    case_decide as E; [subst v0; rewrite String.eqb_refl, H; cbn|].
    + destruct (Z.eqb_spec (0 + rest v) 0), (Z.eqb_spec (1 + rest v) 0); cbn; f_equal; lia.
    + rewrite H. by rewrite (proj2 (String.eqb_neq _ _) E).
  - destruct o as [k g|?|g]; [apply H|done|congruence].
  - unfold release_locked. rewrite Hp. rewrite (H v0), String.eqb_refl.
    destruct (Z.eqb_spec (1 + rest v0) 0) as [E|E]; cbn [counts set_counts].
    + rewrite H. destruct (String.eqb_spec v0 v); [subst; lia|done].
    + unfold sat_sub. destruct (Z.eqb_spec (Z.max 0 (1 + rest v0 - 1)) 0) as [E0|E0].
      * rewrite lookup_delete. destruct (String.eqb_spec v0 v) as [->|Hne].
        -- rewrite decide_True by done. destruct (Z.eqb_spec (0 + rest v) 0); [done|lia].
        -- rewrite decide_False by done. rewrite H. by rewrite (proj2 (String.eqb_neq _ _) Hne).
      * rewrite lookup_insert. destruct (String.eqb_spec v0 v) as [->|Hne].
        -- rewrite decide_True by done. destruct (Z.eqb_spec (0 + rest v) 0); [lia|]. f_equal. lia.
        -- rewrite decide_False by done. rewrite H. by rewrite (proj2 (String.eqb_neq _ _) Hne).
Qed.

(** Admission happens below the cap, so it never overshoots it. *)
Lemma act_admitted cap p t l1 l2 :
  hub_cap t = cap -> phase_ok cap t p -> (0 <= cap)%Z ->
  (Z.of_nat (length (l1 ++ p :: l2)) < 2 ^ 64)%Z ->
  total t = wrap_u64 (cnt holds_total (l1 ++ p :: l2)) ->
  (cnt admitted (l1 ++ p :: l2) <= cap)%Z ->
  (cnt admitted (l1 ++ (act p t).1 :: l2) <= cap)%Z.
Proof.
  intros Hc Hok H0 Hlen Ht Ha. rewrite cnt_middle in Ha |- *.
  pose proof (cnt_bounds holds_total (l1 ++ p :: l2)) as Hb.
  rewrite wrap_u64_small in Ht by lia.
  pose proof (admitted_le_total (l1 ++ l2)) as Hle. rewrite cnt_middle in Ht.
  destruct p; cbn in *; try lia.
  - destruct (Z.leb_spec cap0 (total t)); cbn; lia.
  - destruct (enter_locked t v). cbn. lia.
Qed.

Lemma world_step_length w w' : world_step w w' -> length w.1 <= length w'.1.
Proof. destruct 1; cbn; rewrite ?length_app; cbn; lia. Qed.

Lemma world_step_ok cap w w' :
  (0 <= cap)%Z -> world_step w w' -> (Z.of_nat (length w.1) < 2 ^ 64)%Z ->
  world_ok cap w -> world_ok cap w'.
Proof.
  intros H0 Hs Hlen [Hc Ht Ha Hp Hn]. destruct Hs as [ps t v|l1 p l2 t|ps t]; cbn in *.
  - split; cbn; [done| | |by constructor|].
    + by rewrite cnt_cons.
    + rewrite cnt_cons. cbn. lia.
    + intros E w. rewrite cnt_cons. by apply Hn.
  - assert (Hpp : phase_ok cap t p) by (by apply Forall_app in Hp as [_ [? _]%Forall_cons]).
    split; cbn [fst snd].
    + by rewrite act_cap.
    + rewrite cnt_middle in Ht |- *. by apply act_total.
    + by apply (act_admitted cap p t).
    + apply Forall_app in Hp as [Hp1 [_ Hp2]%Forall_cons]. apply Forall_app. split; [|constructor].
      * eapply Forall_impl; [exact Hp1|]. intros x. apply phase_ok_eq, act_poisoned.
      * by apply act_phase_ok.
      * eapply Forall_impl; [exact Hp2|]. intros x. apply phase_ok_eq, act_poisoned.
    + rewrite act_poisoned. intros E v. rewrite cnt_middle.
      apply (act_counts p t cap (fun v => cnt (holds_count v) (l1 ++ l2))); [done|done| |].
      * intros w. apply cnt_bounds.
      * intros w. rewrite Hn by done. by rewrite cnt_middle.
  - split; cbn; try done. eapply Forall_impl; [exact Hp|]. by intros [| | | |? []| |].
Qed.

Lemma reachable_ok cap w :
  (0 <= cap)%Z -> rtc world_step (started cap) w -> (Z.of_nat (length w.1) < 2 ^ 64)%Z -> world_ok cap w.
Proof.
  intros H0. revert w. apply (rtc_ind_r (fun w => _ -> world_ok cap w)).
  - intros _. split; cbn; try done.
  - intros w w' _ Hs IH Hlen. pose proof (world_step_length _ _ Hs).
    eapply world_step_ok; [done|exact Hs|lia|]. apply IH. lia.
Qed.

(** ** One handler alone *)

(** Between requests: the total is a machine word and listed tokens have open polls. *)
Definition tracker_ok (t : PollTracker) : Prop :=
  (0 <= total t < 2 ^ 64)%Z /\ map_Forall (fun _ c => 0 < c)%Z (counts t).

Lemma wrap_u64_undo n : (0 <= n < 2 ^ 64)%Z -> wrap_u64 (wrap_u64 (n + 1) - 1) = n.
Proof.
  intros Hn. rewrite <- Z.add_opp_r, wrap_u64_step.
  replace (- (1) + (n + 1))%Z with n by lia. by apply wrap_u64_small.
Qed.

Lemma enter_drop t v o t' :
  tracker_ok t -> enter t v = (o, t') ->
  match guard o with Some g => drop_guard t' g | None => t' end = t.
Proof.
  intros [Ht Hc]. unfold enter. destruct (hub_cap t <=? total t)%Z.
  - intros [= <- <-]. cbn. unfold set_total. cbn. rewrite wrap_u64_undo by done. by destruct t.
  - unfold enter_locked, drop_guard, release_locked. cbn. destruct (poisoned t) eqn:Hp.
    + intros [= <- <-]. cbn. rewrite Hp. unfold set_total. cbn. rewrite wrap_u64_undo by done.
      by destruct t.
    + intros [= <- <-]. cbn. rewrite Hp, lookup_insert_eq. unfold set_total, set_counts, sat_sub. cbn.
      rewrite wrap_u64_undo by done. destruct t as [m p n k]. cbn in *. f_equal.
      destruct (m !! v) as [c|] eqn:E; cbn.
      * specialize (Hc _ _ E). cbn in Hc. replace (Z.max 0 (c + 1 - 1)) with c by lia.
        destruct (Z.eqb_spec c 0); [lia|]. rewrite insert_insert_eq. by apply insert_id.
      * by rewrite delete_insert_id.
Qed.

(** (C17) Admission control under concurrency: whatever the interleaving of handlers
    entering and leaving, and even when the mutex is poisoned along the way, no
    more polls are admitted than the hub-wide cap; the hub-wide counter is exactly
    the number of handlers between their increment and their decrement (it never
    underflows); while the mutex is sound the per-token counter is exactly the
    number of polls of that token; and when all handlers have finished nothing is
    left behind. *)
Theorem polls_bounded (cap : Z) (ps : list Phase) (t : PollTracker)
    (Hcap : (0 <= cap)%Z) (Hr : rtc world_step (started cap) (ps, t))
    (Hlen : (Z.of_nat (length ps) < 2 ^ 64)%Z) :
  (cnt admitted ps <= cap)%Z /\
  total_polls t = cnt holds_total ps /\
  (poisoned t = false -> forall v, default 0%Z (counts t !! v) = cnt (holds_count v) ps) /\
  (Forall (eq Finished) ps -> total_polls t = 0%Z /\ (poisoned t = false -> counts t = ∅)).
Proof.
  destruct (reachable_ok cap (ps, t) Hcap Hr Hlen) as [Hc Ht Ha _ Hn]. cbn in *.
  rewrite wrap_u64_small in Ht by (pose proof (cnt_bounds holds_total ps); lia).
  split; [done|]. split; [done|]. split.
  - intros Hp v. rewrite (Hn Hp v). unfold shown_count.
    by destruct (Z.eqb_spec (cnt (holds_count v) ps) 0).
  - intros HF. assert (Hz : forall f, f Finished = false -> cnt f ps = 0%Z).
    { intros f Hf. clear -HF Hf. induction HF as [|p ps <- _ IH]; [done|]. by rewrite cnt_cons, Hf. }
    split; [unfold total_polls; by rewrite Ht, Hz|]. intros Hp. apply map_empty. intros v.
    by rewrite (Hn Hp v), Hz.
Qed.

Lemma polls_bounded_witness :
  let w := (enter (set_hub_cap 1 PollTracker_default) "a").2 in
  (cnt admitted [Serving "a" (EOk 1 "a")] <= 1)%Z /\ total_polls w = 1%Z.
Proof.
  intros w. destruct (polls_bounded 1 [Serving "a" (EOk 1 "a")] w) as (H & H' & _).
  - lia.
  - apply (rtc_l _ _ ([LoadCap "a"], set_hub_cap 1 PollTracker_default)); [constructor|].
    apply (rtc_l _ _ ([FetchAdd "a" 1%Z], set_hub_cap 1 PollTracker_default));
      [apply (ws_act [] (LoadCap "a") [])|].
    apply (rtc_l _ _ ([LockEnter "a"], set_total 1 (set_hub_cap 1 PollTracker_default)));
      [apply (ws_act [] (FetchAdd "a" 1%Z) [])|].
    apply rtc_once. apply (ws_act [] (LockEnter "a") []).
  - cbn. lia.
  - split; [exact H|]. rewrite H'. reflexivity.
Defined.
