(* ===== verification/Store.v ===== *)
(** * Persistent store ([src/src/store/])

    The tables as finite maps keyed by their primary keys and the statements the
    store executes on them: [clients.rs], [context.rs], [sessions.rs],
    [messages.rs], [retention.rs] and the driver-dependent orderings of [sql.rs].
    A definition here is the effect of the statement when the database executes
    it; that a call can fail or time out is added where it is called (see
    [Hub.db]). The clock ([now], Unix seconds) and fresh UUIDs are arguments. *)
From S2P Require Import Prelude StrLemmas.
Import Str.
Local Open Scope hub_scope.

Inductive DatabaseKind := Sqlite | Postgres | MySql.

#[export] Instance DatabaseKind_eq_dec : EqDecision DatabaseKind.
Proof. solve_decision. Defined.

(** [DatabaseKind::from_url] in a build with every driver feature. *)
Definition from_url (url : string) : option DatabaseKind :=
  if starts_with "postgres:" url || starts_with "postgresql:" url then Some Postgres
  else if starts_with "mysql:" url || starts_with "mariadb:" url then Some MySql
  else if starts_with "sqlite:" url || is_empty url then Some Sqlite
  else None.

(** [sqlite_file_path]: the text before a [?] of the part after the scheme. *)
Definition sqlite_file_path (url : string) : option string :=
  let path_part :=
    unwrap_or (strip_prefix "sqlite:///" url <|> strip_prefix "sqlite://" url
               <|> strip_prefix "sqlite:" url) "" in
  let path := trim (match split "?" path_part with p :: _ => p | [] => "" end) in
  if is_empty path || (path =? ":memory:")%string then None else Some path.

Definition DEFAULT_GRANT_TTL_SECS : Z := 86400.

(** [grant_ttl_from_env]. *)
Definition grant_ttl_from_env (var : option string) : Z :=
  match var with
  | None => DEFAULT_GRANT_TTL_SECS
  | Some raw =>
      match parse_u64 (trim raw) with
      | Some secs => if (0 <? secs)%Z then secs else DEFAULT_GRANT_TTL_SECS
      | None => DEFAULT_GRANT_TTL_SECS
      end
  end.

(** ** Tables *)

Definition HUB_DEFAULT_SENTINEL : string := "__hub_default__".

Record ClientRow := {
  c_vtoken : string;
  c_name : string;
  c_label : option string;
  c_last_seen : option Z;
  c_persona_name : option string;
  c_persona_emoji : option string;
  c_description : option string;
}.

Record CtxRow := { real_ctx : string; ctx_peer : string }.

Record ActiveRow := {
  a_session : string;
  a2a_depth : Z;
  expires_at : Z;
  updated_at : Z;
}.

(** [b_rowid] is the insertion stamp, [b_written] the stamp of the last write. *)
Record BackendRow := {
  backend_session_id : string;
  last_usage_json : option string;
  b_rowid : nat;
  b_written : nat;
  b_created : Z;
}.

Record MessageRow := {
  m_id : nat;
  m_vctx : string;
  m_vtoken : option string;
  m_session : string;
  m_peer : string;
  m_role : string;
  m_content : string;
  m_created : Z;
  m_ilink_msg_id : option Z;
}.

Record Store := {
  kind : DatabaseKind;
  grant_ttl_secs : Z;
  clients_t : list ClientRow;
  routing_state : gmap string string;
  context_token_map : gmap string CtxRow;
  active_sessions : gmap (string * string) ActiveRow;
  backend_sessions : gmap (string * string * string) BackendRow;
  messages : list MessageRow;
  next_stamp : nat;
}.

Definition Store_new (k : DatabaseKind) (ttl : Z) : Store :=
  {| kind := k; grant_ttl_secs := ttl; clients_t := []; routing_state := ∅;
     context_token_map := ∅; active_sessions := ∅; backend_sessions := ∅; messages := [];
     next_stamp := 0 |}.

Definition set_clients_t (x : list ClientRow) (s : Store) : Store :=
  {| kind := kind s; grant_ttl_secs := grant_ttl_secs s; clients_t := x;
     routing_state := routing_state s; context_token_map := context_token_map s;
     active_sessions := active_sessions s; backend_sessions := backend_sessions s;
     messages := messages s; next_stamp := next_stamp s |}.

Definition set_routing_state (x : gmap string string) (s : Store) : Store :=
  {| kind := kind s; grant_ttl_secs := grant_ttl_secs s; clients_t := clients_t s;
     routing_state := x; context_token_map := context_token_map s;
     active_sessions := active_sessions s; backend_sessions := backend_sessions s;
     messages := messages s; next_stamp := next_stamp s |}.

Definition set_context_token_map (x : gmap string CtxRow) (s : Store) : Store :=
  {| kind := kind s; grant_ttl_secs := grant_ttl_secs s; clients_t := clients_t s;
     routing_state := routing_state s; context_token_map := x;
     active_sessions := active_sessions s; backend_sessions := backend_sessions s;
     messages := messages s; next_stamp := next_stamp s |}.

Definition set_active_sessions (x : gmap (string * string) ActiveRow) (s : Store) : Store :=
  {| kind := kind s; grant_ttl_secs := grant_ttl_secs s; clients_t := clients_t s;
     routing_state := routing_state s; context_token_map := context_token_map s;
     active_sessions := x; backend_sessions := backend_sessions s;
     messages := messages s; next_stamp := next_stamp s |}.

Definition set_backend_sessions (x : gmap (string * string * string) BackendRow) (s : Store)
    : Store :=
  {| kind := kind s; grant_ttl_secs := grant_ttl_secs s; clients_t := clients_t s;
     routing_state := routing_state s; context_token_map := context_token_map s;
     active_sessions := active_sessions s; backend_sessions := x;
     messages := messages s; next_stamp := next_stamp s |}.

Definition set_messages (x : list MessageRow) (s : Store) : Store :=
  {| kind := kind s; grant_ttl_secs := grant_ttl_secs s; clients_t := clients_t s;
     routing_state := routing_state s; context_token_map := context_token_map s;
     active_sessions := active_sessions s; backend_sessions := backend_sessions s;
     messages := x; next_stamp := next_stamp s |}.

Definition bump_stamp (s : Store) : Store :=
  {| kind := kind s; grant_ttl_secs := grant_ttl_secs s; clients_t := clients_t s;
     routing_state := routing_state s; context_token_map := context_token_map s;
     active_sessions := active_sessions s; backend_sessions := backend_sessions s;
     messages := messages s; next_stamp := S (next_stamp s) |}.

(** ** [clients.rs] *)

(** [upsert_client]: routes of the old token follow the name to the new token.
    [None] when the token is the primary key of another client's row. *)
Definition upsert_client (now : Z) (vt n : string) (l : option string) (s : Store)
    : option Store :=
  if existsb (fun c => (c_vtoken c =? vt)%string && negb (c_name c =? n)%string) (clients_t s)
  then None else
  let old := c_vtoken <$> List.find (fun c => String.eqb (c_name c) n) (clients_t s) in
  let s := match old with
           | Some o => set_routing_state
                         ((fun v => if (v =? o)%string then vt else v) <$> routing_state s) s
           | None => s
           end in
  Some (set_clients_t
    (match old with
     | Some _ =>
         map (fun c => if (c_name c =? n)%string then
                {| c_vtoken := vt; c_name := c_name c; c_label := l <|> c_label c;
                   c_last_seen := Some now; c_persona_name := c_persona_name c;
                   c_persona_emoji := c_persona_emoji c; c_description := c_description c |}
              else c) (clients_t s)
     | None =>
         clients_t s ++
         [{| c_vtoken := vt; c_name := n; c_label := l; c_last_seen := None;
             c_persona_name := None; c_persona_emoji := None; c_description := None |}]
     end) s).

Definition get_client_by_name (n : string) (s : Store) : option ClientRow :=
  List.find (fun c => String.eqb (c_name c) n) (clients_t s).

Definition delete_client_by_name (n : string) (s : Store) : bool * Store :=
  (existsb (fun c => (c_name c =? n)%string) (clients_t s),
   set_clients_t (List.filter (fun c => negb (c_name c =? n)%string) (clients_t s)) s).

Definition clear_routes_for_vtoken (vt : string) (s : Store) : Store :=
  set_routing_state (filter (fun p => p.2 <> vt) (routing_state s)) s.

(** Rows by name, and a stored empty description read back as none. *)
Definition row_le (a b : ClientRow) : Prop := String.le (c_name a) (c_name b).

#[export] Instance row_le_dec a b : Decision (row_le a b).
Proof. unfold row_le. apply _. Defined.

Definition read_row (c : ClientRow) : ClientRow :=
  {| c_vtoken := c_vtoken c; c_name := c_name c; c_label := c_label c;
     c_last_seen := c_last_seen c; c_persona_name := c_persona_name c;
     c_persona_emoji := c_persona_emoji c;
     c_description := ofilter (fun d => negb (is_empty d)) (c_description c) |}.

Definition list_clients (s : Store) : list ClientRow :=
  read_row <$> merge_sort row_le (clients_t s).

(** [UPDATE clients SET ... WHERE vtoken = ...]. *)
Definition update_row (vt : string) (f : ClientRow -> ClientRow) (s : Store) : Store :=
  set_clients_t ((fun c => if (c_vtoken c =? vt)%string then f c else c) <$> clients_t s) s.

Definition touch_client (now : Z) (vt : string) (s : Store) : Store :=
  update_row vt (fun c =>
    {| c_vtoken := c_vtoken c; c_name := c_name c; c_label := c_label c;
       c_last_seen := Some now; c_persona_name := c_persona_name c;
       c_persona_emoji := c_persona_emoji c; c_description := c_description c |}) s.

Definition update_client_description (vt : string) (d : option string) (s : Store) : Store :=
  update_row vt (fun c =>
    {| c_vtoken := c_vtoken c; c_name := c_name c; c_label := c_label c;
       c_last_seen := c_last_seen c; c_persona_name := c_persona_name c;
       c_persona_emoji := c_persona_emoji c; c_description := d |}) s.

Definition update_client_persona (vt : string) (pn pe : option string) (s : Store) : Store :=
  update_row vt (fun c =>
    {| c_vtoken := c_vtoken c; c_name := c_name c; c_label := c_label c;
       c_last_seen := c_last_seen c; c_persona_name := pn;
       c_persona_emoji := pe; c_description := c_description c |}) s.

(** [None] when the name belongs to another row. *)
Definition update_client_by_vtoken (vt n : string) (l : option string) (s : Store) : option Store :=
  if existsb (fun c => (c_vtoken c =? vt)%string) (clients_t s) &&
     existsb (fun c => negb (c_vtoken c =? vt)%string && (c_name c =? n)%string) (clients_t s)
  then None
  else Some (update_row vt (fun c =>
    {| c_vtoken := c_vtoken c; c_name := n; c_label := l <|> c_label c;
       c_last_seen := c_last_seen c; c_persona_name := c_persona_name c;
       c_persona_emoji := c_persona_emoji c; c_description := c_description c |}) s).

Definition list_routes (s : Store) : list (string * string) := map_to_list (routing_state s).

Definition store_get_route (u : string) (s : Store) : option string := routing_state s !! u.

Definition store_set_route (u vt : string) (s : Store) : Store :=
  set_routing_state (<[u := vt]> (routing_state s)) s.

(** ** [sessions.rs] *)

Definition set_backend_session (now : Z) (vctx vt n id : string) (s : Store) : Store :=
  let k := (vctx, vt, n) in
  let row := match backend_sessions s !! k with
             | Some b => {| backend_session_id := id; last_usage_json := last_usage_json b;
                            b_rowid := b_rowid b; b_written := next_stamp s;
                            b_created := b_created b |}
             | None => {| backend_session_id := id; last_usage_json := None;
                          b_rowid := next_stamp s; b_written := next_stamp s;
                          b_created := now |}
             end in
  bump_stamp (set_backend_sessions (<[k := row]> (backend_sessions s)) s).

Definition set_backend_session_usage (now : Z) (vctx vt n usage : string) (s : Store) : Store :=
  let k := (vctx, vt, n) in
  let row := match backend_sessions s !! k with
             | Some b => {| backend_session_id := backend_session_id b;
                            last_usage_json := Some usage; b_rowid := b_rowid b;
                            b_written := next_stamp s; b_created := b_created b |}
             | None => {| backend_session_id := ""; last_usage_json := Some usage;
                          b_rowid := next_stamp s; b_written := next_stamp s;
                          b_created := now |}
             end in
  bump_stamp (set_backend_sessions (<[k := row]> (backend_sessions s)) s).

Definition get_backend_session (vctx vt n : string) (s : Store) : option string :=
  backend_session_id <$> backend_sessions s !! (vctx, vt, n).

(** Rows of one conversation and backend, ordered by name. *)
Definition fst_le (a b : string * string) : Prop := String.le a.1 b.1.

#[export] Instance fst_le_dec a b : Decision (fst_le a b).
Proof. unfold fst_le. apply _. Defined.

Definition list_backend_sessions (vctx vt : string) (s : Store) : list (string * string) :=
  merge_sort fst_le
    (omap (fun p : (string * string * string) * BackendRow =>
             let '((c, v, n), b) := p in
             if (c =? vctx)%string && (v =? vt)%string then Some (n, backend_session_id b) else None)
          (map_to_list (backend_sessions s))).

Definition delete_backend_session (vctx vt n : string) (s : Store) : bool * Store :=
  (bool_decide (is_Some (backend_sessions s !! (vctx, vt, n))),
   set_backend_sessions (delete (vctx, vt, n) (backend_sessions s)) s).

Definition nonblank (s : string) : option string := if is_empty (trim s) then None else Some s.

Definition get_active_session_name (vctx vt : string) (s : Store) : string :=
  unwrap_or (ofilter (fun n => negb (is_empty n)) (a_session <$> active_sessions s !! (vctx, vt)))
    "default".

(** One entry of [get_hub_ext_batch_inner]; the two chunked queries touch each pair
    on its own. *)
Definition hub_ext_of (s : Store) (p : string * string) : string * option string :=
  let n := get_active_session_name p.1 p.2 s in
  (n, get_backend_session p.1 p.2 n s ≫= nonblank).

Definition get_hub_ext_batch_inner (pairs : list (string * string)) (s : Store)
    : gmap (string * string) (string * option string) :=
  list_to_map ((fun p => (p, hub_ext_of s p)) <$> pairs).

(** [slice::chunks]; the length of the list bounds the number of chunks. *)
Fixpoint chunks_go {A} (fuel n : nat) (l : list A) : list (list A) :=
  match fuel, l with
  | S f, _ :: _ => take n l :: chunks_go f n (drop n l)
  | _, _ => []
  end.

Definition chunks {A} (n : nat) (l : list A) : list (list A) := chunks_go (length l) n l.

Definition get_hub_ext_batch (pairs : list (string * string)) (s : Store)
    : gmap (string * string) (string * option string) :=
  if (length pairs <=? 200)%nat then get_hub_ext_batch_inner pairs s
  else foldl (fun merged c => get_hub_ext_batch_inner c s ∪ merged) ∅ (chunks 200 pairs).

Definition get_hub_ext_single (vctx vt : string) (s : Store) : string * option string :=
  let n := unwrap_or (a_session <$> active_sessions s !! (vctx, vt)) "default" in
  (n, get_backend_session vctx vt n s ≫= nonblank).

(** [i64::saturating_add] of the clock and the TTL. *)
Definition grant_expires_at (now : Z) (s : Store) : Z :=
  Z.min i64_max (now + Z.min (grant_ttl_secs s) i64_max).

Definition set_active_session_name (now : Z) (vctx vt n : string) (s : Store) : Store :=
  let depth := match active_sessions s !! (vctx, vt) with Some a => a2a_depth a | None => 0%Z end in
  set_active_sessions
    (<[(vctx, vt) := {| a_session := n; a2a_depth := depth;
                        expires_at := grant_expires_at now s; updated_at := now |}]>
       (active_sessions s)) s.

Definition set_active_session_with_depth (now : Z) (vctx vt n : string) (depth : Z) (s : Store)
    : Store :=
  set_active_sessions
    (<[(vctx, vt) := {| a_session := n; a2a_depth := depth;
                        expires_at := grant_expires_at now s; updated_at := now |}]>
       (active_sessions s)) s.

(** A stored depth read back as [u8]. *)
Definition depth_u8 (d : Z) : Z := Z.min u8_max (Z.max 0 d).

Definition get_active_session_row (vctx vt : string) (s : Store) : option (string * Z) :=
  (fun a => (a_session a, depth_u8 (a2a_depth a))) <$> active_sessions s !! (vctx, vt).

Definition delete_active_session_if_name (vctx vt n : string) (s : Store) : bool * Store :=
  match active_sessions s !! (vctx, vt) with
  | Some a =>
      if (a_session a =? n)%string
      then (true, set_active_sessions (delete (vctx, vt) (active_sessions s)) s)
      else (false, s)
  | None => (false, s)
  end.

Definition revoke_authorizations_for_vtoken (vt : string) (s : Store) : Store :=
  let s := clear_routes_for_vtoken vt s in
  let s := set_active_sessions (filter (fun p => p.1.2 <> vt) (active_sessions s)) s in
  set_backend_sessions (filter (fun p => p.1.1.2 <> vt) (backend_sessions s)) s.

Record ActiveCtxInfo := {
  i_vctx : string;
  i_real_ctx : string;
  i_peer_user_id : string;
  i_a2a_depth : Z;
}.

(** The element with the greatest key; the last one among equals. *)
Fixpoint max_by {A} (key : A -> Z) (l : list A) : option A :=
  match l with
  | [] => None
  | x :: l =>
      match max_by key l with
      | Some y => Some (if (key x <=? key y)%Z then y else x)
      | None => Some x
      end
  end.

(** Unexpired grants of [vt] joined with their contexts. *)
Definition active_ctx_candidates (now : Z) (vt : string) (s : Store)
    : list (Z * ActiveCtxInfo) :=
  omap (fun p : (string * string) * ActiveRow =>
          let '((vctx, v), a) := p in
          if (v =? vt)%string && (now <? expires_at a)%Z then
            (fun c => (updated_at a,
                       {| i_vctx := vctx; i_real_ctx := real_ctx c; i_peer_user_id := ctx_peer c;
                          i_a2a_depth := depth_u8 (a2a_depth a) |}))
            <$> context_token_map s !! vctx
          else None) (map_to_list (active_sessions s)).

Definition get_active_ctx_for_vtoken (now : Z) (vt : string) (s : Store) : option ActiveCtxInfo :=
  snd <$> max_by fst (active_ctx_candidates now vt s).

(** ** [context.rs] *)

(** The value of the [peer_user_id] column that identifies a conversation. *)
Definition conv_key (peer : string) (group : option string) : string :=
  match ofilter (fun g => negb (is_empty g)) group with
  | Some g => "group:" +:+ g
  | None => if is_empty peer then "" else "peer:" +:+ peer
  end.

Definition find_vctx_for_scope (scope : string) (s : Store) : option string :=
  fst <$> List.find (fun p : string * CtxRow => (ctx_peer p.2 =? scope)%string)
            (map_to_list (context_token_map s)).

(** The unique index on [real_ctx]: no other row may hold it. *)
Definition real_ctx_free (vctx rc : string) (s : Store) : bool :=
  forallb (fun p : string * CtxRow => (p.1 =? vctx)%string || negb (real_ctx p.2 =? rc)%string)
    (map_to_list (context_token_map s)).

Definition put_ctx (vctx rc peer : string) (s : Store) : Store :=
  set_context_token_map (<[vctx := {| real_ctx := rc; ctx_peer := peer |}]> (context_token_map s)) s.

Inductive SqlError := MissingConstraint | UniqueViolation | OtherError.

(** [INSERT ... ON CONFLICT (peer_user_id) DO UPDATE ... RETURNING vctx].
    [arbiter] tells whether the driver accepts the partial index as the arbiter. A new
    row whose [vctx] is taken violates the primary key, which is no arbiter. *)
Definition upsert_ctx (arbiter : bool) (candidate rc key : string) (s : Store)
    : result string SqlError * Store :=
  if negb arbiter then (Err MissingConstraint, s) else
  match find_vctx_for_scope key s with
  | Some v => if real_ctx_free v rc s then (Ok v, put_ctx v rc key s) else (Err UniqueViolation, s)
  | None =>
      if bool_decide (is_Some (context_token_map s !! candidate)) then (Err UniqueViolation, s)
      else if real_ctx_free candidate rc s then (Ok candidate, put_ctx candidate rc key s)
      else (Err UniqueViolation, s)
  end.

(** The two-step path: look up, then update or insert. *)
Definition two_step_ctx (candidate rc key : string) (s : Store) : result string SqlError * Store :=
  match (if is_empty key then None else find_vctx_for_scope key s) with
  | Some v => if real_ctx_free v rc s then (Ok v, put_ctx v rc key s) else (Err UniqueViolation, s)
  | None =>
      if bool_decide (is_Some (context_token_map s !! candidate)) then
        (Ok (if is_empty key then candidate
             else unwrap_or (find_vctx_for_scope key s) candidate), s)
      else if real_ctx_free candidate rc s then
        let s := put_ctx candidate rc key s in
        (Ok (if is_empty key then candidate
             else unwrap_or (find_vctx_for_scope key s) candidate), s)
      else (Err UniqueViolation, s)
  end.

Definition find_or_create_vctx (arbiter : bool) (uuid1 uuid2 : string) (peer : string)
    (group : option string) (rc : string) (s : Store) : result string SqlError * Store :=
  let key := conv_key peer group in
  if negb (is_empty key) && bool_decide (kind s <> MySql) then
    match upsert_ctx arbiter ("vctx_" +:+ uuid1) rc key s with
    | (Err MissingConstraint, s) => two_step_ctx ("vctx_" +:+ uuid2) rc key s
    | r => r
    end
  else two_step_ctx ("vctx_" +:+ uuid2) rc key s.

Definition resolve_context_token (vctx : string) (s : Store) : option string :=
  real_ctx <$> context_token_map s !! vctx.

Definition resolve_context_token_full (vctx : string) (s : Store) : option (string * string) :=
  (fun c => (real_ctx c, ctx_peer c)) <$> context_token_map s !! vctx.

(** Which of two rows the driver's "newest" ordering puts first. *)
Definition newer (k : DatabaseKind) (a b : BackendRow) : bool :=
  match k with
  | Sqlite => (b_rowid b <? b_rowid a)%nat
  | Postgres => (b_written b <? b_written a)%nat
  | MySql => (b_created b <? b_created a)%Z
  end.

Fixpoint newest (k : DatabaseKind) (l : list (string * BackendRow)) : option (string * BackendRow) :=
  match l with
  | [] => None
  | x :: l => match newest k l with
              | Some y => Some (if newer k y.2 x.2 then y else x)
              | None => Some x
              end
  end.

Definition session_owners (vctx n : string) (s : Store) : list (string * BackendRow) :=
  omap (fun p : (string * string * string) * BackendRow =>
          let '((c, v, m), b) := p in
          if (c =? vctx)%string && (m =? n)%string then Some (v, b) else None)
    (map_to_list (backend_sessions s)).

Definition find_vtoken_for_session (vctx n : string) (s : Store) : option string :=
  fst <$> newest (kind s) (session_owners vctx n s).

(** The two ownership sources. *)
Definition live_grant (now : Z) (vctx vt : string) (s : Store) : option ActiveRow :=
  ofilter (fun a => (now <? expires_at a)%Z) (active_sessions s !! (vctx, vt)).

Definition has_backend_session (vctx vt : string) (s : Store) : bool :=
  existsb (fun k : string * string * string => (k.1.1 =? vctx)%string && (k.1.2 =? vt)%string)
    (map_to_list (backend_sessions s)).*1.

Definition vtoken_owns_vctx (now : Z) (vctx vt : string) (s : Store) : bool :=
  bool_decide (is_Some (live_grant now vctx vt s)) || has_backend_session vctx vt s.

Definition resolve_send_context (now : Z) (vctx vt : string) (s : Store)
    : option (string * string * string) :=
  match context_token_map s !! vctx with
  | Some c =>
      if bool_decide (is_Some (live_grant now vctx vt s)) || has_backend_session vctx vt s then
        Some (real_ctx c, ctx_peer c,
              unwrap_or (a_session <$> live_grant now vctx vt s) "default")
      else None
  | None => None
  end.

(** ** [messages.rs] *)

Definition save_message_with_msg_id (now : Z) (vctx : string) (vt : option string)
    (session peer role content : string) (msg_id : option Z) (s : Store) : Store :=
  bump_stamp (set_messages (messages s ++
    [{| m_id := next_stamp s; m_vctx := vctx; m_vtoken := vt; m_session := session;
        m_peer := peer; m_role := role; m_content := content; m_created := now;
        m_ilink_msg_id := msg_id |}]) s).

Definition save_message (now : Z) (vctx : string) (vt : option string)
    (session peer role content : string) (s : Store) : Store :=
  save_message_with_msg_id now vctx vt session peer role content None s.

(** The escaping of a [LIKE] prefix: [\], [%] and [_] are doubled or escaped. *)
Definition like_escape (s : string) : list string :=
  mjoin ((fun c => if existsb (String.eqb c) ["\"; "%"; "_"] then ["\"; c] else [c]) <$> chars s).

Definition like_pattern (prefix : string) : list string := like_escape prefix ++ ["%"].

(** Equality of two characters under the driver's [LIKE]: ASCII case is ignored by
    SQLite and MySQL, not by PostgreSQL. *)
Definition like_eq (k : DatabaseKind) (a b : string) : bool :=
  match k with Postgres => String.eqb a b | _ => eq_ignore_ascii_case a b end.

(** [content LIKE pattern ESCAPE '\'], character by character. *)
Fixpoint like (k : DatabaseKind) (pat : list string) : list string -> bool :=
  match pat with
  | [] => fun c => match c with [] => true | _ => false end
  | p :: pat' =>
      if (p =? "\")%string then
        match pat' with
        | e :: pat'' => fun c =>
            match c with x :: c' => like_eq k e x && like k pat'' c' | [] => false end
        | [] => fun _ => false
        end
      else if (p =? "%")%string then
        (fix any (c : list string) : bool :=
           like k pat' c || match c with _ :: c' => any c' | [] => false end)
      else if (p =? "_")%string then
        fun c => match c with _ :: c' => like k pat' c' | [] => false end
      else
        fun c => match c with x :: c' => like_eq k p x && like k pat' c' | [] => false end
  end.

Definition assistant_rows (peer : string) (s : Store) : list MessageRow :=
  List.filter (fun m => (m_peer m =? peer)%string && (m_role m =? "assistant")%string) (messages s).

Definition row_origin (m : MessageRow) : string * option string :=
  (unwrap_or (m_vtoken m) "", Some (m_session m)).

(** [ORDER BY created_at DESC LIMIT 1]. *)
Definition find_assistant_message_by_content (peer prefix : string) (s : Store)
    : option (string * option string) :=
  row_origin <$> max_by m_created
    (List.filter (fun m => like (kind s) (like_pattern prefix) (chars (m_content m)))
       (assistant_rows peer s)).

Definition find_assistant_message_by_timestamp (peer : string) (ref window : Z) (s : Store)
    : option (string * option string) :=
  row_origin <$> max_by (fun m => - Z.abs (m_created m - ref))%Z
    (List.filter (fun m => (ref - window <=? m_created m) && (m_created m <=? ref + window))%Z
       (assistant_rows peer s)).

Definition find_assistant_message_by_msg_id (peer : string) (id : Z) (s : Store)
    : option (string * option string) :=
  row_origin <$> List.find (fun m => bool_decide (m_ilink_msg_id m = Some id)) (assistant_rows peer s).

(** [ORDER BY id DESC LIMIT clamp(limit, 1, 500)]. *)
Definition list_messages_for_session (vt n : string) (limit : Z) (s : Store) : list MessageRow :=
  take (Z.to_nat (Z.max 1 (Z.min 500 limit)))
    (reverse (List.filter (fun m => bool_decide (m_vtoken m = Some vt) && (m_session m =? n)%string)
                (messages s))).

Record SessionStatusEntry := {
  e_session : string;
  last_user_content : option string;
  waiting_for_reply : bool;
  user_msg_created_at : option Z;
}.

Definition of_session (vt n : string) (m : MessageRow) : bool :=
  bool_decide (m_vtoken m = Some vt) && (m_session m =? n)%string.

(** The sessions of a token by their latest message, most recent first. *)
Fixpoint latest_sessions (seen : list string) (rows : list MessageRow) : list MessageRow :=
  match rows with
  | [] => []
  | m :: rows =>
      if bool_decide (m_session m ∈ seen) then latest_sessions seen rows
      else m :: latest_sessions (m_session m :: seen) rows
  end.

Definition session_entries (vt : string) (s : Store) : list SessionStatusEntry :=
  let rows := reverse (List.filter (fun m => bool_decide (m_vtoken m = Some vt)) (messages s)) in
  (fun m =>
     let user := List.find (fun u => of_session vt (m_session m) u && (m_role u =? "user")%string) rows in
     {| e_session := m_session m; last_user_content := m_content <$> user;
        waiting_for_reply := (m_role m =? "user")%string;
        user_msg_created_at := m_created <$> user |}) <$> latest_sessions [] rows.

(** [get_all_session_entries_per_vtoken]: tokens without messages have no entry. *)
Definition get_all_session_entries_per_vtoken (vtokens : list string) (s : Store)
    : gmap string (list SessionStatusEntry) :=
  list_to_map (omap (fun vt => match session_entries vt s with
                               | [] => None
                               | es => Some (vt, es)
                               end) vtokens).

(** ** [retention.rs] *)

Record RetentionConfig := {
  enabled : bool;
  dry_run : bool;
  sweep_interval_secs : Z;
  batch_size : Z;
  messages_ttl_secs : Z;
  active_sessions_ttl_secs : Z;
}.

Definition RetentionConfig_default : RetentionConfig :=
  {| enabled := false; dry_run := true; sweep_interval_secs := 3600; batch_size := 500;
     messages_ttl_secs := 0; active_sessions_ttl_secs := 0 |}.

Record RetentionReport := {
  r_dry_run : bool;
  messages_matched : Z;
  messages_deleted : Z;
  active_sessions_matched : Z;
  active_sessions_deleted : Z;
  batches : Z;
}.

Definition cutoff_epoch_secs (ttl now : Z) : Z := Z.max i64_min (now - Z.min ttl i64_max).

(** [LIMIT n]: a negative limit is no limit on SQLite; the other two drivers refuse the
    statement. *)
Definition sql_limit {A} (k : DatabaseKind) (n : Z) (l : list A) : option (list A) :=
  if (n <? 0)%Z then if bool_decide (k = Sqlite) then Some l else None
  else Some (take (Z.to_nat n) l).

(** Why a sweep ends without a report: the driver refuses the limit, or the bound on the
    number of batches is reached, which [StoreProps.sweep_exact] excludes. *)
Inductive SweepError := NegativeLimit | OutOfFuel.

Section Sweep.
(** One table: the driver, the rows, which of them are expired, and the deletion of a
    row. *)
Context {T R : Type} (k : DatabaseKind) (expired : T -> list R) (remove : R -> T -> T).

Definition delete_batch (limit : Z) (t : T) : result Z SweepError * T :=
  match sql_limit k limit (expired t) with
  | Some rows => (Ok (Z.of_nat (length rows)), foldr remove t rows)
  | None => (Err NegativeLimit, t)
  end.

(** The delete loop, with a bound on its number of iterations. *)
Fixpoint sweep_loop (fuel : nat) (batch : Z) (t : T) (deleted batches : Z)
    : result (Z * Z) SweepError * T :=
  match fuel with
  | 0 => (Err OutOfFuel, t)
  | S f =>
      match delete_batch (as_i64 batch) t with
      | (Err e, t) => (Err e, t)
      | (Ok affected, t) =>
          let batches := (batches + 1)%Z in
          let deleted := (deleted + affected)%Z in
          if (affected <? batch)%Z then (Ok (deleted, batches), t)
          else sweep_loop f batch t deleted batches
      end
  end.

(** [sweep_expired]: [(matched, deleted, batches)]. One more iteration than there
    are expired rows is always enough for a positive batch size. *)
Definition sweep_expired (cfg : RetentionConfig) (t : T) : result (Z * Z * Z) SweepError * T :=
  if dry_run cfg then
    match sql_limit k (as_i64 (batch_size cfg)) (expired t) with
    | None => (Err NegativeLimit, t)
    | Some candidates =>
        let matched := Z.of_nat (length candidates) in
        if (matched =? 0)%Z then (Ok (0, 0, 0)%Z, t) else (Ok (matched, 0, 1)%Z, t)
    end
  else
    match sweep_loop (S (length (expired t))) (batch_size cfg) t 0 0 with
    | (Err e, t) => (Err e, t)
    | (Ok (deleted, batches), t) => (Ok (deleted, deleted, batches), t)
    end.
End Sweep.

Definition expired_messages (cutoff : Z) (s : Store) : list nat :=
  m_id <$> List.filter (fun m => (m_created m <? cutoff)%Z) (messages s).

Definition remove_message (id : nat) (s : Store) : Store :=
  set_messages (List.filter (fun m => negb (m_id m =? id)%nat) (messages s)) s.

Definition expired_active (cutoff : Z) (s : Store) : list (string * string) :=
  fst <$> List.filter (fun p : (string * string) * ActiveRow => (updated_at p.2 <? cutoff)%Z)
            (map_to_list (active_sessions s)).

Definition remove_active (k : string * string) (s : Store) : Store :=
  set_active_sessions (delete k (active_sessions s)) s.

(** A failure of the second table leaves what was swept of the first. *)
Definition sweep_retention (cfg : RetentionConfig) (now : Z) (s : Store)
    : result RetentionReport SweepError * Store :=
  match (if (0 <? messages_ttl_secs cfg)%Z then
           sweep_expired (kind s) (expired_messages (cutoff_epoch_secs (messages_ttl_secs cfg) now))
             remove_message cfg s
         else (Ok (0, 0, 0)%Z, s)) with
  | (Err e, s) => (Err e, s)
  | (Ok (mm, md, mb), s) =>
      match (if (0 <? active_sessions_ttl_secs cfg)%Z then
               sweep_expired (kind s) (expired_active (cutoff_epoch_secs (active_sessions_ttl_secs cfg) now))
                 remove_active cfg s
             else (Ok (0, 0, 0)%Z, s)) with
      | (Err e, s) => (Err e, s)
      | (Ok (am, ad, ab), s) =>
          (Ok {| r_dry_run := dry_run cfg; messages_matched := mm; messages_deleted := md;
                 active_sessions_matched := am; active_sessions_deleted := ad;
                 batches := mb + ab |}, s)
      end
  end.
