(* ===== verification/StoreProps.v ===== *)
(** * Properties of the persistent store

    What the statements of [Store] guarantee to the rest of the hub: ownership of
    virtual contexts and its revocation, stability of virtual contexts, exactness
    of the quote lookup by content, and the retention sweep. *)
From S2P Require Import Prelude StrLemmas Store.
Import Str.

(** A filter that keeps every value of a key does not change its lookup. *)
Lemma lookup_filter_all `{Countable K} {V} (P : K * V -> Prop) `{!forall x, Decision (P x)}
    (m : gmap K V) k : (forall x, P (k, x)) -> filter P m !! k = m !! k.
Proof.
  intros HP. rewrite map_lookup_filter. destruct (m !! k) as [x|]; cbn; [|done].
  by rewrite option_guard_True by apply HP.
Qed.

(** ** Ownership *)

Lemma has_backend_session_spec vctx vt s :
  has_backend_session vctx vt s = true <-> exists n, is_Some (backend_sessions s !! (vctx, vt, n)).
Proof.
  unfold has_backend_session. rewrite existsb_exists. split.
  - intros ([[c v] n] & Hin & Hk). cbn in Hk. rewrite andb_true_iff, !String.eqb_eq in Hk.
    destruct Hk as [-> ->]. exists n. rewrite <- list_elem_of_In in Hin.
    apply list_elem_of_fmap in Hin as ([k b] & -> & Hb%elem_of_map_to_list). cbn in *. by exists b.
  - intros (n & b & Hb). exists (vctx, vt, n). cbn. rewrite !String.eqb_refl. split; [|done].
    rewrite <- list_elem_of_In. apply list_elem_of_fmap. exists ((vctx, vt, n), b).
    by rewrite elem_of_map_to_list.
Qed.

(** Ownership reads two tables only, and of those only the rows of its token. *)
Lemma owns_ext now vctx vt s s' :
  active_sessions s !! (vctx, vt) = active_sessions s' !! (vctx, vt) ->
  (forall n, backend_sessions s !! (vctx, vt, n) = backend_sessions s' !! (vctx, vt, n)) ->
  live_grant now vctx vt s = live_grant now vctx vt s' /\
  has_backend_session vctx vt s = has_backend_session vctx vt s'.
Proof.
  intros Ha Hb. unfold live_grant. rewrite Ha. split; [done|].
  apply eq_iff_eq_true. rewrite !has_backend_session_spec. by setoid_rewrite Hb.
Qed.

Lemma resolve_send_context_owned now vctx vt s :
  is_Some (resolve_send_context now vctx vt s) <->
  vtoken_owns_vctx now vctx vt s = true /\ is_Some (resolve_context_token vctx s).
Proof.
  unfold resolve_send_context, vtoken_owns_vctx, resolve_context_token.
  destruct (context_token_map s !! vctx) as [c|]; cbn.
  - destruct (_ || _); split; try naive_solver; intros [? ?]; done.
  - split; [by intros []|]. intros [_ []]. done.
Qed.

Lemma max_by_elem {A} (key : A -> Z) l x :
  max_by key l = Some x -> x ∈ l /\ forall y, y ∈ l -> (key y <= key x)%Z.
Proof.
  revert x. induction l as [|a l IH]; intros x; [done|]. cbn.
  destruct (max_by key l) as [m|] eqn:E.
  - destruct (IH m eq_refl) as [Hin Hmax]. destruct (Z.leb_spec (key a) (key m)); intros [= <-].
    + split; [by right|]. intros y [->|Hy]%elem_of_cons; [done|auto].
    + split; [by left|]. intros y [->|Hy]%elem_of_cons; [lia|]. specialize (Hmax y Hy). lia.
  - intros [= <-]. destruct l as [|b l]; [|cbn in E; by destruct (max_by key l)].
    split; [by left|]. intros y [->|Hy%elem_of_nil]%elem_of_cons; [lia|done].
Qed.

Lemma active_ctx_candidates_spec now vt s u i :
  (u, i) ∈ active_ctx_candidates now vt s <->
  exists a c, active_sessions s !! (i_vctx i, vt) = Some a /\ (now < expires_at a)%Z /\
    context_token_map s !! i_vctx i = Some c /\ updated_at a = u /\
    i = {| i_vctx := i_vctx i; i_real_ctx := real_ctx c; i_peer_user_id := ctx_peer c;
           i_a2a_depth := depth_u8 (a2a_depth a) |}.
Proof.
  unfold active_ctx_candidates. rewrite list_elem_of_omap. split.
  - intros ([[vctx v] a] & Hin%elem_of_map_to_list & H).
    destruct (String.eqb_spec v vt) as [->|]; [|done].
    destruct (Z.ltb_spec now (expires_at a)); cbn in H; [|done].
    destruct (context_token_map s !! vctx) as [c|] eqn:Ec; [|done]. injection H as <- <-. cbn.
    by exists a, c.
  - intros (a & c & Ha & Hlt & Hc & Hu & Hi). exists ((i_vctx i, vt), a).
    rewrite elem_of_map_to_list, String.eqb_refl. split; [done|]. apply Z.ltb_lt in Hlt.
    rewrite Hlt, Hc. cbn. by rewrite Hu, <- Hi.
Qed.

Lemma get_active_ctx_None now vt s :
  (forall vctx a, active_sessions s !! (vctx, vt) = Some a -> (expires_at a <= now)%Z) ->
  get_active_ctx_for_vtoken now vt s = None.
Proof.
  intros H. unfold get_active_ctx_for_vtoken.
  destruct (max_by fst (active_ctx_candidates now vt s)) as [[u i]|] eqn:E; [|done].
  apply max_by_elem in E as [Hin _]. apply active_ctx_candidates_spec in Hin as (a & c & Ha & Hlt & _).
  apply H in Ha. lia.
Qed.

Lemma revoke_active vctx vt s :
  active_sessions (revoke_authorizations_for_vtoken vt s) !! (vctx, vt) = None.
Proof. apply map_lookup_filter_None. right. intros a _ H. by apply H. Qed.

(** The rows revocation leaves for a token: none for the revoked one, all for others. *)
Lemma revoke_rows now vctx v vt s :
  let s' := revoke_authorizations_for_vtoken vt s in
  live_grant now vctx v s' = (if decide (v = vt) then None else live_grant now vctx v s) /\
  has_backend_session vctx v s' = (if decide (v = vt) then false else has_backend_session vctx v s).
Proof.
  intros s'. case_decide as E; [subst v; split|].
  - unfold live_grant, s'. by rewrite revoke_active.
  - apply not_true_is_false. rewrite has_backend_session_spec.
    intros (n & b & [_ H]%map_lookup_filter_Some). by apply H.
  - apply owns_ext; [|intros n]; by apply lookup_filter_all.
Qed.

Lemma revoke_owns now vctx v vt s :
  vtoken_owns_vctx now vctx v (revoke_authorizations_for_vtoken vt s)
  = if decide (v = vt) then false else vtoken_owns_vctx now vctx v s.
Proof.
  unfold vtoken_owns_vctx. destruct (revoke_rows now vctx v vt s) as [-> ->]. by case_decide.
Qed.

Lemma revoke_resolves now vctx v vt s :
  resolve_send_context now vctx v (revoke_authorizations_for_vtoken vt s)
  = if decide (v = vt) then None else resolve_send_context now vctx v s.
Proof.
  unfold resolve_send_context. destruct (revoke_rows now vctx v vt s) as [-> ->].
  change (context_token_map (revoke_authorizations_for_vtoken vt s)) with (context_token_map s).
  case_decide; [|done]. by destruct (context_token_map s !! vctx).
Qed.

(** Revocation is complete and precise: afterwards the token owns no virtual
    context, resolves none for sending, has no active conversation and no route
    points to it; the ownership of every other token and the message history are
    as before. *)
Theorem revoke_removes_all_authority (now : Z) (vt : string) (s : Store) :
  let s' := revoke_authorizations_for_vtoken vt s in
  (forall vctx, vtoken_owns_vctx now vctx vt s' = false /\
                resolve_send_context now vctx vt s' = None) /\
  get_active_ctx_for_vtoken now vt s' = None /\
  (forall u, store_get_route u s' <> Some vt) /\
  (forall v vctx, v <> vt ->
     vtoken_owns_vctx now vctx v s' = vtoken_owns_vctx now vctx v s /\
     resolve_send_context now vctx v s' = resolve_send_context now vctx v s) /\
  (forall u v, v <> vt -> store_get_route u s = Some v -> store_get_route u s' = Some v) /\
  messages s' = messages s.
Proof.
  intros s'. repeat split.
  - unfold s'. rewrite revoke_owns. by case_decide.
  - unfold s'. rewrite revoke_resolves. by case_decide.
  - apply get_active_ctx_None. intros vctx a. unfold s'. by rewrite revoke_active.
  - intros u Hu. change (filter (fun p => p.2 <> vt) (routing_state s) !! u = Some vt) in Hu.
    apply map_lookup_filter_Some in Hu as [_ H]. by apply H.
  - unfold s'. rewrite revoke_owns. by case_decide.
  - unfold s'. rewrite revoke_resolves. by case_decide.
  - intros u v Hv Hu. by apply map_lookup_filter_Some.
Qed.

Lemma grant_resolves now t vctx vt n depth s c :
  (t < grant_expires_at now s)%Z -> context_token_map s !! vctx = Some c ->
  resolve_send_context t vctx vt (set_active_session_with_depth now vctx vt n depth s)
  = Some (real_ctx c, ctx_peer c, n).
Proof.
  intros Hlt Hc. unfold resolve_send_context, live_grant. cbn. rewrite Hc, lookup_insert_eq. cbn.
  apply Z.ltb_lt in Hlt. by rewrite Hlt.
Qed.

(** Lifetime of a dispatch grant: after a grant written at [now], the token may
    send into the conversation exactly until [now] plus the configured TTL (or as
    long as a named session exists), under the granted session name and with the
    conversation's current context; no other (conversation, token) pair is touched.
    Sending is possible exactly when the context is known and owned. *)
Theorem grant_lifetime (now : Z) (vctx vt n : string) (depth : Z) (s : Store)
    (Hnow : (0 <= now)%Z) (Httl : (0 < grant_ttl_secs s)%Z) (Hmax : (now + grant_ttl_secs s <= i64_max)%Z) :
  let s' := set_active_session_with_depth now vctx vt n depth s in
  (forall t, vtoken_owns_vctx t vctx vt s' = true <->
     (t < now + grant_ttl_secs s)%Z \/ has_backend_session vctx vt s = true) /\
  (forall t c, (t < now + grant_ttl_secs s)%Z -> context_token_map s !! vctx = Some c ->
     resolve_send_context t vctx vt s' = Some (real_ctx c, ctx_peer c, n)) /\
  (forall t vctx' vt', (vctx', vt') <> (vctx, vt) ->
     vtoken_owns_vctx t vctx' vt' s' = vtoken_owns_vctx t vctx' vt' s) /\
  (forall t vctx' vt', is_Some (resolve_send_context t vctx' vt' s') <->
     vtoken_owns_vctx t vctx' vt' s' = true /\ is_Some (resolve_context_token vctx' s')).
Proof.
  intros s'.
  assert (He : grant_expires_at now s = (now + grant_ttl_secs s)%Z) by (unfold grant_expires_at; lia).
  assert (Hl : forall t, live_grant t vctx vt s' =
    ofilter (fun a => (t <? expires_at a)%Z)
      (Some {| a_session := n; a2a_depth := depth; expires_at := now + grant_ttl_secs s; updated_at := now |})).
  { intros t. unfold live_grant, s'. cbn. by rewrite lookup_insert_eq, He. }
  split; [|split; [|split]].
  - intros t. unfold vtoken_owns_vctx. rewrite orb_true_iff, bool_decide_eq_true, Hl. cbn.
    destruct (Z.ltb_spec t (now + grant_ttl_secs s)).
    + split; [auto|]. intros _. left. by eexists.
    + split; [intros [[]|]; [done|auto]|]. intros [|]; [lia|auto].
  - intros t c Hlt Hc. apply grant_resolves; [|done]. by rewrite He.
  - intros t vctx' vt' Hne. unfold vtoken_owns_vctx.
    destruct (owns_ext t vctx' vt' s' s) as [-> ->]; [|done|done]. cbn. by apply lookup_insert_ne.
  - intros. apply resolve_send_context_owned.
Qed.

Lemma grant_lifetime_witness :
  let s := Store_new Sqlite 60 in
  vtoken_owns_vctx 159 "v" "t" (set_active_session_with_depth 100 "v" "t" "default" 0 s) = true /\
  vtoken_owns_vctx 160 "v" "t" (set_active_session_with_depth 100 "v" "t" "default" 0 s) = false.
Proof.
  intros s. destruct (grant_lifetime 100 "v" "t" "default" 0 s) as [H _].
  - lia.
  - reflexivity.
  - unfold i64_max. cbn. lia.
  - split.
    + apply H. left. cbn. lia.
    + apply not_true_is_false. rewrite H. cbn. intros [|]; [lia|]. discriminate.
Defined.

(** ** Virtual contexts *)

(** The unique indexes of [context_token_map]. *)
Record ctx_ok (s : Store) : Prop := {
  peer_unique : forall v v' c c', context_token_map s !! v = Some c ->
    context_token_map s !! v' = Some c' -> ctx_peer c = ctx_peer c' -> ctx_peer c <> "" -> v = v';
  real_unique : forall v v' c c', context_token_map s !! v = Some c ->
    context_token_map s !! v' = Some c' -> real_ctx c = real_ctx c' -> v = v';
}.

Lemma find_vctx_Some scope s v :
  find_vctx_for_scope scope s = Some v ->
  exists c, context_token_map s !! v = Some c /\ ctx_peer c = scope.
Proof.
  unfold find_vctx_for_scope. rewrite fmap_Some. intros ([w c] & H & ->).
  apply List.find_some in H as [Hin Hp]. apply list_elem_of_In, elem_of_map_to_list in Hin.
  exists c. by apply String.eqb_eq in Hp.
Qed.

Lemma find_vctx_None scope s v c :
  find_vctx_for_scope scope s = None -> context_token_map s !! v = Some c -> ctx_peer c <> scope.
Proof.
  unfold find_vctx_for_scope. rewrite fmap_None. intros H Hc Hp.
  apply List.find_none with (x := (v, c)) in H; [|by apply list_elem_of_In, elem_of_map_to_list].
  by apply String.eqb_neq in H.
Qed.

Lemma find_vctx_unique scope s v c :
  ctx_ok s -> scope <> "" -> context_token_map s !! v = Some c -> ctx_peer c = scope ->
  find_vctx_for_scope scope s = Some v.
Proof.
  intros Hok Hne Hc Hp. destruct (find_vctx_for_scope scope s) as [w|] eqn:E.
  - apply find_vctx_Some in E as (d & Hd & Hdp). f_equal.
    apply (peer_unique s Hok _ _ _ _ Hd Hc); congruence.
  - by eapply find_vctx_None in E.
Qed.

Lemma real_ctx_free_spec v rc s :
  real_ctx_free v rc s = true <->
  forall w c, context_token_map s !! w = Some c -> real_ctx c = rc -> w = v.
Proof.
  unfold real_ctx_free. rewrite forallb_forall. split.
  - intros H w c Hc Hr. specialize (H (w, c)). cbn in H.
    rewrite orb_true_iff, negb_true_iff, String.eqb_eq, String.eqb_neq in H.
    destruct H as [|H]; [by apply list_elem_of_In, elem_of_map_to_list|done|done].
  - intros H [w c] Hin%list_elem_of_In%elem_of_map_to_list. cbn.
    rewrite orb_true_iff, negb_true_iff, String.eqb_eq, String.eqb_neq.
    destruct (decide (real_ctx c = rc)); [left; by eapply H|by right].
Qed.

Lemma real_ctx_taken v rc s :
  real_ctx_free v rc s = false ->
  exists w c, context_token_map s !! w = Some c /\ real_ctx c = rc /\ w <> v.
Proof.
  intros H.
  destruct (decide (Exists (fun p : string * CtxRow => real_ctx p.2 = rc /\ p.1 <> v)
                     (map_to_list (context_token_map s)))) as [Hex|Hno].
  - apply Exists_exists in Hex as ([w c] & Hin%elem_of_map_to_list & Hr & Hw). by exists w, c.
  - apply not_true_iff_false in H. destruct H. apply real_ctx_free_spec. intros w c Hc Hr.
    destruct (decide (w = v)); [done|]. destruct Hno. apply Exists_exists. exists (w, c).
    by rewrite elem_of_map_to_list.
Qed.

Lemma put_ctx_ok v rc key s :
  ctx_ok s -> real_ctx_free v rc s = true ->
  (forall w c, context_token_map s !! w = Some c -> ctx_peer c = key -> key <> "" -> w = v) ->
  ctx_ok (put_ctx v rc key s).
Proof.
  intros [H1 H2] Hfree Hkey. rewrite real_ctx_free_spec in Hfree. split; cbn; intros w w' c c';
    rewrite !lookup_insert; repeat case_decide; subst; intros Hw Hw'; simplify_eq; try done; cbn; intros.
  - symmetry. by eapply Hkey.
  - eapply Hkey; [done|done|congruence].
  - by eapply H1.
  - symmetry. by eapply Hfree.
  - by eapply Hfree.
  - by eapply H2.
Qed.

(** What a lookup-or-create of the conversation [key] may answer. *)
Definition vctx_post (key rc : string) (s : Store) (r : result string SqlError * Store) : Prop :=
  match r with
  | (Ok v, s') =>
      ctx_ok s' /\ context_token_map s' !! v = Some {| real_ctx := rc; ctx_peer := key |} /\
      (forall w, w <> v -> context_token_map s' !! w = context_token_map s !! w) /\
      (forall w c, context_token_map s !! w = Some c -> ctx_peer c = key -> key <> "" -> v = w)
  | (Err _, s') =>
      s' = s /\ exists w c, context_token_map s !! w = Some c /\ real_ctx c = rc /\
        (key <> "" -> ctx_peer c <> key)
  end.

(** Writing the row of the conversation (found or fresh) or finding its context taken. *)
Lemma vctx_write v rc key s :
  ctx_ok s ->
  (forall w c, context_token_map s !! w = Some c -> ctx_peer c = key -> key <> "" -> w = v) ->
  vctx_post key rc s
    (if real_ctx_free v rc s then (Ok v, put_ctx v rc key s) else (Err UniqueViolation, s)).
Proof.
  intros Hok Hkey. destruct (real_ctx_free v rc s) eqn:E; cbn.
  - split; [by apply put_ctx_ok|]. rewrite lookup_insert_eq. split; [done|]. split.
    + intros w Hw. by rewrite lookup_insert_ne.
    + intros w c Hc Hp Hne. symmetry. by eapply Hkey.
  - split; [done|]. destruct (real_ctx_taken _ _ _ E) as (w & c & Hc & Hr & Hw).
    exists w, c. split; [done|]. split; [done|]. intros Hne Hp. apply Hw. by eapply Hkey.
Qed.

Lemma upsert_ctx_post candidate rc key s :
  ctx_ok s -> key <> "" ->
  vctx_post key rc s (upsert_ctx true candidate rc key s) \/
  is_Some (context_token_map s !! candidate) /\ upsert_ctx true candidate rc key s = (Err UniqueViolation, s).
Proof.
  intros Hok Hne. unfold upsert_ctx. cbn [negb]. destruct (find_vctx_for_scope key s) as [v|] eqn:E.
  - left. apply vctx_write; [done|]. intros w c Hc Hp _. apply find_vctx_Some in E as (d & Hd & Hdp).
    apply (peer_unique s Hok _ _ _ _ Hc Hd); congruence.
  - case_bool_decide as Hc; [by right|]. left. apply vctx_write; [done|]. intros w c Hw Hp _.
    by eapply find_vctx_None in E.
Qed.

Lemma two_step_ctx_post candidate rc key s :
  ctx_ok s -> context_token_map s !! candidate = None ->
  vctx_post key rc s (two_step_ctx candidate rc key s).
Proof.
  intros Hok Hfresh. unfold two_step_ctx. destruct (is_empty key) eqn:Ek.
  - apply is_empty_spec in Ek. rewrite bool_decide_false by (rewrite Hfresh; by intros []).
    apply vctx_write; [done|]. intros. congruence.
  - assert (Hne : key <> "") by (by destruct key).
    destruct (find_vctx_for_scope key s) as [v|] eqn:E.
    + apply vctx_write; [done|]. intros w c Hc Hp _. apply find_vctx_Some in E as (d & Hd & Hdp).
      apply (peer_unique s Hok _ _ _ _ Hc Hd); congruence.
    + rewrite bool_decide_false by (rewrite Hfresh; by intros []).
      pose proof (vctx_write candidate rc key s Hok) as H.
      destruct (real_ctx_free candidate rc s) eqn:Ef.
      * assert (Hw : vctx_post key rc s (Ok candidate, put_ctx candidate rc key s)).
        { apply H. intros w c Hc Hp _. by eapply find_vctx_None in E. }
        assert (find_vctx_for_scope key (put_ctx candidate rc key s) = Some candidate) as ->.
        { destruct Hw as (Hok' & Hrow & _). by eapply find_vctx_unique. }
        done.
      * apply H. intros w c Hc Hp _. by eapply find_vctx_None in E.
Qed.

Lemma vctx_stable_aux arbiter u1 u2 peer group rc s :
  ctx_ok s -> context_token_map s !! ("vctx_" +:+ u2) = None ->
  vctx_post (conv_key peer group) rc s (find_or_create_vctx arbiter u1 u2 peer group rc s) \/
  is_Some (context_token_map s !! ("vctx_" +:+ u1)) /\
  find_or_create_vctx arbiter u1 u2 peer group rc s = (Err UniqueViolation, s).
Proof.
  intros Hok Hfresh. unfold find_or_create_vctx. set (key := conv_key peer group).
  destruct (negb (is_empty key) && _) eqn:E; [|left; by apply two_step_ctx_post].
  apply andb_true_iff in E as [Hne _]. apply negb_true_iff in Hne.
  assert (key <> "") by (by destruct key).
  destruct arbiter.
  - destruct (upsert_ctx_post ("vctx_" +:+ u1) rc key s Hok) as [Hu|[Hu ->]]; [done| |by right].
    left. destruct (upsert_ctx true _ rc key s) as [[v|[]] s'] eqn:Eu; try exact Hu.
    exfalso. revert Eu. unfold upsert_ctx. cbn [negb].
    destruct (find_vctx_for_scope key s); [|case_bool_decide]; try destruct (real_ctx_free _ _ _); discriminate.
  - left. cbn [upsert_ctx negb]. by apply two_step_ctx_post.
Qed.

(** (C14) Virtual contexts are stable and never shared: whatever the driver accepts
    as upsert arbiter, a message of a conversation gets the virtual context the
    conversation already has (or a fresh one), which from then on resolves to the
    message's context token and to this conversation; every other virtual context
    keeps its meaning and the unique indexes hold; the call fails without effect,
    and only when the context token belongs to another conversation already or the
    identifier drawn for the upsert is in use. *)
Theorem vctx_stable (arbiter : bool) (u1 u2 peer : string) (group : option string) (rc : string)
    (s : Store) (Hok : ctx_ok s)
    (Hfresh : context_token_map s !! ("vctx_" +:+ u2) = None) :
  vctx_post (conv_key peer group) rc s (find_or_create_vctx arbiter u1 u2 peer group rc s) \/
  is_Some (context_token_map s !! ("vctx_" +:+ u1)) /\
  find_or_create_vctx arbiter u1 u2 peer group rc s = (Err UniqueViolation, s).
Proof. by apply vctx_stable_aux. Qed.

Lemma ctx_ok_new k ttl : ctx_ok (Store_new k ttl).
Proof. split; cbn; intros *; rewrite lookup_empty; done. Qed.

Lemma vctx_stable_witness :
  vctx_post "group:g" "ctx1" (Store_new Sqlite 60)
    (find_or_create_vctx false "a" "b" "bob" (Some "g") "ctx1" (Store_new Sqlite 60)).
Proof.
  destruct (vctx_stable false "a" "b" "bob" (Some "g") "ctx1" (Store_new Sqlite 60)) as [H|[[? H] _]];
    [apply ctx_ok_new|reflexivity|exact H|by cbn in H].
Defined.

(** ** Quote lookup by content *)

Definition needs_escape (c : string) : bool := existsb (String.eqb c) ["\"; "%"; "_"].

Lemma like_escaped_char k c pat x l :
  like k ((if needs_escape c then ["\"; c] else [c]) ++ pat) (x :: l) = like_eq k c x && like k pat l.
Proof.
  destruct (needs_escape c) eqn:E; [done|]. unfold needs_escape in E. cbn [existsb] in E.
  rewrite !orb_false_iff in E. destruct E as (E1 & E2 & E3 & _).
  cbn [app like]. by rewrite E1, E2, E3.
Qed.

Lemma like_escaped_nil k c pat :
  like k ((if needs_escape c then ["\"; c] else [c]) ++ pat) [] = false.
Proof.
  destruct (needs_escape c) eqn:E; [done|]. unfold needs_escape in E. cbn [existsb] in E.
  rewrite !orb_false_iff in E. destruct E as (E1 & E2 & E3 & _).
  cbn [app like]. by rewrite E1, E2, E3.
Qed.

Lemma like_any k l : like k ["%"] l = true.
Proof. induction l as [|x l IH]; [done|]. cbn in *. by rewrite IH. Qed.

Lemma like_pattern_prefix k cs l :
  like k (mjoin ((fun c => if needs_escape c then ["\"; c] else [c]) <$> cs) ++ ["%"]) l = true <->
  exists hd tl, l = hd ++ tl /\ Forall2 (fun c x => like_eq k c x = true) cs hd.
Proof.
  revert l. induction cs as [|c cs IH]; intros l.
  - split; [|intros _; apply like_any]. intros _. exists [], l. by constructor.
  - rewrite fmap_cons. cbn [mjoin list_join]. rewrite <- app_assoc. destruct l as [|x l].
    + rewrite like_escaped_nil. split; [done|]. intros (hd & tl & He & HF). inversion HF; subst. done.
    + rewrite like_escaped_char, andb_true_iff, IH. split.
      * intros (Hx & hd & tl & -> & HF). exists (x :: hd), tl. by repeat constructor.
      * intros (hd & tl & He & HF). inversion HF; subst. injection He as -> ->. by eauto.
Qed.

(** The content lookup is a plain prefix search: whatever characters the quoted
    text contains, wildcards and escapes included, the row it returns is an
    assistant message of that conversation whose content starts with the quoted
    prefix (up to ASCII case where the driver ignores it), and no newer such
    message exists; it finds one whenever there is one. *)
Theorem content_lookup_is_prefix_search (peer prefix : string) (s : Store) :
  let matches m := m ∈ messages s /\ m_peer m = peer /\ m_role m = "assistant" /\
    exists hd tl, chars (m_content m) = hd ++ tl /\
      Forall2 (fun c x => like_eq (kind s) c x = true) (chars prefix) hd in
  match find_assistant_message_by_content peer prefix s with
  | Some o => exists m, matches m /\ o = row_origin m /\
                forall m', matches m' -> (m_created m' <= m_created m)%Z
  | None => forall m, ~ matches m
  end.
Proof.
  intros matches. unfold find_assistant_message_by_content.
  set (rows := List.filter _ (assistant_rows peer s)).
  assert (Hrows : forall m, m ∈ rows <-> matches m).
  { intros m. unfold rows, assistant_rows, matches, like_pattern, like_escape.
    rewrite list_elem_of_In, !filter_In, <- list_elem_of_In, andb_true_iff, !String.eqb_eq.
    rewrite (like_pattern_prefix (kind s) (chars prefix)). tauto. }
  destruct (max_by m_created rows) as [m|] eqn:E; cbn.
  - apply max_by_elem in E as [Hin Hmax]. exists m. rewrite <- Hrows. split; [done|]. split; [done|].
    intros m' Hm'. apply Hmax. by rewrite Hrows.
  - intros m Hm. rewrite <- Hrows in Hm. destruct rows as [|a l]; [by apply elem_of_nil in Hm|].
    cbn in E. by destruct (max_by m_created l).
Qed.

(** ** Retention *)

Lemma list_filter_all {A} (P : A -> Prop) `{!forall x, Decision (P x)} l :
  Forall P l -> filter P l = l.
Proof. induction 1 as [|x l Hx _ IH]; [done|]. by rewrite filter_cons_True, IH. Qed.

Lemma list_filter_none {A} (P : A -> Prop) `{!forall x, Decision (P x)} l :
  Forall (fun x => ~ P x) l -> filter P l = [].
Proof. induction 1 as [|x l Hx _ IH]; [done|]. by rewrite filter_cons_False. Qed.

Section Sweep.
Context {T R : Type} `{EqDecision R} (k : DatabaseKind) (expired : T -> list R) (remove : R -> T -> T).
Hypothesis expired_remove : forall r t, expired (remove r t) ≡ₚ filter (fun x => x <> r) (expired t).

Lemma expired_foldr rows t :
  expired (foldr remove t rows) ≡ₚ filter (fun x => x ∉ rows) (expired t).
Proof.
  induction rows as [|r rows IH]; cbn.
  - rewrite list_filter_all; [done|]. apply Forall_forall. intros. apply not_elem_of_nil.
  - rewrite expired_remove, IH, list_filter_filter. apply reflexive_eq, list_filter_iff.
    intros x. rewrite not_elem_of_cons. done.
Qed.

(** A limit the driver accepts. *)
Definition limit_ok (n : Z) : Prop := (0 <= n)%Z \/ k = Sqlite.

Lemma sql_limit_take {A} n (l : list A) : limit_ok n ->
  exists i, sql_limit k n l = Some (take i l) /\
    ((length (take i l) < Z.to_nat n \/ (n < 0)%Z) -> take i l = l).
Proof.
  unfold sql_limit, limit_ok. destruct (Z.ltb_spec n 0).
  - intros [|Hk]; [lia|]. exists (length l). rewrite firstn_all. by rewrite bool_decide_true.
  - intros _. exists (Z.to_nat n). split; [done|]. rewrite length_take. intros [|]; [|lia].
    rewrite take_ge; [done|lia].
Qed.

Lemma filter_app_fresh (l1 l2 : list R) :
  NoDup (l1 ++ l2) -> filter (fun x => x ∉ l1) (l1 ++ l2) = l2.
Proof.
  intros (_ & Hd & _)%NoDup_app. rewrite filter_app, list_filter_none, list_filter_all; [done| |].
  - apply Forall_forall. intros x Hx Ht. by apply (Hd x).
  - apply Forall_forall. intros x Hx Ht. by apply Ht.
Qed.

Lemma filter_take_drop (l : list R) i : NoDup l -> filter (fun x => x ∉ take i l) l = drop i l.
Proof.
  intros Hnd. pose proof (filter_app_fresh (take i l) (drop i l)) as H.
  rewrite take_drop in H. by apply H.
Qed.

Lemma delete_batch_spec limit t :
  NoDup (expired t) -> limit_ok limit ->
  exists rows, delete_batch k expired remove limit t = (Ok (Z.of_nat (length rows)), foldr remove t rows) /\
    expired t ≡ₚ rows ++ expired (foldr remove t rows) /\
    (length rows < Z.to_nat limit \/ (limit < 0)%Z -> rows = expired t).
Proof.
  intros Hnd Hl. destruct (sql_limit_take limit (expired t) Hl) as (i & E & Hi).
  exists (take i (expired t)). unfold delete_batch. rewrite E. split; [done|]. split; [|exact Hi].
  rewrite expired_foldr, filter_take_drop by done. by rewrite take_drop.
Qed.

Lemma as_i64_batch batch : (0 < batch <= u64_max)%Z ->
  as_i64 batch = batch \/ (as_i64 batch < 0)%Z.
Proof.
  intros H. unfold as_i64, u64_max, i64_max in *. rewrite Z.mod_small by lia.
  destruct (Z.leb_spec batch (2 ^ 63 - 1)); lia.
Qed.

(** The loop ends, having removed the expired rows and nothing else. *)
Lemma sweep_loop_spec fuel batch t deleted n :
  (0 < batch <= u64_max)%Z -> limit_ok (as_i64 batch) -> NoDup (expired t) -> length (expired t) < fuel ->
  exists rows n', sweep_loop k expired remove fuel batch t deleted n
    = (Ok (deleted + Z.of_nat (length (expired t)), n')%Z, foldr remove t rows) /\
    rows ≡ₚ expired t /\ expired (foldr remove t rows) = [].
Proof.
  intros Hb Hl. revert t deleted n. induction fuel as [|fuel IH]; intros t deleted n Hnd Hf; [lia|].
  cbn [sweep_loop]. destruct (delete_batch_spec (as_i64 batch) t Hnd Hl) as (rows & -> & Hsplit & Hrows).
  pose proof (Permutation_length Hsplit) as Hlen. rewrite length_app in Hlen.
  destruct (Z.ltb_spec (Z.of_nat (length rows)) batch) as [Hlt|Hge].
  - assert (Hall : rows = expired t).
    { apply Hrows. destruct (as_i64_batch batch Hb) as [->|]; [left; lia|by right]. }
    assert (He : expired (foldr remove t rows) = []).
    { apply length_zero_iff_nil. rewrite <- Hall in Hlen. lia. }
    exists rows. eexists. rewrite <- Hall. split; [done|]. split; [done|]. by rewrite Hall in *.
  - destruct (IH (foldr remove t rows) (deleted + Z.of_nat (length rows))%Z (n + 1)%Z)
      as (rows' & n' & -> & Hp & He); [|lia|].
    + rewrite Hsplit in Hnd. by apply NoDup_app in Hnd as (_ & _ & ?).
    + exists (rows' ++ rows), n'. rewrite foldr_app. split; [do 3 f_equal; lia|].
      split; [|done]. rewrite Hsplit, Hp. apply Permutation_app_comm.
Qed.
End Sweep.

Lemma foldr_remove_message s rows :
  foldr remove_message s rows
  = set_messages (List.filter (fun m => bool_decide (m_id m ∉ rows)) (messages s)) s.
Proof.
  induction rows as [|r rows IH]; cbn.
  - destruct s as [? ? ? ? ? ? ? l ?]. unfold set_messages. cbn. f_equal.
    induction l as [|m l IH]; [done|]. cbn. by rewrite <- IH.
  - rewrite IH. unfold remove_message, set_messages. cbn. f_equal.
    generalize (messages s). intros l. induction l as [|m l IHl]; [done|]. cbn.
    destruct (bool_decide (m_id m ∉ rows)) eqn:E1; cbn.
    + apply bool_decide_eq_true in E1. rewrite IHl.
      destruct (Nat.eqb_spec (m_id m) r) as [->|Hne]; cbn.
      * rewrite bool_decide_false; [done|]. set_solver.
      * rewrite bool_decide_true; [done|]. set_solver.
    + apply bool_decide_eq_false in E1. rewrite IHl, bool_decide_false; [done|]. set_solver.
Qed.

Lemma foldr_remove_active s rows :
  foldr remove_active s rows
  = set_active_sessions (filter (fun p => p.1 ∉ rows) (active_sessions s)) s.
Proof.
  induction rows as [|r rows IH]; cbn.
  - destruct s as [? ? ? ? ? m ? ? ?]. unfold set_active_sessions. cbn. f_equal. symmetry.
    apply map_filter_id. set_solver.
  - rewrite IH. unfold remove_active, set_active_sessions. cbn. f_equal.
    apply map_eq. intros k. rewrite lookup_delete, !map_lookup_filter.
    case_decide as E; [subst; destruct (active_sessions s !! k); cbn; [|done];
      rewrite option_guard_False; [done|set_solver]|].
    destruct (active_sessions s !! k) as [a|]; cbn; [|done].
    destruct (decide (k ∈ rows)) as [Hk|Hk].
    + rewrite !option_guard_False by set_solver. done.
    + rewrite !option_guard_True by set_solver. done.
Qed.

Lemma NoDup_filter_map {A B} (f : A -> B) (p : A -> bool) l :
  NoDup (f <$> l) -> NoDup (f <$> List.filter p l).
Proof.
  induction l as [|x l IH]; [done|]. cbn. intros [Hx Hl]%NoDup_cons. destruct (p x); [|by apply IH].
  cbn. apply NoDup_cons. split; [|by apply IH]. intros Hin. apply Hx.
  apply list_elem_of_fmap in Hin as (y & -> & Hy). apply list_elem_of_fmap. exists y. split; [done|].
  rewrite list_elem_of_In in Hy |- *. by apply filter_In in Hy as [? _].
Qed.

Lemma expired_messages_remove cutoff id s :
  expired_messages cutoff (remove_message id s) ≡ₚ filter (fun x => x <> id) (expired_messages cutoff s).
Proof.
  apply reflexive_eq. unfold expired_messages, remove_message. cbn. generalize (messages s). intros l.
  induction l as [|m l IH]; [done|]. cbn [List.filter].
  destruct (Nat.eqb_spec (m_id m) id) as [Heq|Hne]; cbn [negb List.filter];
    (destruct (_ <? _)%Z; [rewrite ?fmap_cons|exact IH]).
  - rewrite filter_cons_False; [exact IH|]. intros H. by apply H.
  - rewrite filter_cons_True by done. f_equal. exact IH.
Qed.

Lemma elem_of_expired_active cutoff s k :
  k ∈ expired_active cutoff s <->
  exists a, active_sessions s !! k = Some a /\ (updated_at a < cutoff)%Z.
Proof.
  unfold expired_active. rewrite list_elem_of_fmap. split.
  - intros ([k' a] & -> & Hin). rewrite list_elem_of_In in Hin.
    apply filter_In in Hin as [Hin Hlt%Z.ltb_lt]. exists a. cbn in *. split; [|done].
    by apply elem_of_map_to_list, list_elem_of_In.
  - intros (a & Ha & Hlt%Z.ltb_lt). exists (k, a). split; [done|]. rewrite list_elem_of_In.
    apply filter_In. split; [|done]. by apply list_elem_of_In, elem_of_map_to_list.
Qed.

Lemma NoDup_expired_active cutoff s : NoDup (expired_active cutoff s).
Proof. apply NoDup_filter_map, NoDup_fst_map_to_list. Qed.

Lemma expired_active_remove cutoff k s :
  expired_active cutoff (remove_active k s) ≡ₚ filter (fun x => x <> k) (expired_active cutoff s).
Proof.
  apply NoDup_Permutation; [apply NoDup_expired_active|apply NoDup_filter, NoDup_expired_active|].
  intros x. rewrite list_elem_of_filter, !elem_of_expired_active. cbn. split.
  - intros (a & [Hne Ha]%lookup_delete_Some & Hlt). by eauto.
  - intros (Hne & a & Ha & Hlt). exists a. by rewrite lookup_delete_ne.
Qed.

(** Keeping the rows that are not expired. *)
Definition unexpired_messages (cutoff : Z) (l : list MessageRow) : list MessageRow :=
  List.filter (fun m => (cutoff <=? m_created m)%Z) l.

Definition unexpired_active (cutoff : Z) (m : gmap (string * string) ActiveRow)
    : gmap (string * string) ActiveRow :=
  filter (fun p => (cutoff <= updated_at p.2)%Z) m.

Lemma remove_all_messages cutoff s rows :
  NoDup (m_id <$> messages s) -> rows ≡ₚ expired_messages cutoff s ->
  foldr remove_message s rows = set_messages (unexpired_messages cutoff (messages s)) s.
Proof.
  intros Hnd Hp. rewrite foldr_remove_message. f_equal. unfold unexpired_messages.
  apply List.filter_ext_in. intros m Hin%list_elem_of_In.
  apply eq_iff_eq_true. rewrite bool_decide_eq_true, Hp, Z.leb_le. unfold expired_messages.
  rewrite list_elem_of_fmap. split.
  - intros Hn. destruct (Z_lt_le_dec (m_created m) cutoff); [|done]. destruct Hn. exists m.
    split; [done|]. rewrite list_elem_of_In. apply filter_In. rewrite <- list_elem_of_In.
    by rewrite Z.ltb_lt.
  - intros Hle (m' & Heq & Hin'). rewrite list_elem_of_In in Hin'.
    apply filter_In in Hin' as [Hin' Hlt%Z.ltb_lt]. rewrite <- list_elem_of_In in Hin'.
    assert (m = m') as ->; [|lia]. clear -Hnd Hin Hin' Heq.
    apply list_elem_of_lookup in Hin as [i Hi]. apply list_elem_of_lookup in Hin' as [j Hj].
    assert (i = j) as ->; [|congruence].
    eapply NoDup_lookup; [exact Hnd|by rewrite list_lookup_fmap, Hi|by rewrite list_lookup_fmap, Hj, Heq].
Qed.

Lemma remove_all_active cutoff s rows :
  rows ≡ₚ expired_active cutoff s ->
  foldr remove_active s rows = set_active_sessions (unexpired_active cutoff (active_sessions s)) s.
Proof.
  intros Hp. rewrite foldr_remove_active. f_equal. apply map_filter_ext. intros k a Ha. cbn.
  rewrite Hp, elem_of_expired_active. split.
  - intros Hn. destruct (Z_lt_le_dec (updated_at a) cutoff); [|done]. destruct Hn. by eauto.
  - intros Hle (a' & Ha' & Hlt). simplify_eq. lia.
Qed.

Section SweepExpired.
Context {T R : Type} `{EqDecision R} (k : DatabaseKind) (expired : T -> list R) (remove : R -> T -> T).
Hypothesis expired_remove : forall r t, expired (remove r t) ≡ₚ filter (fun x => x <> r) (expired t).

Lemma sweep_expired_spec cfg t :
  (0 < batch_size cfg <= u64_max)%Z -> limit_ok k (as_i64 (batch_size cfg)) -> NoDup (expired t) ->
  exists matched n rows, sweep_expired k expired remove cfg t
    = (Ok (matched, if dry_run cfg then 0 else Z.of_nat (length (expired t)), n)%Z,
       if dry_run cfg then t else foldr remove t rows) /\ rows ≡ₚ expired t.
Proof.
  intros Hb Hl Hnd. unfold sweep_expired. destruct (dry_run cfg).
  - destruct (sql_limit_take k (as_i64 (batch_size cfg)) (expired t) Hl) as (i & -> & _).
    destruct (Z.eqb_spec (Z.of_nat (length (take i (expired t)))) 0);
      eexists _, _, (expired t); by split; [reflexivity|].
  - destruct (sweep_loop_spec k expired remove expired_remove (S (length (expired t))) (batch_size cfg)
                t 0 0 Hb Hl Hnd) as (rows & n & -> & Hp & _); [lia|].
    by exists (Z.of_nat (length (expired t))), n, rows.
Qed.

(** A limit the driver refuses stops the sweep at its first statement. *)
Lemma sweep_expired_refused cfg t :
  (as_i64 (batch_size cfg) < 0)%Z -> k <> Sqlite ->
  sweep_expired k expired remove cfg t = (Err NegativeLimit, t).
Proof.
  intros Hn Hk. unfold sweep_expired. cbn [sweep_loop]. unfold delete_batch, sql_limit.
  destruct (Z.ltb_spec (as_i64 (batch_size cfg)) 0); [|lia]. rewrite bool_decide_false by done.
  by destruct (dry_run cfg).
Qed.
End SweepExpired.

(** The batch size does not fit the signed 64-bit limit, on a driver that refuses negative
    limits, and some table is swept. *)
Definition sweep_refused (cfg : RetentionConfig) (k : DatabaseKind) : bool :=
  (i64_max <? batch_size cfg)%Z && negb (bool_decide (k = Sqlite)) &&
  ((0 <? messages_ttl_secs cfg)%Z || (0 <? active_sessions_ttl_secs cfg)%Z).

Lemma as_i64_negative n : (i64_max < n <= u64_max)%Z -> (as_i64 n < 0)%Z.
Proof.
  unfold as_i64, u64_max, i64_max. intros H. rewrite Z.mod_small by lia.
  destruct (Z.leb_spec n (2 ^ 63 - 1)); lia.
Qed.

Lemma as_i64_positive n : (0 < n <= i64_max)%Z -> as_i64 n = n.
Proof.
  unfold as_i64, i64_max. intros H. rewrite Z.mod_small by lia.
  destruct (Z.leb_spec n (2 ^ 63 - 1)); lia.
Qed.

Lemma sweep_refused_spec cfg now s :
  (0 < batch_size cfg <= u64_max)%Z -> sweep_refused cfg (kind s) = true ->
  sweep_retention cfg now s = (Err NegativeLimit, s).
Proof.
  intros Hb Hr. unfold sweep_refused in Hr. rewrite !andb_true_iff, orb_true_iff, negb_true_iff in Hr.
  destruct Hr as [[Hl Hk] Ht]. apply Z.ltb_lt in Hl. apply bool_decide_eq_false in Hk.
  pose proof (as_i64_negative (batch_size cfg) ltac:(lia)) as Hn. unfold sweep_retention.
  rewrite sweep_expired_refused by done.
  destruct (0 <? messages_ttl_secs cfg)%Z; [done|]. destruct Ht as [|Ht]; [done|].
  by rewrite Ht, sweep_expired_refused.
Qed.

(** (C24) The retention sweep terminates and is exact: with any positive batch size that
    the driver accepts as a limit (every one on SQLite, up to [i64::MAX] on the others),
    a sweep in earnest deletes exactly the messages and the grants older than their
    cutoffs (a TTL of zero keeps the table), reports their number, and touches no
    other table; a dry run changes nothing. A larger batch size becomes a negative limit
    in the code's cast: PostgreSQL and MySQL refuse it, the sweep fails and nothing is
    deleted. *)
Theorem sweep_exact (cfg : RetentionConfig) (now : Z) (s : Store)
    (Hb : (0 < batch_size cfg <= u64_max)%Z) (Hids : NoDup (m_id <$> messages s)) :
  let mc := cutoff_epoch_secs (messages_ttl_secs cfg) now in
  let ac := cutoff_epoch_secs (active_sessions_ttl_secs cfg) now in
  let keep_m := if (0 <? messages_ttl_secs cfg)%Z then unexpired_messages mc else id in
  let keep_a := if (0 <? active_sessions_ttl_secs cfg)%Z then unexpired_active ac else id in
  if sweep_refused cfg (kind s) then sweep_retention cfg now s = (Err NegativeLimit, s) else
  exists report s', sweep_retention cfg now s = (Ok report, s') /\
    if dry_run cfg then s' = s /\ messages_deleted report = 0%Z /\ active_sessions_deleted report = 0%Z
    else s' = set_active_sessions (keep_a (active_sessions s)) (set_messages (keep_m (messages s)) s) /\
         messages_deleted report = (if (0 <? messages_ttl_secs cfg)%Z
           then Z.of_nat (length (expired_messages mc s)) else 0%Z) /\
         active_sessions_deleted report = (if (0 <? active_sessions_ttl_secs cfg)%Z
           then Z.of_nat (length (expired_active ac s)) else 0%Z).
Proof.
  intros mc ac keep_m keep_a. destruct (sweep_refused cfg (kind s)) eqn:Hr; [by apply sweep_refused_spec|].
  assert (Hl : (0 < messages_ttl_secs cfg)%Z \/ (0 < active_sessions_ttl_secs cfg)%Z ->
               limit_ok (kind s) (as_i64 (batch_size cfg))).
  { intros Ht. unfold limit_ok. destruct (Z.ltb_spec i64_max (batch_size cfg)) as [Hi|Hi];
      [|left; rewrite as_i64_positive; lia]. right. unfold sweep_refused in Hr.
    assert ((0 <? messages_ttl_secs cfg)%Z || (0 <? active_sessions_ttl_secs cfg)%Z = true) as Ht'
      by (rewrite orb_true_iff, !Z.ltb_lt; done).
    rewrite Ht', (proj2 (Z.ltb_lt _ _)), andb_true_r in Hr by lia. cbn [andb] in Hr.
    apply negb_false_iff, bool_decide_eq_true in Hr. done. }
  unfold sweep_retention. fold mc ac.
  assert (Hm : exists mm n, (if (0 <? messages_ttl_secs cfg)%Z
      then sweep_expired (kind s) (expired_messages mc) remove_message cfg s else (Ok (0, 0, 0)%Z, s))
    = (Ok (mm, if dry_run cfg then 0 else if (0 <? messages_ttl_secs cfg)%Z
              then Z.of_nat (length (expired_messages mc s)) else 0, n)%Z,
       if dry_run cfg then s else set_messages (keep_m (messages s)) s)).
  { unfold keep_m. destruct (Z.ltb_spec 0 (messages_ttl_secs cfg)) as [Ht|_].
    - destruct (sweep_expired_spec (kind s) (expired_messages mc) remove_message (expired_messages_remove mc)
        cfg s Hb) as (mm & n & rows & -> & Hp); [by apply Hl; left|by apply NoDup_filter_map|].
      rewrite (remove_all_messages mc) by done. eauto.
    - destruct (dry_run cfg), s; eauto. }
  destruct Hm as (mm & n & ->).
  set (s1 := if dry_run cfg then s else set_messages (keep_m (messages s)) s).
  assert (Hact : active_sessions s1 = active_sessions s) by (unfold s1; by destruct (dry_run cfg)).
  assert (Hkind : kind s1 = kind s) by (unfold s1; by destruct (dry_run cfg)).
  assert (Ha : exists am n', (if (0 <? active_sessions_ttl_secs cfg)%Z
      then sweep_expired (kind s1) (expired_active ac) remove_active cfg s1 else (Ok (0, 0, 0)%Z, s1))
    = (Ok (am, if dry_run cfg then 0 else if (0 <? active_sessions_ttl_secs cfg)%Z
              then Z.of_nat (length (expired_active ac s)) else 0, n')%Z,
       if dry_run cfg then s1 else set_active_sessions (keep_a (active_sessions s)) s1)).
  { unfold keep_a. rewrite Hkind. destruct (Z.ltb_spec 0 (active_sessions_ttl_secs cfg)) as [Ht|_].
    - destruct (sweep_expired_spec (kind s) (expired_active ac) remove_active (expired_active_remove ac)
        cfg s1 Hb) as (am & n' & rows & -> & Hp); [by apply Hl; right|apply NoDup_expired_active|].
      rewrite (remove_all_active ac) by done. unfold expired_active. rewrite Hact. eauto.
    - cbn [id]. destruct (dry_run cfg); [by eauto|]. rewrite <- Hact. destruct s1; eauto. }
  destruct Ha as (am & n' & ->).
  eexists _, _. split; [done|]. cbn. subst s1. by destruct (dry_run cfg).
Qed.

Lemma sweep_exact_witness :
  let s := set_active_session_with_depth 100 "v" "t" "default" 0 (Store_new Sqlite 60) in
  let p := set_active_session_with_depth 100 "v" "t" "default" 0 (Store_new Postgres 60) in
  let cfg b := {| enabled := true; dry_run := false; sweep_interval_secs := 3600; batch_size := b;
                  messages_ttl_secs := 0; active_sessions_ttl_secs := 10 |} in
  (exists report s', sweep_retention (cfg 500%Z) 200 s = (Ok report, s') /\
     active_sessions_deleted report = 1%Z) /\
  sweep_retention (cfg (2 ^ 63)%Z) 200 p = (Err NegativeLimit, p).
Proof.
  intros s p cfg. split.
  - destruct (sweep_exact (cfg 500%Z) 200 s) as (report & s' & Hs & _ & _ & Hd).
    + vm_compute. split; discriminate || reflexivity.
    + constructor.
    + exists report, s'. split; [exact Hs|]. rewrite Hd. vm_compute. reflexivity.
  - apply (sweep_exact (cfg (2 ^ 63)%Z) 200 p); [|constructor].
    vm_compute. split; discriminate || reflexivity.
Defined.
