(* ===== verification/Sql.v ===== *)
(** * Timestamps in SQL ([src/store/sql.rs], [src/store/retention.rs])

    The store compares times in the database. SQLite keeps them as text
    ([CURRENT_TIMESTAMP]) and the sweeper compares that text with the text of its cutoff;
    the other drivers compare seconds. The calendar of the chrono crate and SQLite's clock
    are parameters with their documented laws; a Gregorian calendar satisfies them. *)
From S2P Require Import Prelude StrLemmas Store StoreProps.
From Stdlib Require Import Ascii.
Import Str.
Local Open Scope hub_scope.
Local Open Scope Z_scope.

(** ** Texts of fixed width *)

(** [{:0n}] of a number with at most [n] digits. *)
Fixpoint pad_digits (n : nat) (z : Z) : string :=
  match n with O => "" | S n => pad_digits n (z / 10) +:+ String (digit (z mod 10)) "" end.

Lemma compare_digit d d' : 0 <= d < 10 -> 0 <= d' < 10 -> Ascii.compare (digit d) (digit d') = (d ?= d').
Proof.
  intros Hd Hd'. unfold Ascii.compare, digit. rewrite !N_ascii_embedding by lia.
  destruct (Z.compare_spec d d') as [->|H|H]; [apply N.compare_refl|apply N.compare_lt_iff; lia|apply N.compare_gt_iff; lia].
Qed.

(** Comparing numbers by their leading part first. *)
Definition by_then (c d : comparison) : comparison := match c with Eq => d | _ => c end.

Lemma compare_split n p q p' q' : 0 < n -> 0 <= q < n -> 0 <= q' < n ->
  (p * n + q ?= p' * n + q') = by_then (p ?= p') (q ?= q').
Proof.
  intros Hn Hq Hq'. destruct (Z.compare_spec p p') as [->|H|H]; cbn.
  - destruct (Z.compare_spec q q') as [->|H|H]; [apply Z.compare_refl|apply Z.compare_lt_iff; lia|apply Z.compare_gt_iff; lia].
  - apply Z.compare_lt_iff. nia.
  - apply Z.compare_gt_iff. nia.
Qed.

Lemma compare_cons a b x y : String.compare (String a x) (String b y) = by_then (Ascii.compare a b) (String.compare x y).
Proof. by cbn; destruct (Ascii.compare a b). Qed.

Lemma compare_same a x y : String.compare (String a x) (String a y) = String.compare x y.
Proof. rewrite compare_cons. unfold Ascii.compare. by rewrite N.compare_refl. Qed.

Lemma compare_pad n : forall a b x y, 0 <= a < 10 ^ Z.of_nat n -> 0 <= b < 10 ^ Z.of_nat n ->
  String.compare (pad_digits n a +:+ x) (pad_digits n b +:+ y) = by_then (a ?= b) (String.compare x y).
Proof.
  induction n as [|n IH]; intros a b x y Ha Hb.
  - change (10 ^ Z.of_nat 0) with 1 in *. by replace a with b by lia; rewrite Z.compare_refl.
  - rewrite Nat2Z.inj_succ, Z.pow_succ_r in Ha, Hb by lia. cbn [pad_digits].
    rewrite !append_assoc, !append_cons, !append_nil_l.
    rewrite IH by (split; [apply Z.div_pos; lia|apply Z.div_lt_upper_bound; lia]).
    rewrite (Z.div_mod a 10), (Z.div_mod b 10) at 3 by lia. rewrite !(Z.mul_comm 10).
    pose proof (Z.mod_pos_bound a 10 eq_refl) as Hma. pose proof (Z.mod_pos_bound b 10 eq_refl) as Hmb.
    rewrite compare_split by lia. rewrite compare_cons, compare_digit by lia.
    by destruct (a / 10 ?= b / 10), (a mod 10 ?= b mod 10).
Qed.

(** ** The calendar *)

Record DateTime := { year : Z; month : Z; day : Z; hour : Z; minute : Z; second : Z }.

(** [%Y]: four digits, and a sign for a year that is not one of 0 to 9999. *)
Definition year_text (y : Z) : string :=
  if (0 <=? y) && (y <=? 9999) then pad_digits 4 y
  else (if y <? 0 then "-" else "+") +:+ (if Z.abs y <? 10000 then pad_digits 4 (Z.abs y) else show_u64 (Z.abs y)).

(** The format [%Y-%m-%d %H:%M:%S]. *)
Definition timestamp_text (d : DateTime) : string :=
  year_text (year d) +:+ "-" +:+ pad_digits 2 (month d) +:+ "-" +:+ pad_digits 2 (day d) +:+ " " +:+
  pad_digits 2 (hour d) +:+ ":" +:+ pad_digits 2 (minute d) +:+ ":" +:+ pad_digits 2 (second d).

(** Its digits as one number. *)
Definition stamp (d : DateTime) : Z :=
  ((((year d * 100 + month d) * 100 + day d) * 100 + hour d) * 100 + minute d) * 100 + second d.

(** [DateTime::from_timestamp] of chrono, and the text of SQLite's clock. *)
Class Calendar := {
  from_timestamp : Z -> option DateTime;
  current_timestamp : Z -> string;
}.

(** The end of the year 9999. *)
Definition END_OF_TIME : Z := 253402300800.

Definition two_digits (n : Z) : Prop := 0 <= n < 100.

Class CalendarLaws (C : Calendar) : Prop := {
  cal_fields : forall t d, from_timestamp t = Some d ->
    two_digits (month d) /\ two_digits (day d) /\ two_digits (hour d) /\ two_digits (minute d) /\ two_digits (second d);
  cal_order : forall t t' d d', from_timestamp t = Some d -> from_timestamp t' = Some d' -> t < t' -> stamp d < stamp d';
  cal_epoch : forall t, 0 <= t < END_OF_TIME -> exists d, from_timestamp t = Some d /\ 0 <= year d <= 9999;
  cal_sqlite : forall t d, 0 <= t < END_OF_TIME -> from_timestamp t = Some d -> current_timestamp t = timestamp_text d;
}.

(** ** Cutoffs *)

Inductive RetentionCutoff := Text (text : string) | Epoch (secs : Z).

Section Retention.
Context `{CalendarLaws}.

Definition retention_cutoff (kind : DatabaseKind) (cutoff_epoch_secs : Z) : RetentionCutoff :=
  match kind with
  | Sqlite => Text (match from_timestamp cutoff_epoch_secs with Some d => timestamp_text d | None => "" end)
  | _ => Epoch cutoff_epoch_secs
  end.

(** The condition of the selections: [col < $1], on the text or on the seconds. *)
Definition before_cutoff (cutoff : RetentionCutoff) (t : Z) : bool :=
  match cutoff with Text s => String.ltb (current_timestamp t) s | Epoch e => t <? e end.

Definition messages_expired_selection (cutoff : RetentionCutoff) (s : Store) : list nat :=
  m_id <$> List.filter (fun m => before_cutoff cutoff (m_created m)) (messages s).

Definition active_sessions_expired_selection (cutoff : RetentionCutoff) (s : Store) : list (string * string) :=
  fst <$> List.filter (fun p : (string * string) * ActiveRow => before_cutoff cutoff (updated_at p.2))
            (map_to_list (active_sessions s)).

(** [sweep_retention] as the statements run it: each selection by the driver's cutoff. *)
Definition sweep_retention_sql (cfg : RetentionConfig) (now : Z) (s : Store)
    : result RetentionReport SweepError * Store :=
  match (if 0 <? messages_ttl_secs cfg then
           sweep_expired (kind s)
             (messages_expired_selection (retention_cutoff (kind s) (cutoff_epoch_secs (messages_ttl_secs cfg) now)))
             remove_message cfg s
         else (Ok (0, 0, 0), s)) with
  | (Err e, s) => (Err e, s)
  | (Ok (mm, md, mb), s) =>
      match (if 0 <? active_sessions_ttl_secs cfg then
               sweep_expired (kind s)
                 (active_sessions_expired_selection
                    (retention_cutoff (kind s) (cutoff_epoch_secs (active_sessions_ttl_secs cfg) now)))
                 remove_active cfg s
             else (Ok (0, 0, 0), s)) with
      | (Err e, s) => (Err e, s)
      | (Ok (am, ad, ab), s) =>
          (Ok {| r_dry_run := dry_run cfg; messages_matched := mm; messages_deleted := md;
                 active_sessions_matched := am; active_sessions_deleted := ad; batches := mb + ab |}, s)
      end
  end.

(** ** Text order is the order of time *)

Lemma compare_text d d' : 0 <= year d <= 9999 -> 0 <= year d' <= 9999 ->
  two_digits (month d) /\ two_digits (day d) /\ two_digits (hour d) /\ two_digits (minute d) /\ two_digits (second d) ->
  two_digits (month d') /\ two_digits (day d') /\ two_digits (hour d') /\ two_digits (minute d') /\ two_digits (second d') ->
  String.compare (timestamp_text d) (timestamp_text d') = (stamp d ?= stamp d').
Proof.
  unfold two_digits. intros Hy Hy' (? & ? & ? & ? & ?) (? & ? & ? & ? & ?). unfold timestamp_text, year_text.
  assert (Ey : forall y, 0 <= y <= 9999 -> (0 <=? y) && (y <=? 9999) = true) by (intros; lia). rewrite !Ey by done.
  rewrite !append_cons, !append_nil_l.
  rewrite <- (append_nil_r (pad_digits 2 (second d))), <- (append_nil_r (pad_digits 2 (second d'))).
  assert (E4 : 10 ^ Z.of_nat 4 = 10000) by done. assert (E2 : 10 ^ Z.of_nat 2 = 100) by done.
  rewrite compare_pad by lia. rewrite compare_same, compare_pad by lia.
  rewrite compare_same, compare_pad by lia. rewrite compare_same, compare_pad by lia.
  rewrite compare_same, compare_pad by lia. rewrite compare_same, compare_pad by lia.
  unfold stamp. rewrite !compare_split by lia. change (String.compare "" "") with Eq.
  by repeat match goal with |- context [?a ?= ?b] => destruct (a ?= b) end.
Qed.

(** A year before the year 0 starts with a sign, which is before every digit. *)
Lemma negative_year_first d d' : 0 <= year d <= 9999 -> year d' < 0 ->
  String.ltb (timestamp_text d) (timestamp_text d') = false.
Proof.
  intros Hy Hn. unfold timestamp_text, year_text.
  replace ((0 <=? year d) && (year d <=? 9999)) with true by lia.
  replace ((0 <=? year d') && (year d' <=? 9999)) with false by lia.
  replace (year d' <? 0) with true by lia. cbn [pad_digits]. rewrite !append_assoc, !append_cons, !append_nil_l.
  unfold String.ltb. rewrite compare_cons.
  replace (Ascii.compare _ _) with Gt; [done|]. symmetry. unfold Ascii.compare, digit.
  pose proof (Z.mod_pos_bound (year d / 10 / 10 / 10) 10 eq_refl).
  rewrite N_ascii_embedding by lia. apply N.compare_gt_iff. change (N_of_ascii "-") with 45%N. lia.
Qed.

(** The condition means the same for every driver, for rows written since 1970 and any
    cutoff before the year 10000: also when the cutoff is so early that the crate cannot
    represent it. *)
Lemma before_cutoff_spec kind cutoff t : 0 <= t < END_OF_TIME -> cutoff < END_OF_TIME ->
  before_cutoff (retention_cutoff kind cutoff) t = (t <? cutoff).
Proof.
  intros Ht Hc. destruct kind; [|done..]. cbn. destruct (cal_epoch t Ht) as (d & Ed & Hy).
  rewrite (cal_sqlite t d Ht Ed). pose proof (cal_fields t d Ed) as Hf.
  destruct (Z.ltb_spec cutoff 0) as [Hneg|Hpos].
  - replace (t <? cutoff) with false by lia. destruct (from_timestamp cutoff) as [d'|] eqn:Ed'.
    + pose proof (cal_fields _ _ Ed') as Hf'. assert (Hlt : stamp d' < stamp d) by (eapply cal_order; [done..|lia]).
      destruct (Z.ltb_spec (year d') 0); [by apply negative_year_first|]. unfold String.ltb.
      rewrite compare_text; [|done|unfold stamp, two_digits in *; lia|done..]. by apply Z.compare_gt_iff in Hlt as ->.
    + unfold String.ltb. by destruct (timestamp_text d).
  - destruct (cal_epoch cutoff) as (d' & Ed' & Hy'); [lia|]. rewrite Ed'. unfold String.ltb.
    rewrite compare_text by (done || by eapply cal_fields).
    destruct (Z.ltb_spec t cutoff) as [Hlt|Hge].
    + assert (stamp d < stamp d') as ->%Z.compare_lt_iff by by eapply cal_order. done.
    + destruct (decide (t = cutoff)) as [->|Hne].
      * simplify_eq. by rewrite Z.compare_refl.
      * assert (stamp d' < stamp d) as ->%Z.compare_gt_iff by (eapply cal_order; [done..|lia]). done.
Qed.
End Retention.

(** ** The sweep *)

(** Two selections that agree on the tables a sweep can see give the same sweep. *)
Section Extensional.
Context {T R : Type} (k : DatabaseKind) (e e' : T -> list R) (remove : R -> T -> T) (P : T -> Prop).
Hypothesis agree : forall t, P t -> e t = e' t.
Hypothesis keep : forall r t, P t -> P (remove r t).

Lemma delete_batch_keep limit t : P t -> P (delete_batch k e remove limit t).2.
Proof.
  intros Ht. unfold delete_batch. destruct (sql_limit _ _ _) as [rows|]; [|done]. cbn [snd].
  induction rows as [|r rows IH]; cbn; [done|auto].
Qed.

Lemma sweep_loop_ext fuel batch : forall t deleted batches, P t ->
  sweep_loop k e remove fuel batch t deleted batches = sweep_loop k e' remove fuel batch t deleted batches.
Proof.
  induction fuel as [|f IH]; intros t deleted batches Ht; [done|]. cbn [sweep_loop].
  pose proof (delete_batch_keep (as_i64 batch) t Ht) as Hk.
  replace (delete_batch k e' remove (as_i64 batch) t) with (delete_batch k e remove (as_i64 batch) t)
    by (unfold delete_batch; by rewrite (agree t Ht)).
  destruct (delete_batch _ _ _ _ _) as [[n|] t']; [|done]. destruct (_ <? batch); [done|]. by apply IH.
Qed.

Lemma sweep_expired_ext cfg t : P t -> sweep_expired k e remove cfg t = sweep_expired k e' remove cfg t.
Proof. intros Ht. unfold sweep_expired. by rewrite (agree t Ht), sweep_loop_ext. Qed.

Lemma sweep_loop_keep fuel batch : forall t deleted batches, P t ->
  P (sweep_loop k e remove fuel batch t deleted batches).2.
Proof.
  induction fuel as [|f IH]; intros t deleted batches Ht; [done|]. cbn [sweep_loop].
  pose proof (delete_batch_keep (as_i64 batch) t Ht) as Hk.
  destruct (delete_batch _ _ _ _ _) as [[n|] t']; [|done]. destruct (_ <? batch); [done|]. by apply IH.
Qed.

Lemma sweep_expired_keep cfg t : P t -> P (sweep_expired k e remove cfg t).2.
Proof.
  intros Ht. unfold sweep_expired. destruct (dry_run cfg).
  - destruct (sql_limit _ _ _); [|done]. by destruct (_ =? 0).
  - pose proof (sweep_loop_keep (S (length (e t))) (batch_size cfg) t 0 0 Ht) as Hk.
    by destruct (sweep_loop _ _ _ _ _ _ _ _) as [[[x y]|] t1].
Qed.
End Extensional.

(** Rows as the database's clock writes them, from 1970 to 9999. *)
Definition dated (s : Store) : Prop :=
  Forall (fun m => 0 <= m_created m < END_OF_TIME) (messages s) /\
  map_Forall (fun _ a => 0 <= updated_at a < END_OF_TIME) (active_sessions s).

Lemma dated_remove_message id s : dated s -> dated (remove_message id s).
Proof.
  intros [Hm Ha]. split; [|done]. rewrite Forall_forall in *. cbn. intros m Hin. apply Hm.
  apply list_elem_of_In, filter_In in Hin as [Hin _]. by apply list_elem_of_In.
Qed.

Lemma dated_remove_active k s : dated s -> dated (remove_active k s).
Proof. intros [Hm Ha]. split; [done|]. by apply map_Forall_delete. Qed.

Section Sweep.
Context `{CalendarLaws}.

Lemma messages_selection_spec kind c s : dated s -> c < END_OF_TIME ->
  messages_expired_selection (retention_cutoff kind c) s = expired_messages c s.
Proof.
  intros [Hm _] Hc. unfold messages_expired_selection, expired_messages. f_equal. apply filter_ext_in.
  intros m Hin. apply list_elem_of_In in Hin. rewrite Forall_forall in Hm. apply before_cutoff_spec; [by apply Hm|done].
Qed.

Lemma active_selection_spec kind c s : dated s -> c < END_OF_TIME ->
  active_sessions_expired_selection (retention_cutoff kind c) s = expired_active c s.
Proof.
  intros [_ Ha] Hc. unfold active_sessions_expired_selection, expired_active. f_equal. apply filter_ext_in.
  intros [k a] Hin. apply list_elem_of_In, elem_of_map_to_list in Hin. apply before_cutoff_spec; [by apply (Ha k)|done].
Qed.

(** (C36) Sweeping by text is sweeping by time: on SQLite, where the sweeper compares the text of
    [CURRENT_TIMESTAMP] with the text of its cutoff, and on the other drivers, where it
    compares seconds, a sweep does exactly what it would do with the rows' times as
    numbers; for every table of rows written since 1970, every lifetime and every clock
    before the year 10000. *)
Theorem sweep_by_text_is_by_time (cfg : RetentionConfig) (now : Z) (s : Store)
    (Hs : dated s) (Hnow : now < END_OF_TIME) :
  sweep_retention_sql cfg now s = sweep_retention cfg now s.
Proof.
  assert (Hc : forall ttl, 0 < ttl -> cutoff_epoch_secs ttl now < END_OF_TIME)
    by (intros; unfold cutoff_epoch_secs, i64_min, i64_max, END_OF_TIME in *; lia).
  unfold sweep_retention_sql, sweep_retention.
  assert (E : (if 0 <? messages_ttl_secs cfg then
       sweep_expired (kind s)
         (messages_expired_selection (retention_cutoff (kind s) (cutoff_epoch_secs (messages_ttl_secs cfg) now)))
         remove_message cfg s else (Ok (0, 0, 0), s)) =
     (if 0 <? messages_ttl_secs cfg then
       sweep_expired (kind s) (expired_messages (cutoff_epoch_secs (messages_ttl_secs cfg) now)) remove_message cfg s
     else (Ok (0, 0, 0), s))).
  { destruct (Z.ltb_spec 0 (messages_ttl_secs cfg)); [|done].
    apply (sweep_expired_ext _ _ _ _ dated); [|apply dated_remove_message|done].
    intros t Ht. by apply messages_selection_spec, Hc. }
  rewrite E. clear E.
  assert (Hs1 : dated (if 0 <? messages_ttl_secs cfg then
       sweep_expired (kind s) (expired_messages (cutoff_epoch_secs (messages_ttl_secs cfg) now)) remove_message cfg s
     else (Ok (0, 0, 0), s)).2).
  { destruct (0 <? messages_ttl_secs cfg); [|done]. by apply (sweep_expired_keep _ _ _ dated); [apply dated_remove_message|]. }
  destruct (if 0 <? messages_ttl_secs cfg then _ else _) as [[[[mm md] mb]|] s1]; [|done]. cbn [snd] in Hs1.
  destruct (Z.ltb_spec 0 (active_sessions_ttl_secs cfg)); [|done].
  rewrite (sweep_expired_ext _ _ (expired_active (cutoff_epoch_secs (active_sessions_ttl_secs cfg) now)) _ dated);
    [done| |apply dated_remove_active|done].
  intros t Ht. by apply active_selection_spec, Hc.
Qed.
End Sweep.

(** ** A calendar with these laws *)
Module Gregorian.

(** Days are counted from 1 March of the year 0; a year starts in March, so that its leap
    day is its last. The days of 400, 100, 4 years and one. *)
Definition MARCH_0 : Z := 719468.

Definition year_of (z : Z) : Z * Z :=
  let era := z / 146097 in
  let doe := z mod 146097 in
  let c := Z.min 3 (doe / 36524) in
  let doc := doe - c * 36524 in
  let q := doc / 1461 in
  let r := doc mod 1461 in
  let y := Z.min 3 (r / 365) in
  (400 * era + 100 * c + 4 * q + y, r - 365 * y).

(** Month (March is 0) and day of a day of the year. *)
Definition month_of (doy : Z) : Z * Z :=
  let mp := (5 * doy + 2) / 153 in (mp, doy - (153 * mp + 2) / 5 + 1).

Definition at_time (t : Z) : DateTime :=
  let '(y, doy) := year_of (t / 86400 + MARCH_0) in
  let '(mp, d) := month_of doy in
  let s := t mod 86400 in
  {| year := if mp <? 10 then y else y + 1; month := if mp <? 10 then mp + 3 else mp - 9; day := d;
     hour := s / 3600; minute := s mod 3600 / 60; second := s mod 60 |}.

#[local] Instance calendar : Calendar :=
  {| from_timestamp t := Some (at_time t); current_timestamp t := timestamp_text (at_time t) |}.

Lemma year_of_bounds z : 0 <= (year_of z).2 <= 365.
Proof. unfold year_of. cbn. Z.to_euclidean_division_equations. lia. Qed.

Lemma year_of_order z z' : z < z' ->
  (year_of z).1 < (year_of z').1 \/ (year_of z).1 = (year_of z').1 /\ (year_of z).2 < (year_of z').2.
Proof.
  unfold year_of. cbn.
  set (e := z / 146097). set (e' := z' / 146097). set (o := z mod 146097). set (o' := z' mod 146097).
  assert (E : z = 146097 * e + o /\ 0 <= o < 146097) by (subst e o; Z.to_euclidean_division_equations; lia).
  assert (E' : z' = 146097 * e' + o' /\ 0 <= o' < 146097) by (subst e' o'; Z.to_euclidean_division_equations; lia).
  clearbody e e' o o'. destruct E as [-> Ho], E' as [-> Ho']. intros Hlt.
  set (c := Z.min 3 (o / 36524)). set (c' := Z.min 3 (o' / 36524)).
  assert (Hc : 0 <= c <= 3 /\ 0 <= o - c * 36524 <= 36524 /\ (c < 3 -> o - c * 36524 < 36524)) by (subst c; Z.to_euclidean_division_equations; lia).
  assert (Hc' : 0 <= c' <= 3 /\ 0 <= o' - c' * 36524 <= 36524 /\ (c' < 3 -> o' - c' * 36524 < 36524)) by (subst c'; Z.to_euclidean_division_equations; lia).
  clearbody c c'. set (p := o - c * 36524) in *. set (p' := o' - c' * 36524) in *.
  assert (Ep : o = c * 36524 + p) by lia. assert (Ep' : o' = c' * 36524 + p') by lia. clearbody p p'.
  set (q := p / 1461). set (q' := p' / 1461). set (r := p mod 1461). set (r' := p' mod 1461).
  assert (Hq : p = 1461 * q + r /\ 0 <= r < 1461 /\ 0 <= q <= 24) by (subst q r; Z.to_euclidean_division_equations; lia).
  assert (Hq' : p' = 1461 * q' + r' /\ 0 <= r' < 1461 /\ 0 <= q' <= 24) by (subst q' r'; Z.to_euclidean_division_equations; lia).
  clearbody q q' r r'. set (y := Z.min 3 (r / 365)). set (y' := Z.min 3 (r' / 365)).
  assert (Hy : 0 <= y <= 3 /\ 0 <= r - 365 * y <= 365 /\ (y < 3 -> r - 365 * y < 365)) by (subst y; Z.to_euclidean_division_equations; lia).
  assert (Hy' : 0 <= y' <= 3 /\ 0 <= r' - 365 * y' <= 365 /\ (y' < 3 -> r' - 365 * y' < 365)) by (subst y'; Z.to_euclidean_division_equations; lia).
  clearbody y y'. destruct (Z.lt_trichotomy e e') as [?|[->|?]]; [lia| |lia].
  destruct (Z.lt_trichotomy c c') as [?|[->|?]]; [lia| |lia].
  destruct (Z.lt_trichotomy q q') as [?|[->|?]]; [lia| |lia]. lia.
Qed.

Lemma month_of_bounds doy : 0 <= doy <= 365 ->
  0 <= (month_of doy).1 <= 11 /\ 1 <= (month_of doy).2 <= 31 /\ ((month_of doy).1 = 11 -> (month_of doy).2 <= 29).
Proof. intros H. unfold month_of. cbn. Z.to_euclidean_division_equations. lia. Qed.

Lemma month_of_order a b : 0 <= a -> a < b -> b <= 365 ->
  (month_of a).1 < (month_of b).1 \/ (month_of a).1 = (month_of b).1 /\ (month_of a).2 < (month_of b).2.
Proof. intros Ha Hab Hb. unfold month_of. cbn. Z.to_euclidean_division_equations. lia. Qed.

(** The date of a day as one number. *)
Definition date (z : Z) : Z :=
  let '(y, doy) := year_of z in
  let '(mp, d) := month_of doy in
  ((if mp <? 10 then y else y + 1) * 100 + (if mp <? 10 then mp + 3 else mp - 9)) * 100 + d.

Lemma date_order z z' : z < z' -> date z < date z'.
Proof.
  intros Hz. pose proof (year_of_order z z' Hz) as Hy. pose proof (year_of_bounds z) as Hb. pose proof (year_of_bounds z') as Hb'.
  unfold date. destruct (year_of z) as [y a], (year_of z') as [y' a']. cbn [fst snd] in *.
  pose proof (month_of_bounds a Hb) as Hm. pose proof (month_of_bounds a' Hb') as Hm'.
  assert (Ho : a < a' -> (month_of a).1 < (month_of a').1 \/
             (month_of a).1 = (month_of a').1 /\ (month_of a).2 < (month_of a').2) by (intros; apply month_of_order; lia).
  destruct (month_of a) as [mp d], (month_of a') as [mp' d']. cbn [fst snd] in *.
  destruct (Z.ltb_spec mp 10), (Z.ltb_spec mp' 10); lia.
Qed.

Lemma stamp_at_time t :
  stamp (at_time t) = ((date (t / 86400 + MARCH_0) * 100 + t mod 86400 / 3600) * 100 + (t mod 86400) mod 3600 / 60) * 100
                      + (t mod 86400) mod 60.
Proof. unfold stamp, at_time, date. destruct (year_of _) as [y a]. by destruct (month_of a) as [mp d]. Qed.

Lemma stamp_order t t' : t < t' -> stamp (at_time t) < stamp (at_time t').
Proof.
  intros Ht. rewrite !stamp_at_time.
  assert (Hd : t / 86400 < t' / 86400 \/ t / 86400 = t' / 86400 /\ t mod 86400 < t' mod 86400)
    by (Z.to_euclidean_division_equations; lia).
  pose proof (Z.mod_pos_bound t 86400 eq_refl) as B. pose proof (Z.mod_pos_bound t' 86400 eq_refl) as B'.
  set (s := t mod 86400) in *. set (s' := t' mod 86400) in *. clearbody s s'.
  destruct Hd as [Hd|[-> Hs]].
  - assert (date (t / 86400 + MARCH_0) < date (t' / 86400 + MARCH_0)) by (apply date_order; lia).
    set (n := date (t / 86400 + MARCH_0)) in *. set (n' := date (t' / 86400 + MARCH_0)) in *. clearbody n n'.
    clear Hd Ht. Z.to_euclidean_division_equations. lia.
  - set (n := date (t' / 86400 + MARCH_0)). clearbody n. clear Ht. Z.to_euclidean_division_equations. lia.
Qed.

Lemma two_digit_fields t : let d := at_time t in
  two_digits (month d) /\ two_digits (day d) /\ two_digits (hour d) /\ two_digits (minute d) /\ two_digits (second d).
Proof.
  unfold at_time. pose proof (year_of_bounds (t / 86400 + MARCH_0)) as Hb. destruct (year_of _) as [y a]. cbn in Hb.
  pose proof (month_of_bounds a Hb) as Hm. destruct (month_of a) as [mp d]. cbn [fst snd] in Hm. cbn. unfold two_digits.
  pose proof (Z.mod_pos_bound t 86400 eq_refl) as B. generalize dependent (t mod 86400). intros s B.
  split; [destruct (Z.ltb_spec mp 10); lia|]. split; [lia|]. Z.to_euclidean_division_equations. lia.
Qed.

#[export] Instance calendar_laws : CalendarLaws calendar.
Proof.
  split.
  - intros t d [= <-]. apply two_digit_fields.
  - intros t t' d d' [= <-] [= <-]. apply stamp_order.
  - intros t Ht. exists (at_time t). split; [done|]. pose proof (two_digit_fields t) as Hf. unfold two_digits in Hf.
    assert (Hlo : stamp (at_time 0) <= stamp (at_time t))
      by (destruct (decide (t = 0)) as [->|]; [lia|apply Z.lt_le_incl, stamp_order; lia]).
    assert (Hhi : stamp (at_time t) <= stamp (at_time (END_OF_TIME - 1)))
      by (destruct (decide (t = END_OF_TIME - 1)) as [->|]; [lia|apply Z.lt_le_incl, stamp_order; lia]).
    change (stamp (at_time 0)) with 19700101000000 in Hlo. change (stamp (at_time (END_OF_TIME - 1))) with 99991231235959 in Hhi.
    unfold stamp in Hlo, Hhi. lia.
  - by intros t d _ [= <-].
Qed.
End Gregorian.

(** A message of 2024 and one of 2026; a sweep in 2026 that keeps a year. *)
Lemma sweep_by_text_is_by_time_witness :
  let row id created := {| m_id := id; m_vctx := "v"; m_vtoken := None; m_session := "default"; m_peer := "p"; m_role := "user";
                           m_content := "hi"; m_created := created; m_ilink_msg_id := None |} in
  let s := set_messages [row 1%nat 1704067200; row 2%nat 1767225600] (Store_new Sqlite 60) in
  let cfg := {| enabled := true; dry_run := false; sweep_interval_secs := 3600; batch_size := 1;
                messages_ttl_secs := 31536000; active_sessions_ttl_secs := 0 |} in
  timestamp_text (Gregorian.at_time 1704067200) = "2024-01-01 00:00:00" /\
  sweep_retention_sql (C:=Gregorian.calendar) cfg 1767225601 s = sweep_retention cfg 1767225601 s /\
  (m_id <$> messages (sweep_retention cfg 1767225601 s).2) = [2%nat].
Proof.
  intros row s cfg. split; [vm_compute; reflexivity|]. split; [|vm_compute; reflexivity].
  apply (@sweep_by_text_is_by_time Gregorian.calendar Gregorian.calendar_laws cfg 1767225601 s); [|unfold END_OF_TIME; lia].
  split; [|apply map_Forall_empty]. repeat constructor; cbn; unfold END_OF_TIME; lia.
Defined.
