(* ===== verification/SessionOwner.v ===== *)
(** * Which backend owns a session ([src/store/sql.rs], [src/store/sessions.rs])

    A quoted reply is routed to the backend that owns the quoted session. The row is chosen
    by the driver's idea of the newest row: the row id of SQLite, which an upsert keeps, or
    the tuple id of PostgreSQL, which every write renews. This file has the invariant of the
    stamps behind both, what the choice is, and how each write of [sessions.rs] moves it. *)
From S2P Require Import Prelude StrLemmas Store StoreProps.
Import Str.
Local Open Scope hub_scope.

(** The stamp a driver orders by; MySQL orders by the second of creation instead. *)
Definition stamp_of (k : DatabaseKind) (b : BackendRow) : nat :=
  match k with Sqlite => b_rowid b | _ => b_written b end.

Definition ordered (k : DatabaseKind) : Prop := k <> MySql.

(** Stamps are below the counter, and no two rows share one. *)
Record stamps_ok (s : Store) : Prop := {
  stamps_below : forall key b, backend_sessions s !! key = Some b -> b_rowid b < next_stamp s /\ b_written b < next_stamp s;
  stamps_apart : forall k key key' b b', backend_sessions s !! key = Some b -> backend_sessions s !! key' = Some b' ->
    stamp_of k b = stamp_of k b' -> key = key';
}.

Lemma stamps_ok_new k ttl : stamps_ok (Store_new k ttl).
Proof. split; cbn; intros *; rewrite lookup_empty; done. Qed.

Lemma stamp_below s k key b : stamps_ok s -> backend_sessions s !! key = Some b -> stamp_of k b < next_stamp s.
Proof. intros Hs Hb. apply (stamps_below s Hs) in Hb. destruct k; cbn; lia. Qed.

(** A write of a row: its written stamp is the counter's, and its row id too if it is new. *)
Definition writes_row (key : string * string * string) (s s' : Store) : Prop :=
  kind s' = kind s /\ next_stamp s' = S (next_stamp s) /\ exists row,
    backend_sessions s' = <[key := row]> (backend_sessions s) /\ b_written row = next_stamp s /\
    b_rowid row = match backend_sessions s !! key with Some b => b_rowid b | None => next_stamp s end.

Lemma set_writes_row now vctx vt n id s : writes_row (vctx, vt, n) s (set_backend_session now vctx vt n id s).
Proof.
  split; [done|]. split; [done|]. eexists. split; [reflexivity|].
  by destruct (backend_sessions s !! (vctx, vt, n)).
Qed.

Lemma usage_writes_row now vctx vt n u s : writes_row (vctx, vt, n) s (set_backend_session_usage now vctx vt n u s).
Proof.
  split; [done|]. split; [done|]. eexists. split; [reflexivity|].
  by destruct (backend_sessions s !! (vctx, vt, n)).
Qed.

Lemma writes_row_ok key s s' : stamps_ok s -> writes_row key s s' -> stamps_ok s'.
Proof.
  intros Hs (_ & Hn & row & Hb & Hw & Hr).
  assert (Hrow : b_rowid row <= next_stamp s).
  { rewrite Hr. destruct (backend_sessions s !! key) as [b|] eqn:E; [|done]. apply (stamps_below s Hs) in E. lia. }
  assert (Hfar : forall k key' b, key' <> key -> backend_sessions s !! key' = Some b -> stamp_of k b <> stamp_of k row).
  { intros k key' b Hne E Heq. pose proof (stamps_below s Hs _ _ E) as [? ?].
    destruct k; cbn in Heq; [|lia..]. rewrite Hr in Heq.
    destruct (backend_sessions s !! key) as [b0|] eqn:E0; [|lia]. destruct Hne. by apply (stamps_apart s Hs Sqlite _ _ b b0). }
  split; rewrite Hb, ?Hn; intros *; rewrite !lookup_insert_Some.
  - intros [[-> ->]|[_ E]]; [lia|]. apply (stamps_below s Hs) in E. lia.
  - intros [[-> <-]|[Hne E]] [[-> <-]|[Hne' E']] Heq; try done.
    + by destruct (Hfar k key' b').
    + by destruct (Hfar k key0 b).
    + by apply (stamps_apart s Hs k _ _ b b').
Qed.

Lemma delete_session_ok vctx vt n s : stamps_ok s -> stamps_ok (delete_backend_session vctx vt n s).2.
Proof.
  intros Hs. split; cbn; intros *; rewrite !lookup_delete_Some.
  - intros [_ E]. by apply (stamps_below s Hs) in E.
  - intros [_ E] [_ E']. by apply (stamps_apart s Hs).
Qed.

(** ** The choice *)

Lemma newer_stamp k a b : ordered k -> newer k a b = (stamp_of k b <? stamp_of k a)%nat.
Proof. by destruct k. Qed.

Lemma newest_elem k l x : newest k l = Some x -> x ∈ l.
Proof.
  revert x. induction l as [|y l IH]; [done|]. cbn. intros x. destruct (newest k l) as [z|].
  - intros [= <-]. destruct (newer k z.2 y.2); [right; by apply IH|by left].
  - intros [= <-]. by left.
Qed.

Lemma newest_max k l x : ordered k -> newest k l = Some x -> forall y, y ∈ l -> stamp_of k y.2 <= stamp_of k x.2.
Proof.
  intros Hk. revert x. induction l as [|z l IH]; [done|]. cbn. intros x Hx y.
  destruct (newest k l) as [m|] eqn:E.
  - injection Hx as <-. specialize (IH m eq_refl). rewrite newer_stamp by done.
    destruct (Nat.ltb_spec (stamp_of k z.2) (stamp_of k m.2)); intros [->|Hy]%elem_of_cons; try lia; specialize (IH _ Hy); lia.
  - injection Hx as <-. intros [->|Hy]%elem_of_cons; [done|]. destruct l; [by apply elem_of_nil in Hy|].
    cbn in E. by destruct (newest k l).
Qed.

Lemma newest_some k l x : x ∈ l -> is_Some (newest k l).
Proof. destruct l as [|y l]; [by intros ?%elem_of_nil|]. cbn. by destruct (newest k l). Qed.

Lemma elem_of_owners vctx n s v b : (v, b) ∈ session_owners vctx n s <-> backend_sessions s !! (vctx, v, n) = Some b.
Proof.
  unfold session_owners. rewrite list_elem_of_omap. split.
  - intros ([[[c v'] m] b'] & Hin & Hx). apply elem_of_map_to_list in Hin.
    destruct (String.eqb_spec c vctx) as [->|]; [|done]. destruct (String.eqb_spec m n) as [->|]; [|done].
    by injection Hx as <- <-.
  - intros E. exists ((vctx, v, n), b). rewrite elem_of_map_to_list, !String.eqb_refl. done.
Qed.

(** The owner is the backend whose row has the largest stamp; ties cannot occur. *)
Lemma owner_spec vctx n s v : ordered (kind s) -> stamps_ok s ->
  find_vtoken_for_session vctx n s = Some v <->
  exists b, backend_sessions s !! (vctx, v, n) = Some b /\
    forall v' b', backend_sessions s !! (vctx, v', n) = Some b' -> stamp_of (kind s) b' <= stamp_of (kind s) b.
Proof.
  intros Hk Hs. unfold find_vtoken_for_session. rewrite fmap_Some. split.
  - intros ([v0 b] & Hn & ->). exists b. split; [by apply elem_of_owners, (newest_elem (kind s))|].
    intros v' b' E'. by apply (newest_max _ _ (v0, b) Hk Hn (v', b')), elem_of_owners.
  - intros (b & E & Hmax). assert (Hin := proj2 (elem_of_owners vctx n s v b) E).
    destruct (newest_some (kind s) _ _ Hin) as [[v0 b0] Hn]. exists (v0, b0). split; [done|]. cbn.
    assert (E0 := proj1 (elem_of_owners _ _ _ _ _) (newest_elem _ _ _ Hn)).
    pose proof (newest_max _ _ _ Hk Hn _ Hin) as H1. specialize (Hmax _ _ E0). cbn in H1.
    assert (Hkey : (vctx, v, n) = (vctx, v0, n)) by (eapply (stamps_apart s Hs (kind s)); [done..|lia]). congruence.
Qed.

(** Without a row there is no owner. *)
Lemma owner_none vctx n s : find_vtoken_for_session vctx n s = None <-> forall v, backend_sessions s !! (vctx, v, n) = None.
Proof.
  unfold find_vtoken_for_session. rewrite fmap_None. split.
  - intros Hn v. destruct (backend_sessions s !! (vctx, v, n)) as [b|] eqn:E; [|done].
    apply elem_of_owners in E. apply (newest_some (kind s)) in E as [? E]. congruence.
  - intros Hv. destruct (newest _ _) as [[v b]|] eqn:E; [|done]. apply newest_elem, elem_of_owners in E. by rewrite Hv in E.
Qed.

(** Rows of other sessions do not count. *)
Lemma owner_ext vctx n s s' : ordered (kind s) -> kind s' = kind s -> stamps_ok s -> stamps_ok s' ->
  (forall v, stamp_of (kind s) <$> backend_sessions s' !! (vctx, v, n) = stamp_of (kind s) <$> backend_sessions s !! (vctx, v, n)) ->
  find_vtoken_for_session vctx n s' = find_vtoken_for_session vctx n s.
Proof.
  intros Hk Ek Hs Hs' Hrow. apply option_eq. intros v. rewrite !owner_spec by (by rewrite ?Ek). rewrite Ek.
  assert (Hto : forall x v b, stamp_of (kind s) <$> x = stamp_of (kind s) <$> backend_sessions s !! (vctx, v, n) ->
    x = Some b -> exists b', backend_sessions s !! (vctx, v, n) = Some b' /\ stamp_of (kind s) b' = stamp_of (kind s) b).
  { intros x w b E ->. symmetry in E. apply fmap_Some in E as (b' & E & Eb). eauto. }
  assert (Hfrom : forall v b, backend_sessions s !! (vctx, v, n) = Some b ->
    exists b', backend_sessions s' !! (vctx, v, n) = Some b' /\ stamp_of (kind s) b' = stamp_of (kind s) b).
  { intros w b E. specialize (Hrow w). rewrite E in Hrow. apply fmap_Some in Hrow as (b' & E' & Eb). eauto. }
  split; intros (b & E & Hmax).
  - destruct (Hto _ v b (Hrow v) E) as (b1 & E1 & Eb). exists b1. split; [done|]. intros v' b' E'.
    destruct (Hfrom v' b' E') as (b2 & E2 & <-). rewrite Eb. by apply (Hmax v').
  - destruct (Hfrom v b E) as (b1 & E1 & Eb). exists b1. split; [done|]. intros v' b' E'.
    destruct (Hto _ v' b' (Hrow v') E') as (b2 & E2 & <-). rewrite Eb. by apply (Hmax v').
Qed.

(** ** How writes move it *)

Lemma write_moves_owner key s s' : ordered (kind s) -> stamps_ok s -> writes_row key s s' ->
  find_vtoken_for_session key.1.1 key.2 s' =
    match kind s, backend_sessions s !! key with
    | Sqlite, Some _ => find_vtoken_for_session key.1.1 key.2 s
    | _, _ => Some key.1.2
    end /\
  forall vctx n, (vctx, n) <> (key.1.1, key.2) -> find_vtoken_for_session vctx n s' = find_vtoken_for_session vctx n s.
Proof.
  intros Hk Hs Hwr. assert (Hs' := writes_row_ok _ _ _ Hs Hwr). destruct Hwr as (Ek & _ & row & Hb & Hw & Hr).
  destruct key as [[vctx vt] n]. cbn [fst snd]. split; cycle 1.
  { intros vctx' n' Hne. apply owner_ext; [done..|]. intros v. rewrite Hb, lookup_insert_ne by congruence. done. }
  assert (Htop : stamp_of (kind s) row = next_stamp s -> find_vtoken_for_session vctx n s' = Some vt).
  { intros Et. apply owner_spec; [by rewrite Ek|done|]. rewrite Ek, Hb. exists row. rewrite lookup_insert_eq.
    split; [done|]. intros v' b'. rewrite lookup_insert_Some. intros [[_ <-]|[_ E']]; [done|].
    apply (stamp_below s (kind s)) in E'; [lia|done]. }
  destruct (kind s) eqn:E; [destruct (backend_sessions s !! (vctx, vt, n)) as [b|] eqn:E0| |]; try by auto.
  apply owner_ext; [by rewrite E..|done|done|]. rewrite E. intros v. rewrite Hb.
  destruct (decide (v = vt)) as [->|]; [|by rewrite lookup_insert_ne by congruence].
  rewrite lookup_insert_eq, E0. cbn. by rewrite Hr.
Qed.

(** The operations of [sessions.rs] on the table, and revocation. *)
Inductive SessionOp :=
| OpSet (now : Z) (vctx vt n id : string)
| OpUsage (now : Z) (vctx vt n usage : string)
| OpDelete (vctx vt n : string)
| OpRevoke (vt : string).

Definition apply_op (s : Store) (op : SessionOp) : Store :=
  match op with
  | OpSet now vctx vt n id => set_backend_session now vctx vt n id s
  | OpUsage now vctx vt n u => set_backend_session_usage now vctx vt n u s
  | OpDelete vctx vt n => (delete_backend_session vctx vt n s).2
  | OpRevoke vt => revoke_authorizations_for_vtoken vt s
  end.

Lemma revoke_session_ok vt s : stamps_ok s -> stamps_ok (revoke_authorizations_for_vtoken vt s).
Proof.
  intros Hs. split; cbn; intros *; rewrite !map_lookup_filter_Some.
  - intros [E _]. by apply (stamps_below s Hs) in E.
  - intros [E _] [E' _]. by apply (stamps_apart s Hs).
Qed.

#[local] Hint Resolve stamps_ok_new delete_session_ok revoke_session_ok writes_row_ok set_writes_row usage_writes_row : core.

Lemma ops_ok k ttl ops : kind (foldl apply_op (Store_new k ttl) ops) = k /\ stamps_ok (foldl apply_op (Store_new k ttl) ops).
Proof.
  induction ops as [|op ops [IHk IHs]] using rev_ind; [split; [done|apply stamps_ok_new]|]. rewrite foldl_app. cbn [foldl].
  destruct op; (split; [exact IHk|]); cbn [apply_op]; eauto.
Qed.

(** Who owns a session, after any history of the table: a write (of the session's id or of
    its usage) by a backend that had no row for it makes that backend the owner, on SQLite
    and on PostgreSQL; a rewrite of an existing row makes its backend the owner on
    PostgreSQL and moves nothing on SQLite; other sessions keep their owner. *)
Theorem newest_session_owns (k : DatabaseKind) (ttl : Z) (ops : list SessionOp) (op : SessionOp)
    (vctx vt n : string) (Hk : k <> MySql)
    (Hop : (exists now id, op = OpSet now vctx vt n id) \/ (exists now u, op = OpUsage now vctx vt n u)) :
  let s := foldl apply_op (Store_new k ttl) ops in
  let s' := apply_op s op in
  (find_vtoken_for_session vctx n s' =
    if bool_decide (k = Sqlite /\ is_Some (backend_sessions s !! (vctx, vt, n)))
    then find_vtoken_for_session vctx n s else Some vt) /\
  forall vctx' n', (vctx', n') <> (vctx, n) -> find_vtoken_for_session vctx' n' s' = find_vtoken_for_session vctx' n' s.
Proof.
  intros s s'. destruct (ops_ok k ttl ops) as [Ek Hs]. fold s in Ek, Hs.
  assert (Hw : writes_row (vctx, vt, n) s s') by (unfold s'; destruct Hop as [(? & ? & ->)|(? & ? & ->)]; cbn; auto).
  destruct (write_moves_owner (vctx, vt, n) s s') as [H1 H2]; [by rewrite Ek|done..|]. cbn [fst snd] in *. split; [|done].
  rewrite H1, Ek. destruct k; cbn; [|by rewrite bool_decide_eq_false_2 by naive_solver..].
  destruct (backend_sessions s !! (vctx, vt, n)) eqn:E.
  - by rewrite bool_decide_eq_true_2.
  - rewrite bool_decide_eq_false_2; [done|]. intros [_ []]. done.
Qed.

(** Two backends write the same session one after the other, then the first writes again:
    SQLite stays with the second, PostgreSQL returns to the first. *)
Lemma newest_session_owns_witness :
  let ops := [OpSet 1 "c" "a" "work" "1"; OpSet 2 "c" "b" "work" "2"] in
  let again := OpUsage 3 "c" "a" "work" "{}" in
  let owner k := find_vtoken_for_session "c" "work" (apply_op (foldl apply_op (Store_new k 60) ops) again) in
  owner Sqlite = Some "b" /\ owner Postgres = Some "a".
Proof.
  intros ops again owner. unfold owner.
  assert (Hop : (exists now id, again = OpSet now "c" "a" "work" id) \/ (exists now u, again = OpUsage now "c" "a" "work" u))
    by (right; eexists _, _; reflexivity).
  split.
  - refine (eq_trans (proj1 (newest_session_owns Sqlite 60 ops again "c" "a" "work" _ Hop)) _); [discriminate|].
    vm_compute. reflexivity.
  - refine (eq_trans (proj1 (newest_session_owns Postgres 60 ops again "c" "a" "work" _ Hop)) _); [discriminate|].
    vm_compute. reflexivity.
Defined.
