(* ===== verification/Limiters.v ===== *)
(** * Small limiters ([src/src/server/pairing.rs], [server/sse_ticket.rs], [relay/ratelimit.rs])

    The two limiters of the pairing endpoints, the single-use tickets of the event
    stream, and the fixed-window counter of the relay. Each is a map behind a mutex whose
    poisoning is ignored; an operation reads the clock once. A run is a history of calls
    at non-decreasing times, latest first; the theorems say exactly which calls succeed. *)
From S2P Require Import Prelude StrLemmas VToken Pairing.
Import Str.

(** ** One confirmation attempt per code and address *)
Module PairConfirm.

Definition PAIR_CONFIRM_RATE_LIMIT_WINDOW : Z := secs 60.
Definition PAIR_CONFIRM_RATE_LIMIT_MAX_ENTRIES : nat := 4096.

(** Code and address; a limiter maps them to the time of the attempt. *)
Notation Key := (string * string)%type.
Notation PairConfirmRateLimiter := (gmap Key Z).

Definition confirm_check_and_record (now : Z) (k : Key) (m : PairConfirmRateLimiter)
    : bool * PairConfirmRateLimiter :=
  let m := filter (fun p : Key * Z => (elapsed now p.2 < PAIR_CONFIRM_RATE_LIMIT_WINDOW)%Z) m in
  if bool_decide (is_Some (m !! k)) then (false, m) else
  let m := if (PAIR_CONFIRM_RATE_LIMIT_MAX_ENTRIES <=? size m)%nat then drop_oldest id m else m in
  (true, <[k := now]> m).

Definition tracked_count (m : PairConfirmRateLimiter) : nat := size m.

Inductive run : list (Z * Key * bool) -> Z -> PairConfirmRateLimiter -> Prop :=
| run_nil t : run [] t ∅
| run_step h t m now k :
    run h t m -> (t <= now)%Z ->
    run ((now, k, (confirm_check_and_record now k m).1) :: h) now (confirm_check_and_record now k m).2.

Definition keys (h : list (Z * Key * bool)) : gset Key := list_to_set ((fun e => e.1.2) <$> h).

(** What the map remembers of a history with few enough keys. *)
Record inv (h : list (Z * Key * bool)) (t : Z) (m : PairConfirmRateLimiter) : Prop := {
  inv_sound : forall k s, m !! k = Some s -> (s, k, true) ∈ h;
  inv_times : forall s k b, (s, k, b) ∈ h -> (s <= t)%Z;
  inv_recent : forall s k, (s, k, true) ∈ h -> (t - s < PAIR_CONFIRM_RATE_LIMIT_WINDOW)%Z ->
               exists s', m !! k = Some s' /\ (s <= s')%Z;
}.

Lemma size_bound h t m : run h t m -> (size m <= PAIR_CONFIRM_RATE_LIMIT_MAX_ENTRIES)%nat.
Proof.
  induction 1 as [t|h t m now k Hr IH Ht]; [exact (Nat.le_0_l _)|].
  unfold confirm_check_and_record. set (m1 := filter _ m).
  assert (H1 : size m1 <= size m) by (apply map_subseteq_size, map_filter_subseteq).
  case_bool_decide; cbn [snd]; [lia|].
  rewrite map_size_insert. destruct (Nat.leb_spec PAIR_CONFIRM_RATE_LIMIT_MAX_ENTRIES (size m1)).
  - rewrite size_drop_oldest. assert (1 <= PAIR_CONFIRM_RATE_LIMIT_MAX_ENTRIES)%nat by (apply Nat.leb_le; reflexivity).
    destruct (drop_oldest _ _ !! k); unfold id; lia.
  - destruct (m1 !! k); unfold id; lia.
Qed.

(** One step: the answer, and the invariant afterwards. *)
Lemma confirm_step_spec h t m now k :
  inv h t m -> (t <= now)%Z -> (size ({[k]} ∪ keys h) <= PAIR_CONFIRM_RATE_LIMIT_MAX_ENTRIES)%nat ->
  let r := confirm_check_and_record now k m in
  (r.1 = true <-> forall s, (s, k, true) ∈ h -> (PAIR_CONFIRM_RATE_LIMIT_WINDOW <= now - s)%Z) /\
  inv ((now, k, r.1) :: h) now r.2.
Proof.
  intros [Hs Ht Hr] Hle Hsize. unfold confirm_check_and_record. set (m1 := filter _ m).
  assert (Hm1 : forall k s, m1 !! k = Some s <->
            m !! k = Some s /\ (now - s < PAIR_CONFIRM_RATE_LIMIT_WINDOW)%Z).
  { intros k' s. unfold m1. rewrite map_lookup_filter_Some. cbn. split; intros [H1 H2]; (split; [done|]);
      pose proof (Ht s k' true (Hs _ _ H1)); unfold elapsed in *; lia. }
  assert (Hrec : forall s k', (s, k', true) ∈ h -> (now - s < PAIR_CONFIRM_RATE_LIMIT_WINDOW)%Z ->
            exists s', m1 !! k' = Some s' /\ (s <= s')%Z).
  { intros s k' Hin Hw. destruct (Hr s k' Hin) as (s' & H1 & H2); [lia|]. exists s'.
    split; [|done]. apply Hm1. split; [done|lia]. }
  case_bool_decide as Hk; cbn [fst snd].
  - split; [split; [done|]|split].
    + intros Ha. destruct Hk as [s [H1 H2]%Hm1]. apply Hs in H1. specialize (Ha s H1). lia.
    + intros k' s [H1 _]%Hm1. right. by apply Hs.
    + intros s k' b [[= -> -> ->]|Hin]%elem_of_cons; [lia|]. specialize (Ht _ _ _ Hin). lia.
    + intros s k' [[=]|Hin]%elem_of_cons Hw. by apply (Hrec s).
  - assert (Hdom : (size m1 < PAIR_CONFIRM_RATE_LIMIT_MAX_ENTRIES)%nat).
    { apply eq_None_not_Some in Hk. apply not_elem_of_dom in Hk.
      assert (Hsub : {[k]} ∪ dom m1 ⊆ {[k]} ∪ keys h).
      { apply union_mono_l. intros k' [s [H1 _]%Hm1]%elem_of_dom. apply Hs in H1.
        unfold keys. apply elem_of_list_to_set, list_elem_of_fmap. by eexists (_, _, _). }
      apply subseteq_size in Hsub. rewrite size_union, size_singleton, size_dom in Hsub by set_solver.
      lia. }
    destruct (Nat.leb_spec PAIR_CONFIRM_RATE_LIMIT_MAX_ENTRIES (size m1)); [lia|].
    split; [split; [|done]|split].
    + intros _ s Hin. destruct (Z.le_gt_cases PAIR_CONFIRM_RATE_LIMIT_WINDOW (now - s)) as [|Hlt]; [done|].
      destruct (Hrec s k Hin) as (s' & H1 & _); [lia|]. destruct Hk. by eexists.
    + intros k' s. rewrite lookup_insert. case_decide as E; [intros [= <-]; subst; by left|].
      intros [H1 _]%Hm1. right. by apply Hs.
    + intros s k' b [[= -> -> ->]|Hin]%elem_of_cons; [lia|]. specialize (Ht _ _ _ Hin). lia.
    + intros s k' Hin Hw. rewrite lookup_insert. case_decide as E.
      { exists now. split; [done|]. apply elem_of_cons in Hin as [[= -> _]|Hin]; [lia|].
        specialize (Ht _ _ _ Hin). lia. }
      apply elem_of_cons in Hin as [[= _ ->]|Hin]; [done|]. by apply (Hrec s).
Qed.

Lemma confirm_run_inv h t m : run h t m -> (size (keys h) <= PAIR_CONFIRM_RATE_LIMIT_MAX_ENTRIES)%nat -> inv h t m.
Proof.
  induction 1 as [t|h t m now k Hr IH Ht]; intros Hsize.
  - split; [done|..]; intros; by (exfalso; eapply not_elem_of_nil).
  - refine (proj2 (confirm_step_spec h t m now k _ Ht Hsize)). apply IH. etransitivity; [|exact Hsize].
    apply subseteq_size. cbn. set_solver.
Qed.

(** One attempt per window: in every run with at most 4096 pairs of code and address, an
    attempt is admitted exactly if no admitted attempt of the same pair lies less than 60
    seconds back; the map never holds more than 4096 entries. *)
Theorem one_attempt_per_window (h : list (Z * Key * bool)) (now : Z) (k : Key) (b : bool)
    (m : PairConfirmRateLimiter) (Hrun : run ((now, k, b) :: h) now m)
    (Hkeys : (size (keys ((now, k, b) :: h)) <= PAIR_CONFIRM_RATE_LIMIT_MAX_ENTRIES)%nat) :
  (b = true <-> forall s, (s, k, true) ∈ h -> (PAIR_CONFIRM_RATE_LIMIT_WINDOW <= now - s)%Z) /\
  (tracked_count m <= PAIR_CONFIRM_RATE_LIMIT_MAX_ENTRIES)%nat.
Proof.
  split; [|by apply (size_bound _ _ _ Hrun)]. inversion Hrun as [|h' t m' now' k' Hr Ht]; subst.
  refine (proj1 (confirm_step_spec h t m' now k _ Ht Hkeys)). apply confirm_run_inv; [done|].
  etransitivity; [|exact Hkeys]. apply subseteq_size. cbn. set_solver.
Qed.
End PairConfirm.

(** ** Creations of pairing codes per address *)
Module QrCreate.

Definition QR_CREATE_RATE_LIMIT_MAX : nat := 20.
Definition QR_CREATE_RATE_LIMIT_WINDOW : Z := secs 60.
Definition QR_CREATE_RATE_LIMIT_MAX_ENTRIES : nat := 4096.

(** The times of recent creations, oldest first, by address. *)
Notation QrCreateRateLimiter := (gmap string (list Z)).

Definition recent (now t : Z) : Prop := (elapsed now t < QR_CREATE_RATE_LIMIT_WINDOW)%Z.
#[export] Instance recent_dec now t : Decision (recent now t).
Proof. unfold recent. apply _. Defined.

Definition retain_recent (now : Z) (m : QrCreateRateLimiter) : QrCreateRateLimiter :=
  omap (fun ts => let ts := filter (recent now) ts in
                  if bool_decide (ts = []) then None else Some ts) m.

Definition qr_check_and_record (now : Z) (ip : string) (m : QrCreateRateLimiter)
    : bool * QrCreateRateLimiter :=
  let m := retain_recent now m in
  let current := match m !! ip with Some ts => length ts | None => 0%nat end in
  if (QR_CREATE_RATE_LIMIT_MAX <=? current)%nat then (false, m) else
  let m := if (QR_CREATE_RATE_LIMIT_MAX_ENTRIES <=? size m)%nat && bool_decide (m !! ip = None)
           then drop_oldest (fun ts => unwrap_or (head ts) now) m else m in
  (true, <[ip := default [] (m !! ip) ++ [now]]> m).

Inductive run : list (Z * string * bool) -> Z -> QrCreateRateLimiter -> Prop :=
| run_nil t : run [] t ∅
| run_step h t m now ip :
    run h t m -> (t <= now)%Z ->
    run ((now, ip, (qr_check_and_record now ip m).1) :: h) now (qr_check_and_record now ip m).2.

Definition ips (h : list (Z * string * bool)) : gset string := list_to_set ((fun e => e.1.2) <$> h).

(** Times of the admitted creations of an address, oldest first. *)
Definition admitted (ip : string) (h : list (Z * string * bool)) : list Z :=
  rev (omap (fun e : Z * string * bool => if e.2 && (e.1.2 =? ip)%string then Some e.1.1 else None) h).

Record inv (h : list (Z * string * bool)) (t : Z) (m : QrCreateRateLimiter) : Prop := {
  inv_dom : dom m ⊆ ips h;
  inv_times : forall ip, Forall (fun s => (s <= t)%Z) (admitted ip h);
  inv_recent : forall ip, default [] (m !! ip) = filter (recent t) (admitted ip h);
}.

Lemma filter_recent t now l : (t <= now)%Z -> Forall (fun s => (s <= t)%Z) l ->
  filter (recent now) (filter (recent t) l) = filter (recent now) l.
Proof.
  intros Ht. induction 1 as [|s l Hs Hl IH]; [done|]. rewrite !filter_cons.
  repeat case_decide; rewrite ?filter_cons; repeat case_decide; try congruence;
    unfold recent, elapsed in *; lia.
Qed.

Lemma retain_lookup now m ip :
  default [] (retain_recent now m !! ip) = filter (recent now) (default [] (m !! ip)).
Proof.
  unfold retain_recent. rewrite lookup_omap. destruct (m !! ip) as [ts|]; [|done]. cbn.
  case_bool_decide as E; [|done]. by rewrite E.
Qed.

Lemma admitted_cons now ip b h i :
  admitted i ((now, ip, b) :: h) = admitted i h ++ (if b && (ip =? i)%string then [now] else []).
Proof.
  unfold admitted. cbn. destruct (b && (ip =? i)%string); cbn; [done|]. by rewrite app_nil_r.
Qed.

Lemma qr_step_spec h t m now ip :
  inv h t m -> (t <= now)%Z -> (size ({[ip]} ∪ ips h) <= QR_CREATE_RATE_LIMIT_MAX_ENTRIES)%nat ->
  let r := qr_check_and_record now ip m in
  (r.1 = true <-> (length (filter (recent now) (admitted ip h)) < QR_CREATE_RATE_LIMIT_MAX)%nat) /\
  inv ((now, ip, r.1) :: h) now r.2.
Proof.
  intros [Hd Ht Hr] Hle Hsize. unfold qr_check_and_record. set (m1 := retain_recent now m).
  assert (H1 : forall i, default [] (m1 !! i) = filter (recent now) (admitted i h)).
  { intros i. unfold m1. rewrite retain_lookup, Hr. by apply filter_recent. }
  assert (Hd1 : dom m1 ⊆ ips h).
  { etransitivity; [|exact Hd]. unfold m1, retain_recent. apply dom_omap_subseteq. }
  assert (Hc : match m1 !! ip with Some ts => length ts | None => 0%nat end
               = length (filter (recent now) (admitted ip h))).
  { rewrite <- H1. by destruct (m1 !! ip). }
  assert (Hmono : forall i, Forall (fun s => (s <= now)%Z) (admitted i h)).
  { intros i. eapply Forall_impl; [apply Ht|]. cbn. lia. }
  rewrite Hc. destruct (Nat.leb_spec QR_CREATE_RATE_LIMIT_MAX (length (filter (recent now) (admitted ip h))));
    cbn [fst snd].
  - split; [split; [done|lia]|]. split.
    + cbn. set_solver.
    + intros i. rewrite admitted_cons. cbn. by rewrite app_nil_r.
    + intros i. rewrite admitted_cons. cbn. by rewrite app_nil_r.
  - assert (Hev : (QR_CREATE_RATE_LIMIT_MAX_ENTRIES <=? size m1)%nat && bool_decide (m1 !! ip = None) = false).
    { case_bool_decide as Hn; [|by rewrite andb_false_r]. apply not_elem_of_dom in Hn.
      assert (Hsub : {[ip]} ∪ dom m1 ⊆ {[ip]} ∪ ips h) by set_solver.
      apply subseteq_size in Hsub. rewrite size_union, size_singleton, size_dom in Hsub by set_solver.
      destruct (Nat.leb_spec QR_CREATE_RATE_LIMIT_MAX_ENTRIES (size m1)); [lia|done]. }
    rewrite Hev. split; [split; [done|done]|]. split.
    + rewrite dom_insert. cbn. set_solver.
    + intros i. rewrite admitted_cons. cbn. apply Forall_app. split; [done|].
      destruct (ip =? i)%string; repeat constructor. lia.
    + intros i. rewrite admitted_cons, lookup_insert. cbn. case_decide as E.
      * subst i. rewrite String.eqb_refl, filter_app, H1. cbn [default]. f_equal. cbn [andb].
        rewrite filter_cons, decide_True; [done|]. unfold recent, elapsed, QR_CREATE_RATE_LIMIT_WINDOW, secs. lia.
      * rewrite (proj2 (String.eqb_neq ip i)) by done. by rewrite app_nil_r.
Qed.

Lemma qr_run_inv h t m : run h t m -> (size (ips h) <= QR_CREATE_RATE_LIMIT_MAX_ENTRIES)%nat -> inv h t m.
Proof.
  induction 1 as [t|h t m now ip Hr IH Ht]; intros Hsize.
  - split; [set_solver|constructor|done].
  - refine (proj2 (qr_step_spec h t m now ip _ Ht Hsize)). apply IH. etransitivity; [|exact Hsize].
    apply subseteq_size. cbn. set_solver.
Qed.

(** A sliding window: with at most 4096 addresses, a creation is admitted exactly if
    fewer than 20 creations of the same address were admitted in the 60 seconds before. *)
Theorem twenty_per_window (h : list (Z * string * bool)) (now : Z) (ip : string) (b : bool)
    (m : QrCreateRateLimiter) (Hrun : run ((now, ip, b) :: h) now m)
    (Hips : (size (ips ((now, ip, b) :: h)) <= QR_CREATE_RATE_LIMIT_MAX_ENTRIES)%nat) :
  b = true <-> (length (filter (recent now) (admitted ip h)) < QR_CREATE_RATE_LIMIT_MAX)%nat.
Proof.
  inversion Hrun as [|h' t m' now' k' Hr Ht]; subst.
  refine (proj1 (qr_step_spec h t m' now ip _ Ht Hips)). apply qr_run_inv; [done|].
  etransitivity; [|exact Hips]. apply subseteq_size. cbn. set_solver.
Qed.
End QrCreate.

(** ** Single-use tickets of the event stream *)
Module Tickets.

Definition TICKET_TTL : Z := secs 30.

(** Expiry by ticket. *)
Notation SseTicketStore := (gmap string Z).

(** [bytes]: the 16 bytes drawn from the system's generator. *)
Definition issue (now : Z) (bytes : list N) (m : SseTicketStore) : string * SseTicketStore :=
  let ticket := hex_lower bytes in
  let m := filter (fun p : string * Z => (now < p.2)%Z) m in
  (ticket, <[ticket := (now + TICKET_TTL)%Z]> m).

Definition consume (now : Z) (ticket : string) (m : SseTicketStore) : bool * SseTicketStore :=
  if is_empty ticket then (false, m) else
  match m !! ticket with
  | Some exp => ((now <? exp)%Z, delete ticket m)
  | None => (false, m)
  end.

Inductive Event :=
| Issued (at_ : Z) (ticket : string)
| Consumed (at_ : Z) (ticket : string) (accepted : bool).

Definition ticket_of (e : Event) : string :=
  match e with Issued _ k => k | Consumed _ k _ => k end.

Inductive run : list Event -> Z -> SseTicketStore -> Prop :=
| run_nil t : run [] t ∅
| run_issue h t m now bytes :
    run h t m -> (t <= now)%Z -> length bytes = 16%nat ->
    run (Issued now (issue now bytes m).1 :: h) now (issue now bytes m).2
| run_consume h t m now k :
    run h t m -> (t <= now)%Z ->
    run (Consumed now k (consume now k m).1 :: h) now (consume now k m).2.

(** Expiry of a ticket that was issued and not presented since. *)
Fixpoint outstanding (k : string) (h : list Event) : option Z :=
  match h with
  | [] => None
  | e :: h =>
    if (ticket_of e =? k)%string
    then match e with Issued s _ => Some (s + TICKET_TTL)%Z | Consumed _ _ _ => None end
    else outstanding k h
  end.

Record inv (h : list Event) (t : Z) (m : SseTicketStore) : Prop := {
  inv_sound : forall k e, m !! k = Some e -> outstanding k h = Some e;
  inv_kept : forall k e, outstanding k h = Some e -> (t < e)%Z -> m !! k = Some e;
  inv_empty : outstanding "" h = None;
}.

Lemma inv_issue h t m now bytes :
  inv h t m -> (t <= now)%Z -> length bytes = 16%nat ->
  inv (Issued now (issue now bytes m).1 :: h) now (issue now bytes m).2.
Proof.
  intros [Hs Hk He] Ht Hb. cbn. split; cbn.
  - intros k e. rewrite lookup_insert. case_decide as E.
    + subst k. intros [= <-]. by rewrite String.eqb_refl.
    + intros [H _]%map_lookup_filter_Some. apply String.eqb_neq in E. rewrite E. by apply Hs.
  - intros k e. rewrite lookup_insert. case_decide as E.
    + subst k. rewrite String.eqb_refl. by intros [= <-] _.
    + apply String.eqb_neq in E. rewrite E. intros H Hlt. apply map_lookup_filter_Some.
      split; [|done]. apply Hk; [done|lia].
  - destruct (String.eqb_spec (hex_lower bytes) "") as [E|]; [|done].
    pose proof (hex_lower_len bytes) as Hl. rewrite E in Hl. cbn in Hl. lia.
Qed.

Lemma inv_consume h t m now k :
  inv h t m -> (t <= now)%Z ->
  inv (Consumed now k (consume now k m).1 :: h) now (consume now k m).2.
Proof.
  intros [Hs Hk He] Ht. unfold consume.
  assert (Hother : inv (Consumed now k false :: h) now (delete k m)).
  { split; cbn.
    - intros k' e. rewrite lookup_delete_Some. intros [E H]. apply String.eqb_neq in E. rewrite E. auto.
    - intros k' e. destruct (String.eqb_spec k k') as [|E]; [done|]. intros H Hlt.
      rewrite lookup_delete_ne by done. apply Hk; [done|lia].
    - by destruct (k =? "")%string. }
  assert (Hb : forall b m', inv (Consumed now k false :: h) now m' -> inv (Consumed now k b :: h) now m').
  { intros b m' [A B C]. by split. }
  destruct (is_empty k) eqn:E.
  - apply is_empty_spec in E. subst k. cbn. rewrite delete_id in Hother; [done|].
    destruct (m !! "") eqn:Em; [|done]. apply Hs in Em. congruence.
  - destruct (m !! k) eqn:Em; cbn; [by apply Hb|]. by rewrite delete_id in Hother.
Qed.

Lemma tickets_run_inv h t m : run h t m -> inv h t m.
Proof.
  induction 1 as [t|h t m now bytes Hr IH Ht Hb|h t m now k Hr IH Ht].
  - by split.
  - by apply (inv_issue h t).
  - by apply (inv_consume h t).
Qed.

(** Single use: a ticket is accepted exactly if it was issued less than 30 seconds ago
    and was not presented since; the two outcomes of a presentation are told apart by the
    history alone, so no ticket is accepted twice for one issue. *)
Theorem ticket_single_use (h : list Event) (now : Z) (k : string) (b : bool) (m : SseTicketStore)
    (Hrun : run (Consumed now k b :: h) now m) :
  b = true <-> exists e, outstanding k h = Some e /\ (now < e)%Z.
Proof.
  inversion Hrun as [| |h' t m' now' k' Hr Ht]; subst. destruct (tickets_run_inv _ _ _ Hr) as [Hs Hk He].
  unfold consume. destruct (is_empty k) eqn:E.
  { apply is_empty_spec in E. subst k. cbn. rewrite He. split; [done|]. by intros (e & [=] & _). }
  destruct (m' !! k) as [e|] eqn:Em; cbn.
  - rewrite (Hs _ _ Em), Z.ltb_lt. split; [by eauto|]. by intros (e' & [= <-] & ?).
  - split; [done|]. intros (e & H & Hlt). rewrite (Hk k e) in Em; [done|done|lia].
Qed.

Lemma ticket_single_use_witness :
  let bytes := repeat 171%N 16 in
  let k := (issue 5 bytes ∅).1 in
  let m := (issue 5 bytes ∅).2 in
  (consume 7 k m).1 = true <-> exists e, outstanding k [Issued 5 k] = Some e /\ (7 < e)%Z.
Proof.
  intros bytes k m. apply (ticket_single_use [Issued 5 k] 7 k (consume 7 k m).1 (consume 7 k m).2).
  apply (run_consume [Issued 5 k] 5 m 7 k); [|lia].
  apply (run_issue [] 0 ∅ 5 bytes); [apply run_nil|lia|reflexivity].
Defined.
End Tickets.

(** ** Fixed-window counter of the relay *)
Module FixedWindow.

Record Bucket := { count : nat; window_start : Z }.

Notation Buckets := (gmap string Bucket).

Section Limiter.
(** Arguments of the constructor: events per window, and the window. *)
Variables (max_events : nat) (window : Z).

Definition live (now : Z) (b : Bucket) : Prop := (elapsed now (window_start b) < window)%Z.
#[export] Instance live_dec now b : Decision (live now b).
Proof. unfold live. apply _. Defined.

(** The bucket as the call sees it: a fresh one, or one whose window is restarted. *)
Definition refresh (now : Z) (o : option Bucket) : Bucket :=
  let bucket := unwrap_or o {| count := 0; window_start := now |} in
  if bool_decide (live now bucket) then bucket else {| count := 0; window_start := now |}.

Definition allow (now : Z) (key : string) (m : Buckets) : bool * Buckets :=
  let bucket := refresh now (m !! key) in
  if (max_events <=? count bucket)%nat then (false, <[key := bucket]> m) else
  let m := <[key := {| count := S (count bucket); window_start := window_start bucket |}]> m in
  (true, if (10000 <? size m)%nat then filter (fun p : string * Bucket => live now p.2) m else m).

Inductive run : list (Z * string * bool) -> Z -> Buckets -> Prop :=
| run_nil t : run [] t ∅
| run_step h t m now key :
    run h t m -> (t <= now)%Z ->
    run ((now, key, (allow now key m).1) :: h) now (allow now key m).2.

(** The counter of one key alone, from the times of its calls (latest first); no map, no
    eviction. *)
Fixpoint bucket_of (times : list Z) : option Bucket :=
  match times with
  | [] => None
  | now :: past =>
    let b := refresh now (bucket_of past) in
    Some (if (max_events <=? count b)%nat then b
          else {| count := S (count b); window_start := window_start b |})
  end.

Definition allow_ref (now : Z) (past : list Z) : bool :=
  negb (max_events <=? count (refresh now (bucket_of past)))%nat.

Definition calls (key : string) (h : list (Z * string * bool)) : list Z :=
  omap (fun e : Z * string * bool => if (e.1.2 =? key)%string then Some e.1.1 else None) h.

(** Up to stale buckets, the map holds the counter of every key. *)
Record inv (h : list (Z * string * bool)) (t : Z) (m : Buckets) : Prop := {
  inv_times : forall k b, m !! k = Some b -> (window_start b <= t)%Z;
  inv_refresh : forall k now, (t <= now)%Z -> refresh now (m !! k) = refresh now (bucket_of (calls k h));
}.

Lemma refresh_start now o : (forall b, o = Some b -> (window_start b <= now)%Z) ->
  (window_start (refresh now o) <= now)%Z.
Proof.
  intros H. unfold refresh. case_bool_decide; [|cbn; lia]. destruct o as [b|]; cbn; [by apply H|lia].
Qed.

Lemma refresh_stale now now' b : ~ live now b -> (now <= now')%Z -> refresh now' (Some b) = refresh now' None.
Proof.
  intros H Hle. unfold refresh. cbn. rewrite bool_decide_false.
  - by case_bool_decide.
  - unfold live, elapsed in *. lia.
Qed.

(** What the store holds after a call, as the next call to the same key sees it. *)
Lemma allow_lookup now k k' m now' : (now <= now')%Z ->
  (k' <> k -> refresh now' ((allow now k m).2 !! k') = refresh now' (m !! k')) /\
  (k' = k -> refresh now' ((allow now k m).2 !! k') =
     let b := refresh now (m !! k) in
     refresh now' (Some (if (max_events <=? count b)%nat then b
                         else {| count := S (count b); window_start := window_start b |}))).
Proof.
  intros Hle. unfold allow. set (b := refresh now (m !! k)).
  destruct (max_events <=? count b)%nat eqn:E; cbn [snd].
  { split; [intros Hn|intros ->]; [by rewrite lookup_insert_ne by done|by rewrite lookup_insert_eq]. }
  set (m1 := <[k := _]> m).
  assert (Hf : forall i, refresh now' ((if (10000 <? size m1)%nat
       then filter (fun p : string * Bucket => live now p.2) m1 else m1) !! i) = refresh now' (m1 !! i)).
  { intros i. destruct (10000 <? size m1)%nat; [|done]. rewrite map_lookup_filter.
    destruct (m1 !! i) as [x|]; [|done]. cbn. case_guard as Hl; [done|]. cbn in Hl.
    cbn. symmetry. by apply (refresh_stale now). }
  rewrite Hf. unfold m1. split; [intros Hn|intros ->].
  - by rewrite lookup_insert_ne by done.
  - by rewrite lookup_insert_eq.
Qed.

Lemma allow_times now k m t : (t <= now)%Z -> (forall k b, m !! k = Some b -> (window_start b <= t)%Z) ->
  forall k' b, (allow now k m).2 !! k' = Some b -> (window_start b <= now)%Z.
Proof.
  intros Hle Ht k' b. unfold allow. set (b0 := refresh now (m !! k)).
  assert (Hb0 : (window_start b0 <= now)%Z).
  { apply refresh_start. intros x Hx. specialize (Ht _ _ Hx). lia. }
  assert (Hins : forall x, (window_start x <= now)%Z -> <[k := x]> m !! k' = Some b -> (window_start b <= now)%Z).
  { intros x Hx. rewrite lookup_insert. case_decide as E; [by intros [= <-]|]. intros H'. specialize (Ht _ _ H'). lia. }
  destruct (max_events <=? count b0)%nat; cbn [snd]; [by apply Hins|].
  destruct (10000 <? _)%nat; [intros [H _]%map_lookup_filter_Some; revert H|]; by apply Hins.
Qed.

Lemma window_run_inv h t m : run h t m -> inv h t m.
Proof.
  induction 1 as [t|h t m now k Hr [IHt IHr] Ht].
  - split; [done|]. done.
  - split; [by apply (allow_times now k m t)|]. intros k' now' Hle. unfold calls. cbn.
    destruct (allow_lookup now k k' m now' Hle) as [H1 H2].
    destruct (String.eqb_spec k k') as [<-|E].
    + rewrite H2 by done. cbn. by rewrite (IHr k now Ht).
    + rewrite H1 by done. apply IHr. lia.
Qed.

(** Eviction is invisible, and keys do not disturb each other: an answer is the one of
    the key's own counter, computed from the times of that key's calls only. *)
Theorem allow_isolated (h : list (Z * string * bool)) (now : Z) (key : string) (b : bool) (m : Buckets)
    (Hrun : run ((now, key, b) :: h) now m) : b = allow_ref now (calls key h).
Proof.
  inversion Hrun as [|h' t m' now' k' Hr Ht]; subst.
  unfold allow, allow_ref. rewrite <- (inv_refresh _ _ _ (window_run_inv _ _ _ Hr) key now Ht).
  by destruct (max_events <=? _)%nat.
Qed.

(** The counter of a key never passes the limit. *)
Lemma bucket_bounded times b : bucket_of times = Some b -> (count b <= max_events)%nat.
Proof.
  revert b. induction times as [|now past IH]; [done|]. intros b. cbn. intros [= <-].
  assert (Hc : (count (refresh now (bucket_of past)) <= max_events)%nat).
  { unfold refresh. case_bool_decide; [|cbn; lia]. destruct (bucket_of past); cbn; [by apply IH|lia]. }
  destruct (Nat.leb_spec max_events (count (refresh now (bucket_of past)))); cbn; lia.
Qed.
End Limiter.
End FixedWindow.
