(* ===== verification/RelayBase.v ===== *)
(** * Relay addresses, device identity and registration ([src/src/relay])

    What the hub and the pairing relay share: the URLs derived from the environment
    ([relay/mod.rs]), the device identity kept on disk and the path filter
    ([relay/device.rs]), the signed registration ([relay/auth.rs]) and the messages of
    the protocol ([relay/protocol.rs]). Base64, Ed25519, percent decoding and the JSON
    codec of the identity file are parameters. *)
From Stdlib Require Import Ascii.
From S2P Require Import Prelude StrLemmas.
Import Str.
Local Open Scope hub_scope.

(** ** URLs *)
Section Urls.
(** [std::env::var]: [None] when the variable is unset or not Unicode. *)
Variable var : string -> option string.

Definition DEFAULT_RELAY_URL : string := "https://ilinkhub.ai".

Definition relay_off : bool :=
  match var "ILINKHUB_RELAY" with
  | Some v => (v =? "0")%string || eq_ignore_ascii_case v "false"
  | None => false
  end.

Definition resolve_pair_public_url (device_id : string) : string :=
  let explicit :=
    match var "HUB_PAIR_URL" <|> var "HUB_PUBLIC_URL" with
    | Some url => ofilter (fun s => negb (is_empty s)) (Some (trim_end_matches "/"%char (trim url)))
    | None => None
    end in
  match explicit with
  | Some s => s
  | None =>
      if relay_off then "http://127.0.0.1:8765" else
      let relay_base := unwrap_or (var "ILINKHUB_RELAY_URL") DEFAULT_RELAY_URL in
      trim_end_matches "/"%char (trim relay_base) +:+ "/pair/" +:+ device_id
  end.

Definition pair_qr_url (public_base code : string) : string :=
  let legacy := bool_decide (is_Some (var "HUB_PAIR_URL")) || bool_decide (is_Some (var "HUB_PUBLIC_URL")) in
  if legacy then public_base +:+ "/hub/pair/" +:+ code else public_base +:+ "/" +:+ code.

Definition relay_enabled : bool :=
  negb relay_off && bool_decide (var "HUB_PAIR_URL" = None) && bool_decide (var "HUB_PUBLIC_URL" = None).

Definition relay_ws_url : string :=
  let base := unwrap_or (var "ILINKHUB_RELAY_URL") DEFAULT_RELAY_URL in
  let base := trim_end_matches "/"%char (trim base) in
  match strip_prefix "https://" base with
  | Some rest => "wss://" +:+ rest +:+ "/ws/pairing"
  | None =>
      match strip_prefix "http://" base with
      | Some rest =>
          let host := unwrap_or (head (split "/" rest)) rest in
          let is_loopback := starts_with "127.0.0.1" host || starts_with "localhost" host
                             || starts_with "[::1]" host in
          if is_loopback then "ws://" +:+ rest +:+ "/ws/pairing"
          else "wss://" +:+ rest +:+ "/ws/pairing"
      | None => "wss://" +:+ base +:+ "/ws/pairing"
      end
  end.
End Urls.

Definition hub_loopback_addr (listen_addr : string) : string :=
  replace_first "0.0.0.0" "127.0.0.1" listen_addr.

(** ** Device identity *)

Definition is_ascii_alphanumeric (a : ascii) : bool :=
  (is_digit a || is_ascii_uppercase a || ((97 <=? byte a) && (byte a <=? 122))%N)%bool.

Definition validate_device_id (id : string) : bool :=
  if (len id <? 8)%nat || (64 <? len id)%nat then false
  else all_bytes (fun a => is_ascii_alphanumeric a || (a =? "-")%char) id.

Record DeviceIdentity := {
  di_device_id : string;
  di_signing_key_b64 : string;
}.

(** The two files of the data directory; [None] when a file does not exist. *)
Record DeviceFiles := {
  f_identity : option string;
  f_legacy : option string;
}.

(** What can go wrong: reading, parsing or writing a file. *)
Inductive DeviceError := ReadFailed | ParseFailed | WriteFailed.

Section Device.
(** The JSON codec of the identity file. *)
Variables (identity_from_json : string -> option DeviceIdentity)
          (identity_to_json : DeviceIdentity -> string).

(** How saving the identity goes: the directory cannot be made; the write fails and leaves
    something, since it truncates the file before it writes; the permissions cannot be set
    on the file that was written. *)
Inductive SaveFault := Saves | NoDirectory | WriteFails (left_behind : option string) | ModeFails.

Definition save (fault : SaveFault) (identity : DeviceIdentity) (fs : DeviceFiles)
    : result unit DeviceError * DeviceFiles :=
  let holding content := {| f_identity := content; f_legacy := f_legacy fs |} in
  match fault with
  | NoDirectory => (Err WriteFailed, fs)
  | WriteFails left_behind => (Err WriteFailed, holding left_behind)
  | ModeFails => (Err WriteFailed, holding (Some (identity_to_json identity)))
  | Saves => (Ok tt, holding (Some (identity_to_json identity)))
  end.

(** [uuid] and [key]: the identifier and the encoded signing key that would be drawn;
    [readable]: whether the file system lets the files be read. The new identity takes over
    a valid legacy identifier. *)
Definition create_identity (uuid key : string) (readable : bool) (fault : SaveFault) (fs : DeviceFiles)
    : result DeviceIdentity DeviceError * DeviceFiles :=
  let device_id :=
    match f_legacy fs with
    | Some raw =>
        if negb readable then Err ReadFailed else
        let id := trim raw in Ok (if validate_device_id id then id else uuid)
    | None => Ok uuid
    end in
  match device_id with
  | Err e => (Err e, fs)
  | Ok device_id =>
      let identity := {| di_device_id := device_id; di_signing_key_b64 := key |} in
      match save fault identity fs with
      | (Ok _, fs) => (Ok identity, fs)
      | (Err e, fs) => (Err e, fs)
      end
  end.

Definition load_or_create (uuid key : string) (readable : bool) (fault : SaveFault) (fs : DeviceFiles)
    : result DeviceIdentity DeviceError * DeviceFiles :=
  match f_identity fs with
  | Some raw =>
      if negb readable then (Err ReadFailed, fs) else
      match identity_from_json raw with
      | None => (Err ParseFailed, fs)
      | Some id =>
          if validate_device_id (di_device_id id) && negb (is_empty (di_signing_key_b64 id))
          then (Ok id, fs) else create_identity uuid key readable fault fs
      end
  | None => create_identity uuid key readable fault fs
  end.

Definition load_or_create_device_id (uuid key : string) (readable : bool) (fault : SaveFault) (fs : DeviceFiles)
    : result string DeviceError * DeviceFiles :=
  let '(r, fs) := load_or_create uuid key readable fault fs in
  (match r with Ok id => Ok (di_device_id id) | Err e => Err e end, fs).
End Device.

(** ** Paths the relay may forward *)

Definition is_allowed_relay_path (percent_decode : string -> string) (path : string) : bool :=
  if negb (starts_with "/" path) then false else
  if starts_with "//" path then false else
  if contains "?" path || contains "#" path then false else
  let decoded := percent_decode path in
  if contains ".." path || contains ".." decoded then false else
  starts_with "/hub/pair/" path.

(** ** Signed registration *)

Definition REGISTER_MAX_SKEW_SECS : Z := 60.

Definition show_i64 (n : Z) : string := if (n <? 0)%Z then "-" +:+ show_u64 (- n) else show_u64 n.

(** [i64] arithmetic of a build without overflow checks: it wraps, and so the absolute
    value of the least number is that number. *)
Definition i64_sub (a b : Z) : Z := as_i64 (a - b).
Definition i64_abs (a : Z) : Z := if (a =? i64_min)%Z then i64_min else Z.abs a.

Definition register_payload (device_id : string) (timestamp : Z) : string :=
  "register:" +:+ device_id +:+ ":" +:+ show_i64 timestamp.

Section Auth.
(** Verifying keys; decoding base64; a key and a signature from their bytes; verification. *)
Context {VKey Sig : Type}.
Variables (b64_decode : string -> option (list N)) (key_of_bytes : list N -> option VKey)
          (sig_of_slice : list N -> option Sig) (ed25519_verify : VKey -> string -> Sig -> bool).

Definition verify_register (key : VKey) (device_id : string) (timestamp : Z) (signature_b64 : string)
    (now_unix : Z) : result unit string :=
  if (REGISTER_MAX_SKEW_SECS <? i64_abs (i64_sub now_unix timestamp))%Z
  then Err "registration timestamp out of range" else
  match b64_decode signature_b64 with
  | None => Err "invalid signature encoding"
  | Some sig_bytes =>
      match sig_of_slice sig_bytes with
      | None => Err "invalid signature length"
      | Some signature =>
          if ed25519_verify key (register_payload device_id timestamp) signature then Ok tt
          else Err "invalid registration signature"
      end
  end.

Definition verifying_key_from_b64 (public_key_b64 : string) : result VKey string :=
  match b64_decode public_key_b64 with
  | None => Err "invalid public_key encoding"
  | Some bytes =>
      if negb (length bytes =? 32)%nat then Err "public_key must be 32 bytes" else
      match key_of_bytes bytes with Some k => Ok k | None => Err "invalid public_key" end
  end.
End Auth.

(** ** Messages *)

Inductive RelayMessage :=
| Register (device_id public_key : string) (timestamp : Z) (signature : string)
| Registered (ok : bool) (error : option string)
| Request (id method path : string) (headers : gmap string string) (body : option string)
| Response (id : string) (status : Z) (headers : gmap string string) (body : option string)
| Ping
| Pong.

(** ** Lemmas *)

Lemma as_i64_id n : (i64_min <= n <= i64_max)%Z -> as_i64 n = n.
Proof.
  unfold as_i64, i64_min, i64_max. intros H.
  destruct (Z.leb_spec (n mod 2 ^ 64) (2 ^ 63 - 1)) as [Hm|Hm].
  - destruct (Z.le_gt_cases 0 n); [by rewrite Z.mod_small by lia|].
    rewrite <- (Z_mod_plus_full n 1 (2 ^ 64)), Z.mod_small in Hm; lia.
  - destruct (Z.le_gt_cases 0 n); [rewrite Z.mod_small in Hm; lia|].
    rewrite <- (Z_mod_plus_full n 1 (2 ^ 64)), Z.mod_small; lia.
Qed.

(** The skew check, exactly: besides the timestamps within 60 seconds, the one whose
    distance to the clock is 2^63 passes, since its absolute value wraps. *)
Lemma skew_check_exact now timestamp :
  (0 <= now <= 2 ^ 62)%Z -> (i64_min <= timestamp <= i64_max)%Z ->
  (REGISTER_MAX_SKEW_SECS <? i64_abs (i64_sub now timestamp))%Z = false <->
  (Z.abs (now - timestamp) <= REGISTER_MAX_SKEW_SECS \/ timestamp = now - 2 ^ 63)%Z.
Proof.
  unfold i64_sub, i64_abs, REGISTER_MAX_SKEW_SECS. intros Hn Ht. rewrite Z.ltb_ge.
  destruct (Z.le_gt_cases (now - timestamp) i64_max) as [Hle|Hgt].
  - rewrite as_i64_id by (unfold i64_min, i64_max in *; lia).
    destruct (Z.eqb_spec (now - timestamp) i64_min); unfold i64_min, i64_max in *; lia.
  - unfold as_i64. unfold i64_min, i64_max in *.
    rewrite Z.mod_small by lia. destruct (Z.leb_spec (now - timestamp) (2 ^ 63 - 1)); [lia|].
    destruct (Z.eqb_spec (now - timestamp - 2 ^ 64) (- 2 ^ 63)); lia.
Qed.

Lemma create_identity_spec to_json uuid key r w fs id fs' :
  validate_device_id uuid = true ->
  create_identity to_json uuid key r w fs = (Ok id, fs') ->
  validate_device_id (di_device_id id) = true /\ di_signing_key_b64 id = key /\
  f_identity fs' = Some (to_json id).
Proof.
  intros Hu. unfold create_identity. destruct (f_legacy fs) as [raw|]; [destruct r; cbn; [|done]|];
    (destruct w; try done); intros [= <- <-]; cbn; [|done].
  by destruct (validate_device_id (trim raw)) eqn:E.
Qed.

Lemma load_or_create_spec from_json to_json uuid key r w fs id fs' :
  validate_device_id uuid = true -> key <> "" -> from_json (to_json id) = Some id ->
  load_or_create from_json to_json uuid key r w fs = (Ok id, fs') ->
  validate_device_id (di_device_id id) = true /\ is_empty (di_signing_key_b64 id) = false /\
  f_identity fs' ≫= from_json = Some id.
Proof.
  intros Hu Hk Hc. unfold load_or_create.
  assert (Hnew : create_identity to_json uuid key r w fs = (Ok id, fs') ->
    validate_device_id (di_device_id id) = true /\ is_empty (di_signing_key_b64 id) = false /\
    f_identity fs' ≫= from_json = Some id).
  { intros (H1 & H2 & H3)%create_identity_spec; [|done]. rewrite H2, H3. by destruct key. }
  destruct (f_identity fs) as [raw|] eqn:Ef; [|done]. destruct r; cbn [negb]; [|done].
  destruct (from_json raw) as [i|] eqn:Ej; [|done].
  destruct (validate_device_id (di_device_id i) && negb (is_empty (di_signing_key_b64 i))) eqn:E; [|done].
  intros [= -> <-]. apply andb_true_iff in E as [E1 E2]. rewrite Ef. cbn.
  by destruct (is_empty (di_signing_key_b64 id)).
Qed.

(** An identity is created once: what a first call returned, every later call returns,
    whatever it would have drawn, and it is valid. *)
Theorem device_identity_stable (from_json : string -> option DeviceIdentity)
    (to_json : DeviceIdentity -> string) (uuid key uuid' key' : string) (r : bool) (w w' : SaveFault)
    (fs fs' : DeviceFiles) (id : DeviceIdentity)
    (Huuid : validate_device_id uuid = true) (Hkey : key <> "")
    (Hcodec : from_json (to_json id) = Some id)
    (Hload : load_or_create from_json to_json uuid key r w fs = (Ok id, fs')) :
  validate_device_id (di_device_id id) = true /\
  load_or_create from_json to_json uuid' key' true w' fs' = (Ok id, fs').
Proof.
  apply load_or_create_spec in Hload as (Hv & Hne & Hf); [|done..]. split; [done|].
  unfold load_or_create. destruct (f_identity fs') as [raw|]; cbn in Hf; [|done]. cbn [negb].
  by rewrite Hf, Hv, Hne.
Qed.

(** A write that fails half-way is not repaired: what it leaves in the file, unless it
    parses, makes every later start fail, although the file could be made again. *)
Lemma truncated_identity_stays (from_json : string -> option DeviceIdentity) (to_json : DeviceIdentity -> string)
    (uuid key uuid' key' left_behind : string) (w' : SaveFault) (fs : DeviceFiles) :
  f_identity fs = None -> f_legacy fs = None -> from_json left_behind = None ->
  let '(r, fs') := load_or_create from_json to_json uuid key true (WriteFails (Some left_behind)) fs in
  r = Err WriteFailed /\ load_or_create from_json to_json uuid' key' true w' fs' = (Err ParseFailed, fs').
Proof. intros E1 E2 E3. unfold load_or_create, create_identity. rewrite E1, E2. cbn. by rewrite E3. Qed.

(** *** Dot segments *)

(** What a resolver makes of a path: [..] removes the segment before it. *)
Fixpoint resolve_segments (seen : list string) (segs : list string) : list string :=
  match segs with
  | [] => rev seen
  | s :: segs =>
      if (s =? "..")%string then resolve_segments (tail seen) segs
      else if (s =? ".")%string then resolve_segments seen segs
      else resolve_segments (s :: seen) segs
  end.

Lemma resolve_no_dots seen segs : Forall (fun s => s <> "..") segs ->
  exists rest, resolve_segments seen segs = rev seen ++ rest.
Proof.
  revert seen. induction segs as [|s segs IH]; intros seen Hf; cbn.
  - exists []. by rewrite app_nil_r.
  - apply Forall_cons in Hf as [Hs Hf]. rewrite (proj2 (String.eqb_neq s "..") Hs).
    destruct (s =? ".")%string; [by apply IH|].
    destruct (IH (s :: seen) Hf) as [rest E]. exists (s :: rest). rewrite E. cbn. by rewrite <- app_assoc.
Qed.

(** Every forwarded path stays below [/hub/pair]: its segments begin with those two, and
    resolving the dot segments it is written with does not remove them. *)
Theorem allowed_path_confined (percent_decode : string -> string) (path : string)
    (H : is_allowed_relay_path percent_decode path = true) :
  exists rest, resolve_segments [] (split "/" path) = "" :: "hub" :: "pair" :: rest /\
    contains "?" path = false /\ contains "#" path = false /\ contains ".." (percent_decode path) = false.
Proof.
  revert H. unfold is_allowed_relay_path. destruct (negb _); [done|]. destruct (starts_with "//" path); [done|].
  destruct (contains "?" path); [done|]. destruct (contains "#" path); [done|].
  destruct (contains ".." path) eqn:Hd; [done|]. destruct (contains ".." (percent_decode path)); [done|].
  cbn [orb]. intros [tail ->]%starts_with_spec.
  assert (Hseg : Forall (fun s => s <> "..") (split "/" ("/hub/pair/" +:+ tail))).
  { apply Forall_forall. intros x Hx ->. apply split_infix in Hx as (a & b & E).
    rewrite E, contains_true in Hd. done. }
  assert (Hs : split "/" ("/hub/pair/" +:+ tail) = "" :: "hub" :: "pair" :: split "/" tail) by done.
  rewrite Hs in *. destruct (resolve_no_dots [] _ Hseg) as [rest E]. cbn in E.
  repeat (apply Forall_cons in Hseg as [_ Hseg]).
  destruct (resolve_no_dots ["pair"; "hub"; ""] _ Hseg) as [rest' E']. exists rest'. cbn. by rewrite E'.
Qed.
