(* ===== verification/Crypto.v ===== *)
(** * Secrets at rest: the master key, the encrypted bot token, the relay secret
    ([src/runtime/crypto.rs], [src/store/credentials.rs], [src/paths.rs])

    AES-256-GCM (the ring crate) and base64 (the base64 crate) are parameters; what the
    code relies on of them is stated as hypotheses of the sections that use it. A Rust
    panic is [None] of an outer option. *)
From S2P Require Import Prelude StrLemmas VToken RelayBase.
From Stdlib Require Import Ascii.
Import Str.

(** ** Bytes and text *)

Definition to_bytes (s : string) : list N := map byte (String.list_ascii_of_string s).

Definition is_bytes (l : list N) : Prop := Forall (fun n => n < 256)%N l.

Lemma to_bytes_is_bytes s : is_bytes (to_bytes s).
Proof. apply Forall_map. apply Forall_true. intros a. unfold compose, byte. apply N_ascii_bounded. Qed.

Definition cont_byte (b : N) : bool := ((128 <=? b) && (b <? 192))%N.
Definition between (lo hi b : N) : bool := ((lo <=? b) && (b <=? hi))%N.

(** [str::from_utf8]: the well-formed byte sequences of the Unicode standard. *)
Fixpoint utf8_valid (l : list N) : bool :=
  match l with
  | [] => true
  | b :: l1 =>
      if (b <? 128)%N then utf8_valid l1 else
      match l1 with
      | [] => false
      | b1 :: l2 =>
          if between 194 223 b then cont_byte b1 && utf8_valid l2 else
          match l2 with
          | [] => false
          | b2 :: l3 =>
              if (b =? 224)%N then between 160 191 b1 && cont_byte b2 && utf8_valid l3 else
              if (b =? 237)%N then between 128 159 b1 && cont_byte b2 && utf8_valid l3 else
              if between 225 239 b then cont_byte b1 && cont_byte b2 && utf8_valid l3 else
              match l3 with
              | [] => false
              | b3 :: l4 =>
                  if (b =? 240)%N then between 144 191 b1 && cont_byte b2 && cont_byte b3 && utf8_valid l4 else
                  if (b =? 244)%N then between 128 143 b1 && cont_byte b2 && cont_byte b3 && utf8_valid l4 else
                  between 241 243 b && cont_byte b1 && cont_byte b2 && cont_byte b3 && utf8_valid l4
              end
          end
      end
  end.

Definition from_utf8 (l : list N) : option string := if utf8_valid l then Some (of_bytes l) else None.

Lemma of_to_bytes s : of_bytes (to_bytes s) = s.
Proof.
  induction s as [|a s IH]; [done|]. unfold to_bytes in *. cbn. rewrite IH. unfold byte.
  by rewrite ascii_N_embedding.
Qed.

(** ** Keys written as text *)

(** [str::trim_matches] with an ASCII character. *)
Fixpoint trim_start_matches (a : ascii) (s : string) : string :=
  match s with
  | String b s' => if (a =? b)%char then trim_start_matches a s' else s
  | EmptyString => ""
  end.

Definition trim_matches (a : ascii) (s : string) : string := trim_end_matches a (trim_start_matches a s).

(** [char::to_digit(16)]. *)
Definition hex_value (a : ascii) : option N :=
  let b := byte a in
  if is_digit a then Some (b - 48)%N
  else if between 65 70 b then Some (b - 55)%N
  else if between 97 102 b then Some (b - 87)%N
  else None.

(** [u8::from_str_radix(s, 16)] on a string of two bytes: a leading plus sign is skipped. *)
Definition radix16 (a b : ascii) : option N :=
  if (a =? "+")%char then hex_value b
  else match hex_value a, hex_value b with
       | Some x, Some y => Some (16 * x + y)%N
       | _, _ => None
       end.

(** The pairs of bytes of an even-length string, each parsed when its turn comes. Slicing
    inside a character panics. *)
Fixpoint decode_pairs (s : string) (acc : list N) : option (result (list N) string) :=
  match s with
  | EmptyString => Some (Ok acc)
  | String _ EmptyString => Some (Ok acc)
  | String a (String b rest) =>
      let splits := match rest with String c _ => is_cont c | _ => false end in
      if splits then None else
      match radix16 a b with
      | Some n => decode_pairs rest (acc ++ [n])
      | None => Some (Err "Invalid hex character")
      end
  end.

Definition decode_hex (s : string) : option (result (list N) string) :=
  if Nat.odd (len s) then Some (Err "Odd number of hexadecimal digits") else decode_pairs s [].

Section Keys.
Context (b64_decode : string -> option (list N)).

Definition INVALID_KEY : string := "Invalid key: must be 32 bytes in either base64 or hex format".

Definition decode_key (s : string) : option (result (list N) string) :=
  let s := trim_matches "'"%char (trim_matches "034"%char (trim s)) in
  let hex :=
    match decode_hex s with
    | None => None
    | Some (Ok bytes) => Some (if (length bytes =? 32)%nat then Ok bytes else Err INVALID_KEY)
    | Some (Err _) => Some (Err INVALID_KEY)
    end in
  match b64_decode s with
  | Some bytes => if (length bytes =? 32)%nat then Some (Ok bytes) else hex
  | None => hex
  end.

(** [UnboundKey::new] accepts exactly the keys of the algorithm's length. *)
Definition load_or_derive_master_key (var : option string) : option (result (list N) string) :=
  match var with
  | None => Some (Err "ILINK_HUB_MASTER_KEY is required")
  | Some s =>
      match decode_key s with
      | Some (Ok bytes) => Some (if (length bytes =? 32)%nat then Ok bytes else Err "Failed to create UnboundKey")
      | r => r
      end
  end.
End Keys.

(** ** The bot token in the database *)
Section Token.
Context {Key : Type}.
Context (b64_encode : list N -> string) (b64_decode : string -> option (list N)).
Context (seal : Key -> list N -> list N -> option (list N)) (open : Key -> list N -> list N -> option (list N)).

(** [nonce] is the twelve random bytes drawn for the call. *)
Definition encrypt_token (nonce : list N) (plain : string) (key : Key) : result string string :=
  match seal key nonce (to_bytes plain) with
  | None => Err "seal_in_place_append_tag failed"
  | Some in_out => Ok (b64_encode (nonce ++ in_out))
  end.

Definition decrypt_token (blob : string) (key : Key) : result string string :=
  match b64_decode (trim blob) with
  | None => Err "invalid base64"
  | Some data =>
      if (length data <? 12 + 16)%nat then Err "Decryption failed: data too short" else
      match open key (take 12 data) (drop 12 data) with
      | None => Err "Decryption failed: bad key or corrupted data"
      | Some plain =>
          match from_utf8 plain with
          | Some s => Ok s
          | None => Err "invalid utf-8 sequence"
          end
      end
  end.

(** The row of [bot_credentials] and the key installed at startup. *)
Record Credentials := { cr_key : option Key; cr_row : option (string * string) }.

Definition NO_KEY : string := "Master key not configured on Store".

(** [fault] is a failure of the statement. *)
Definition save_bot_credentials (nonce : list N) (fault : option string) (token base : string) (c : Credentials)
    : result unit string * Credentials :=
  match cr_key c with
  | None => (Err NO_KEY, c)
  | Some key =>
      match encrypt_token nonce token key with
      | Err e => (Err e, c)
      | Ok blob =>
          match fault with
          | Some e => (Err e, c)
          | None => (Ok tt, {| cr_key := cr_key c; cr_row := Some (blob, base) |})
          end
      end
  end.

Definition load_bot_credentials (fault : option string) (c : Credentials)
    : result (option (string * string)) string :=
  match fault with
  | Some e => Err e
  | None =>
      match cr_row c with
      | None => Ok None
      | Some (blob, base) =>
          match cr_key c with
          | None => Err NO_KEY
          | Some key =>
              match decrypt_token blob key with
              | Err e => Err e
              | Ok token => Ok (Some (token, base))
              end
          end
      end
  end.

(** What the code relies on: the codec is faithful and its output has no surrounding
    whitespace; the cipher opens what it sealed and appends a tag of sixteen bytes. *)
Record Codecs : Prop := {
  b64_faithful : forall d, is_bytes d -> b64_decode (b64_encode d) = Some d;
  b64_trimmed : forall d, trim (b64_encode d) = b64_encode d;
  aead_bytes : forall k n p c, is_bytes p -> seal k n p = Some c -> is_bytes c;
  aead_opens : forall k n p c, seal k n p = Some c -> open k n c = Some p;
  aead_length : forall k n p c, seal k n p = Some c -> length c = (length p + 16)%nat;
}.

Lemma decrypt_encrypt (H : Codecs) nonce plain key blob :
  length nonce = 12%nat -> is_bytes nonce -> utf8_valid (to_bytes plain) = true ->
  encrypt_token nonce plain key = Ok blob -> decrypt_token blob key = Ok plain.
Proof.
  intros Hn Hb Hu. unfold encrypt_token, decrypt_token. destruct (seal key nonce (to_bytes plain)) as [c|] eqn:Es; [|done].
  intros [= <-]. rewrite (b64_trimmed H), (b64_faithful H).
  2: { apply Forall_app. split; [done|]. eapply (aead_bytes H), Es. apply to_bytes_is_bytes. }
  pose proof (aead_length H _ _ _ _ Es) as Hl.
  destruct (Nat.ltb_spec (length (nonce ++ c)) (12 + 16)) as [Hs|_]; [rewrite length_app in Hs; lia|].
  rewrite <-Hn, take_app_length, drop_app_length, (aead_opens H _ _ _ _ Es). unfold from_utf8.
  by rewrite Hu, of_to_bytes.
Qed.

(** A saved token is loaded back unchanged, and saving never leaves the row
    half-written: on an error the row is the one before. *)
Lemma credentials_roundtrip (H : Codecs) nonce fault token base c :
  length nonce = 12%nat -> is_bytes nonce -> utf8_valid (to_bytes token) = true ->
  match save_bot_credentials nonce fault token base c with
  | (Ok _, c') => load_bot_credentials None c' = Ok (Some (token, base)) /\ cr_key c' = cr_key c
  | (Err _, c') => c' = c
  end.
Proof.
  intros Hn Hb Hu. unfold save_bot_credentials. destruct (cr_key c) as [key|] eqn:Ek; [|done].
  destruct (encrypt_token nonce token key) as [blob|e] eqn:Ee; [|done]. destruct fault; [done|].
  unfold load_bot_credentials. cbn. by rewrite (decrypt_encrypt H _ _ _ _ Hn Hb Hu Ee).
Qed.
End Token.

(** ** Keys in hexadecimal *)

Lemma hex_value_digit n : (n < 16)%N -> hex_value (hex_digit n) = Some n /\ hex_digit n <> "+"%char.
Proof.
  intros H. assert (Hn : In n [0; 1; 2; 3; 4; 5; 6; 7; 8; 9; 10; 11; 12; 13; 14; 15]%N) by (cbn; lia).
  cbn in Hn. repeat (destruct Hn as [<-|Hn]; [by split|]). done.
Qed.

Lemma lower_hex_not_cont a : lower_hex a = true -> is_cont a = false.
Proof. destruct a as [[] [] [] [] [] [] [] []]; by vm_compute. Qed.

Lemma hex_lower_boundary l : match hex_lower l with String c _ => is_cont c | _ => false end = false.
Proof.
  pose proof (hex_lower_all l) as Ha. destruct (hex_lower l) as [|c s]; [done|]. cbn in Ha.
  apply andb_true_iff in Ha as [Ha _]. by apply lower_hex_not_cont.
Qed.

Lemma radix16_hex n : (n < 256)%N ->
  radix16 (hex_digit (N.shiftr n 4)) (hex_digit (N.land n 15)) = Some n.
Proof.
  intros Hn. change 15%N with (N.ones 4). rewrite N.shiftr_div_pow2, N.land_ones. change (2 ^ 4)%N with 16%N.
  assert (H1 : (n / 16 < 16)%N) by (apply N.Div0.div_lt_upper_bound; lia).
  assert (H2 : (n mod 16 < 16)%N) by (apply N.mod_lt; lia).
  destruct (hex_value_digit _ H1) as [E1 Ep]. destruct (hex_value_digit _ H2) as [E2 _].
  unfold radix16. apply Ascii.eqb_neq in Ep. rewrite Ep, E1, E2. f_equal.
  symmetry. by apply N.div_mod.
Qed.

Lemma decode_pairs_hex l acc : is_bytes l ->
  decode_pairs (hex_lower l) acc = Some (Ok (acc ++ l)).
Proof.
  intros Hl. revert acc. induction Hl as [|n l Hn Hl IH]; intros acc; [cbn; by rewrite app_nil_r|].
  cbn [hex_lower decode_pairs]. rewrite hex_lower_boundary, radix16_hex by done.
  by rewrite IH, <-app_assoc.
Qed.

Lemma decode_hex_lower l : is_bytes l -> decode_hex (hex_lower l) = Some (Ok l).
Proof.
  intros Hl. unfold decode_hex. rewrite hex_lower_len, Nat.odd_mul. cbn. by rewrite decode_pairs_hex.
Qed.

(** Quotes around a string without quotes are removed. *)
Lemma trim_start_matches_id a s : no_byte a s = true -> trim_start_matches a s = s.
Proof. destruct s as [|b s]; [done|]. cbn. intros H. apply andb_true_iff in H as [H _]. by apply negb_true_iff in H as ->. Qed.

Lemma trim_end_matches_id a s : no_byte a s = true -> trim_end_matches a s = s.
Proof.
  induction s as [|b s IH]; [done|]. cbn. intros H. apply andb_true_iff in H as [H1 H2].
  rewrite (IH H2). apply negb_true_iff in H1. rewrite H1. by destruct s.
Qed.

Lemma trim_matches_id a s : no_byte a s = true -> trim_matches a s = s.
Proof. intros H. unfold trim_matches. by rewrite trim_start_matches_id, trim_end_matches_id. Qed.

Lemma trim_end_matches_snoc a s : trim_end_matches a (s +:+ String a "") = trim_end_matches a s.
Proof.
  induction s as [|b s IH]; [rewrite append_nil_l|rewrite append_cons]; cbn [trim_end_matches];
    [by rewrite Ascii.eqb_refl|by rewrite IH].
Qed.

Lemma trim_matches_quoted a s : no_byte a s = true -> trim_matches a (String a "" +:+ s +:+ String a "") = s.
Proof.
  intros H. unfold trim_matches. rewrite append_cons, append_nil_l. cbn [trim_start_matches]. rewrite Ascii.eqb_refl.
  destruct s as [|b s]; [rewrite append_nil_l; cbn [trim_start_matches]; by rewrite Ascii.eqb_refl|].
  assert (E : trim_start_matches a (String b s +:+ String a "") = String b s +:+ String a "").
  { rewrite append_cons. cbn in *. apply andb_true_iff in H as [H _]. by apply negb_true_iff in H as ->. }
  by rewrite E, trim_end_matches_snoc, trim_end_matches_id.
Qed.

Definition plain_byte (a : ascii) : bool := is_ascii a && negb (is_ascii_ws a).

Lemma lower_hex_plain a : lower_hex a = true ->
  plain_byte a && negb ("'" =? a)%char && negb ("034" =? a)%char = true.
Proof. destruct a as [[] [] [] [] [] [] [] []]; by vm_compute. Qed.

(** The quotes an operator may leave around the key. *)
Definition key_quotes : list string := [""; "'"; String "034" ""].

Lemma strip_key_quotes q l : q ∈ key_quotes ->
  trim_matches "'" (trim_matches "034" (trim (q +:+ hex_lower l +:+ q))) = hex_lower l.
Proof.
  intros Hq. pose proof (hex_lower_all l) as Hall.
  assert (Hp : all_bytes plain_byte (hex_lower l) = true).
  { eapply all_bytes_impl, Hall. intros a Ha%lower_hex_plain. by apply andb_true_iff in Ha as [[? _]%andb_true_iff _]. }
  assert (H1 : no_byte "'" (hex_lower l) = true).
  { rewrite no_byte_all_bytes. eapply all_bytes_impl, Hall. intros a Ha%lower_hex_plain.
    by apply andb_true_iff in Ha as [[_ ?]%andb_true_iff _]. }
  assert (H2 : no_byte "034" (hex_lower l) = true).
  { rewrite no_byte_all_bytes. eapply all_bytes_impl, Hall. intros a Ha%lower_hex_plain.
    by apply andb_true_iff in Ha as [_ ?]. }
  assert (Ht : trim (q +:+ hex_lower l +:+ q) = q +:+ hex_lower l +:+ q).
  { apply trim_no_ws. fold plain_byte. rewrite !all_bytes_app, Hp.
    unfold key_quotes in Hq. rewrite !elem_of_cons, elem_of_nil in Hq.
    by destruct Hq as [->|[->|[->|[]]]]. }
  rewrite Ht. unfold key_quotes in Hq. rewrite !elem_of_cons, elem_of_nil in Hq.
  destruct Hq as [->|[->|[->|[]]]].
  - rewrite append_nil_l, append_nil_r. rewrite (trim_matches_id "034") by done. by apply trim_matches_id.
  - rewrite (trim_matches_id "034"); [by apply trim_matches_quoted|]. by rewrite !no_byte_app, H2.
  - rewrite trim_matches_quoted by done. by apply trim_matches_id.
Qed.

(** A master key written in hexadecimal, bare or inside one pair of quotes, is read back
    as its bytes. The base64 reading does not interfere: sixty-four characters encode more
    than thirty-two bytes. *)
Theorem master_key_hex_roundtrip (b64_decode : string -> option (list N))
    (b64_size : forall s d, b64_decode s = Some d -> (3 * len s <= 4 * length d + 8)%nat)
    (key : list N) (q : string) :
  length key = 32%nat -> is_bytes key -> q ∈ key_quotes ->
  load_or_derive_master_key b64_decode (Some (q +:+ hex_lower key +:+ q)) = Some (Ok key).
Proof.
  intros Hk Hb Hq. unfold load_or_derive_master_key, decode_key. rewrite strip_key_quotes by done.
  rewrite decode_hex_lower, Hk by done. cbn [Nat.eqb].
  destruct (b64_decode (hex_lower key)) as [d|] eqn:Ed; [|by rewrite Hk].
  apply b64_size in Ed. rewrite hex_lower_len, Hk in Ed.
  destruct (Nat.eqb_spec (length d) 32); [lia|]. by rewrite Hk.
Qed.

(** [decode_hex] is laxer and stricter than its error messages say: a plus sign in front of
    a digit passes for a byte, and a character in the middle of two pairs ends the process. *)
Lemma plus_is_a_digit : decode_hex "+f" = Some (Ok [15%N]).
Proof. reflexivity. Qed.

Lemma split_character_panics : decode_hex (String "a" (String "195" (String "169" "b"))) = None.
Proof. reflexivity. Qed.

(** ** The secret shared with the relay client *)
Section RelaySecret.
(** The URL-safe base64 alphabet without padding. *)
Context (b64url_encode : list N -> string) (b64url_decode : string -> option (list N)).

Definition secret_byte (c : ascii) : bool := is_ascii_alphanumeric c || (c =? "-")%char || (c =? "_")%char.

Definition valid_secret (s : string) : bool :=
  ((24 <=? len s) && (len s <=? 64))%nat && all_bytes secret_byte s &&
  match b64url_decode s with Some _ => true | None => false end.

(** [file] is the content of the file, [bytes] the 24 bytes that are drawn, [writable]
    whether the file can be written. *)
Definition load_or_create_relay_secret (file : option string) (bytes : list N) (writable : bool)
    : string * option string :=
  let fresh := (b64url_encode bytes, if writable then Some (b64url_encode bytes) else file) in
  match file with
  | Some existing =>
      let trimmed := trim existing in
      if valid_secret trimmed then (trimmed, file) else fresh
  | None => fresh
  end.

(** 24 bytes are written as 32 characters of the alphabet, which can be read back. *)
Definition SecretCodec : Prop := forall bytes, length bytes = 24%nat -> is_bytes bytes ->
  len (b64url_encode bytes) = 32%nat /\ all_bytes secret_byte (b64url_encode bytes) = true /\
  b64url_decode (b64url_encode bytes) = Some bytes.

Lemma secret_byte_plain a : secret_byte a = true -> plain_byte a = true.
Proof. destruct a as [[] [] [] [] [] [] [] []]; by vm_compute. Qed.

Lemma fresh_secret_valid (H : SecretCodec) bytes : length bytes = 24%nat -> is_bytes bytes ->
  trim (b64url_encode bytes) = b64url_encode bytes /\ valid_secret (b64url_encode bytes) = true.
Proof.
  intros Hlen Hb. destruct (H bytes Hlen Hb) as (Hl & Ha & Hd). split.
  - apply trim_no_ws. exact (all_bytes_impl _ _ _ secret_byte_plain Ha).
  - unfold valid_secret. by rewrite Hl, Ha, Hd.
Qed.

(** Once the secret is on disk every later start uses it, whatever is drawn then; a file
    that is malformed is replaced by a well-formed one. *)
Theorem relay_secret_stable (H : SecretCodec) (file : option string) (bytes : list N) :
  length bytes = 24%nat -> is_bytes bytes ->
  let '(secret, file') := load_or_create_relay_secret file bytes true in
  valid_secret secret = true /\
  forall bytes' writable, load_or_create_relay_secret file' bytes' writable = (secret, file').
Proof.
  intros Hlen Hb. destruct (fresh_secret_valid H bytes Hlen Hb) as [Ht Hv]. unfold load_or_create_relay_secret.
  assert (Hfresh : forall bytes' writable,
    (let trimmed := trim (b64url_encode bytes) in
     if valid_secret trimmed then (trimmed, Some (b64url_encode bytes))
     else (b64url_encode bytes', if writable : bool then Some (b64url_encode bytes') else Some (b64url_encode bytes)))
    = (b64url_encode bytes, Some (b64url_encode bytes))).
  { intros. cbv zeta. by rewrite Ht, Hv. }
  destruct file as [existing|]; [|by split].
  destruct (valid_secret (trim existing)) eqn:Ev; [|by split].
  split; [done|]. intros. by rewrite Ev.
Qed.

(** A file of fewer characters than a fresh secret has passes: any decodable text of 24 to
    64 characters does. *)
Lemma short_secret_accepted bytes d : let s := "aaaaaaaaaaaaaaaaaaaaaaaa" in
  b64url_decode s = Some d -> load_or_create_relay_secret (Some s) bytes true = (s, Some s).
Proof.
  intros s Hd. unfold load_or_create_relay_secret. replace (trim s) with s by (vm_compute; reflexivity).
  unfold valid_secret. rewrite Hd. replace (all_bytes secret_byte s) with true by (vm_compute; reflexivity). done.
Qed.
End RelaySecret.

(** ** Sample codecs

    Functions that have the properties the hypotheses above ask for. *)
Module Sample.

Definition hex_decode (s : string) : option (list N) :=
  match decode_hex s with Some (Ok l) => Some l | _ => None end.

Definition zero_tag (_ : unit) (_ p : list N) : option (list N) := Some (p ++ repeat 0%N 16).
Definition cut_tag (_ : unit) (_ c : list N) : option (list N) := Some (take (length c - 16) c).

Lemma sample_codecs : Codecs hex_lower hex_decode zero_tag cut_tag.
Proof.
  split.
  - intros d Hd. unfold hex_decode. by rewrite decode_hex_lower.
  - intros d. apply trim_no_ws. eapply all_bytes_impl, hex_lower_all. intros a Ha%lower_hex_plain.
    by apply andb_true_iff in Ha as [[? _]%andb_true_iff _].
  - intros k n p c Hp [= <-]. apply Forall_app. split; [done|]. repeat constructor.
  - intros k n p c [= <-]. unfold cut_tag. rewrite length_app. cbn [length repeat].
    by rewrite Nat.add_sub, take_app_length.
  - intros k n p c [= <-]. by rewrite length_app.
Qed.

(** Base64 with the URL-safe alphabet, on whole groups of three bytes. *)
Definition sextet (n : N) : ascii :=
  if (n <? 26)%N then ascii_of_N (65 + n) else if (n <? 52)%N then ascii_of_N (71 + n)
  else if (n <? 62)%N then ascii_of_N (n - 4) else if (n =? 62)%N then "-"%char else "_"%char.

Definition of_sextet (a : ascii) : option N :=
  let b := byte a in
  if between 65 90 b then Some (b - 65)%N else if between 97 122 b then Some (b - 71)%N
  else if between 48 57 b then Some (b + 4)%N
  else if (a =? "-")%char then Some 62%N else if (a =? "_")%char then Some 63%N else None.

Fixpoint url_encode (l : list N) : string :=
  match l with
  | a :: b :: c :: l =>
      String (sextet (a / 4)) (String (sextet (a mod 4 * 16 + b / 16))
        (String (sextet (b mod 16 * 4 + c / 64)) (String (sextet (c mod 64)) (url_encode l))))
  | _ => ""
  end%N.

Fixpoint url_decode (s : string) : option (list N) :=
  match s with
  | EmptyString => Some []
  | String w (String x (String y (String z s))) =>
      match of_sextet w, of_sextet x, of_sextet y, of_sextet z, url_decode s with
      | Some w, Some x, Some y, Some z, Some l =>
          Some ((w * 4 + x / 16) :: (x mod 16 * 16 + y / 4) :: (y mod 4 * 64 + z) :: l)
      | _, _, _, _, _ => None
      end
  | _ => None
  end%N.

Lemma sextet_spec n : (n < 64)%N -> of_sextet (sextet n) = Some n /\ secret_byte (sextet n) = true.
Proof.
  intros H. assert (Hn : In (N.to_nat n) (List.seq 0 64)) by (apply in_seq; lia).
  assert (Hall : forallb (fun k => match of_sextet (sextet (N.of_nat k)) with
                                   | Some m => (m =? N.of_nat k)%N && secret_byte (sextet (N.of_nat k))
                                   | None => false
                                   end) (List.seq 0 64) = true) by (vm_compute; reflexivity).
  rewrite forallb_forall in Hall. specialize (Hall _ Hn). rewrite N2Nat.id in Hall.
  destruct (of_sextet (sextet n)) as [m|]; [|done]. apply andb_true_iff in Hall as [E%N.eqb_eq Hs]. by subst m.
Qed.

Lemma url_group a b c : (a < 256)%N -> (b < 256)%N -> (c < 256)%N ->
  (a / 4 < 64 /\ a mod 4 * 16 + b / 16 < 64 /\ b mod 16 * 4 + c / 64 < 64 /\ c mod 64 < 64 /\
   a / 4 * 4 + (a mod 4 * 16 + b / 16) / 16 = a /\
   (a mod 4 * 16 + b / 16) mod 16 * 16 + (b mod 16 * 4 + c / 64) / 4 = b /\
   (b mod 16 * 4 + c / 64) mod 4 * 64 + c mod 64 = c)%N.
Proof. intros. repeat split; zify; Z.to_euclidean_division_equations; lia. Qed.

Lemma url_codec k l : length l = (3 * k)%nat -> is_bytes l ->
  len (url_encode l) = (4 * k)%nat /\ all_bytes secret_byte (url_encode l) = true /\
  url_decode (url_encode l) = Some l.
Proof.
  revert l. induction k as [|k IH]; intros l Hl Hb; [destruct l; [done|cbn in Hl; lia]|].
  destruct l as [|a [|b [|c l]]]; cbn in Hl; try lia.
  unfold is_bytes in Hb. rewrite !Forall_cons in Hb. destruct Hb as (Ha & Hb & Hc & Hr).
  destruct (IH l ltac:(lia) Hr) as (I1 & I2 & I3).
  destruct (url_group a b c Ha Hb Hc) as (G1 & G2 & G3 & G4 & E1 & E2 & E3).
  apply sextet_spec in G1 as [D1 S1]. apply sextet_spec in G2 as [D2 S2].
  apply sextet_spec in G3 as [D3 S3]. apply sextet_spec in G4 as [D4 S4].
  cbn [url_encode len String.length all_bytes url_decode]. unfold len in I1.
  rewrite I1, D1, D2, D3, D4, S1, S2, S3, S4, I2, I3, E1, E2, E3. repeat split. lia.
Qed.

Lemma url_decode_size s d : url_decode s = Some d -> (3 * len s = 4 * length d)%nat.
Proof.
  enough (H : forall k s d, (len s <= k)%nat -> url_decode s = Some d -> (3 * len s = 4 * length d)%nat)
    by (by apply (H (len s))).
  clear. intros k. induction k as [|k IH]; intros s d Hk.
  - destruct s; [by intros [= <-]|cbn in Hk; lia].
  - destruct s as [|w [|x [|y [|z s]]]]; cbn [url_decode]; try done; [by intros [= <-]|].
    destruct (of_sextet w), (of_sextet x), (of_sextet y), (of_sextet z); try done.
    destruct (url_decode s) as [l|] eqn:E; [|done]. intros [= <-].
    unfold len in *. cbn [String.length] in *. apply IH in E; [|lia]. cbn [length]. lia.
Qed.

Lemma secret_codec : SecretCodec url_encode url_decode.
Proof. intros bytes Hl Hb. by apply (url_codec 8). Qed.
End Sample.

Lemma master_key_hex_roundtrip_witness :
  load_or_derive_master_key Sample.url_decode (Some ("'" +:+ hex_lower (repeat 171%N 32) +:+ "'"))
  = Some (Ok (repeat 171%N 32)).
Proof.
  apply (master_key_hex_roundtrip Sample.url_decode).
  - intros s d Hs. rewrite (Sample.url_decode_size s d Hs). lia.
  - reflexivity.
  - repeat constructor.
  - right. left.
Defined.

Lemma relay_secret_stable_witness :
  let '(secret, file') := load_or_create_relay_secret Sample.url_encode Sample.url_decode (Some "short") (repeat 7%N 24) true in
  valid_secret Sample.url_decode secret = true /\
  forall bytes' writable,
    load_or_create_relay_secret Sample.url_encode Sample.url_decode file' bytes' writable = (secret, file').
Proof.
  apply (relay_secret_stable Sample.url_encode Sample.url_decode Sample.secret_codec (Some "short") (repeat 7%N 24)).
  - reflexivity.
  - repeat constructor.
Defined.
