(* ===== verification/Migrations.v ===== *)
(** * Schema migrations ([src/store/migrations.rs], [migrations/*.sql])

    The database before the store uses it: its catalog (tables with their columns, indexes,
    the rows of [schema_version]) and the rows the migrations rewrite. Each migrator claims
    its version and runs its statements; all of them run in one transaction, which an error
    rolls back (on MySQL, which the store does not support at run time, DDL would commit).
    Claiming has the same effect in the three SQL dialects. *)
From S2P Require Import Prelude StrLemmas VToken Store Crypto.
Import Str.
Local Open Scope hub_scope.

(** ** The database *)

Record Catalog := {
  cat_tables : gmap string (list string);
  cat_indexes : gset string;
  cat_versions : gset Z;
}.

(** A row of [context_token_map], with its physical position. *)
Record CtxEntry := { ce_rowid : Z; ce_vctx : string; ce_real : string; ce_peer : string }.

Record Rows := {
  rw_clients : list (string * string);
  rw_routes : list (string * string);
  rw_messages : list (Z * option string);
  rw_ctx : list CtxEntry;
  rw_creds : list (Z * string);
  rw_backend : list (string * string * string);
  rw_active : list (string * string);
}.

Record Db := { db_cat : Catalog; db_rows : Rows }.

Definition on_cat (f : Catalog -> Catalog) (d : Db) : Db := {| db_cat := f (db_cat d); db_rows := db_rows d |}.
Definition on_rows (f : Rows -> Rows) (d : Db) : Db := {| db_cat := db_cat d; db_rows := f (db_rows d) |}.

Definition put_table (t : string) (cols : list string) (c : Catalog) : Catalog :=
  {| cat_tables := <[t := cols]> (cat_tables c); cat_indexes := cat_indexes c; cat_versions := cat_versions c |}.
Definition put_index (i : string) (c : Catalog) : Catalog :=
  {| cat_tables := cat_tables c; cat_indexes := {[i]} ∪ cat_indexes c; cat_versions := cat_versions c |}.
Definition put_version (v : Z) (c : Catalog) : Catalog :=
  {| cat_tables := cat_tables c; cat_indexes := cat_indexes c; cat_versions := {[v]} ∪ cat_versions c |}.

Definition set_ctx (x : list CtxEntry) (r : Rows) : Rows :=
  {| rw_clients := rw_clients r; rw_routes := rw_routes r; rw_messages := rw_messages r; rw_ctx := x;
     rw_creds := rw_creds r; rw_backend := rw_backend r; rw_active := rw_active r |}.
Definition set_creds (x : list (Z * string)) (r : Rows) : Rows :=
  {| rw_clients := rw_clients r; rw_routes := rw_routes r; rw_messages := rw_messages r; rw_ctx := rw_ctx r;
     rw_creds := x; rw_backend := rw_backend r; rw_active := rw_active r |}.
Definition set_tokens (c : list (string * string)) (rt : list (string * string)) (m : list (Z * option string))
    (r : Rows) : Rows :=
  {| rw_clients := c; rw_routes := rt; rw_messages := m; rw_ctx := rw_ctx r;
     rw_creds := rw_creds r; rw_backend := rw_backend r; rw_active := rw_active r |}.

(** ** Statements *)

Inductive Ddl :=
| CreateTable (table : string) (cols : list string)
| AddColumn (table col : string)
| CreateIndex (name table : string) (cols : list string)
| CreateUnique (name table : string) (cols : list string) (violated : Rows -> bool)
| Comment.

Definition has_table (t : string) (c : Catalog) : bool := bool_decide (is_Some (cat_tables c !! t)).
Definition has_column (t col : string) (c : Catalog) : bool :=
  match cat_tables c !! t with Some cols => existsb (String.eqb col) cols | None => false end.

Definition make_index (name table : string) (cols : list string) (bad : bool) (d : Db) : result Db string :=
  if bool_decide (name ∈ cat_indexes (db_cat d)) then Ok d else
  if negb (has_table table (db_cat d)) then Err "no such table" else
  if negb (forallb (fun col => has_column table col (db_cat d)) cols) then Err "no such column" else
  if bad then Err "UNIQUE constraint failed" else Ok (on_cat (put_index name) d).

(** [CREATE] statements all say [IF NOT EXISTS]. *)
Definition exec (s : Ddl) (d : Db) : result Db string :=
  match s with
  | CreateTable t cols => Ok (if has_table t (db_cat d) then d else on_cat (put_table t cols) d)
  | AddColumn t col =>
      match cat_tables (db_cat d) !! t with
      | None => Err "no such table"
      | Some cols => if existsb (String.eqb col) cols then Err "duplicate column name"
                     else Ok (on_cat (put_table t (cols ++ [col])) d)
      end
  | CreateIndex name t cols => make_index name t cols false d
  | CreateUnique name t cols violated => make_index name t cols (violated (db_rows d)) d
  | Comment => Ok d
  end.

Fixpoint exec_all (l : list Ddl) (d : Db) : result Db string :=
  match l with
  | [] => Ok d
  | s :: l => try d := exec s d in exec_all l d
  end.

(** One text given to the driver: the statements of a file, or a single one. It goes to the
    server as a prepared statement. SQLite's driver runs the statements of the text one
    after another; a PostgreSQL or MySQL server refuses a text of more than one. *)
Definition MULTIPLE_COMMANDS : string := "cannot insert multiple commands into a prepared statement".

Definition exec_text (k : DatabaseKind) (text : list Ddl) (d : Db) : result Db string :=
  if bool_decide (k <> Sqlite) && (1 <? length text)%nat then Err MULTIPLE_COMMANDS
  else exec_all text d.

(** The loops over a list of texts. *)
Fixpoint exec_texts (k : DatabaseKind) (l : list (list Ddl)) (d : Db) : result Db string :=
  match l with
  | [] => Ok d
  | text :: l => try d := exec_text k text d in exec_texts k l d
  end.

Fixpoint has_dup (l : list string) : bool :=
  match l with [] => false | x :: l => existsb (String.eqb x) l || has_dup l end.

Definition V1_DDLS : list (list Ddl) :=
  [[CreateTable "clients" ["vtoken"; "name"; "label"; "created_at"; "last_seen"];
    CreateTable "routing_state" ["from_user"; "active_vtoken"; "updated_at"];
    CreateTable "context_token_map" ["vctx"; "real_ctx"; "peer_user_id"; "expires_at"];
    CreateTable "bot_credentials" ["id"; "token"; "base_url"; "updated_at"]]].

Definition V2_DDLS : list (list Ddl) :=
  [[CreateTable "backend_sessions_v2" ["vctx"; "vtoken"; "session_name"; "backend_session_id"; "created_at"];
    CreateTable "active_sessions" ["vctx"; "vtoken"; "session_name"; "updated_at"]]].

Definition V3_CREATE_IDX : Ddl :=
  CreateUnique "idx_context_token_map_real_ctx" "context_token_map" ["real_ctx"]
    (fun r => has_dup (map ce_real (rw_ctx r))).

Definition V4_ALTER_ADD_CREATED_AT : Ddl := AddColumn "context_token_map" "created_at".
Definition V4_CREATE_IDX : Ddl :=
  CreateIndex "idx_context_token_map_created_at" "context_token_map" ["created_at"].

Definition v5_create_messages_sql : Ddl :=
  CreateTable "messages" ["id"; "vctx"; "vtoken"; "session_name"; "peer_user_id"; "role"; "content"; "created_at"].
Definition V5_INDEXES : list (list Ddl) :=
  [[CreateIndex "idx_messages_vctx_created" "messages" ["vctx"; "created_at"]];
   [CreateIndex "idx_messages_peer_role_created" "messages" ["peer_user_id"; "role"; "created_at"]]].

(** The statement that prefixes a bare peer, with the driver's [LIKE]. *)
Definition normalize_peer (k : DatabaseKind) (p : string) : string :=
  if negb (is_empty p) && negb (like k (chars "peer:%") (chars p)) && negb (like k (chars "group:%") (chars p))
  then "peer:" +:+ p else p.

Definition V6_NORMALIZE_PEER_USER_ID (k : DatabaseKind) (r : Rows) : Rows :=
  set_ctx (map (fun c => {| ce_rowid := ce_rowid c; ce_vctx := ce_vctx c; ce_real := ce_real c;
                            ce_peer := normalize_peer k (ce_peer c) |}) (rw_ctx r)) r.

(** Of the rows of a peer the one with the least position stays: [MIN(rowid)] on SQLite,
    [MIN(ctid)] on PostgreSQL, which has that aggregate from version 14 on. *)
Definition is_oldest (l : list CtxEntry) (c : CtxEntry) : bool :=
  forallb (fun c' => negb (ce_peer c' =? ce_peer c)%string || (ce_rowid c <=? ce_rowid c')%Z) l.

Definition V7_DEDUP_PEER_USER_ID (r : Rows) : Rows :=
  set_ctx (List.filter (fun c => is_empty (ce_peer c) || is_oldest (rw_ctx r) c) (rw_ctx r)) r.

Definition nonempty_peers (r : Rows) : list string :=
  List.filter (fun p => negb (is_empty p)) (map ce_peer (rw_ctx r)).

Definition V7_UNIQUE_IDX_PEER_USER_ID : Ddl :=
  CreateUnique "idx_context_token_map_peer_user_id" "context_token_map" ["peer_user_id"]
    (fun r => has_dup (nonempty_peers r)).

Definition V9_MESSAGES_LOOKUP_IDX : Ddl := CreateIndex "idx_messages_lookup" "messages" ["peer_user_id"; "role"; "id"].
Definition V10_DDLS : list (list Ddl) :=
  [[AddColumn "clients" "persona_name"; AddColumn "clients" "persona_emoji"]].
Definition V11_ADD_A2A_DEPTH : list Ddl := [AddColumn "active_sessions" "a2a_depth"].
Definition V12_ADD_DESCRIPTION : list Ddl := [AddColumn "clients" "description"].
Definition V13_ADD_ILINK_MSG_ID : list Ddl :=
  [AddColumn "messages" "ilink_msg_id"; CreateIndex "idx_messages_ilink_msg_id" "messages" ["ilink_msg_id"]].
Definition V14_ADD_SESSION_USAGE : list Ddl := [AddColumn "backend_sessions_v2" "last_usage_json"].
Definition V15_ADD_EXPIRES_AT : list Ddl := [AddColumn "active_sessions" "expires_at"].

(** ** Migrators *)

Definition try_claim_migration_in_tx (v : Z) (d : Db) : bool * Db :=
  if bool_decide (v ∈ cat_versions (db_cat d)) then (false, d) else (true, on_cat (put_version v) d).

(** A migrator: nothing if another one claimed the version, else its body. *)
Definition claimed (v : Z) (body : Db -> result Db string) (d : Db) : result Db string :=
  match try_claim_migration_in_tx v d with
  | (false, d) => Ok d
  | (true, d) => body d
  end.

Definition is_migration_run (v : Z) (d : Db) : bool := bool_decide (v ∈ cat_versions (db_cat d)).

(** The sentinel [i32::MAX] is not a version. *)
Definition get_current_version (d : Db) : Z :=
  foldr Z.max 0%Z (List.filter (fun v => (v <? 2147483647)%Z) (elements (cat_versions (db_cat d)))).

(** A column is added when its table exists and does not have it. *)
Definition add_missing (k : DatabaseKind) (t col : string) (text : list Ddl) (d : Db) : result Db string :=
  if negb (has_table t (db_cat d)) then Ok d else
  if has_column t col (db_cat d) then Ok d else exec_text k text d.

Definition migrate_to_v1_tx (k : DatabaseKind) : Db -> result Db string := claimed 1 (exec_texts k V1_DDLS).
Definition migrate_to_v2_tx (k : DatabaseKind) : Db -> result Db string := claimed 2 (exec_texts k V2_DDLS).
Definition migrate_to_v3_tx : Db -> result Db string := claimed 3 (exec V3_CREATE_IDX).

Definition migrate_to_v4_tx : Db -> result Db string := claimed 4 (fun d =>
  try d := (if has_column "context_token_map" "created_at" (db_cat d) then Ok d
            else exec V4_ALTER_ADD_CREATED_AT d) in
  exec V4_CREATE_IDX d).

Definition migrate_to_v5_tx (k : DatabaseKind) : Db -> result Db string := claimed 5 (fun d =>
  try d := exec v5_create_messages_sql d in exec_texts k V5_INDEXES d).

(** The two statements that rewrite rows need their table. *)
Definition update_ctx (f : Rows -> Rows) (d : Db) : result Db string :=
  if has_table "context_token_map" (db_cat d) then Ok (on_rows f d) else Err "no such table".

Definition migrate_to_v6_tx (k : DatabaseKind) : Db -> result Db string :=
  claimed 6 (update_ctx (V6_NORMALIZE_PEER_USER_ID k)).

Definition migrate_to_v7_tx (k : DatabaseKind) : Db -> result Db string := claimed 7 (fun d =>
  match k with
  | MySql => Ok d
  | _ => try d := update_ctx V7_DEDUP_PEER_USER_ID d in exec V7_UNIQUE_IDX_PEER_USER_ID d
  end).

Definition migrate_to_v9_tx : Db -> result Db string := claimed 9 (fun d =>
  if has_table "messages" (db_cat d) then exec V9_MESSAGES_LOOKUP_IDX d else Ok d).
Definition migrate_to_v10_tx (k : DatabaseKind) : Db -> result Db string := claimed 10 (fun d =>
  if has_table "clients" (db_cat d) then exec_texts k V10_DDLS d else Ok d).
Definition migrate_to_v11_tx (k : DatabaseKind) : Db -> result Db string :=
  claimed 11 (add_missing k "active_sessions" "a2a_depth" V11_ADD_A2A_DEPTH).
Definition migrate_to_v12_tx (k : DatabaseKind) : Db -> result Db string :=
  claimed 12 (add_missing k "clients" "description" V12_ADD_DESCRIPTION).
Definition migrate_to_v13_tx (k : DatabaseKind) : Db -> result Db string :=
  claimed 13 (add_missing k "messages" "ilink_msg_id" V13_ADD_ILINK_MSG_ID).
Definition migrate_to_v14_tx (k : DatabaseKind) : Db -> result Db string :=
  claimed 14 (add_missing k "backend_sessions_v2" "last_usage_json" V14_ADD_SESSION_USAGE).
Definition migrate_to_v15_tx (k : DatabaseKind) : Db -> result Db string :=
  claimed 15 (add_missing k "active_sessions" "expires_at" V15_ADD_EXPIRES_AT).

(** ** Version 8: hashed tokens, encrypted credentials *)
Section V8.
Context {Key : Type}.
Context (sha256 : string -> list N).
Context (b64_encode : list N -> string) (b64_decode : string -> option (list N)).
Context (seal : Key -> list N -> list N -> option (list N)) (open : Key -> list N -> list N -> option (list N)).
(** The key of the environment; the row [SELECT ... LIMIT 1] gives, which is any of the
    rows; and the nonces of the encryptions. *)
Context (key : result Key string) (first : list string -> option string) (nonces : nat -> list N).

Definition swap_token (old new vt : string) : string := if (vt =? old)%string then new else vt.

(** The three [UPDATE] statements for one token; [clients.vtoken] is a primary key. *)
Definition rehash_one (old : string) (r : Rows) : result Rows string :=
  let new := hash_vtoken sha256 old in
  if existsb (fun c => (c.1 =? old)%string) (rw_clients r) && existsb (fun c => (c.1 =? new)%string) (rw_clients r)
  then Err "UNIQUE constraint failed: clients.vtoken" else
  Ok (set_tokens (map (fun c => (swap_token old new c.1, c.2)) (rw_clients r))
        (map (fun p => (p.1, swap_token old new p.2)) (rw_routes r))
        (map (fun m => (m.1, swap_token old new <$> m.2)) (rw_messages r)) r).

Fixpoint rehash_all (l : list string) (r : Rows) : result Rows string :=
  match l with
  | [] => Ok r
  | old :: l => try r := rehash_one old r in rehash_all l r
  end.

(** Every token in the three tables that does not look like a hash. *)
Definition vtokens_to_hash (r : Rows) : gset string :=
  list_to_set (List.filter (fun vt => negb (is_vtoken_hash vt))
    (map fst (rw_clients r) ++ map snd (rw_routes r) ++ omap snd (rw_messages r))).

(** A token that decrypts is taken to be encrypted already. *)
Fixpoint encrypt_rows (k : Key) (i : nat) (l : list (Z * string)) : result (list (Z * string)) string :=
  match l with
  | [] => Ok []
  | (id, token) :: l =>
      if is_ok (decrypt_token b64_decode open token k)
      then try l := encrypt_rows k i l in Ok ((id, token) :: l)
      else try blob := encrypt_token b64_encode seal (nonces i) token k in
           try l := encrypt_rows k (S i) l in Ok ((id, blob) :: l)
  end.

(** [order] is the order in which the set of tokens is walked. *)
Definition migrate_to_v8_tx (order : gset string -> list string) : Db -> result Db string := claimed 8 (fun d =>
  match first (map fst (rw_clients (db_rows d))) with
  | None => exec Comment d
  | Some vt =>
      if is_vtoken_hash vt then Ok d else
      match key with
      | Err e => Err ("Migration v8 failed: " +:+ e)
      | Ok k =>
          try d := exec Comment d in
          try r := rehash_all (order (vtokens_to_hash (db_rows d))) (db_rows d) in
          try creds := encrypt_rows k 0 (rw_creds r) in
          Ok (on_rows (fun _ => set_creds creds r) d)
      end
  end).

(** ** The walk *)

Definition migrators (k : DatabaseKind) (order : gset string -> list string) : list (Db -> result Db string) :=
  [migrate_to_v1_tx k; migrate_to_v2_tx k; migrate_to_v3_tx; migrate_to_v4_tx; migrate_to_v5_tx k;
   migrate_to_v6_tx k; migrate_to_v7_tx k; migrate_to_v8_tx order; migrate_to_v9_tx; migrate_to_v10_tx k;
   migrate_to_v11_tx k; migrate_to_v12_tx k; migrate_to_v13_tx k; migrate_to_v14_tx k; migrate_to_v15_tx k].

Fixpoint walk (l : list (Db -> result Db string)) (d : Db) : result Db string :=
  match l with
  | [] => Ok d
  | m :: l => try d := m d in walk l d
  end.

(** In one transaction: an error leaves the database as it was. *)
Definition run_migrations (k : DatabaseKind) (order : gset string -> list string) (d : Db)
    : result unit string * Db :=
  match walk (migrators k order) d with
  | Ok d' => (Ok tt, d')
  | Err e => (Err e, d)
  end.
End V8.
