(* ===== verification/MigrationProps.v ===== *)
(** * Properties of the migrations

    The walk is idempotent; from the schema of any earlier version it reaches the current
    one; the rewriting steps do what they are for: one virtual context per conversation,
    tokens replaced by their hashes wherever they are compared, credentials encrypted. *)
From S2P Require Import Prelude StrLemmas VToken Store Crypto Migrations.
Import Str.
Local Open Scope hub_scope.

(** ** Versions *)

Notation versions d := (cat_versions (db_cat d)).

(** A body of statements that keeps the versions. *)
Definition keeps_versions (body : Db -> result Db string) : Prop :=
  forall d d', body d = Ok d' -> versions d' = versions d.

Lemma make_index_versions name t cols bad : keeps_versions (make_index name t cols bad).
Proof. intros d d'. unfold make_index. repeat case_match; intros; by simplify_eq. Qed.

Lemma exec_versions s : keeps_versions (exec s).
Proof.
  intros d d'. destruct s; cbn; try apply make_index_versions; repeat case_match; intros; by simplify_eq.
Qed.

Lemma exec_all_versions l : keeps_versions (exec_all l).
Proof.
  induction l as [|s l IH]; intros d d'; cbn; [by intros [= <-]|].
  intros (d1 & H1%exec_versions & H2%IH)%result_bind_Ok. congruence.
Qed.

Lemma exec_text_versions k text : keeps_versions (exec_text k text).
Proof. intros d d'. unfold exec_text. case_match; [done|apply exec_all_versions]. Qed.

Lemma exec_texts_versions k l : keeps_versions (exec_texts k l).
Proof.
  induction l as [|t l IH]; intros d d'; cbn; [by intros [= <-]|].
  intros (d1 & H1%exec_text_versions & H2%IH)%result_bind_Ok. congruence.
Qed.

Lemma seq_versions f g : keeps_versions f -> keeps_versions g -> keeps_versions (fun d => try d := f d in g d).
Proof. intros Hf Hg d d' (d1 & H1%Hf & H2%Hg)%result_bind_Ok. congruence. Qed.

Lemma update_ctx_versions f : keeps_versions (update_ctx f).
Proof. intros d d'. unfold update_ctx. case_match; intros; by simplify_eq. Qed.

Lemma if_versions (c : Db -> bool) f g : keeps_versions f -> keeps_versions g ->
  keeps_versions (fun d => if c d then f d else g d).
Proof. intros Hf Hg d d'. case_match; [apply Hf|apply Hg]. Qed.

Lemma ok_versions : keeps_versions (fun d => Ok d).
Proof. by intros d d' [= <-]. Qed.

Lemma add_missing_versions k t c l : keeps_versions (add_missing k t c l).
Proof. apply if_versions; [apply ok_versions|]. apply if_versions; [apply ok_versions|apply exec_text_versions]. Qed.

Create HintDb migrate.
#[export] Hint Resolve exec_versions exec_texts_versions update_ctx_versions add_missing_versions ok_versions
  if_versions seq_versions : migrate.

(** What a migrator does to the versions, and when it does nothing. *)
Definition migrates (v : Z) (m : Db -> result Db string) : Prop :=
  (forall d d', m d = Ok d' -> versions d' = {[v]} ∪ versions d) /\
  (forall d, v ∈ versions d -> m d = Ok d).

Lemma claimed_migrates v body : keeps_versions body -> migrates v (claimed v body).
Proof.
  intros Hb. unfold claimed, try_claim_migration_in_tx. split; intros d.
  - intros d'. case_bool_decide; [intros [= <-]; set_solver|]. by intros ->%Hb.
  - intros Hv. by rewrite bool_decide_true.
Qed.

Lemma foldr_max_spec l : (forall x, x ∈ l -> x <= foldr Z.max 0 l)%Z /\
  (foldr Z.max 0 l = 0 \/ foldr Z.max 0 l ∈ l)%Z /\ (0 <= foldr Z.max 0 l)%Z.
Proof.
  induction l as [|a l (I1 & I2 & I3)]; cbn; [set_solver|]. split; [|split; [|lia]].
  - intros x [->|Hx]%elem_of_cons; [lia|]. specialize (I1 x Hx). lia.
  - destruct (Z.max_spec a (foldr Z.max 0 l)%Z) as [[_ ->]|[_ ->]]; set_solver.
Qed.

Lemma current_version_spec d : let v := get_current_version d in
  (forall x, x ∈ versions d -> x < 2147483647 -> x <= v)%Z /\ (v = 0 \/ (v ∈ versions d /\ v < 2147483647))%Z /\ (0 <= v)%Z.
Proof.
  intros v. unfold v, get_current_version.
  destruct (foldr_max_spec (List.filter (fun v => (v <? 2147483647)%Z) (elements (versions d)))) as (H1 & H2 & H3).
  split; [|split; [|done]].
  - intros x Hx Hlt. apply H1. apply list_elem_of_In, filter_In. rewrite <-list_elem_of_In, elem_of_elements. split; [done|]. by apply Z.ltb_lt.
  - destruct H2 as [H2|H2]; [by left|right]. apply list_elem_of_In, filter_In in H2.
    rewrite <-list_elem_of_In, elem_of_elements in H2. destruct H2 as [H2 Hlt]. split; [done|]. by apply Z.ltb_lt.
Qed.

Section Walk.
Context {Key : Type}.
Context (sha256 : string -> list N).
Context (b64_encode : list N -> string) (b64_decode : string -> option (list N)).
Context (seal : Key -> list N -> list N -> option (list N)) (open : Key -> list N -> list N -> option (list N)).

Notation v8 := (migrate_to_v8_tx sha256 b64_encode b64_decode seal open).
Notation steps := (migrators sha256 b64_encode b64_decode seal open).
Notation migrate := (run_migrations sha256 b64_encode b64_decode seal open).

Lemma v8_migrates key first nonces order : migrates 8 (v8 key first nonces order).
Proof.
  apply claimed_migrates. intros d d'. destruct (first _) as [vt|]; [|by intros [= <-]].
  destruct (is_vtoken_hash vt); [by intros [= <-]|]. destruct key as [kk|]; [|done].
  intros (d1 & [= <-] & (r & _ & (c & _ & [= <-])%result_bind_Ok)%result_bind_Ok)%result_bind_Ok. done.
Qed.

Lemma migrators_migrate key first nonces k order :
  Forall2 migrates [1; 2; 3; 4; 5; 6; 7; 8; 9; 10; 11; 12; 13; 14; 15]%Z (steps key first nonces k order).
Proof.
  unfold migrators. repeat first [apply List.Forall2_nil|apply List.Forall2_cons]; try apply v8_migrates;
    apply claimed_migrates; eauto with migrate.
  destruct k; [apply seq_versions; eauto with migrate..|apply ok_versions].
Qed.

Lemma walk_versions vs ms d d' : Forall2 migrates vs ms -> walk ms d = Ok d' ->
  versions d' = list_to_set vs ∪ versions d.
Proof.
  intros H. revert d. induction H as [|v m vs ms [Hm _] _ IH]; intros d; cbn.
  - intros [= <-]. set_solver.
  - intros (d1 & H1%Hm & H2%IH)%result_bind_Ok. rewrite H2, H1. set_solver.
Qed.

Lemma walk_done vs ms d : Forall2 migrates vs ms -> list_to_set vs ⊆ versions d -> walk ms d = Ok d.
Proof.
  induction 1 as [|v m vs ms [_ Hm] _ IH]; cbn; [done|]. intros Hs. rewrite Hm by set_solver. cbn. apply IH. set_solver.
Qed.

(** Migrating is idempotent: after a walk that succeeded, another one - by any process,
    with any key or none - changes nothing and succeeds; and a walk that fails leaves the
    database as it found it, so the next start runs the same steps again. *)
Theorem migrations_idempotent (key : result Key string) (first : list string -> option string)
    (nonces : nat -> list N) (k : DatabaseKind) (order : gset string -> list string) (d : Db) :
  match migrate key first nonces k order d with
  | (Ok _, d') => get_current_version d' = Z.max 15 (get_current_version d) /\
      forall key' first' nonces' k' order', migrate key' first' nonces' k' order' d' = (Ok tt, d')
  | (Err _, d') => d' = d
  end.
Proof.
  unfold run_migrations. destruct (walk _ d) as [d'|e] eqn:E; [|done].
  pose proof (walk_versions _ _ _ _ (migrators_migrate _ _ _ _ _) E) as Hv. split.
  - destruct (current_version_spec d) as (A1 & A2 & A3). destruct (current_version_spec d') as (B1 & B2 & B3).
    rewrite Hv in B1, B2.
    assert (H15 : (15 <= get_current_version d')%Z).
    { apply B1; [|done]. apply elem_of_union_l, elem_of_list_to_set, list_elem_of_In. cbn. lia. }
    apply Z.le_antisymm.
    + destruct B2 as [->|[Hin Hlt]]; [lia|]. apply elem_of_union in Hin as [Hin|Hin].
      * apply elem_of_list_to_set, list_elem_of_In in Hin. cbn in Hin. lia.
      * specialize (A1 _ Hin Hlt). lia.
    + apply Z.max_lub; [done|]. destruct A2 as [->|[Hin Hlt]]; [done|]. apply B1; [by apply elem_of_union_r|done].
  - intros. erewrite walk_done; [done|apply migrators_migrate|]. rewrite Hv. apply union_subseteq_l.
Qed.
End Walk.

(** ** One virtual context per conversation *)

Lemma has_dup_false l : has_dup l = false <-> NoDup l.
Proof.
  induction l as [|x l IH]; [split; [constructor|done]|]. cbn. rewrite orb_false_iff, IH, NoDup_cons.
  apply and_iff_compat_r. rewrite <-not_true_iff_false, existsb_exists, list_elem_of_In.
  split; intros H Hx; apply H; [exists x; split; [done|apply String.eqb_refl]|].
  destruct Hx as (y & Hy & ->%String.eqb_eq). done.
Qed.

Lemma is_oldest_spec l c : is_oldest l c = true <->
  forall c', c' ∈ l -> ce_peer c' = ce_peer c -> (ce_rowid c <= ce_rowid c')%Z.
Proof.
  unfold is_oldest. rewrite forallb_forall. setoid_rewrite orb_true_iff. setoid_rewrite negb_true_iff.
  setoid_rewrite String.eqb_neq. setoid_rewrite Z.leb_le. setoid_rewrite <-list_elem_of_In.
  split; intros H c' Hc.
  - intros E. destruct (H c' Hc); [done|done].
  - destruct (decide (ce_peer c' = ce_peer c)); [right; by apply H|by left].
Qed.

Lemma least_rowid (l : list CtxEntry) c : c ∈ l ->
  exists c', c' ∈ l /\ ce_peer c' = ce_peer c /\ is_oldest l c' = true.
Proof.
  setoid_rewrite is_oldest_spec. induction l as [|a l IH] in c |- *; [by intros ?%elem_of_nil|].
  intros Hc. destruct (decide (Exists (fun x => ce_peer x = ce_peer c) l)) as [He|He].
  - apply Exists_exists in He as (x & Hx & Ex). destruct (IH x Hx) as (m & Hm & Em & Om).
    destruct (decide (ce_peer a = ce_peer c /\ (ce_rowid a < ce_rowid m)%Z)) as [[Ea La]|Hn].
    + exists a. split; [left|]. split; [done|]. intros c' [->|Hc']%elem_of_cons E; [lia|].
      specialize (Om c' Hc' ltac:(congruence)). lia.
    + exists m. split; [by right|]. split; [congruence|]. intros c' [->|Hc']%elem_of_cons E; [|by apply Om].
      destruct (Z.le_gt_cases (ce_rowid m) (ce_rowid a)); [done|]. exfalso. apply Hn. split; [congruence|done].
  - apply elem_of_cons in Hc as [->|Hc].
    + exists a. split; [left|]. split; [done|]. intros c' [->|Hc']%elem_of_cons E; [lia|].
      exfalso. apply He, Exists_exists. eauto.
    + exfalso. apply He, Exists_exists. eauto.
Qed.

Lemma elem_dedup r c : c ∈ rw_ctx (V7_DEDUP_PEER_USER_ID r) <->
  c ∈ rw_ctx r /\ (ce_peer c = "" \/ is_oldest (rw_ctx r) c = true).
Proof.
  cbn. rewrite !list_elem_of_In, filter_In, orb_true_iff, is_empty_spec. done.
Qed.

Lemma nonempty_peers_map r :
  nonempty_peers r = map ce_peer (List.filter (fun c => negb (is_empty (ce_peer c))) (rw_ctx r)).
Proof. unfold nonempty_peers. induction (rw_ctx r) as [|c l IH]; [done|]. cbn. case_match; cbn; by rewrite IH. Qed.

Lemma dedup_unique r : NoDup (map ce_rowid (rw_ctx r)) -> has_dup (nonempty_peers (V7_DEDUP_PEER_USER_ID r)) = false.
Proof.
  intros Hn. rewrite has_dup_false, nonempty_peers_map.
  assert (Hinj : forall x y, x ∈ rw_ctx r -> y ∈ rw_ctx r -> ce_rowid x = ce_rowid y -> x = y).
  { intros x y Hx Hy E. apply list_elem_of_lookup in Hx as [i Hi]. apply list_elem_of_lookup in Hy as [j Hj].
    assert (i = j) as ->; [|congruence].
    apply (NoDup_lookup _ i j (ce_rowid x) Hn); rewrite list_lookup_fmap; [by rewrite Hi|by rewrite Hj, E]. }
  apply NoDup_fmap_2_strong.
  - intros x y. rewrite !list_elem_of_In, !filter_In, <-!list_elem_of_In, !elem_dedup.
    intros [[Hx Ox] Nx] [[Hy Oy] Ny] E. apply negb_true_iff in Nx, Ny.
    destruct Ox as [Ox|Ox]; [by rewrite Ox in Nx|]. destruct Oy as [Oy|Oy]; [by rewrite Oy in Ny|].
    rewrite is_oldest_spec in Ox, Oy. apply Hinj; [done|done|]. apply Z.le_antisymm; [by apply Ox|by apply Oy].
  - assert (NoDup (rw_ctx r)) by (by apply NoDup_fmap_1 in Hn).
    cbn. apply NoDup_ListNoDup, List.NoDup_filter, List.NoDup_filter, NoDup_ListNoDup. done.
Qed.

(** ** Hashed tokens *)
Section V8Props.
Context {Key : Type}.
Context (sha256 : string -> list N) (sha256_size : forall s, length (sha256 s) = 32%nat).
Context (b64_encode : list N -> string) (b64_decode : string -> option (list N)).
Context (seal : Key -> list N -> list N -> option (list N)) (open : Key -> list N -> list N -> option (list N)).
Context (codecs : Codecs b64_encode b64_decode seal open).

Notation hash := (hash_vtoken sha256).

(** A change of every token of the three tables. *)
Definition map_tokens (f : string -> string) (r : Rows) : Rows :=
  set_tokens (map (fun c => (f c.1, c.2)) (rw_clients r)) (map (fun p => (p.1, f p.2)) (rw_routes r))
    (map (fun m => (m.1, f <$> m.2)) (rw_messages r)) r.

Definition tokens_of (r : Rows) : list string :=
  map fst (rw_clients r) ++ map snd (rw_routes r) ++ omap snd (rw_messages r).

Lemma map_tokens_compose f g r : map_tokens g (map_tokens f r) = map_tokens (fun t => g (f t)) r.
Proof.
  unfold map_tokens. cbn. rewrite !map_map. unfold set_tokens. cbn. f_equal.
  apply map_ext. intros [i m]. cbn. by destruct m.
Qed.

Lemma map_tokens_ext f g r : (forall t, t ∈ tokens_of r -> f t = g t) -> map_tokens f r = map_tokens g r.
Proof.
  unfold tokens_of. intros H. unfold map_tokens. f_equal; apply map_ext_in; intros x Hx%list_elem_of_In.
  - f_equal. apply H. apply elem_of_app. left. by apply (list_elem_of_fmap_2 fst).
  - f_equal. apply H. rewrite !elem_of_app. right. left. by apply (list_elem_of_fmap_2 snd).
  - destruct x as [i [t|]]; [|done]. cbn. do 2 f_equal. apply H. rewrite !elem_of_app. right. right.
    apply list_elem_of_omap. by exists (i, Some t).
Qed.

Lemma hash_is_hash t : is_vtoken_hash (hash t) = true.
Proof. apply hash_vtoken_canonical, sha256_size. Qed.

(** The tokens of [l] are hashed, the others stay. *)
Definition hash_in (l : list string) (t : string) : string := if bool_decide (t ∈ l) then hash t else t.

Lemma hash_in_cons old l t : Forall (fun x => is_vtoken_hash x = false) (old :: l) ->
  hash_in l (swap_token old (hash old) t) = hash_in (old :: l) t.
Proof.
  intros Hl. apply Forall_cons in Hl as [Ho Hl]. unfold swap_token, hash_in.
  destruct (String.eqb_spec t old) as [->|E].
  - rewrite bool_decide_false, bool_decide_true; [done|left|].
    intros Hin. rewrite Forall_forall in Hl. specialize (Hl _ Hin). by rewrite hash_is_hash in Hl.
  - destruct (decide (t ∈ l)) as [Hi|Hi].
    + rewrite !bool_decide_true; [done|by right|done].
    + rewrite !bool_decide_false; [done| |done]. by rewrite elem_of_cons; intros [?|?].
Qed.

Lemma existsb_fst (x : string) (l : list (string * string)) :
  existsb (fun c => (c.1 =? x)%string) l = true <-> x ∈ map fst l.
Proof.
  rewrite existsb_exists, list_elem_of_In, in_map_iff. split.
  - intros ([a b] & Hi & E%String.eqb_eq). cbn in E. subst a. by exists (x, b).
  - intros ([a b] & E & Hi). cbn in E. subst a. exists (x, b). split; [done|apply String.eqb_refl].
Qed.

Lemma NoDup_map_inj {A B} (f : A -> B) l x y : NoDup (map f l) -> x ∈ l -> y ∈ l -> f x = f y -> x = y.
Proof.
  intros Hn [i Hi]%list_elem_of_lookup [j Hj]%list_elem_of_lookup E.
  assert (i = j) as ->; [|congruence].
  apply (NoDup_lookup (f <$> l) i j (f x) Hn); rewrite list_lookup_fmap; [by rewrite Hi|by rewrite Hj, E].
Qed.

Lemma rehash_all_spec l r : Forall (fun x => is_vtoken_hash x = false) l ->
  NoDup (map (hash_in l) (map fst (rw_clients r))) ->
  rehash_all sha256 l r = Ok (map_tokens (hash_in l) r).
Proof.
  revert r. induction l as [|old l IH]; intros r Hl Hn.
  - cbn. f_equal. unfold map_tokens, hash_in. destruct r as [cl rt ms cx cr bk ac]. unfold set_tokens. cbn. f_equal.
    + symmetry. rewrite <-(map_id cl) at 2. by apply map_ext; intros [].
    + symmetry. rewrite <-(map_id rt) at 2. by apply map_ext; intros [].
    + symmetry. rewrite <-(map_id ms) at 2. by apply map_ext; intros [? []].
  - cbn [rehash_all]. unfold rehash_one. cbv zeta.
    set (c := existsb _ _ && existsb _ _).
    assert (Hc : c = false).
    { unfold c. apply not_true_iff_false. rewrite andb_true_iff, !existsb_fst. intros [H1 H2].
      assert (E : hash_in (old :: l) (hash old) = hash_in (old :: l) old).
      { unfold hash_in. rewrite (bool_decide_true (old ∈ old :: l)) by left. rewrite bool_decide_false; [done|].
        intros Hin. rewrite Forall_forall in Hl. specialize (Hl _ Hin). by rewrite hash_is_hash in Hl. }
      apply (NoDup_map_inj _ _ _ _ Hn H2 H1) in E. apply Forall_cons in Hl as [Ho _].
      by rewrite <-E, hash_is_hash in Ho. }
    rewrite Hc. cbn [result_bind]. clear c Hc.
    change (set_tokens _ _ _ r) with (map_tokens (swap_token old (hash old)) r).
    rewrite IH; [|by apply Forall_cons in Hl as [_ ?]|].
    + rewrite map_tokens_compose. f_equal. apply map_tokens_ext. intros t _. by apply hash_in_cons.
    + unfold map_tokens. cbn. rewrite map_map. rewrite map_map in *. cbn. 
      erewrite map_ext; [exact Hn|]. intros x. by apply hash_in_cons.
Qed.

(** Every token becomes its hash, a hash stays. *)
Definition hashed (t : string) : string := if is_vtoken_hash t then t else hash t.

(** The tokens to hash, in some order. *)
Definition enumerates (order : gset string -> list string) : Prop := forall X t, t ∈ order X <-> t ∈ X.

Lemma elem_to_hash r t : t ∈ vtokens_to_hash r <-> t ∈ tokens_of r /\ is_vtoken_hash t = false.
Proof.
  unfold vtokens_to_hash. rewrite elem_of_list_to_set, list_elem_of_In, filter_In, negb_true_iff, <-list_elem_of_In. done.
Qed.

(** Hashing the collected tokens one by one, in any order, hashes every token. *)
Lemma rehash_exact order r : enumerates order -> NoDup (map hashed (map fst (rw_clients r))) ->
  rehash_all sha256 (order (vtokens_to_hash r)) r = Ok (map_tokens hashed r).
Proof.
  unfold enumerates. intros Ho Hn. assert (E : forall t, t ∈ tokens_of r -> hash_in (order (vtokens_to_hash r)) t = hashed t).
  { intros t Ht. unfold hash_in, hashed. destruct (is_vtoken_hash t) eqn:Eh.
    - rewrite bool_decide_false; [done|]. rewrite Ho, elem_to_hash. by rewrite Eh; intros [_ ?].
    - rewrite bool_decide_true; [done|]. by rewrite Ho, elem_to_hash. }
  rewrite rehash_all_spec.
  - f_equal. by apply map_tokens_ext.
  - apply Forall_forall. intros t. rewrite Ho, elem_to_hash. by intros [_ ?].
  - erewrite map_ext_in; [exact Hn|]. intros t Ht. apply E. unfold tokens_of. apply elem_of_app. left.
    by apply list_elem_of_In.
Qed.

(** The text a row of credentials stands for before the conversion. *)
Definition plain_of (k : Key) (token : string) : string :=
  match decrypt_token b64_decode open token k with Ok t => t | Err _ => token end.

Definition seals (k : Key) : Prop := forall n p, is_Some (seal k n p).

Lemma encrypt_rows_spec k nonces i l : seals k ->
  (forall j, length (nonces j) = 12%nat /\ is_bytes (nonces j)) ->
  Forall (fun p => utf8_valid (to_bytes p.2) = true) l ->
  exists l', encrypt_rows b64_encode b64_decode seal open nonces k i l = Ok l' /\
    Forall2 (fun p p' => p'.1 = p.1 /\ decrypt_token b64_decode open p'.2 k = Ok (plain_of k p.2)) l l'.
Proof.
  intros Hs Hn Hu. revert i. induction Hu as [|[id t] l Ht Hu IH]; intros i; [by exists []|]. cbn [encrypt_rows].
  destruct (decrypt_token b64_decode open t k) as [plain|e] eqn:Ed; cbn [is_ok].
  - destruct (IH i) as (l' & -> & Hl). exists ((id, t) :: l'). split; [done|]. constructor; [|done].
    cbn. unfold plain_of. by rewrite Ed.
  - assert (He : exists blob, encrypt_token b64_encode seal (nonces i) t k = Ok blob).
    { unfold encrypt_token. destruct (Hs (nonces i) (to_bytes t)) as [c ->]. eauto. }
    destruct He as [blob He]. rewrite He. destruct (IH (S i)) as (l' & Hl & Hf). cbn [result_bind].
    rewrite Hl. exists ((id, blob) :: l'). split; [done|]. constructor; [|done]. cbn. split; [done|].
    unfold plain_of. rewrite Ed. destruct (Hn i). by eapply decrypt_encrypt.
Qed.

Notation v8 := (migrate_to_v8_tx sha256 b64_encode b64_decode seal open).

Lemma v8_runs (k : Key) (first : list string -> option string) (nonces : nat -> list N)
    (order : gset string -> list string) (d : Db) (vt : string) :
  let r := db_rows d in
  8%Z ∉ cat_versions (db_cat d) -> first (map fst (rw_clients r)) = Some vt -> is_vtoken_hash vt = false ->
  enumerates order -> NoDup (map hashed (map fst (rw_clients r))) -> seals k ->
  (forall j, length (nonces j) = 12%nat /\ is_bytes (nonces j)) ->
  Forall (fun p => utf8_valid (to_bytes p.2) = true) (rw_creds r) ->
  exists creds,
    v8 (Ok k) first nonces order d =
      Ok {| db_cat := put_version 8 (db_cat d); db_rows := set_creds creds (map_tokens hashed r) |} /\
    Forall2 (fun p p' => p'.1 = p.1 /\ decrypt_token b64_decode open p'.2 k = Ok (plain_of k p.2))
      (rw_creds r) creds.
Proof.
  intros r Hv Hf Hh Ho Hn Hs Hnon Hu.
  destruct (encrypt_rows_spec k nonces 0 (rw_creds r) Hs Hnon Hu) as (creds & He & Hc). exists creds. split; [|done].
  unfold migrate_to_v8_tx, claimed, try_claim_migration_in_tx. rewrite bool_decide_false by done.
  cbn [on_cat db_rows db_cat]. fold r. rewrite Hf, Hh. cbn [exec result_bind on_cat db_rows]. fold r.
  rewrite rehash_exact by done. cbn [result_bind].
  change (rw_creds (map_tokens hashed r)) with (rw_creds r). by rewrite He.
Qed.

(** The conversion to hashed tokens is a consistent renaming: when it runs, every token
    in the client, route and message tables is replaced by its hash at once - whatever the
    order the tokens are visited in, and with hashes left alone - so that a route or a
    message points to the same client as before; every stored bot token decrypts, with the
    master key, to the token it was before; nothing else changes. *)
Theorem v8_conversion (k : Key) (first : list string -> option string) (nonces : nat -> list N)
    (order : gset string -> list string) (d : Db) (vt : string) :
  let r := db_rows d in
  8%Z ∉ cat_versions (db_cat d) -> first (map fst (rw_clients r)) = Some vt -> is_vtoken_hash vt = false ->
  enumerates order -> NoDup (map hashed (map fst (rw_clients r))) -> seals k ->
  (forall j, length (nonces j) = 12%nat /\ is_bytes (nonces j)) ->
  Forall (fun p => utf8_valid (to_bytes p.2) = true) (rw_creds r) ->
  exists creds,
    v8 (Ok k) first nonces order d =
      Ok {| db_cat := put_version 8 (db_cat d); db_rows := set_creds creds (map_tokens hashed r) |} /\
    Forall2 (fun p p' => p'.1 = p.1 /\ decrypt_token b64_decode open p'.2 k = Ok (plain_of k p.2))
      (rw_creds r) creds.
Proof. apply v8_runs. Qed.
End V8Props.

(** ** The schema of a version *)

Definition schema_steps : list (Z * list Ddl) :=
  [(1, List.concat V1_DDLS); (2, List.concat V2_DDLS); (3, [V3_CREATE_IDX]); (4, [V4_ALTER_ADD_CREATED_AT; V4_CREATE_IDX]);
   (5, v5_create_messages_sql :: List.concat V5_INDEXES); (6, []); (7, [V7_UNIQUE_IDX_PEER_USER_ID]); (8, [Comment]);
   (9, [V9_MESSAGES_LOOKUP_IDX]); (10, List.concat V10_DDLS); (11, V11_ADD_A2A_DEPTH); (12, V12_ADD_DESCRIPTION);
   (13, V13_ADD_ILINK_MSG_ID); (14, V14_ADD_SESSION_USAGE); (15, V15_ADD_EXPIRES_AT)]%Z.

Definition no_rows : Rows :=
  {| rw_clients := []; rw_routes := []; rw_messages := []; rw_ctx := []; rw_creds := []; rw_backend := [];
     rw_active := [] |}.

(** The catalog after the statements of one more version, on tables without rows. *)
Definition next_schema (c : Catalog) (p : Z * list Ddl) : Catalog :=
  match exec_all p.2 {| db_cat := put_version p.1 c; db_rows := no_rows |} with
  | Ok d => db_cat d
  | Err _ => c
  end.

Definition catalog_at (n : nat) : Catalog :=
  foldl next_schema {| cat_tables := ∅; cat_indexes := ∅; cat_versions := ∅ |} (take n schema_steps).

(** The columns the store's statements use are there at the end. *)
Lemma final_columns :
  let cols t := default [] (cat_tables (catalog_at 15) !! t) in
  cols "clients" = ["vtoken"; "name"; "label"; "created_at"; "last_seen"; "persona_name"; "persona_emoji"; "description"] /\
  cols "routing_state" = ["from_user"; "active_vtoken"; "updated_at"] /\
  cols "context_token_map" = ["vctx"; "real_ctx"; "peer_user_id"; "expires_at"; "created_at"] /\
  cols "bot_credentials" = ["id"; "token"; "base_url"; "updated_at"] /\
  cols "backend_sessions_v2" =
    ["vctx"; "vtoken"; "session_name"; "backend_session_id"; "created_at"; "last_usage_json"] /\
  cols "active_sessions" = ["vctx"; "vtoken"; "session_name"; "updated_at"; "a2a_depth"; "expires_at"] /\
  cols "messages" =
    ["id"; "vctx"; "vtoken"; "session_name"; "peer_user_id"; "role"; "content"; "created_at"; "ilink_msg_id"].
Proof. vm_compute. repeat split. Qed.

Section Upgrade.
Context {Key : Type}.
Context (sha256 : string -> list N) (sha256_size : forall s, length (sha256 s) = 32%nat).
Context (b64_encode : list N -> string) (b64_decode : string -> option (list N)).
Context (seal : Key -> list N -> list N -> option (list N)) (open : Key -> list N -> list N -> option (list N)).
Context (codecs : Codecs b64_encode b64_decode seal open).
Context (k : Key) (seals_k : seals seal k).
Context (first : list string -> option string) (nonces : nat -> list N).
Context (nonces_ok : forall j, length (nonces j) = 12%nat /\ is_bytes (nonces j)).
Context (order : gset string -> list string) (order_ok : enumerates order).
Context (kind : DatabaseKind) (supported : kind <> MySql).

Notation steps := (migrators sha256 b64_encode b64_decode seal open (Ok k) first nonces kind order).
Notation migrate := (run_migrations sha256 b64_encode b64_decode seal open (Ok k) first nonces kind order).
Notation at_version n r := {| db_cat := catalog_at n; db_rows := r |}.

(** What the rows of a version must satisfy for the steps that follow it. *)
Record upgradable (n : nat) (r : Rows) : Prop := {
  up_real : (n < 3)%nat -> NoDup (map ce_real (rw_ctx r));
  up_rowid : (n < 7)%nat -> NoDup (map ce_rowid (rw_ctx r));
  up_tokens : (n < 8)%nat -> NoDup (map (hashed sha256) (map fst (rw_clients r)));
  up_creds : (n < 8)%nat -> Forall (fun p => utf8_valid (to_bytes p.2) = true) (rw_creds r);
}.

(** One step: the migrator of a version takes the schema to the next. *)
Definition steps_to (n : nat) (m : Db -> result Db string) : Prop :=
  forall r, upgradable n r -> exists r', m (at_version n r) = Ok (at_version (S n) r') /\ upgradable (S n) r'.

Lemma upgradable_next n r : upgradable n r -> upgradable (S n) r.
Proof. intros [H1 H2 H3 H4]. split; intros; [apply H1|apply H2|apply H3|apply H4]; lia. Qed.

Lemma steps_schema n m : (forall r, m (at_version n r) = Ok (at_version (S n) r)) -> steps_to n m.
Proof. intros H r Hr. exists r. split; [apply H|by apply upgradable_next]. Qed.

Lemma step_v3 : steps_to 2 migrate_to_v3_tx.
Proof.
  intros r Hr. exists r. split; [|by apply upgradable_next].
  assert (Hd : has_dup (map ce_real (rw_ctx r)) = false) by (apply has_dup_false, Hr; lia).
  change (migrate_to_v3_tx (at_version 2 r)) with
    (claimed 3 (make_index "idx_context_token_map_real_ctx" "context_token_map" ["real_ctx"]
       (has_dup (map ce_real (rw_ctx r)))) (at_version 2 r)).
  rewrite Hd. vm_compute. reflexivity.
Qed.

Lemma normalize_upgradable r : upgradable 6 r -> upgradable 6 (V6_NORMALIZE_PEER_USER_ID kind r).
Proof. intros [H1 H2 H3 H4]. split; cbn; [lia|by rewrite map_map|done|done]. Qed.

Lemma step_v6 : steps_to 5 (migrate_to_v6_tx kind).
Proof.
  intros r Hr. exists (V6_NORMALIZE_PEER_USER_ID kind r). split; [|by apply normalize_upgradable, upgradable_next].
  change (migrate_to_v6_tx kind (at_version 5 r)) with
    (if has_table "context_token_map" (put_version 6 (catalog_at 5))
     then Ok {| db_cat := put_version 6 (catalog_at 5); db_rows := V6_NORMALIZE_PEER_USER_ID kind r |}
     else Err "no such table").
  generalize (V6_NORMALIZE_PEER_USER_ID kind r). intros r'. vm_compute. reflexivity.
Qed.

Lemma dedup_upgradable r : upgradable 7 r -> upgradable 7 (V7_DEDUP_PEER_USER_ID r).
Proof. intros [H1 H2 H3 H4]. split; cbn; [lia|lia|done|done]. Qed.

Lemma step_v7 : steps_to 6 (migrate_to_v7_tx kind).
Proof.
  intros r Hr. exists (V7_DEDUP_PEER_USER_ID r). split; [|by apply dedup_upgradable, upgradable_next].
  assert (Hd : has_dup (nonempty_peers (V7_DEDUP_PEER_USER_ID r)) = false) by (apply dedup_unique, Hr; lia).
  assert (E : migrate_to_v7_tx kind (at_version 6 r) =
    (if has_table "context_token_map" (put_version 7 (catalog_at 6))
     then make_index "idx_context_token_map_peer_user_id" "context_token_map" ["peer_user_id"]
            (has_dup (nonempty_peers (V7_DEDUP_PEER_USER_ID r)))
            {| db_cat := put_version 7 (catalog_at 6); db_rows := V7_DEDUP_PEER_USER_ID r |}
     else Err "no such table")).
  { unfold migrate_to_v7_tx, update_ctx. by destruct kind. }
  rewrite E, Hd. generalize (V7_DEDUP_PEER_USER_ID r). intros r'. vm_compute. reflexivity.
Qed.

Lemma step_v8 : steps_to 7 (migrate_to_v8_tx sha256 b64_encode b64_decode seal open (Ok k) first nonces order).
Proof.
  intros r Hr. assert (Hv : put_version 8 (catalog_at 7) = catalog_at 8) by (vm_compute; reflexivity).
  assert (Hn : 8%Z ∉ cat_versions (catalog_at 7)) by (apply (bool_decide_eq_false_1 _); vm_compute; reflexivity).
  destruct (first (map fst (rw_clients r))) as [vt|] eqn:Ef; [destruct (is_vtoken_hash vt) eqn:Eh|].
  - exists r. split; [|by apply upgradable_next]. unfold migrate_to_v8_tx, claimed, try_claim_migration_in_tx.
    rewrite bool_decide_false by done. unfold on_cat. cbn [db_rows db_cat]. by rewrite Hv, Ef, Eh.
  - destruct (v8_runs sha256 sha256_size b64_encode b64_decode seal open codecs k first nonces order
      (at_version 7 r) vt Hn Ef Eh order_ok (up_tokens _ _ Hr ltac:(lia)) seals_k nonces_ok
      (up_creds _ _ Hr ltac:(lia))) as (creds & E & _).
    exists (set_creds creds (map_tokens (hashed sha256) r)). rewrite E. split; [rewrite <-Hv; reflexivity|].
    split; intros; lia.
  - exists r. split; [|by apply upgradable_next]. unfold migrate_to_v8_tx, claimed, try_claim_migration_in_tx.
    rewrite bool_decide_false by done. unfold on_cat. cbn [db_rows db_cat]. by rewrite Hv, Ef.
Qed.

(** The versions whose file holds several statements, by the version before. *)
Definition several_statements (i : nat) : bool := existsb (Nat.eqb i) [0; 1; 9; 12]%nat.

Lemma all_steps i m : steps !! i = Some m -> kind = Sqlite \/ several_statements i = false -> steps_to i m.
Proof.
  intros H Hk. repeat (destruct i as [|i]; [cbn in H; injection H as <-|]); try (by cbn in H);
    first [apply step_v3|apply step_v6|apply step_v7|apply step_v8
          |apply steps_schema; intros r; destruct Hk as [->|Hk]; [vm_compute; reflexivity|];
           first [discriminate Hk|destruct kind; vm_compute; reflexivity]].
Qed.

(** Elsewhere such a version is refused. *)
Lemma refused_step i m r : steps !! i = Some m -> kind = Postgres -> several_statements i = true ->
  m (at_version i r) = Err MULTIPLE_COMMANDS.
Proof.
  intros H -> Hs. repeat (destruct i as [|i]; [cbn in H; injection H as <-|]); try (by cbn in H);
    first [discriminate Hs|vm_compute; reflexivity].
Qed.

Lemma walk_app l1 l2 d : walk (l1 ++ l2) d = result_bind (walk l1 d) (walk l2).
Proof. induction l1 as [|m l1 IH] in d |- *; [done|]. cbn. destruct (m d); [apply IH|done]. Qed.

Lemma walk_from j n r : (n + j = 15)%nat -> kind = Sqlite \/ (13 <= n)%nat -> upgradable n r ->
  exists r', walk (drop n steps) (at_version n r) = Ok (at_version 15 r').
Proof.
  revert n r. induction j as [|j IH]; intros n r Hn Hk Hr.
  - assert (n = 15%nat) as -> by lia. by exists r.
  - destruct (steps !! n) as [m|] eqn:Em.
    + rewrite (drop_S _ _ _ Em). cbn [walk]. destruct (all_steps n m Em) with r as (r1 & E & H1); [|done|].
      { destruct Hk; [by left|right]. do 13 (destruct n as [|n]; [lia|]). done. }
      rewrite E. cbn [result_bind]. apply IH; [lia| |done]. destruct Hk; [by left|right; lia].
    + apply lookup_ge_None in Em. cbn in Em. lia.
Qed.

Lemma walk_refused j n r : (n + j = 13)%nat -> (0 < j)%nat -> kind = Postgres -> upgradable n r ->
  walk (drop n steps) (at_version n r) = Err MULTIPLE_COMMANDS.
Proof.
  revert n r. induction j as [|j IH]; intros n r Hn Hj Hk Hr; [lia|].
  destruct (steps !! n) as [m|] eqn:Em; [|apply lookup_ge_None in Em; cbn in Em; lia].
  rewrite (drop_S _ _ _ Em). cbn [walk]. destruct (several_statements n) eqn:Es.
  - by rewrite (refused_step n m r Em Hk Es).
  - destruct (all_steps n m Em (or_intror Es) r Hr) as (r1 & E & H1). rewrite E. cbn [result_bind].
    destruct (decide (j = 0%nat)) as [->|]; [|by apply IH; [lia..| |]].
    assert (n = 12%nat) as -> by lia. discriminate Es.
Qed.

Lemma catalog_versions n : (n <= 15)%nat ->
  cat_versions (catalog_at n) = list_to_set (take n [1; 2; 3; 4; 5; 6; 7; 8; 9; 10; 11; 12; 13; 14; 15]%Z).
Proof. intros Hn. repeat (destruct n as [|n]; [vm_compute; reflexivity|]; try lia). Qed.

(** The steps of the versions the database has are skipped. *)
Lemma migrate_from n r : (n <= 15)%nat ->
  migrate (at_version n r) =
  match walk (drop n steps) (at_version n r) with
  | Ok d' => (Ok tt, d')
  | Err e => (Err e, at_version n r)
  end.
Proof.
  intros Hn. unfold run_migrations. rewrite <-(take_drop n steps) at 1. rewrite walk_app.
  rewrite (walk_done (take n [1; 2; 3; 4; 5; 6; 7; 8; 9; 10; 11; 12; 13; 14; 15]%Z)); [done| |].
  - apply Forall2_take, migrators_migrate.
  - cbn [db_cat]. by rewrite catalog_versions.
Qed.

End Upgrade.

(** ** What the conversion leaves behind *)

Definition sample_sha (s : string) : list N := take 32 (to_bytes s ++ repeat 0%N 32).
Definition sample_nonces (_ : nat) : list N := repeat 9%N 12.
Definition first_row (l : list string) : option string := head l.

Notation sample_migrate :=
  (run_migrations sample_sha hex_lower Sample.hex_decode Sample.zero_tag Sample.cut_tag (Ok tt) first_row
     sample_nonces Sqlite elements).

(** A hub that has logged in but has no backends yet: the conversion takes the branch for a
    database without clients, marks the version, and leaves the bot token as plain text,
    which later loads refuse to decrypt. *)
Definition logged_in : Rows :=
  {| rw_clients := []; rw_routes := []; rw_messages := []; rw_ctx := []; rw_creds := [(1%Z, "bot:secret")];
     rw_backend := []; rw_active := [] |}.

Lemma plain_credentials_stay :
  let '(out, d) := sample_migrate {| db_cat := catalog_at 7; db_rows := logged_in |} in
  out = Ok tt /\ rw_creds (db_rows d) = [(1%Z, "bot:secret")] /\ is_migration_run 8 d = true /\
  load_bot_credentials Sample.hex_decode Sample.cut_tag None
    {| cr_key := Some tt; cr_row := Some ("bot:secret", "https://ilinkai.weixin.qq.com") |} = Err "invalid base64".
Proof. vm_compute. repeat split. Qed.

(** A backend with sessions: its client row gets the hash, its sessions and its grant keep
    the old token and are no longer found under the new one. *)
Definition with_sessions : Rows :=
  {| rw_clients := [("vt-1", "a")]; rw_routes := [("u", "vt-1")]; rw_messages := [(1%Z, Some "vt-1")]; rw_ctx := [];
     rw_creds := []; rw_backend := [("c", "vt-1", "default")]; rw_active := [("c", "vt-1")] |}.

Lemma sessions_keep_old_token :
  let r := db_rows (sample_migrate {| db_cat := catalog_at 7; db_rows := with_sessions |}).2 in
  rw_clients r = [(hash_vtoken sample_sha "vt-1", "a")] /\ rw_routes r = [("u", hash_vtoken sample_sha "vt-1")] /\
  rw_backend r = [("c", "vt-1", "default")] /\ rw_active r = [("c", "vt-1")].
Proof. vm_compute. repeat split. Qed.

(** ** Instances *)

Lemma sample_sha_size s : length (sample_sha s) = 32%nat.
Proof. unfold sample_sha. rewrite length_take, length_app. cbn [length repeat]. lia. Qed.

Lemma sample_seals : seals Sample.zero_tag tt.
Proof. intros n p. by eexists. Qed.

Lemma elements_enumerates : enumerates elements.
Proof. intros X t. apply elem_of_elements. Qed.

Lemma sample_nonces_ok j : length (sample_nonces j) = 12%nat /\ is_bytes (sample_nonces j).
Proof. split; [done|]. repeat constructor. Qed.

Definition bare : Catalog := {| cat_tables := ∅; cat_indexes := ∅; cat_versions := ∅ |}.

Lemma v8_conversion_witness :
  exists creds,
    migrate_to_v8_tx sample_sha hex_lower Sample.hex_decode Sample.zero_tag Sample.cut_tag (Ok tt) first_row
      sample_nonces elements {| db_cat := bare; db_rows := with_sessions |} =
      Ok {| db_cat := put_version 8 bare; db_rows := set_creds creds (map_tokens (hashed sample_sha) with_sessions) |} /\
    Forall2 (fun p p' => p'.1 = p.1 /\
        decrypt_token Sample.hex_decode Sample.cut_tag p'.2 tt = Ok (plain_of Sample.hex_decode Sample.cut_tag tt p.2))
      [] creds.
Proof.
  apply (v8_conversion sample_sha sample_sha_size hex_lower Sample.hex_decode Sample.zero_tag Sample.cut_tag
    Sample.sample_codecs tt first_row sample_nonces elements {| db_cat := bare; db_rows := with_sessions |} "vt-1").
  - apply not_elem_of_empty.
  - reflexivity.
  - reflexivity.
  - apply elements_enumerates.
  - constructor; [apply not_elem_of_nil|constructor].
  - apply sample_seals.
  - apply sample_nonces_ok.
  - constructor.
Defined.

