(* ===== verification/RelayServer.v ===== *)
(** * The pairing relay ([src/src/relay/server.rs])

    The public server between phones and hubs: hubs hold a WebSocket connection, on which
    they register with a signed message; requests of phones are forwarded on it and
    answered by identifier. A registration is three steps (the check of the cap, the
    verification, the entry into the table), since other connections run in between.
    [relay_step] is one step of any connection or request. *)
From S2P Require Import Prelude StrLemmas Pairing Limiters RelayBase.
Import Str.
Local Open Scope hub_scope.

Definition HUB_OUTBOUND_CAPACITY : nat := 256.
Definition MAX_REGISTERED_HUBS : nat := 1024.
Definition WS_RATE_MAX : nat := 120.
Definition WS_RATE_WINDOW : Z := secs 600.
Definition PAIR_RATE_MAX : nat := 30.
Definition PAIR_RATE_WINDOW : Z := secs 60.

(** A registration message. *)
Record Registration := {
  rg_device : string;
  rg_public_key : string;
  rg_timestamp : Z;
  rg_signature : string;
}.

(** How far a connection is with its registration. *)
Inductive Phase :=
| Unregistered
| CapChecked (r : Registration)
| Accepted (r : Registration) (key : list N)
| Active (r : Registration) (key : list N).

(** A connection: its phase, whether its task is still in its loop, the queue toward the
    hub, and what was written to it. A connection whose loop has ended keeps its queue, and
    its entry in the table, until the task has run its clean-up. *)
Record Conn := {
  c_phase : Phase;
  c_reading : bool;
  c_queue : list RelayMessage;
  c_written : list RelayMessage;
}.

(** A request of a phone in flight: the answer, once there is one. *)
Notation InFlight := (option RelayMessage).

Record Relay := {
  hubs : gmap string nat;
  device_keys : gmap string (list N);
  nonces : gmap (string * Z) Z;
  pending : gset string;
  requests : gmap string InFlight;
  conns : gmap nat Conn;
  next_conn : nat;
  ws_limiter : gmap string FixedWindow.Bucket;
  pair_limiter : gmap string FixedWindow.Bucket;
}.

Definition Relay_new : Relay :=
  {| hubs := ∅; device_keys := ∅; nonces := ∅; pending := ∅; requests := ∅; conns := ∅;
     next_conn := 1; ws_limiter := ∅; pair_limiter := ∅ |}.

Definition set_conns (x : gmap nat Conn) (s : Relay) : Relay :=
  {| hubs := hubs s; device_keys := device_keys s; nonces := nonces s; pending := pending s;
     requests := requests s; conns := x; next_conn := next_conn s; ws_limiter := ws_limiter s;
     pair_limiter := pair_limiter s |}.
Definition set_hubs (x : gmap string nat) (s : Relay) : Relay :=
  {| hubs := x; device_keys := device_keys s; nonces := nonces s; pending := pending s;
     requests := requests s; conns := conns s; next_conn := next_conn s; ws_limiter := ws_limiter s;
     pair_limiter := pair_limiter s |}.
Definition set_auth (k : gmap string (list N)) (n : gmap (string * Z) Z) (s : Relay) : Relay :=
  {| hubs := hubs s; device_keys := k; nonces := n; pending := pending s;
     requests := requests s; conns := conns s; next_conn := next_conn s; ws_limiter := ws_limiter s;
     pair_limiter := pair_limiter s |}.
Definition set_requests (p : gset string) (r : gmap string InFlight) (s : Relay) : Relay :=
  {| hubs := hubs s; device_keys := device_keys s; nonces := nonces s; pending := p;
     requests := r; conns := conns s; next_conn := next_conn s; ws_limiter := ws_limiter s;
     pair_limiter := pair_limiter s |}.
Definition set_limiters (n : nat) (w p : gmap string FixedWindow.Bucket) (s : Relay) : Relay :=
  {| hubs := hubs s; device_keys := device_keys s; nonces := nonces s; pending := pending s;
     requests := requests s; conns := conns s; next_conn := n; ws_limiter := w; pair_limiter := p |}.

Definition set_phase (p : Phase) (k : Conn) : Conn :=
  {| c_phase := p; c_reading := c_reading k; c_queue := c_queue k; c_written := c_written k |}.
Definition stop_reading (k : Conn) : Conn :=
  {| c_phase := c_phase k; c_reading := false; c_queue := c_queue k; c_written := c_written k |}.
Definition write_msg (m : RelayMessage) (k : Conn) : Conn :=
  {| c_phase := c_phase k; c_reading := c_reading k; c_queue := c_queue k; c_written := c_written k ++ [m] |}.
Definition set_queue (q : list RelayMessage) (k : Conn) : Conn :=
  {| c_phase := c_phase k; c_reading := c_reading k; c_queue := q; c_written := c_written k |}.

Definition update_conn (c : nat) (f : Conn -> Conn) (s : Relay) : Relay := set_conns (alter f c (conns s)) s.

(** ** Registration *)
Section Registration.
(** Ed25519 and base64, as in [RelayBase]. *)
Context {VKey Sig : Type}.
Context (b64_decode : string -> option (list N)) (key_of_bytes : list N -> option VKey)
        (to_bytes : VKey -> list N)
        (sig_of_slice : list N -> option Sig) (ed25519_verify : VKey -> string -> Sig -> bool).

(** The checks on the message itself: the key's bytes, or the reason to refuse. *)
Definition verify_message (now_unix : Z) (r : Registration) : result (list N) string :=
  if negb (validate_device_id (rg_device r)) then Err "invalid device_id" else
  match verifying_key_from_b64 b64_decode key_of_bytes (rg_public_key r) with
  | Err e => Err e
  | Ok key =>
      match verify_register b64_decode sig_of_slice ed25519_verify key (rg_device r) (rg_timestamp r)
              (rg_signature r) now_unix with
      | Err e => Err e
      | Ok _ => Ok (to_bytes key)
      end
  end.

(** [now_unix] in seconds, [now] on the monotonic clock in nanoseconds. *)
Definition accept_registration (now_unix now : Z) (r : Registration) (s : Relay)
    : result (list N) string * Relay :=
  match verify_message now_unix r with
  | Err e => (Err e, s)
  | Ok key_bytes =>
      let nonce_key := (rg_device r, rg_timestamp r) in
      let live := filter (fun p : string * Z * Z => (elapsed now p.2 < secs REGISTER_MAX_SKEW_SECS)%Z) (nonces s) in
      if bool_decide (is_Some (live !! nonce_key))
      then (Err "registration nonce already used; replay detected", set_auth (device_keys s) live s) else
      let used := <[nonce_key := now]> live in
      match device_keys s !! rg_device r with
      | Some existing =>
          if bool_decide (existing = key_bytes) then (Ok key_bytes, set_auth (device_keys s) used s)
          else (Err "device_id already bound to another key", set_auth (device_keys s) used s)
      | None => (Ok key_bytes, set_auth (<[rg_device r := key_bytes]> (device_keys s)) used s)
      end
  end.

(** A connection is admitted by the limiter of its address. *)
Definition ws_pairing (now : Z) (ip : string) (s : Relay) : bool * Relay :=
  let '(ok, m) := FixedWindow.allow WS_RATE_MAX WS_RATE_WINDOW now ip (ws_limiter s) in
  if negb ok then (false, set_limiters (next_conn s) m (pair_limiter s) s) else
  let c := next_conn s in
  (true, set_conns (<[c := {| c_phase := Unregistered; c_reading := true; c_queue := []; c_written := [] |}]> (conns s))
           (set_limiters (S c) m (pair_limiter s) s)).

(** The loop of a connection ends. The task has yet to take the lock of the table, so others
    move before its clean-up. *)
Definition leave (c : nat) (s : Relay) : Relay := update_conn c stop_reading s.

(** The clean-up behind the loop: the entry in the table goes if it still is its own. *)
Definition disconnect (c : nat) (s : Relay) : Relay :=
  match conns s !! c with
  | None => s
  | Some k =>
      let s' := match c_phase k with
                | Active r _ =>
                    if bool_decide (hubs s !! rg_device r = Some c)
                    then set_hubs (delete (rg_device r) (hubs s)) s else s
                | _ => s
                end in
      set_conns (delete c (conns s)) s'
  end.

(** A refusal ends the loop of a connection that has no entry to clean up. *)
Definition refuse (c : nat) (reason : string) (s : Relay) : Relay :=
  disconnect c (update_conn c (write_msg (Registered false (Some reason))) s).

(** The first step of a [Register] message: the cap. *)
Definition check_cap (c : nat) (r : Registration) (s : Relay) : Relay :=
  if bool_decide (hubs s !! rg_device r = None) && (MAX_REGISTERED_HUBS <=? size (hubs s))%nat
  then refuse c "relay at capacity (1024 Hubs); retry later" s
  else update_conn c (set_phase (CapChecked r)) s.

(** The second: the verification. *)
Definition verify_step (now_unix now : Z) (c : nat) (r : Registration) (s : Relay) : Relay :=
  match accept_registration now_unix now r s with
  | (Ok key, s) => update_conn c (set_phase (Accepted r key)) s
  | (Err reason, s) => refuse c reason s
  end.

(** The third: the entry in the table. *)
Definition insert_step (c : nat) (r : Registration) (key : list N) (s : Relay) : Relay :=
  update_conn c (fun k => write_msg (Registered true None) (set_phase (Active r key) k))
    (set_hubs (<[rg_device r := c]> (hubs s)) s).
End Registration.

(** ** Requests *)

(** The headers of the incoming request that are text; later values replace earlier. *)
Definition header_map (headers : list (string * option string)) : gmap string string :=
  foldl (fun m p => match p.2 with Some v => <[p.1 := v]> m | None => m end) ∅ headers.

(** [forward_to_hub] up to the wait: the request is pending and queued, or an error
    status. [id] is the fresh identifier. *)
Definition start_forward (id device_id method path : string) (headers : list (string * option string))
    (body : option string) (s : Relay) : result unit Z * Relay :=
  match hubs s !! device_id with
  | None => (Err 503%Z, s)
  | Some c =>
      match conns s !! c with
      | Some k =>
          if (length (c_queue k) <? HUB_OUTBOUND_CAPACITY)%nat then
            let req := Request id method path (header_map headers) body in
            (Ok tt, update_conn c (set_queue (c_queue k ++ [req]))
                      (set_requests ({[id]} ∪ pending s) (<[id := None]> (requests s)) s))
          else (Err 503%Z, s)
      | None => (Err 503%Z, s)
      end
  end.

(** A hub answers: the waiter of the identifier, if there is one, gets it. *)
Definition on_response (id : string) (status : Z) (headers : gmap string string) (body : option string)
    (s : Relay) : Relay :=
  if bool_decide (id ∈ pending s)
  then set_requests (pending s ∖ {[id]}) (<[id := Some (Response id status headers body)]> (requests s)) s
  else s.

(** The wait ends, with the answer or after [REQUEST_TIMEOUT]; the guard clears the entry. *)
Definition finish_forward (id : string) (s : Relay) : result RelayMessage Z * Relay :=
  (match requests s !! id with Some (Some resp) => Ok resp | _ => Err 504%Z end,
   set_requests (pending s ∖ {[id]}) (delete id (requests s)) s).

(** The next message of a connection's queue is written to its socket. *)
Definition write_queued (c : nat) (s : Relay) : Relay :=
  match conns s !! c with
  | Some k =>
      match c_queue k with
      | m :: q => update_conn c (fun k => write_msg m (set_queue q k)) s
      | [] => s
      end
  | None => s
  end.

(** [relay_response_to_http]; [valid] tells which headers the server can send. *)
Definition relay_response_to_http (valid : string -> string -> bool) (resp : RelayMessage)
    : Z * list (string * string) * string :=
  match resp with
  | Response _ status headers body =>
      let hs := List.filter (fun p : string * string => negb (eq_ignore_ascii_case p.1 "transfer-encoding"))
                  (map_to_list headers) in
      if ((100 <=? status) && (status <=? 999))%Z && forallb (fun p => valid p.1 p.2) hs
      then (status, hs, unwrap_or body "")
      else (500%Z, [], "response build error")
  | _ => (502%Z, [], "invalid relay response")
  end.

Definition check_pair_rate (now : Z) (ip : string) (s : Relay) : result unit Z * Relay :=
  let '(ok, m) := FixedWindow.allow PAIR_RATE_MAX PAIR_RATE_WINDOW now ip (pair_limiter s) in
  (if ok then Ok tt else Err 429%Z, set_limiters (next_conn s) (ws_limiter s) m s).

(** [HeaderMap::insert]: replaces every value of the name. *)
Definition insert_header (name value : string) (headers : list (string * option string))
    : list (string * option string) :=
  List.filter (fun p => negb (p.1 =? name)%string) headers ++ [(name, Some value)].

(** The two pairing routes, up to the wait for the hub. *)
Definition relay_pair_page (now : Z) (ip id device_id code : string) (s : Relay) : result unit Z * Relay :=
  match check_pair_rate now ip s with
  | (Err e, s) => (Err e, s)
  | (Ok _, s) => start_forward id device_id "GET" ("/hub/pair/" +:+ code) [] None s
  end.

Definition relay_pair_confirm (now : Z) (ip id device_id code : string)
    (headers : list (string * option string)) (body : string) (s : Relay) : result unit Z * Relay :=
  match check_pair_rate now ip s with
  | (Err e, s) => (Err e, s)
  | (Ok _, s) =>
      start_forward id device_id "POST" ("/hub/pair/" +:+ code +:+ "/confirm")
        (insert_header "x-forwarded-for" ip headers) (Some body) s
  end.

(** ** Steps *)
Section Steps.
Context {VKey Sig : Type}.
Context (b64_decode : string -> option (list N)) (key_of_bytes : list N -> option VKey)
        (to_bytes : VKey -> list N)
        (sig_of_slice : list N -> option Sig) (ed25519_verify : VKey -> string -> Sig -> bool).

Notation verified := (verify_message b64_decode key_of_bytes to_bytes sig_of_slice ed25519_verify).
Notation accepts := (accept_registration b64_decode key_of_bytes to_bytes sig_of_slice ed25519_verify).
Notation verifies := (verify_step b64_decode key_of_bytes to_bytes sig_of_slice ed25519_verify).

Definition in_phase (s : Relay) (c : nat) (p : Phase) : Prop :=
  exists k, conns s !! c = Some k /\ c_phase k = p.

Definition is_reading (c : nat) (s : Relay) : bool :=
  match conns s !! c with Some k => c_reading k | None => false end.

Inductive relay_step : Relay -> Relay -> Prop :=
| rs_connect now ip s : relay_step s (ws_pairing now ip s).2
| rs_check c r s : in_phase s c Unregistered -> is_reading c s = true -> relay_step s (check_cap c r s)
| rs_verify now_unix now c r s : in_phase s c (CapChecked r) -> is_reading c s = true ->
    relay_step s (verifies now_unix now c r s)
| rs_insert c r key s : in_phase s c (Accepted r key) -> is_reading c s = true -> relay_step s (insert_step c r key s)
| rs_leave c s : is_reading c s = true -> relay_step s (leave c s)
| rs_disconnect c s : is_reading c s = false -> relay_step s (disconnect c s)
| rs_forward id d m p h b s : relay_step s (start_forward id d m p h b s).2
| rs_response id st h b s : relay_step s (on_response id st h b s)
| rs_finish id s : relay_step s (finish_forward id s).2
| rs_write c s : is_reading c s = true -> relay_step s (write_queued c s)
| rs_page now ip s : relay_step s (check_pair_rate now ip s).2.

Record relay_inv (s : Relay) : Prop := {
  ri_hubs : forall d c, hubs s !! d = Some c ->
    exists k r key, conns s !! c = Some k /\ c_phase k = Active r key /\ rg_device r = d;
  ri_keys : forall c k r key, conns s !! c = Some k -> (c_phase k = Accepted r key \/ c_phase k = Active r key) ->
    device_keys s !! rg_device r = Some key /\ exists now, verified now r = Ok key;
  ri_fresh : forall c, (next_conn s <= c)%nat -> conns s !! c = None;
  ri_requests : forall id, id ∈ pending s <-> requests s !! id = Some None;
}.

Lemma update_same_phase c f s :
  (forall k, c_phase (f k) = c_phase k) -> relay_inv s -> relay_inv (update_conn c f s).
Proof.
  intros Hf [H1 H2 H3 H4]. split; cbn.
  - intros d c' Hc. destruct (H1 d c' Hc) as (k & r & key & Hk & Hp & Hd).
    destruct (decide (c = c')) as [->|E].
    + exists (f k), r, key. by rewrite lookup_alter_eq, Hk, Hf.
    + exists k, r, key. by rewrite lookup_alter_ne.
  - intros c' k r key. rewrite lookup_alter_Some. intros [(-> & k' & Hk & ->)|[_ Hk]] Hp.
    + rewrite Hf in Hp. by eapply H2.
    + by eapply H2.
  - intros c' Hc. rewrite lookup_alter_None. by apply H3.
  - done.
Qed.

Lemma set_auth_inv keys n s : (forall d k, device_keys s !! d = Some k -> keys !! d = Some k) ->
  relay_inv s -> relay_inv (set_auth keys n s).
Proof.
  intros Hk [H1 H2 H3 H4]. split; cbn; [done| |done|done].
  intros c k r key Hc Hp. destruct (H2 c k r key Hc Hp) as [Hd Hv]. split; [by apply Hk|done].
Qed.

Lemma disconnect_inv c s : relay_inv s -> relay_inv (disconnect c s).
Proof.
  intros [H1 H2 H3 H4]. unfold disconnect. destruct (conns s !! c) as [k|] eqn:Ek; [|by split].
  set (s' := match c_phase k with Active r _ => _ | _ => s end).
  assert (Hs' : device_keys s' = device_keys s /\ conns s' = conns s /\ next_conn s' = next_conn s /\
                pending s' = pending s /\ requests s' = requests s).
  { unfold s'. destruct (c_phase k); try done. by case_bool_decide. }
  assert (Hh : forall d c', hubs s' !! d = Some c' -> hubs s !! d = Some c' /\ c' <> c).
  { intros d c' Hd.
    assert (Hd' : hubs s !! d = Some c').
    { unfold s' in Hd. destruct (c_phase k); try done. case_bool_decide; [|done].
      cbn in Hd. by apply lookup_delete_Some in Hd as [_ ?]. }
    split; [done|]. intros ->. destruct (H1 d c Hd') as (k0 & r0 & key0 & Hk0 & Hp0 & Hr0).
    rewrite Ek in Hk0. simplify_eq. unfold s' in Hd. rewrite Hp0 in Hd.
    rewrite bool_decide_true in Hd by done. cbn in Hd. by rewrite lookup_delete_eq in Hd. }
  destruct Hs' as (E1 & E2 & E3 & E4 & E5). split; cbn.
  - intros d c' Hd. apply Hh in Hd as [Hd Hne]. destruct (H1 d c' Hd) as (k0 & r0 & key0 & Hk0 & Hp0 & Hr0).
    exists k0, r0, key0. by rewrite lookup_delete_ne.
  - intros c' k' r key Hc' Hp. apply lookup_delete_Some in Hc' as [_ Hc']. rewrite E1. by eapply H2.
  - intros c' Hc'. apply lookup_delete_None. right. apply H3. by rewrite <- E3.
  - rewrite E4, E5. done.
Qed.

Lemma refuse_inv c m s : relay_inv s -> relay_inv (refuse c m s).
Proof. intros H. apply disconnect_inv. by apply update_same_phase. Qed.

(** Entering a phase of the registration: the new phase is backed by a bound key, and the
    connection was not in the table. *)
Lemma enter_phase_inv c p s :
  relay_inv s -> (exists p0, in_phase s c p0 /\ forall r key, p0 <> Active r key) ->
  (forall r key, p = Accepted r key \/ p = Active r key ->
     device_keys s !! rg_device r = Some key /\ exists now, verified now r = Ok key) ->
  relay_inv (update_conn c (set_phase p) s).
Proof.
  intros [H1 H2 H3 H4] (p0 & (k0 & Hk0 & Hp0) & Hna) Hp. split; cbn.
  - intros d c' Hc. destruct (H1 d c' Hc) as (k & r & key & Hk & Hpk & Hd).
    assert (c <> c') by (intros ->; rewrite Hk0 in Hk; simplify_eq; by eapply Hna).
    exists k, r, key. by rewrite lookup_alter_ne.
  - intros c' k r key. rewrite lookup_alter_Some. intros [(-> & k' & Hk & ->)|[_ Hk]] Hph.
    + by apply Hp.
    + by eapply H2.
  - intros c' Hc. rewrite lookup_alter_None. by apply H3.
  - done.
Qed.

Lemma accept_spec now_unix now r s :
  let '(res, s') := accepts now_unix now r s in
  hubs s' = hubs s /\ conns s' = conns s /\
  (forall d k, device_keys s !! d = Some k -> device_keys s' !! d = Some k) /\
  (relay_inv s -> relay_inv s') /\
  (forall key, res = Ok key -> device_keys s' !! rg_device r = Some key /\ verified now_unix r = Ok key).
Proof.
  unfold accept_registration. destruct (verified now_unix r) as [kb|e] eqn:Ev; [|done].
  case_bool_decide; [do 3 (split; [done|]); split; [intros; by apply set_auth_inv|done]|].
  destruct (device_keys s !! rg_device r) as [ex|] eqn:Ek.
  - case_bool_decide; (split; [done|]); (split; [done|]); (split; [done|]);
      (split; [intros; by apply set_auth_inv|]); [|done]. intros key [= <-]. subst ex. by split.
  - assert (Hmono : forall d k, device_keys s !! d = Some k -> <[rg_device r := kb]> (device_keys s) !! d = Some k).
    { intros d k Hd. rewrite lookup_insert_ne; [done|]. intros <-. congruence. }
    split; [done|]. split; [done|]. split; [done|]. split; [intros; by apply set_auth_inv|].
    intros key [= <-]. split; [apply lookup_insert_eq|done].
Qed.

Lemma insert_inv c r key s : in_phase s c (Accepted r key) -> relay_inv s -> relay_inv (insert_step c r key s).
Proof.
  intros (k0 & Hk0 & Hp0) [H1 H2 H3 H4]. split; cbn.
  - intros d c'. rewrite lookup_insert. case_decide as E.
    + intros [= <-]. subst d. exists (write_msg (Registered true None) (set_phase (Active r key) k0)), r, key.
      by rewrite lookup_alter_eq, Hk0.
    + intros Hd. destruct (H1 d c' Hd) as (k & r' & key' & Hk & Hpk & Hd').
      assert (c <> c') by (intros ->; rewrite Hk0 in Hk; simplify_eq; congruence).
      exists k, r', key'. by rewrite lookup_alter_ne.
  - intros c' k r' key'. rewrite lookup_alter_Some. intros [(-> & k' & Hk & ->)|[_ Hk]] Hph; [|by eapply H2].
    destruct Hph as [Hph|Hph]; cbn in Hph; simplify_eq. eapply H2; [exact Hk0|by left].
  - intros c' Hc. rewrite lookup_alter_None. by apply H3.
  - done.
Qed.

Lemma requests_inv s p r : (forall id, id ∈ p <-> r !! id = Some None) -> relay_inv s -> relay_inv (set_requests p r s).
Proof. intros Hr [H1 H2 H3 H4]. by split. Qed.

Lemma finish_requests s id : relay_inv s ->
  forall i, i ∈ pending s ∖ {[id]} <-> delete id (requests s) !! i = Some None.
Proof. intros H i. rewrite lookup_delete_Some, <- (ri_requests s H). set_solver. Qed.

Lemma relay_step_inv s s' : relay_step s s' -> relay_inv s -> relay_inv s'.
Proof.
  intros Hstep Hinv. destruct Hstep as [now ip s|c r s Hp _|nu now c r s Hp _|c r key s Hp _|c s _|c s _|id d m p h b s|id st h b s|id s|c s _|now ip s].
  - unfold ws_pairing. destruct (FixedWindow.allow _ _ _ _ _) as [[] m]; cbn; destruct Hinv as [H1 H2 H3 H4]; [|by split].
    assert (Hn : conns s !! next_conn s = None) by (apply H3; lia). split; cbn.
    + intros d c Hd. destruct (H1 d c Hd) as (k & r & key & Hk & ?). exists k, r, key.
      rewrite lookup_insert_ne; [done|]. intros <-. congruence.
    + intros c k r key. rewrite lookup_insert. case_decide; [intros [= <-]; cbn; by intros [|]|by apply H2].
    + intros c Hc. rewrite lookup_insert_ne by lia. apply H3. lia.
    + done.
  - unfold check_cap. destruct (_ && _); [by apply refuse_inv|]. apply enter_phase_inv; [done|by exists Unregistered|].
    by intros ? ? [|].
  - unfold verify_step. pose proof (accept_spec nu now r s) as Ha. destruct (accepts nu now r s) as [[key|e] s1].
    + destruct Ha as (_ & Hc & _ & Hi & Hk). apply enter_phase_inv; [by apply Hi| |].
      * exists (CapChecked r). split; [|done]. unfold in_phase. by rewrite Hc.
      * intros r' key' [[= <- <-]|[=]]. destruct (Hk key eq_refl). by eauto.
    + apply refuse_inv. by apply Ha.
  - by apply insert_inv.
  - by apply update_same_phase.
  - by apply disconnect_inv.
  - unfold start_forward. destruct (hubs s !! d) as [c|]; [|done]. destruct (conns s !! c) as [k|]; [|done].
    destruct (_ <? _)%nat; [|done]. cbn [snd]. apply update_same_phase; [done|]. apply requests_inv; [|done].
    intros i. rewrite lookup_insert. case_decide as E; [subst; set_solver|]. rewrite <- (ri_requests s Hinv). set_solver.
  - unfold on_response. case_bool_decide; [|done]. apply requests_inv; [|done].
    intros i. rewrite lookup_insert. case_decide as E; [subst; set_solver|]. rewrite <- (ri_requests s Hinv). set_solver.
  - cbn. apply requests_inv; [by apply finish_requests|done].
  - unfold write_queued. destruct (conns s !! c) as [k|]; [|done]. destruct (c_queue k); [done|]. by apply update_same_phase.
  - unfold check_pair_rate. destruct (FixedWindow.allow _ _ _ _ _) as [[] m]; cbn; destruct Hinv; by split.
Qed.

Lemma relay_new_inv : relay_inv Relay_new.
Proof. split; cbn; [done|done|done|]. intros id. split; [set_solver|done]. Qed.

Lemma relay_run_inv s s' : rtc relay_step s s' -> relay_inv s -> relay_inv s'.
Proof. induction 1; eauto using relay_step_inv. Qed.

(** *** What a step does to the two tables *)

Lemma disconnect_keys c s : device_keys (disconnect c s) = device_keys s.
Proof.
  unfold disconnect. destruct (conns s !! c) as [k|]; [|done]. destruct (c_phase k); try done. by case_bool_decide.
Qed.

Lemma step_keys s s' d key : relay_step s s' -> device_keys s !! d = Some key -> device_keys s' !! d = Some key.
Proof.
  intros Hstep Hd. destruct Hstep as [now ip s|c r s Hp _|nu now c r s Hp _|c r key' s Hp _|c s _|c s _|id d' m p h b s|id st h b s|id s|c s _|now ip s].
  - unfold ws_pairing. by destruct (FixedWindow.allow _ _ _ _ _) as [[] m].
  - unfold check_cap, refuse. destruct (_ && _); [by rewrite disconnect_keys|done].
  - unfold verify_step, refuse. pose proof (accept_spec nu now r s) as Ha. destruct (accepts nu now r s) as [[?|?] s1];
      rewrite ?disconnect_keys; by apply Ha.
  - done.
  - done.
  - by rewrite disconnect_keys.
  - unfold start_forward. repeat case_match; done.
  - unfold on_response. by case_bool_decide.
  - done.
  - unfold write_queued. repeat case_match; done.
  - unfold check_pair_rate. by destruct (FixedWindow.allow _ _ _ _ _) as [[] m].
Qed.

Lemma run_keys s s' d key : rtc relay_step s s' -> device_keys s !! d = Some key -> device_keys s' !! d = Some key.
Proof. induction 1; eauto using step_keys. Qed.

(** (C21) A device cannot be taken over: once an identifier is bound to a key, then in every
    later state the connection that receives its requests is one the relay still holds, and
    it registered with a message for this identifier that verifies under that same key.
    That includes a connection whose socket has ended and whose entry has not been cleaned
    up yet. *)
Theorem device_not_taken_over (s s' : Relay) (d : string) (key : list N) (c : nat)
    (Hreach : rtc relay_step Relay_new s) (Hbound : device_keys s !! d = Some key)
    (Hlater : rtc relay_step s s') (Hhub : hubs s' !! d = Some c) :
  exists k r now, conns s' !! c = Some k /\ c_phase k = Active r key /\ rg_device r = d /\
    verified now r = Ok key.
Proof.
  assert (Hinv : relay_inv s').
  { eapply relay_run_inv; [|apply relay_new_inv]. by transitivity s. }
  pose proof (run_keys _ _ _ _ Hlater Hbound) as Hk.
  destruct (ri_hubs s' Hinv d c Hhub) as (k & r & key' & Hc & Hp & <-).
  destruct (ri_keys s' Hinv c k r key' Hc (or_intror Hp)) as [Hk' [now Hv]]. simplify_eq. by exists k, r, now.
Qed.

Lemma disconnect_hubs c s d c' : relay_inv s -> hubs s !! d = Some c' ->
  hubs (disconnect c s) !! d = Some c' \/ (c = c' /\ conns (disconnect c s) !! c' = None).
Proof.
  intros Hinv Hd. unfold disconnect. destruct (conns s !! c) as [k|] eqn:Ek; [|by left].
  destruct (decide (c = c')) as [->|Hne]; [right; split; [done|]; cbn; apply lookup_delete_eq|].
  left. destruct (c_phase k) as [| | |r key]; try done. case_bool_decide as E; [|done]. cbn.
  rewrite lookup_delete_ne; [done|]. intros <-. congruence.
Qed.

(** Reconnecting is safe: a step takes the table entry of a device away from a connection
    only if this connection has ended, or if another one has registered for the device; the
    late end of an old connection does not remove the entry of its successor. *)
Theorem hub_entry_stable (s s' : Relay) (d : string) (c : nat)
    (Hreach : rtc relay_step Relay_new s) (Hstep : relay_step s s') (Hhub : hubs s !! d = Some c) :
  hubs s' !! d = Some c \/ conns s' !! c = None \/ exists c' k r key, c' <> c /\ hubs s' !! d = Some c' /\
    conns s' !! c' = Some k /\ c_phase k = Active r key /\ rg_device r = d.
Proof.
  assert (Hinv : relay_inv s) by (eapply relay_run_inv; [exact Hreach|apply relay_new_inv]).
  pose proof (relay_step_inv _ _ Hstep Hinv) as Hinv'.
  assert (Hdis : forall c0 s0, relay_inv s0 -> hubs s0 !! d = Some c ->
            hubs (disconnect c0 s0) !! d = Some c \/ conns (disconnect c0 s0) !! c = None).
  { intros c0 s0 H0 Hd. destruct (disconnect_hubs c0 s0 d c H0 Hd) as [?|[_ ?]]; auto. }
  assert (Href : forall c0 m s0, relay_inv s0 -> hubs s0 !! d = Some c ->
            hubs (refuse c0 m s0) !! d = Some c \/ conns (refuse c0 m s0) !! c = None).
  { intros c0 m s0 H0 Hd. apply Hdis; [by apply update_same_phase|done]. }
  destruct Hstep as [now ip s|c0 r s Hp _|nu now c0 r s Hp _|c0 r key s Hp _|c0 s _|c0 s _|id d' m p h b s|id st h b s|id s|c0 s _|now ip s].
  - left. unfold ws_pairing. by destruct (FixedWindow.allow _ _ _ _ _) as [[] m].
  - unfold check_cap. destruct (_ && _); [destruct (Href c0 "relay at capacity (1024 Hubs); retry later" s); auto|by left].
  - unfold verify_step in *. pose proof (accept_spec nu now r s) as Ha. destruct (accepts nu now r s) as [[?|e] s1];
      destruct Ha as (Hh & _ & _ & Hi & _); [left; cbn; by rewrite Hh|].
    destruct (Href c0 e s1); [by apply Hi|by rewrite Hh|auto|auto].
  - destruct (decide (rg_device r = d)) as [<-|Hne]; [|left; cbn; by rewrite lookup_insert_ne].
    destruct (decide (c0 = c)) as [->|Hc]; [left; cbn; by rewrite lookup_insert_eq|]. right. right.
    destruct (ri_hubs _ Hinv' (rg_device r) c0) as (k & r' & key' & Hk & Hpk & Hd); [cbn; by rewrite lookup_insert_eq|].
    exists c0, k, r', key'. split; [done|]. split; [cbn; by rewrite lookup_insert_eq|done].
  - by left.
  - destruct (Hdis c0 s); auto.
  - left. unfold start_forward. repeat case_match; done.
  - left. unfold on_response. by case_bool_decide.
  - by left.
  - left. unfold write_queued. repeat case_match; done.
  - left. unfold check_pair_rate. by destruct (FixedWindow.allow _ _ _ _ _) as [[] m].
Qed.

(** *** Requests *)

(** One answer per request: the first response for a pending identifier is what the phone
    gets, further responses for it change nothing, and nothing is left of the request
    afterwards. *)
Theorem first_response_wins (s : Relay) (id : string) (st : Z) (h : gmap string string) (b : option string)
    (Hpend : id ∈ pending s) :
  let s1 := on_response id st h b s in
  (forall st' h' b', on_response id st' h' b' s1 = s1) /\
  let '(r, s2) := finish_forward id s1 in
  r = Ok (Response id st h b) /\ id ∉ pending s2 /\ requests s2 !! id = None.
Proof.
  cbv zeta. unfold on_response. rewrite (bool_decide_true (id ∈ pending s)) by done. split.
  - intros st' h' b'. cbn. rewrite bool_decide_false; [done|]. set_solver.
  - unfold finish_forward. cbn. rewrite lookup_insert_eq, delete_insert_eq, lookup_delete_eq. set_solver.
Qed.

(** An entry can outlive its connection: between the end of the loop and the clean-up the
    table still routes the device to it, a request is accepted and queued, and no step of
    the relay writes it out. *)
Lemma entry_outlives_socket (s : Relay) (d : string) (c : nat) (k : Conn) (id m p : string) (b : option string)
    (Hd : hubs s !! d = Some c) (Hk : conns s !! c = Some k) (Hq : (length (c_queue k) < HUB_OUTBOUND_CAPACITY)%nat) :
  let s1 := leave c s in
  hubs s1 !! d = Some c /\ (start_forward id d m p [] b s1).1 = Ok tt /\ is_reading c (start_forward id d m p [] b s1).2 = false.
Proof.
  cbv zeta. split; [done|]. unfold start_forward, is_reading, leave. cbn [hubs update_conn set_conns conns].
  rewrite Hd, lookup_alter_eq, Hk. cbn [fmap option_fmap option_map c_queue stop_reading].
  rewrite (proj2 (Nat.ltb_lt _ _) Hq). cbn. by rewrite !lookup_alter_eq, Hk.
Qed.

(** *** Nonces *)

(** A registration can be replayed: its timestamp may lie up to 60 seconds ahead, so its
    signature verifies for two minutes, but its nonce is forgotten after one. *)
Theorem registration_replayed (r : Registration) (key : list N) (s : Relay) (t : Z)
    (Hv : forall now, (Z.abs (now - rg_timestamp r) <= REGISTER_MAX_SKEW_SECS)%Z -> verified now r = Ok key)
    (Hfirst : device_keys s !! rg_device r = None) (Hnonce : nonces s = ∅) :
  exists s1, accepts (rg_timestamp r - 60) t r s = (Ok key, s1) /\
    (accepts (rg_timestamp r + 1) (t + secs 61) r s1).1 = Ok key.
Proof.
  unfold REGISTER_MAX_SKEW_SECS in Hv. eexists. split.
  - unfold accept_registration. rewrite Hv, Hnonce, map_filter_empty by lia.
    rewrite bool_decide_false by (rewrite lookup_empty; by intros [? [=]]). rewrite Hfirst. reflexivity.
  - unfold accept_registration. rewrite Hv by lia. cbn [nonces set_auth device_keys].
    rewrite (map_filter_insert_False (M := gmap (string * Z))); [|cbn; unfold elapsed, secs, REGISTER_MAX_SKEW_SECS; lia].
    rewrite delete_empty, map_filter_empty. rewrite bool_decide_false by (rewrite lookup_empty; by intros [? [=]]).
    rewrite lookup_insert_eq. by rewrite bool_decide_true.
Qed.

(** A stranger can burn a registration: a message for the same device and second, signed
    with any other key, is refused only after its nonce was recorded; the owner's own
    message is then refused as a replay. *)
Theorem nonce_burned_by_stranger (r r' : Registration) (key key' : list N) (s : Relay) (nu now : Z)
    (Hsame : rg_device r' = rg_device r /\ rg_timestamp r' = rg_timestamp r)
    (Hv : verified nu r = Ok key) (Hv' : verified nu r' = Ok key') (Hne : key <> key')
    (Hbound : device_keys s !! rg_device r = Some key) (Hnonce : nonces s = ∅) :
  (accepts nu now r s).1 = Ok key /\
  (accepts nu now r (accepts nu now r' s).2).1 = Err "registration nonce already used; replay detected".
Proof.
  destruct Hsame as [E1 E2].
  assert (Hempty : forall (P : string * Z * Z -> Prop) `{!forall x, Decision (P x)} k,
            ~ is_Some (filter P (∅ : gmap (string * Z) Z) !! k)).
  { intros P ? k. rewrite map_filter_empty, lookup_empty. by intros [? [=]]. }
  unfold accept_registration at 1 3. rewrite Hv', Hv, Hnonce, E1, E2, !bool_decide_false by done.
  rewrite Hbound. split; [by rewrite bool_decide_true|]. cbn [snd].
  unfold accept_registration. rewrite Hv. cbn [set_auth nonces].
  rewrite (bool_decide_true (is_Some _)); [done|]. exists now.
  rewrite (bool_decide_false (key = key')) by done. cbn [snd set_auth nonces].
  apply map_lookup_filter_Some. rewrite lookup_insert_eq. split; [done|].
  unfold elapsed, secs, REGISTER_MAX_SKEW_SECS. cbn. lia.
Qed.

(** The cap is checked before a registration is entered, not when it is: two connections
    that both pass the check both enter. *)
Lemma cap_is_not_a_bound (s : Relay) (c1 c2 : nat) (r1 r2 : Registration) (k1 k2 : list N) :
  size (hubs s) = (MAX_REGISTERED_HUBS - 1)%nat ->
  hubs s !! rg_device r1 = None -> hubs s !! rg_device r2 = None -> rg_device r1 <> rg_device r2 ->
  hubs (check_cap c1 r1 s) = hubs s /\ hubs (check_cap c2 r2 (check_cap c1 r1 s)) = hubs s /\
  size (hubs (insert_step c2 r2 k2 (insert_step c1 r1 k1 (check_cap c2 r2 (check_cap c1 r1 s)))))
    = S MAX_REGISTERED_HUBS.
Proof.
  intros Hsz H1 H2 Hne.
  assert (Hcap : (MAX_REGISTERED_HUBS <=? size (hubs s))%nat = false).
  { rewrite Hsz. reflexivity. }
  unfold check_cap. rewrite Hcap, andb_false_r. cbn [update_conn set_conns hubs].
  rewrite Hcap, andb_false_r. split; [done|]. split; [done|]. cbn.
  rewrite !map_size_insert_None, Hsz; [done|done|]. by rewrite lookup_insert_ne.
Qed.
End Steps.

(** ** Instance

    A relay on which one hub registers. *)
Section Instance.
Notation key0 := (repeat 0%N 32).
Notation check := (verify_step (fun _ => Some key0) (fun _ => Some tt) (fun _ => key0) (fun _ => Some tt) (fun _ _ _ => true)).
Notation step := (relay_step (fun _ => Some key0) (fun _ => Some tt) (fun _ => key0) (fun _ => Some tt) (fun _ _ _ => true)).

Definition sample_registration : Registration :=
  {| rg_device := "device-01"; rg_public_key := "k"; rg_timestamp := 1000; rg_signature := "s" |}.
Definition relay_open : Relay := (ws_pairing 0 "10.0.0.1" Relay_new).2.
Definition relay_checked : Relay := check_cap 1 sample_registration relay_open.
Definition relay_verified : Relay := check 1000%Z 1%Z 1 sample_registration relay_checked.
Definition relay_registered : Relay := insert_step 1 sample_registration key0 relay_verified.

Lemma relay_registers : rtc step Relay_new relay_registered.
Proof.
  apply (rtc_l _ _ relay_open); [apply rs_connect|].
  apply (rtc_l _ _ relay_checked); [apply rs_check; [eexists; split|]; vm_compute; reflexivity|].
  apply (rtc_l _ _ relay_verified); [apply rs_verify; [eexists; split|]; vm_compute; reflexivity|].
  apply (rtc_l _ _ relay_registered); [apply rs_insert; [eexists; split|]; vm_compute; reflexivity|].
  apply rtc_refl.
Qed.

Lemma device_not_taken_over_witness :
  exists k r now, conns relay_registered !! 1%nat = Some k /\ c_phase k = Active r key0 /\ rg_device r = "device-01" /\
    verify_message (fun _ => Some key0) (fun _ => Some tt) (fun _ => key0) (fun _ => Some tt) (fun _ _ _ => true) now r
      = Ok key0.
Proof.
  apply (device_not_taken_over (fun _ => Some key0) (fun _ => Some tt) (fun _ => key0) (fun _ => Some tt) (fun _ _ _ => true)
    relay_registered relay_registered "device-01" key0 1 relay_registers).
  - vm_compute. reflexivity.
  - apply rtc_refl.
  - vm_compute. reflexivity.
Defined.
End Instance.
