(* ===== verification/RelayDevice.v ===== *)
(** * The hub's registration at the relay ([src/relay/device.rs], [src/relay/auth.rs],
    [src/relay/client.rs])

    Keys and signatures of a device identity, the registration message a session starts
    with, and what the relay makes of it. Ed25519 and base64 are parameters with their
    documented laws. *)
From S2P Require Import Prelude StrLemmas VToken Pairing Limiters RelayBase Crypto RelayServer.
From Stdlib Require Import Ascii.
Import Str.
Local Open Scope hub_scope.

(** The operations of the ed25519-dalek and base64 crates the source uses. *)
Class SignatureOps (SKey VKey Sig : Type) := {
  b64_encode : list N -> string;
  b64_decode : string -> option (list N);
  skey_of_bytes : list N -> SKey;
  skey_bytes : SKey -> list N;
  vkey_of : SKey -> VKey;
  vkey_bytes : VKey -> list N;
  vkey_of_bytes : list N -> option VKey;
  sign : SKey -> string -> Sig;
  sig_bytes : Sig -> list N;
  sig_of_slice : list N -> option Sig;
  verify : VKey -> string -> Sig -> bool;
}.

Class SignatureLaws {SKey VKey Sig} (O : SignatureOps SKey VKey Sig) : Prop := {
  b64_exact : forall l, is_bytes l -> b64_decode (b64_encode l) = Some l;
  skey_exact : forall k, is_bytes (skey_bytes k) /\ length (skey_bytes k) = 32%nat /\ skey_of_bytes (skey_bytes k) = k;
  vkey_exact : forall v, is_bytes (vkey_bytes v) /\ length (vkey_bytes v) = 32%nat /\ vkey_of_bytes (vkey_bytes v) = Some v;
  sig_exact : forall s, is_bytes (sig_bytes s) /\ sig_of_slice (sig_bytes s) = Some s;
  sign_verifies : forall k m, verify (vkey_of k) m (sign k m) = true;
}.

Section Device.
Context {SKey VKey Sig : Type} `{O : SignatureOps SKey VKey Sig}.

Definition signing_key (id : DeviceIdentity) : result SKey string :=
  match b64_decode (di_signing_key_b64 id) with
  | None => Err "decode signing_key"
  | Some bytes => if (length bytes =? 32)%nat then Ok (skey_of_bytes bytes) else Err "signing_key must be 32 bytes"
  end.

Definition verifying_key (id : DeviceIdentity) : result VKey string := try k := signing_key id in Ok (vkey_of k).

Definition public_key_b64 (id : DeviceIdentity) : result string string :=
  try v := verifying_key id in Ok (b64_encode (vkey_bytes v)).

Definition sign_register (id : DeviceIdentity) (timestamp : Z) : result string string :=
  try k := signing_key id in
  Ok (b64_encode (sig_bytes (sign k (register_payload (di_device_id id) timestamp)))).

(** The message of a session that starts at [timestamp]. *)
Definition register_message (id : DeviceIdentity) (timestamp : Z) : result RelayMessage string :=
  try public_key := public_key_b64 id in
  try signature := sign_register id timestamp in
  Ok (Register (di_device_id id) public_key timestamp signature).

(** The registration the relay reads out of a message. *)
Definition read_registration (m : RelayMessage) : option Registration :=
  match m with
  | Register d k t s => Some {| rg_device := d; rg_public_key := k; rg_timestamp := t; rg_signature := s |}
  | _ => None
  end.

Notation accept := (accept_registration b64_decode vkey_of_bytes vkey_bytes sig_of_slice verify).

Section Laws.
Context `{!SignatureLaws O}.

Lemma signing_key_exact id k : di_signing_key_b64 id = b64_encode (skey_bytes k) -> signing_key id = Ok k.
Proof.
  intros E. destruct (skey_exact k) as (H1 & H2 & H3). unfold signing_key. rewrite E, b64_exact, H2 by done.
  cbn. by rewrite H3.
Qed.

Lemma verify_own id k t now_unix :
  validate_device_id (di_device_id id) = true -> di_signing_key_b64 id = b64_encode (skey_bytes k) ->
  (0 <= now_unix <= 2 ^ 62)%Z -> (i64_min <= t <= i64_max)%Z -> (Z.abs (now_unix - t) <= REGISTER_MAX_SKEW_SECS)%Z ->
  verify_message b64_decode vkey_of_bytes vkey_bytes sig_of_slice verify now_unix
    {| rg_device := di_device_id id; rg_public_key := b64_encode (vkey_bytes (vkey_of k)); rg_timestamp := t;
       rg_signature := b64_encode (sig_bytes (sign k (register_payload (di_device_id id) t))) |}
  = Ok (vkey_bytes (vkey_of k)).
Proof.
  intros Hid Hk Hn Ht Hskew. unfold verify_message. cbn. rewrite Hid. cbn.
  destruct (vkey_exact (vkey_of k)) as (V1 & V2 & V3). unfold verifying_key_from_b64. rewrite b64_exact, V2 by done. cbn.
  rewrite V3. unfold verify_register.
  rewrite (proj2 (skew_check_exact now_unix t Hn Ht)) by (by left).
  destruct (sig_exact (sign k (register_payload (di_device_id id) t))) as (S1 & S2).
  by rewrite b64_exact, S2, sign_verifies by done.
Qed.

Lemma accept_own id k t now_unix now s :
  validate_device_id (di_device_id id) = true -> di_signing_key_b64 id = b64_encode (skey_bytes k) ->
  (0 <= now_unix <= 2 ^ 62)%Z -> (i64_min <= t <= i64_max)%Z -> (Z.abs (now_unix - t) <= REGISTER_MAX_SKEW_SECS)%Z ->
  nonces s !! (di_device_id id, t) = None ->
  (forall key, device_keys s !! di_device_id id = Some key -> key = vkey_bytes (vkey_of k)) ->
  exists s', accept now_unix now
      {| rg_device := di_device_id id; rg_public_key := b64_encode (vkey_bytes (vkey_of k)); rg_timestamp := t;
         rg_signature := b64_encode (sig_bytes (sign k (register_payload (di_device_id id) t))) |} s
    = (Ok (vkey_bytes (vkey_of k)), s') /\
    device_keys s' !! di_device_id id = Some (vkey_bytes (vkey_of k)) /\ nonces s' !! (di_device_id id, t) = Some now.
Proof.
  intros Hid Hk Hn Ht Hskew Hfresh Hown. unfold accept_registration. rewrite verify_own by done. cbn [rg_device rg_timestamp].
  rewrite bool_decide_eq_false_2.
  2:{ intros [x Hx]. apply map_lookup_filter_Some in Hx as [Hx _]. congruence. }
  destruct (device_keys s !! di_device_id id) as [key|] eqn:Ekey.
  - rewrite (Hown key eq_refl) in Ekey |- *. rewrite bool_decide_eq_true_2 by done. eexists. split; [done|]. cbn.
    by rewrite lookup_insert_eq.
  - eexists. split; [done|]. cbn. by rewrite !lookup_insert_eq.
Qed.

(** A hub gets its own device: the registration an identity signs is accepted by every
    relay whose clock is at most a minute off, on which the same second was not used yet,
    and whose entry for the device is free or holds the key of this identity, as it does
    after every earlier registration; the relay then holds that key. *)
Theorem own_registration_accepted (id : DeviceIdentity) (k : SKey) (t now_unix now : Z) (s : Relay)
    (Hid : validate_device_id (di_device_id id) = true) (Hk : di_signing_key_b64 id = b64_encode (skey_bytes k))
    (Hn : (0 <= now_unix <= 2 ^ 62)%Z) (Ht : (i64_min <= t <= i64_max)%Z)
    (Hskew : (Z.abs (now_unix - t) <= REGISTER_MAX_SKEW_SECS)%Z)
    (Hfresh : nonces s !! (di_device_id id, t) = None)
    (Hown : forall key, device_keys s !! di_device_id id = Some key -> key = vkey_bytes (vkey_of k)) :
  exists m r s', register_message id t = Ok m /\ read_registration m = Some r /\ rg_device r = di_device_id id /\
    accept now_unix now r s = (Ok (vkey_bytes (vkey_of k)), s') /\
    device_keys s' !! di_device_id id = Some (vkey_bytes (vkey_of k)) /\
    nonces s' !! (di_device_id id, t) = Some now.
Proof.
  unfold register_message, public_key_b64, sign_register, verifying_key. rewrite (signing_key_exact id k Hk). cbn.
  destruct (accept_own id k t now_unix now s) as (s' & H1 & H2 & H3); [done..|].
  eexists _, _, s'. split; [done|]. by split.
Qed.
End Laws.

(** A second registration in the same second is refused as a replay. *)
Lemma same_second_refused now_unix now now' r s key s' :
  accept now_unix now r s = (Ok key, s') -> (elapsed now' now < secs REGISTER_MAX_SKEW_SECS)%Z ->
  forall now_unix', is_ok (accept now_unix' now' r s').1 = false.
Proof.
  intros E Hel now_unix'. unfold accept_registration in *.
  destruct (verify_message _ _ _ _ _ now_unix r) as [kb|e]; [|done].
  destruct (verify_message _ _ _ _ _ now_unix' r) as [kb'|e']; [|done].
  assert (Hn : nonces s' !! (rg_device r, rg_timestamp r) = Some now).
  { destruct (bool_decide (is_Some _)); [done|]. destruct (device_keys s !! rg_device r) as [ex|].
    - destruct (bool_decide (ex = kb)); [|done]. injection E as _ <-. cbn. apply lookup_insert_eq.
    - injection E as _ <-. cbn. apply lookup_insert_eq. }
  rewrite bool_decide_eq_true_2; [done|]. exists now. apply map_lookup_filter_Some. by split.
Qed.

(** An identity file whose key is not base64 passes the check of [load_or_create], which
    only asks that it is not empty: it is neither replaced nor usable. *)
Lemma unreadable_key_is_kept from_json to_json uuid key id fs raw :
  f_identity fs = Some raw -> from_json raw = Some id -> validate_device_id (di_device_id id) = true ->
  is_empty (di_signing_key_b64 id) = false -> b64_decode (di_signing_key_b64 id) = None ->
  load_or_create from_json to_json uuid key true Saves fs = (Ok id, fs) /\
  forall t, register_message id t = Err "decode signing_key".
Proof.
  intros E1 E2 E3 E4 E5. split.
  - unfold load_or_create. rewrite E1, E2, E3. cbn. by rewrite E4.
  - intros t. unfold register_message, public_key_b64, verifying_key, signing_key. by rewrite E5.
Qed.
End Device.

(** ** An instance *)

(** A key is one byte, written 32 times; a signature is the key with the text. *)
Module Toy.

#[local] Instance ops : SignatureOps ascii ascii (ascii * string) := {|
  b64_encode := hex_lower; b64_decode := Sample.hex_decode;
  skey_of_bytes l := ascii_of_N (hd 0%N l); skey_bytes k := repeat (byte k) 32; vkey_of k := k;
  vkey_bytes k := repeat (byte k) 32; vkey_of_bytes l := Some (ascii_of_N (hd 0%N l)); sign k m := (k, m);
  sig_bytes s := byte s.1 :: to_bytes s.2;
  sig_of_slice l := match l with k :: m => Some (ascii_of_N k, of_bytes m) | [] => None end;
  verify v m s := bool_decide (s = (v, m)) |}.

Lemma byte_bound a : (byte a < 256)%N.
Proof. apply N_ascii_bounded. Qed.

Lemma repeat_bytes a n : is_bytes (repeat (byte a) n).
Proof. induction n as [|n IH]; constructor; [apply byte_bound|exact IH]. Qed.

Lemma toy_laws : SignatureLaws ops.
Proof.
  split.
  - intros l Hl. cbn. unfold Sample.hex_decode. by rewrite decode_hex_lower.
  - intros k. cbn -[repeat]. split; [apply repeat_bytes|]. split; [by rewrite repeat_length|apply ascii_N_embedding].
  - intros k. cbn -[repeat]. split; [apply repeat_bytes|]. split; [by rewrite repeat_length|].
    f_equal. apply ascii_N_embedding.
  - intros [k m]. split; [constructor; [apply byte_bound|apply to_bytes_is_bytes]|].
    change (Some (ascii_of_N (byte k), of_bytes (to_bytes m)) = Some (k, m)). unfold byte. by rewrite ascii_N_embedding, of_to_bytes.
  - intros k m. cbn. by rewrite bool_decide_eq_true_2.
Qed.
End Toy.

Lemma own_registration_accepted_witness :
  let id := {| di_device_id := "device-01"; di_signing_key_b64 := hex_lower (repeat 65%N 32) |} in
  exists m r s', register_message (O:=Toy.ops) id 1000 = Ok m /\ read_registration m = Some r /\ rg_device r = "device-01" /\
    accept_registration (b64_decode (SignatureOps:=Toy.ops)) (vkey_of_bytes (SignatureOps:=Toy.ops))
      (vkey_bytes (SignatureOps:=Toy.ops)) (sig_of_slice (SignatureOps:=Toy.ops)) (verify (SignatureOps:=Toy.ops))
      1030 5 r Relay_new = (Ok (repeat 65%N 32), s') /\
    device_keys s' !! "device-01" = Some (repeat 65%N 32) /\ nonces s' !! ("device-01", 1000%Z) = Some 5%Z.
Proof.
  intros id.
  apply (@own_registration_accepted _ _ _ Toy.ops Toy.toy_laws id "A"%char 1000 1030 5 Relay_new).
  - vm_compute. reflexivity.
  - reflexivity.
  - lia.
  - unfold i64_min, i64_max. lia.
  - unfold REGISTER_MAX_SKEW_SECS. lia.
  - reflexivity.
  - intros key [=].
Defined.
