(* ===== verification/RelayClient.v ===== *)
(** * The hub's side of the relay ([src/src/relay/client.rs])

    The task that keeps a connection to the relay, answers the requests forwarded on it by
    calling the local hub, and reconnects. Unicode upper-casing, lossy decoding, percent
    decoding and the local hub's answers are parameters. The last part composes phone,
    relay server, relay client and the hub's confirmation handler. *)
From Stdlib Require Import Ascii.
From S2P Require Import Prelude StrLemmas Pairing Limiters RelayBase RelayServer.
Import Str.
Local Open Scope hub_scope.

Definition MAX_RELAY_BODY_BYTES : nat := 8 * 1024 * 1024.

Definition HOP_BY_HOP_HEADERS : list string :=
  ["connection"; "keep-alive"; "proxy-authenticate"; "proxy-authorization"; "te"; "trailer";
   "transfer-encoding"; "upgrade"].

Definition is_blocked_forward_header (name : string) : bool :=
  let lower := to_ascii_lowercase name in
  if (lower =? "host")%string || (lower =? "content-length")%string then true
  else existsb (fun h => (h =? lower)%string) HOP_BY_HOP_HEADERS.

(** ** Bodies *)

Definition take_bytes (n : nat) (s : string) : string := String.substring 0 n s.

(** [read_body_capped] up to the decoding; a chunk that is [None] is a read error. *)
Fixpoint read_body (cap : nat) (buf : string) (chunks : list (option string)) : option string :=
  match chunks with
  | [] => Some buf
  | None :: _ => None
  | Some chunk :: chunks =>
      let remaining := (cap - len buf)%nat in
      let take := Nat.min remaining (len chunk) in
      let buf := buf +:+ take_bytes take chunk in
      if (take <? len chunk)%nat then Some buf else read_body cap buf chunks
  end.

Definition read_body_capped (lossy : string -> string) (cap : nat) (chunks : list (option string))
    : option string := lossy <$> read_body cap "" chunks.

(** ** One forwarded request *)

Record HttpRequest := {
  q_method : string;
  q_url : string;
  q_headers : list (string * string);
  q_body : option string;
}.

(** What the local hub answers: status, headers (as text, when they are), and the body's
    chunks; or a transport error. *)
Notation HubAnswer := (result (Z * list (string * option string) * list (option string)) string).

Section Client.
Context (to_uppercase lossy percent_decode : string -> string).
Context (hub_base relay_secret : string).

(** The request [forward_to_hub] sends; headers are appended in this order. *)
Definition build_request (method path : string) (headers : gmap string string) (body : option string)
    : result HttpRequest string :=
  let m := to_uppercase method in
  if existsb (fun x => (x =? m)%string) ["GET"; "POST"; "PUT"; "DELETE"; "PATCH"; "HEAD"] then
    Ok {| q_method := m; q_url := hub_base +:+ path;
          q_headers := List.filter (fun p : string * string => negb (is_blocked_forward_header p.1)) (map_to_list headers)
                       ++ [("x-ilink-relay-secret", relay_secret)];
          q_body := body |}
  else Err ("unsupported method: " +:+ m).

Definition forward_to_hub (hub : HttpRequest -> HubAnswer) (method path : string)
    (headers : gmap string string) (body : option string)
    : result (Z * gmap string string * option string) string * list HttpRequest :=
  match build_request method path headers body with
  | Err e => (Err e, [])
  | Ok q =>
      (match hub q with
       | Err e => Err e
       | Ok (status, hs, chunks) =>
           Ok (status, header_map hs, read_body_capped lossy MAX_RELAY_BODY_BYTES chunks)
       end, [q])
  end.

(** ** A session *)

Inductive SessionExit := EndedNormally | Shutdown | SessionError (e : string).

(** How the wait for the next frame ends. *)
Inductive Frame :=
| IdleTimeout | ShutdownSeen | SocketError (e : string) | SocketClosed
| NonText | Unparseable | Message (m : RelayMessage).

(** A frame, and what happens while it is handled: whether shutdown arrives during the call
    of the hub or during the write of the reply, and whether that write succeeds. *)
Record FrameIn := {
  fi_frame : Frame;
  fi_shutdown_call : bool;
  fi_shutdown_write : bool;
  fi_write : option string;
}.

Record SessionLog := {
  sl_written : list RelayMessage;
  sl_calls : list HttpRequest;
}.

Definition log_call (qs : list HttpRequest) (l : SessionLog) : SessionLog :=
  {| sl_written := sl_written l; sl_calls := sl_calls l ++ qs |}.
Definition log_write (m : RelayMessage) (l : SessionLog) : SessionLog :=
  {| sl_written := sl_written l ++ [m]; sl_calls := sl_calls l |}.

(** A write raced against shutdown: [Some] is the end of the session. *)
Definition send_frame (i : FrameIn) (m : RelayMessage) (l : SessionLog) : option SessionExit * SessionLog :=
  if fi_shutdown_write i then (Some Shutdown, l) else
  match fi_write i with
  | Some e => (Some (SessionError e), l)
  | None => (None, log_write m l)
  end.

(** The reply to a request, and the calls made for it; [error_json] renders an error. *)
Definition answer_request (hub : HttpRequest -> HubAnswer) (error_json : string -> string)
    (id method path : string) (headers : gmap string string) (body : option string)
    : RelayMessage * list HttpRequest :=
  if negb (is_allowed_relay_path percent_decode path)
  then (Response id 403 ∅ (Some (error_json "forbidden path")), [])
  else match forward_to_hub hub method path headers body with
       | (Ok (status, hs, b), calls) => (Response id status hs b, calls)
       | (Err e, calls) => (Response id 502 ∅ (Some (error_json e)), calls)
       end.

(** One turn of the loop of [run_session]. A call interrupted by shutdown may have gone out. *)
Definition on_frame (hub : HttpRequest -> HubAnswer) (error_json : string -> string) (i : FrameIn)
    (l : SessionLog) : option SessionExit * SessionLog :=
  match fi_frame i with
  | IdleTimeout => (Some EndedNormally, l)
  | ShutdownSeen => (Some Shutdown, l)
  | SocketError e => (Some (SessionError e), l)
  | SocketClosed => (Some EndedNormally, l)
  | NonText | Unparseable => (None, l)
  | Message (Registered ok error) =>
      if ok then (None, l)
      else (Some (SessionError ("relay registration failed: " +:+ unwrap_or error "unknown")), l)
  | Message (Request id method path headers body) =>
      let '(reply, calls) := answer_request hub error_json id method path headers body in
      if fi_shutdown_call i && is_allowed_relay_path percent_decode path then (Some Shutdown, log_call calls l) else
      send_frame i reply (log_call calls l)
  | Message RelayBase.Ping => send_frame i Pong l
  | Message _ => (None, l)
  end.

Fixpoint session_loop (hub : HttpRequest -> HubAnswer) (error_json : string -> string) (frames : list FrameIn)
    (l : SessionLog) : option SessionExit * SessionLog :=
  match frames with
  | [] => (None, l)
  | i :: frames =>
      match on_frame hub error_json i l with
      | (None, l) => session_loop hub error_json frames l
      | (Some e, l) => (Some e, l)
      end
  end.

(** The beginning of a session: the connection and the write of the registration are raced
    against shutdown; signing can fail. *)
Inductive Handshake := HsShutdown | HsFailed (e : string) | HsConnected (register : result RelayMessage string) (i : FrameIn).

Definition run_session (hub : HttpRequest -> HubAnswer) (error_json : string -> string) (h : Handshake)
    (frames : list FrameIn) : option SessionExit * SessionLog :=
  let l := {| sl_written := []; sl_calls := [] |} in
  match h with
  | HsShutdown => (Some Shutdown, l)
  | HsFailed e => (Some (SessionError e), l)
  | HsConnected (Err e) _ => (Some (SessionError e), l)
  | HsConnected (Ok register) i =>
      match send_frame i register l with
      | (None, l) => session_loop hub error_json frames l
      | (Some e, l) => (Some e, l)
      end
  end.

(** ** The reconnect loop *)

(** The flag before a session, the end of the session, and the flag after the pause. *)
Record Attempt := {
  at_flag : bool;
  at_exit : SessionExit;
  at_flag_after : bool;
}.

(** [Some n]: the task ended after [n] sessions; [None]: it goes on. *)
Fixpoint run_relay_loop (n : nat) (attempts : list Attempt) : option nat :=
  match attempts with
  | [] => None
  | a :: attempts =>
      if at_flag a then Some n else
      match at_exit a with
      | Shutdown => Some (S n)
      | _ => if at_flag_after a then Some (S n) else run_relay_loop (S n) attempts
      end
  end.
End Client.

(** ** Properties *)

Lemma take_bytes_0 s : take_bytes 0 s = "".
Proof. by destruct s. Qed.

Lemma take_bytes_all n s : (len s <= n)%nat -> take_bytes n s = s.
Proof.
  unfold take_bytes, len. revert n. induction s as [|a s IH]; intros n Hn; [by destruct n|].
  destruct n as [|n]; [cbn in Hn; lia|]. cbn. f_equal. apply IH. cbn in Hn. lia.
Qed.

Lemma take_bytes_app n s t : take_bytes n (s +:+ t) = take_bytes n s +:+ take_bytes (n - len s) t.
Proof.
  unfold take_bytes, len. revert n. induction s as [|a s IH]; intros n.
  - by destruct n.
  - destruct n as [|n]; [cbn; by destruct t|]. rewrite append_cons. cbn. rewrite append_cons. f_equal. apply IH.
Qed.

(** The body that is kept is the first [cap] bytes of the body that was sent, however the
    transport cut it into chunks. *)
Theorem read_body_prefix (cap : nat) (buf : string) (chunks : list string) (Hbuf : (len buf <= cap)%nat) :
  read_body cap buf (Some <$> chunks) = Some (take_bytes cap (buf +:+ concat chunks)).
Proof.
  revert buf Hbuf. induction chunks as [|c chunks IH]; intros buf Hbuf.
  - cbn. rewrite append_nil_r. by rewrite take_bytes_all.
  - cbn [fmap list_fmap read_body]. change (concat (c :: chunks)) with (c +:+ concat chunks).
    destruct (Nat.ltb_spec (Nat.min (cap - len buf) (len c)) (len c)) as [Hlt|Hge].
    + f_equal. rewrite Nat.min_l by lia. rewrite take_bytes_app, (take_bytes_all cap buf), take_bytes_app by done.
      replace (cap - len buf - len c)%nat with 0%nat by lia. by rewrite take_bytes_0, append_nil_r.
    + rewrite Nat.min_r, take_bytes_all by lia. rewrite IH.
      * by rewrite append_assoc.
      * unfold len in *. rewrite length_append. lia.
Qed.

Section Confined.
Context (to_uppercase lossy percent_decode : string -> string).
Context (hub_base relay_secret : string).
Context (hub : HttpRequest -> HubAnswer) (error_json : string -> string).

(** A call the client may make. *)
Definition confined (q : HttpRequest) : Prop :=
  (exists path, is_allowed_relay_path percent_decode path = true /\ q_url q = hub_base +:+ path) /\
  exists hs, q_headers q = hs ++ [("x-ilink-relay-secret", relay_secret)] /\
    Forall (fun p => is_blocked_forward_header p.1 = false) hs.

Lemma answer_confined id method path headers body :
  Forall confined (answer_request to_uppercase lossy percent_decode hub_base relay_secret hub error_json
                     id method path headers body).2.
Proof.
  unfold answer_request. destruct (is_allowed_relay_path percent_decode path) eqn:Ep; cbn [negb]; [|constructor].
  unfold forward_to_hub, build_request. destruct (existsb _ _); [|constructor].
  set (q := {| q_method := _; q_url := _; q_headers := _; q_body := _ |}).
  assert (Hq : Forall confined [q]).
  { constructor; [|constructor]. split; [by exists path|]. eexists. split; [reflexivity|].
    apply Forall_forall. intros p Hp. apply list_elem_of_In, filter_In in Hp as [_ Hp].
    by destruct (is_blocked_forward_header p.1). }
  by destruct (hub q) as [[[??]?]|].
Qed.

(** A property of the calls made for each request that arrives holds of all calls of the
    session. *)
Lemma session_calls_all (P : HttpRequest -> Prop) (h : Handshake) (frames : list FrameIn)
    (Hanswer : forall i id method path headers body, i ∈ frames ->
       fi_frame i = Message (Request id method path headers body) ->
       Forall P (answer_request to_uppercase lossy percent_decode hub_base relay_secret hub error_json
                   id method path headers body).2) :
  Forall P (sl_calls (run_session to_uppercase lossy percent_decode hub_base relay_secret hub error_json h frames).2).
Proof.
  assert (Hsend : forall i m l, Forall P (sl_calls l) -> Forall P (sl_calls (send_frame i m l).2)).
  { intros i m l Hl. unfold send_frame. destruct (fi_shutdown_write i); [done|]. by destruct (fi_write i). }
  assert (Hframe : forall i l, i ∈ frames -> Forall P (sl_calls l) ->
    Forall P (sl_calls (on_frame to_uppercase lossy percent_decode hub_base relay_secret hub error_json i l).2)).
  { intros i l Hi Hl. specialize (Hanswer i). unfold on_frame. destruct (fi_frame i) as [| |e| | | |m]; try done.
    destruct m as [|ok err|id method path hs b|id st hs b| |]; try done; [by destruct ok| |by apply Hsend].
    specialize (Hanswer id method path hs b Hi eq_refl). destruct (answer_request _ _ _ _ _ _ _ _ _ _ _ _) as [reply calls].
    assert (Hc : Forall P (sl_calls (log_call calls l))) by (cbn; by apply Forall_app).
    destruct (_ && _); [done|]. by apply Hsend. }
  clear Hanswer. assert (Hloop : forall l, Forall P (sl_calls l) ->
    Forall P (sl_calls (session_loop to_uppercase lossy percent_decode hub_base relay_secret hub error_json frames l).2)).
  { induction frames as [|i fs IH]; intros l Hl; [done|]. cbn [session_loop].
    assert (Hl' := Hframe i l (list_elem_of_here _ _) Hl).
    destruct (on_frame _ _ _ _ _ _ _ i l) as [[e|] l']; [done|]. apply IH; [|done].
    intros j l0 Hj. apply Hframe. by right. }
  unfold run_session. destruct h as [|e|[reg|e] i]; try by constructor.
  specialize (Hsend i reg {| sl_written := []; sl_calls := [] |}).
  destruct (send_frame i reg _) as [[e|] l']; [by apply Hsend|by apply Hloop, Hsend].
Qed.

(** Every call a session makes goes to a path of the local hub that the filter accepts, with
    the process's own secret as last header and without hop-by-hop headers. What such a path
    becomes at the hub is the subject of [RelayHub]. *)
Theorem session_calls_confined (h : Handshake) (frames : list FrameIn) :
  Forall confined (sl_calls (run_session to_uppercase lossy percent_decode hub_base relay_secret hub error_json
                               h frames).2).
Proof. apply session_calls_all. intros. apply answer_confined. Qed.
End Confined.
