(* ===== verification/RelaySocket.v ===== *)
(** * The relay's task for one connection ([handle_hub_socket] of [src/relay/server.rs])

    [RelayServer] has the steps of all connections as a transition relation. Here is the
    task of one connection as the source writes it: a loop over what its [select!] sees
    (the deadline of the registration, the keep-alive timer, frames of the socket, the
    queue of requests), each branch with its guard, and the clean-up behind the loop. Its
    runs are runs of the relation, whatever the other tasks do between two of its turns. *)
From S2P Require Import Prelude RelayBase Limiters RelayServer RelayDevice RelayClient.
From stdpp Require Import relations.
From Stdlib Require Import Ascii.
Local Open Scope hub_scope.

(** What a turn of the loop sees; [written] tells whether a write to the socket succeeds.
    The clocks are those of the verification. Rendering a message as JSON does not fail. *)
Inductive SocketEvent :=
| Deadline
| KeepAlive (written : bool)
| SocketGone
| OtherFrame
| Text (m : RelayMessage) (now_unix now : Z)
| Outgoing (written : bool).

Section Socket.
Context {VKey Sig : Type}.
Context (b64_decode : string -> option (list N)) (key_of_bytes : list N -> option VKey)
        (to_bytes : VKey -> list N)
        (sig_of_slice : list N -> option Sig) (ed25519_verify : VKey -> string -> Sig -> bool).

Notation verifies := (verify_step b64_decode key_of_bytes to_bytes sig_of_slice ed25519_verify).
Notation step := (relay_step b64_decode key_of_bytes to_bytes sig_of_slice ed25519_verify).
Notation inv := (relay_inv b64_decode key_of_bytes to_bytes sig_of_slice ed25519_verify).

Definition phase_of (c : nat) (s : Relay) : option RelayServer.Phase := c_phase <$> conns s !! c.

(** [device_id.is_some()]. *)
Definition is_registered (c : nat) (s : Relay) : bool :=
  match phase_of c s with Some (Active _ _) => true | _ => false end.

(** A [Register] message: the cap, the verification, the entry. A refusal ends the task. *)
Definition on_register (c : nat) (r : Registration) (now_unix now : Z) (s : Relay) : Relay :=
  let s := check_cap c r s in
  match phase_of c s with
  | Some (CapChecked _) =>
      let s := verifies now_unix now c r s in
      match phase_of c s with
      | Some (Accepted _ key) => insert_step c r key s
      | _ => s
      end
  | _ => s
  end.

(** One turn. [None]: the branch is disabled, so the event is not seen. *)
Definition on_socket (c : nat) (e : SocketEvent) (s : Relay) : option Relay :=
  match e with
  | Deadline => if is_registered c s then None else Some (leave c s)
  | KeepAlive written => if is_registered c s then Some (if written then s else leave c s) else None
  | SocketGone => Some (leave c s)
  | OtherFrame => Some s
  | Text m now_unix now =>
      match m with
      | Register _ _ _ _ =>
          match read_registration m with
          | Some r => Some (match phase_of c s with
                            | Some Unregistered => on_register c r now_unix now s
                            | _ => s
                            end)
          | None => Some s
          end
      | Response id status headers body => Some (on_response id status headers body s)
      | _ => Some s
      end
  | Outgoing written =>
      k ← conns s !! c;
      match c_queue k with
      | [] => None
      | _ => Some (if written then write_queued c s else leave c s)
      end
  end.

(** The loop and the clean-up behind it. Between two turns, and before the clean-up, the
    rest of the relay moves; [others] are its moves. *)
Fixpoint run_socket (c : nat) (turns : list ((Relay -> Relay) * SocketEvent)) (s : Relay) : Relay :=
  match turns with
  | [] => s
  | (others, e) :: turns =>
      let s := others s in
      match conns s !! c with
      | None => s
      | Some k => if c_reading k then run_socket c turns (default s (on_socket c e s)) else disconnect c s
      end
  end.

(** ** Runs of the task are runs of the relay *)

Lemma phase_in c s p : phase_of c s = Some p <-> in_phase s c p.
Proof. unfold phase_of, in_phase. rewrite fmap_Some. naive_solver. Qed.

Lemma disconnect_gone c s : conns (disconnect c s) !! c = None.
Proof. unfold disconnect. destruct (conns s !! c) as [k|] eqn:E; [|done]. cbn. apply lookup_delete_eq. Qed.

Lemma check_cap_phase c r s p : phase_of c (check_cap c r s) = Some p -> p = CapChecked r.
Proof.
  unfold check_cap, phase_of. destruct (_ && _); [unfold refuse; by rewrite disconnect_gone|].
  cbn. rewrite lookup_alter_eq. destruct (conns s !! c); [|done]. by intros [= <-].
Qed.

Lemma verifies_phase c r nu now s p : phase_of c (verifies nu now c r s) = Some p -> exists key, p = Accepted r key.
Proof.
  unfold verify_step, phase_of. destruct (accept_registration _ _ _ _ _ _ _ _ _) as [[key|e] s1].
  - cbn. rewrite lookup_alter_eq. destruct (conns s1 !! c); [|done]. intros [= <-]. by exists key.
  - unfold refuse. by rewrite disconnect_gone.
Qed.

Lemma is_reading_update c f s : (forall k, c_reading (f k) = c_reading k) -> is_reading c (update_conn c f s) = is_reading c s.
Proof. intros Hf. unfold is_reading. cbn. rewrite lookup_alter_eq. destruct (conns s !! c); [apply Hf|done]. Qed.

Lemma check_cap_reading c r s p : phase_of c (check_cap c r s) = Some p -> is_reading c (check_cap c r s) = is_reading c s.
Proof.
  unfold check_cap, phase_of. destruct (_ && _); [unfold refuse; by rewrite disconnect_gone|]. intros _. by apply is_reading_update.
Qed.

Lemma verifies_reading c r nu now s p : phase_of c (verifies nu now c r s) = Some p ->
  is_reading c (verifies nu now c r s) = is_reading c s.
Proof.
  unfold verify_step, phase_of. pose proof (accept_spec b64_decode key_of_bytes to_bytes sig_of_slice ed25519_verify nu now r s) as Ha.
  destruct (accept_registration _ _ _ _ _ _ _ _ _) as [[key|e] s1]; [|unfold refuse; by rewrite disconnect_gone].
  intros _. rewrite is_reading_update by done. unfold is_reading. by destruct Ha as (_ & -> & _).
Qed.

Lemma on_register_runs c r nu now s : is_reading c s = true -> phase_of c s = Some Unregistered -> rtc step s (on_register c r nu now s).
Proof.
  intros Hr Hp%phase_in. unfold on_register. eapply rtc_l; [by apply rs_check|]. set (s1 := check_cap c r s).
  destruct (phase_of c s1) as [p|] eqn:E1; [|apply rtc_refl]. pose proof (check_cap_phase _ _ _ _ E1) as ->.
  assert (Hr1 : is_reading c s1 = true) by (by rewrite <- Hr; eapply check_cap_reading).
  eapply rtc_l; [apply (rs_verify _ _ _ _ _ nu now); [apply phase_in, E1|done]|]. set (s2 := verifies nu now c r s1).
  destruct (phase_of c s2) as [p|] eqn:E2; [|apply rtc_refl]. destruct (verifies_phase _ _ _ _ _ _ E2) as [key ->].
  eapply rtc_once, rs_insert; [apply phase_in, E2|]. by rewrite <- Hr1; eapply verifies_reading.
Qed.

Lemma on_socket_runs c e s s' : is_reading c s = true -> on_socket c e s = Some s' -> rtc step s s'.
Proof.
  intros Hr. assert (Hd : rtc step s (leave c s)) by (by apply rtc_once, rs_leave).
  destruct e as [|w| | |m nu now|w]; cbn [on_socket].
  - destruct (is_registered c s); [done|]. by intros [= <-].
  - destruct (is_registered c s); [|done]. destruct w; by intros [= <-].
  - by intros [= <-].
  - by intros [= <-].
  - destruct m; cbn [read_registration]; intros [= <-]; try done.
    + destruct (phase_of c s) as [[]|] eqn:E; try done. by apply on_register_runs.
    + apply rtc_once, rs_response.
  - destruct (conns s !! c) as [k|]; [|done]. cbn. destruct (c_queue k); [done|].
    destruct w; intros [= <-]; [|done]. by apply rtc_once, rs_write.
Qed.

Lemma run_socket_runs c turns s : Forall (fun t => forall s, rtc step s (t.1 s)) turns -> rtc step s (run_socket c turns s).
Proof.
  revert s. induction turns as [|[others e] turns IH]; intros s Ht; [done|]. cbn [run_socket].
  apply Forall_cons in Ht as [Ho Ht]. specialize (Ho s). cbn in Ho. etransitivity; [exact Ho|].
  destruct (conns (others s) !! c) as [k|] eqn:Ek; [|done]. assert (Er : is_reading c (others s) = c_reading k) by (unfold is_reading; by rewrite Ek).
  destruct (c_reading k); [|by apply rtc_once, rs_disconnect]. etransitivity; [|by apply IH].
  destruct (on_socket c e (others s)) as [s1|] eqn:E; [by eapply on_socket_runs|done].
Qed.

(** The task of a connection, with the rest of the relay moving between its turns in any way
    the relation allows, keeps the relay's invariant; and when it is over, no device is
    routed to the connection any more. *)
Theorem socket_task_sound (c : nat) (turns : list ((Relay -> Relay) * SocketEvent)) (s : Relay)
    (Hothers : Forall (fun t => forall s, rtc step s (t.1 s)) turns) (Hinv : inv s) :
  let s' := run_socket c turns s in
  inv s' /\ (conns s' !! c = None -> forall d, hubs s' !! d <> Some c).
Proof.
  intros s'. assert (Hi : inv s').
  { pose proof (run_socket_runs c turns s Hothers) as Hr. fold s' in Hr. clearbody s'.
    induction Hr as [|x y z Hs _ IH]; [done|]. apply IH. by eapply relay_step_inv. }
  split; [done|]. intros Hgone d Hd. destruct (ri_hubs _ _ _ _ _ _ Hi d c Hd) as (k & _ & _ & E & _). congruence.
Qed.

(** A connection that has not registered when its deadline fires leaves its loop; one that
    has does not see the deadline. *)
Lemma deadline_only_unregistered c s :
  on_socket c Deadline s = None /\ is_registered c s = true \/
  exists s', on_socket c Deadline s = Some s' /\ is_registered c s = false /\ is_reading c s' = false.
Proof.
  cbn. destruct (is_registered c s); [by left|]. right. exists (leave c s). split; [done|]. split; [done|].
  unfold is_reading. cbn. rewrite lookup_alter_eq. by destruct (conns s !! c).
Qed.

(** ** Registering *)

Notation accepts := (accept_registration b64_decode key_of_bytes to_bytes sig_of_slice ed25519_verify).

(** The verification looks only at keys and nonces. *)
Lemma accepts_frame nu now r c f s : accepts nu now r (update_conn c f s) = ((accepts nu now r s).1, update_conn c f (accepts nu now r s).2).
Proof.
  unfold accept_registration. destruct (verify_message _ _ _ _ _ _ _) as [key|]; [|done]. cbn.
  case_bool_decide; [done|]. destruct (device_keys s !! rg_device r) as [old|]; [|done]. by case_bool_decide.
Qed.

Definition has_room (r : Registration) (s : Relay) : Prop :=
  is_Some (hubs s !! rg_device r) \/ (size (hubs s) < MAX_REGISTERED_HUBS)%nat.

Lemma on_register_accepted c r nu now s key s1 : phase_of c s = Some Unregistered -> has_room r s ->
  accepts nu now r s = (Ok key, s1) ->
  let s' := on_register c r nu now s in
  hubs s' = <[rg_device r := c]> (hubs s) /\ phase_of c s' = Some (Active r key) /\
  requests s' = requests s /\ pending s' = pending s /\ c_queue <$> conns s' !! c = c_queue <$> conns s !! c.
Proof.
  intros Hp Hroom Ha. unfold on_register.
  assert (Hcap : check_cap c r s = update_conn c (set_phase (CapChecked r)) s).
  { unfold check_cap. destruct (bool_decide_reflect (hubs s !! rg_device r = None)) as [E|]; [|done]. cbn [andb].
    destruct Hroom as [[? ?]|Hlt]; [congruence|]. by rewrite (proj2 (Nat.leb_gt _ _) Hlt). }
  rewrite Hcap. unfold phase_of in Hp |- *. destruct (conns s !! c) as [k|] eqn:Ek; [|done].
  cbn [conns update_conn set_conns]. rewrite lookup_alter_eq, Ek. cbn [fmap option_fmap option_map set_phase c_phase].
  unfold verify_step. rewrite accepts_frame, Ha. cbn [fst snd].
  assert (Hs1 : conns s1 = conns s /\ hubs s1 = hubs s /\ requests s1 = requests s /\ pending s1 = pending s).
  { revert Ha. unfold accept_registration. destruct (verify_message _ _ _ _ _ _ _) as [kb|]; [|done].
    case_bool_decide; [done|]. destruct (device_keys s !! rg_device r) as [old|]; [case_bool_decide; [|done]|]; by intros [= _ <-]. }
  destruct Hs1 as (Ec & Eh & Er & Ep). cbn [conns update_conn set_conns]. rewrite !lookup_alter_eq, Ec, Ek. cbn.
  rewrite !lookup_alter_eq, Ec, Ek, Eh. by cbn.
Qed.

(** ** A request and its answer *)

(** The task writes the queue out, one message a turn. *)
Fixpoint turns_of (n : nat) : list ((Relay -> Relay) * SocketEvent) :=
  match n with O => [] | S n => (id, Outgoing true) :: turns_of n end.

Lemma run_outgoing c n s k : conns s !! c = Some k -> c_reading k = true -> n <= length (c_queue k) ->
  run_socket c (turns_of n) s = update_conn c (fun k => {| c_phase := c_phase k; c_reading := c_reading k; c_queue := drop n (c_queue k);
                                                           c_written := c_written k ++ take n (c_queue k) |}) s.
Proof.
  revert s k. induction n as [|n IH]; intros s k Hk Hr Hn; cbn [turns_of run_socket id].
  - unfold update_conn, set_conns. destruct s; cbn in *. f_equal. symmetry. apply map_eq. intros i.
    rewrite lookup_alter. case_decide as E; [subst i|done]. rewrite Hk. cbn. destruct k. cbn. by rewrite app_nil_r.
  - rewrite Hk, Hr. cbn [on_socket]. rewrite Hk. cbn. destruct (c_queue k) as [|m q] eqn:Eq; [cbn in Hn; lia|].
    unfold write_queued. rewrite Hk, Eq. cbn.
    rewrite (IH _ (write_msg m (set_queue q k))); [|cbn; by rewrite lookup_alter_eq, Hk|done|cbn in *; lia].
    unfold update_conn, set_conns. cbn. f_equal. apply map_eq. intros i. rewrite !lookup_alter.
    case_decide as E; [subst i|done]. rewrite Hk. cbn. rewrite Eq. cbn. rewrite decide_True by done. cbn. by rewrite <- app_assoc.
Qed.

(** A request makes it there and back: a phone's request to a registered device whose
    connection is in its loop is accepted unless the connection's queue is full; the connection's task writes out what was queued
    before it and then the request, as it was made; and when the hub's client answers with
    what it makes of exactly that message, the waiting request gets that answer, and
    nothing of it stays behind. *)
Theorem relay_round_trip (to_uppercase lossy percent_decode : string -> string) (hub_base secret : string)
    (hub : HttpRequest -> HubAnswer) (error_json : string -> string)
    (c : nat) (k : Conn) (id d method path : string) (headers : list (string * option string)) (body : option string)
    (nu now : Z) (s : Relay)
    (Hd : hubs s !! d = Some c) (Hc : conns s !! c = Some k) (Hread : c_reading k = true) (Hroom : (length (c_queue k) < HUB_OUTBOUND_CAPACITY)%nat)
    (Hid : requests s !! id = None) (Hpid : id ∉ pending s) :
  let req := Request id method path (header_map headers) body in
  let reply := (answer_request to_uppercase lossy percent_decode hub_base secret hub error_json
                  id method path (header_map headers) body).1 in
  exists s1 s2 s3 s4, start_forward id d method path headers body s = (Ok tt, s1) /\
    run_socket c (turns_of (S (length (c_queue k)))) s1 = s2 /\
    c_written <$> conns s2 !! c = Some (c_written k ++ c_queue k ++ [req]) /\
    on_socket c (Text reply nu now) s2 = Some s3 /\
    finish_forward id s3 = (Ok reply, s4) /\ requests s4 = requests s /\ pending s4 = pending s.
Proof.
  intros req reply.
  assert (Hreply : exists st hs b, reply = Response id st hs b).
  { unfold reply, answer_request. destruct (negb _); [by eexists _, _, _|].
    destruct (forward_to_hub _ _ _ _ _ _ _ _ _) as [[[[st hs] b]|e] cs]; by eexists _, _, _. }
  destruct Hreply as (st & hs & b & E). rewrite E. clearbody reply. clear E.
  unfold start_forward. rewrite Hd, Hc, (proj2 (Nat.ltb_lt _ _) Hroom). fold req. set (s1 := update_conn _ _ _).
  assert (Hk1 : conns s1 !! c = Some (set_queue (c_queue k ++ [req]) k)) by (cbn; by rewrite lookup_alter_eq, Hc).
  set (s2 := run_socket c (turns_of (S (length (c_queue k)))) s1).
  exists s1, s2, (on_response id st hs b s2), (finish_forward id (on_response id st hs b s2)).2.
  split; [done|]. split; [done|].
  assert (Hlen : length (c_queue k ++ [req]) = S (length (c_queue k))) by (rewrite length_app; cbn; lia).
  assert (E2 : s2 = _) by (apply (run_outgoing c _ s1 _ Hk1); [done|cbn; lia]). rewrite E2.
  split; [cbn; rewrite !lookup_alter_eq, Hc; cbn; by rewrite take_ge by lia|]. split; [done|].
  unfold on_response. cbn [pending requests update_conn set_conns s1 set_requests].
  rewrite bool_decide_eq_true_2 by set_solver. unfold finish_forward. cbn.
  rewrite lookup_insert_eq. split; [done|]. split.
  - apply map_eq. intros i. rewrite lookup_delete. case_decide as Ei; [by subst|]. by rewrite !lookup_insert_ne.
  - apply leibniz_equiv. set_solver.
Qed.
End Socket.

(** ** A hub that connects *)
Section Hub.
Context {SKey VKey Sig : Type} `{O : SignatureOps SKey VKey Sig} `{!SignatureLaws O}.

Notation turn := (on_socket b64_decode vkey_of_bytes vkey_bytes sig_of_slice verify).

(** A hub becomes reachable: on a connection that has not registered, the message the hub's
    identity signs makes the relay route the device to this connection, whatever connection
    it was routed to before, if there is room for it; other devices keep theirs. The
    provisos are those of the acceptance ([RelayDevice]). *)
Theorem hub_becomes_reachable (c : nat) (id : DeviceIdentity) (k : SKey) (t nu now : Z) (s : Relay)
    (Hphase : phase_of c s = Some Unregistered)
    (Hroom : is_Some (hubs s !! di_device_id id) \/ (size (hubs s) < MAX_REGISTERED_HUBS)%nat)
    (Hid : validate_device_id (di_device_id id) = true) (Hk : di_signing_key_b64 id = b64_encode (skey_bytes k))
    (Hn : (0 <= nu <= 2 ^ 62)%Z) (Ht : (i64_min <= t <= i64_max)%Z)
    (Hskew : (Z.abs (nu - t) <= REGISTER_MAX_SKEW_SECS)%Z)
    (Hfresh : nonces s !! (di_device_id id, t) = None)
    (Hown : forall key, device_keys s !! di_device_id id = Some key -> key = vkey_bytes (vkey_of k)) :
  exists m s', register_message id t = Ok m /\ turn c (Text m nu now) s = Some s' /\
    hubs s' = <[di_device_id id := c]> (hubs s) /\ is_registered c s' = true.
Proof.
  unfold register_message, public_key_b64, sign_register, verifying_key. rewrite (signing_key_exact id k Hk).
  cbn [result_bind]. eexists _, _. split; [reflexivity|]. cbn [on_socket read_registration]. rewrite Hphase.
  split; [reflexivity|].
  destruct (accept_own id k t nu now s) as (s1 & Ha & _); [done..|].
  eapply on_register_accepted in Ha; [|exact Hphase|exact Hroom]. destruct Ha as (Hh & Hp & _).
  split; [exact Hh|]. unfold is_registered. by rewrite Hp.
Qed.
End Hub.

(** ** Instances *)

Lemma hub_becomes_reachable_witness :
  let id := {| di_device_id := "device-01"; di_signing_key_b64 := VToken.hex_lower (repeat 65%N 32) |} in
  exists m s', register_message (O:=Toy.ops) id 1000 = Ok m /\
    on_socket (b64_decode (SignatureOps:=Toy.ops)) (vkey_of_bytes (SignatureOps:=Toy.ops))
      (vkey_bytes (SignatureOps:=Toy.ops)) (sig_of_slice (SignatureOps:=Toy.ops)) (verify (SignatureOps:=Toy.ops))
      1 (Text m 1030 5) (ws_pairing 0 "10.0.0.1" Relay_new).2 = Some s' /\
    hubs s' = {[ "device-01" := 1%nat ]} /\ is_registered 1 s' = true.
Proof.
  intros id.
  destruct (@hub_becomes_reachable _ _ _ Toy.ops Toy.toy_laws 1 id "A"%char 1000 1030 5 (ws_pairing 0 "10.0.0.1" Relay_new).2)
    as (m & s' & H1 & H2 & H3 & H4).
  - vm_compute. reflexivity.
  - right. vm_compute. repeat constructor.
  - vm_compute. reflexivity.
  - reflexivity.
  - lia.
  - unfold i64_min, i64_max. lia.
  - unfold REGISTER_MAX_SKEW_SECS. lia.
  - reflexivity.
  - intros key [=].
  - exists m, s'. split; [exact H1|]. split; [exact H2|]. split; [exact H3|exact H4].
Defined.

(** A request on a relay with one registered hub, answered 404 by it. *)
Definition demo_relay : Relay :=
  set_hubs {[ "device-01" := 1%nat ]} (ws_pairing 0 "10.0.0.1" Relay_new).2.

Definition demo_reply : RelayMessage :=
  (answer_request id id id "http://127.0.0.1:8765" "s" (fun _ => Ok (404%Z, [], [])) id
     "r1" "GET" "/hub/pair/abc" ∅ None).1.

Lemma relay_round_trip_witness :
  exists s3 s4, finish_forward "r1" s3 = (Ok demo_reply, s4) /\ pending s4 = ∅ /\
    demo_reply = Response "r1" 404 ∅ (Some "").
Proof.
  destruct (relay_round_trip (fun _ => None) (fun _ => @None unit) (fun _ => []) (fun _ => @None unit) (fun _ _ _ => false)
    id id id "http://127.0.0.1:8765" "s" (fun _ => Ok (404%Z, [], [])) id 1
    {| c_phase := Unregistered; c_reading := true; c_queue := []; c_written := [] |} "r1" "device-01" "GET" "/hub/pair/abc" [] None 0 0 demo_relay)
    as (s1 & s2 & s3 & s4 & _ & _ & _ & _ & Hf & _ & Hp).
  - vm_compute. reflexivity.
  - vm_compute. reflexivity.
  - reflexivity.
  - vm_compute. repeat constructor.
  - vm_compute. reflexivity.
  - apply (bool_decide_eq_true_1 _). vm_compute. reflexivity.
  - exists s3, s4. split; [exact Hf|]. split; [rewrite Hp; vm_compute; reflexivity|vm_compute; reflexivity].
Defined.
