(* ===== verification/Hub.v ===== *)
(** * The shared hub state ([src/src/hub/state.rs]) and the effects of its handlers

    [World] collects what the handlers of the hub read and change: the in-memory
    sub-states of [HubState], the store, the requests handed to the upstream
    client, and the detached tasks that write history. What the environment
    decides is in it as a supply: for each database call whether it fails or is
    late, for each upstream call its answer, fresh UUIDs, and the clock. A handler
    is a function of the monad [hub]; it runs without interruption between
    requests (handlers of one dispatcher run one after the other; the steps of
    different handlers that share a lock are serialised by it). *)
From S2P Require Import Prelude StrLemmas Pairing Limiters Types Queue Router Footer VToken Registry Acl Store PollTracker.
Import Str.

(** ** Interface of the rate limiter used by the outbound routes *)

(** [check] charges one token of a key at a time of the monotonic clock and answers
    how long to wait when there is none ([RateLimitOutcome::Denied]). *)
Class RateLimiter (L : Type) := rl_check : L -> Z -> string -> option Z * L.

(** A database call executes, returns an error, or does not answer in time. *)
Inductive Fault := Executes | Fails (e : string) | Late.

Record Metrics := {
  messages_dispatched : Z;
  messages_dropped : Z;
  messages_rejected_by_client : gmap string Z;
  upstream_user_messages : Z;
  sendmessage_total : Z;
  sendmessage_errors : Z;
  messages_persist_dropped : Z;
  quote_resolve_miss_total : Z;
  getupdates_latency_ms : LatencyHistogram;
  dispatch_latency_ms : LatencyHistogram;
}.

Definition Metrics_new : Metrics :=
  {| messages_dispatched := 0; messages_dropped := 0; messages_rejected_by_client := ∅;
     upstream_user_messages := 0; sendmessage_total := 0; sendmessage_errors := 0;
     messages_persist_dropped := 0; quote_resolve_miss_total := 0;
     getupdates_latency_ms := LatencyHistogram_new; dispatch_latency_ms := LatencyHistogram_new |}.

(** One [fetch_add(1)] on the counter a case names; counters wrap. *)
Inductive Counter :=
| Dispatched | Dropped | Rejected (vtoken : string) | UserMessage | SendTotal | SendError
| PersistDropped | QuoteMiss.

Definition inc (n : Z) : Z := wrap_u64 (n + 1).

Definition bump (c : Counter) (m : Metrics) : Metrics :=
  {| messages_dispatched :=
       match c with Dispatched => inc (messages_dispatched m) | _ => messages_dispatched m end;
     messages_dropped :=
       match c with Dropped => inc (messages_dropped m) | _ => messages_dropped m end;
     messages_rejected_by_client :=
       match c with
       | Rejected v => <[v := inc (default 0%Z (messages_rejected_by_client m !! v))]>
                         (messages_rejected_by_client m)
       | _ => messages_rejected_by_client m
       end;
     upstream_user_messages :=
       match c with UserMessage => inc (upstream_user_messages m) | _ => upstream_user_messages m end;
     sendmessage_total :=
       match c with SendTotal => inc (sendmessage_total m) | _ => sendmessage_total m end;
     sendmessage_errors :=
       match c with SendError => inc (sendmessage_errors m) | _ => sendmessage_errors m end;
     messages_persist_dropped :=
       match c with PersistDropped => inc (messages_persist_dropped m)
               | _ => messages_persist_dropped m end;
     quote_resolve_miss_total :=
       match c with QuoteMiss => inc (quote_resolve_miss_total m)
               | _ => quote_resolve_miss_total m end;
     getupdates_latency_ms := getupdates_latency_ms m;
     dispatch_latency_ms := dispatch_latency_ms m |}.

Definition observe_dispatch (ns : Z) (m : Metrics) : Metrics :=
  {| messages_dispatched := messages_dispatched m; messages_dropped := messages_dropped m;
     messages_rejected_by_client := messages_rejected_by_client m;
     upstream_user_messages := upstream_user_messages m;
     sendmessage_total := sendmessage_total m; sendmessage_errors := sendmessage_errors m;
     messages_persist_dropped := messages_persist_dropped m;
     quote_resolve_miss_total := quote_resolve_miss_total m;
     getupdates_latency_ms := getupdates_latency_ms m;
     dispatch_latency_ms := observe (dispatch_latency_ms m) ns |}.

(** The drop of [HistoGuard] at the end of [getupdates]. *)
Definition observe_getupdates (ns : Z) (m : Metrics) : Metrics :=
  {| messages_dispatched := messages_dispatched m; messages_dropped := messages_dropped m;
     messages_rejected_by_client := messages_rejected_by_client m;
     upstream_user_messages := upstream_user_messages m;
     sendmessage_total := sendmessage_total m; sendmessage_errors := sendmessage_errors m;
     messages_persist_dropped := messages_persist_dropped m;
     quote_resolve_miss_total := quote_resolve_miss_total m;
     getupdates_latency_ms := observe (getupdates_latency_ms m) ns;
     dispatch_latency_ms := dispatch_latency_ms m |}.

(** A detached [save_message] task. *)
Record HistoryTask := {
  t_vctx : string;
  t_vtoken : string;
  t_session : string;
  t_peer : string;
  t_role : string;
  t_content : string;
  t_msg_id : option Z;
}.

(** Pending [call_agent] replies: the text a waiter received, if any. *)
Definition Waiters := gmap string (option string).

(** Connection status with the messaging service, [hub::ilink_status]; a byte. *)
Definition UNKNOWN : Z := 0.
Definition CONNECTED : Z := 1.
Definition NEEDS_LOGIN : Z := 2.
Definition LOGGING_IN : Z := 3.

(** [QrLoginUiEvent] of [ilink/login.rs]: what a login shows to its user. *)
Inductive QrLoginUiEvent :=
| UiReady (image link : string)
| UiStatus (message : string)
| UiDone
| UiExpired.

(** State of the pairing and login endpoints: the pairing registry, the limiters of its
    routes, the tickets and the cached QR event of the login stream, the status byte, the
    number of re-login signals sent, and the secret shared with the relay client. *)
Record Web := {
  web_pairing : PairingRegistry;
  web_confirm : gmap (string * string) Z;
  web_qr : gmap string (list Z);
  web_tickets : gmap string Z;
  web_ilink_status : Z;
  web_relogin : nat;
  web_last_ready : option QrLoginUiEvent;
  web_relay_secret : string;
}.

Definition Web_new (secret : string) : Web :=
  {| web_pairing := PairingRegistry_new; web_confirm := ∅; web_qr := ∅; web_tickets := ∅;
     web_ilink_status := UNKNOWN; web_relogin := 0; web_last_ready := None;
     web_relay_secret := secret |}.

(** What the environment supplies. *)
Record Env := {
  faults : list Fault;
  send_replies : list (result SendMessageResponse string);
  uuids : list string;
  random_bytes : list (list N);
  now_secs : Z;
  now_millis : Z;
  now_nanos : Z;
  local_stamp : string;
  local_stamp_ms : string;
  upsert_arbiter : bool;
}.

Record World (Q L : Type) := {
  w_registry : ClientRegistry;
  w_router : Router;
  w_queue : Q;
  w_store : Store;
  w_metrics : Metrics;
  w_acl : AgentAcl;
  w_admin : AdminConfig;
  w_tracker : PollTracker;
  w_limiter : L;
  w_last_seen : gmap string Z;
  w_waiters : Waiters;
  w_outbox : list SendMessageRequest;
  w_tasks : list HistoryTask;
  w_msg_counter : Z;
  w_web : Web;
  w_env : Env;
}.
Arguments w_registry {Q L}. Arguments w_router {Q L}. Arguments w_queue {Q L}.
Arguments w_store {Q L}. Arguments w_metrics {Q L}. Arguments w_acl {Q L}.
Arguments w_admin {Q L}. Arguments w_tracker {Q L}. Arguments w_limiter {Q L}.
Arguments w_last_seen {Q L}. Arguments w_waiters {Q L}. Arguments w_outbox {Q L}.
Arguments w_tasks {Q L}. Arguments w_msg_counter {Q L}. Arguments w_web {Q L}. Arguments w_env {Q L}.

Definition hub (Q L A : Type) : Type := World Q L -> A * World Q L.

Definition ret {Q L A} (x : A) : hub Q L A := fun w => (x, w).

Definition bind {Q L A B} (m : hub Q L A) (k : A -> hub Q L B) : hub Q L B :=
  fun w => let '(x, w') := m w in k x w'.

Notation "'let*' x ':=' m 'in' k" := (bind m (fun x => k))
  (at level 200, x pattern, m at level 100, k at level 200, right associativity) : hub_scope.
Notation "m ';;' k" := (bind m (fun _ => k)) (at level 100, k at level 200, right associativity) : hub_scope.
Open Scope hub_scope.

Section Hub.
Context {Q L : Type}.
Implicit Types w : World Q L.

(** *** Updates of one component *)

Definition update (reg : ClientRegistry) (rt : Router) (q : Q) (st : Store) (mt : Metrics)
    (tr : PollTracker) (lm : L) (seen : gmap string Z) (ws : Waiters)
    (out : list SendMessageRequest) (ts : list HistoryTask) (n : Z) (e : Env) w : World Q L :=
  {| w_registry := reg; w_router := rt; w_queue := q; w_store := st; w_metrics := mt;
     w_acl := w_acl w; w_admin := w_admin w; w_tracker := tr; w_limiter := lm;
     w_last_seen := seen; w_waiters := ws; w_outbox := out; w_tasks := ts;
     w_msg_counter := n; w_web := w_web w; w_env := e |}.

Definition with_registry (x : ClientRegistry) w : World Q L :=
  update x (w_router w) (w_queue w) (w_store w) (w_metrics w) (w_tracker w) (w_limiter w)
    (w_last_seen w) (w_waiters w) (w_outbox w) (w_tasks w) (w_msg_counter w) (w_env w) w.
Definition with_router (x : Router) w : World Q L :=
  update (w_registry w) x (w_queue w) (w_store w) (w_metrics w) (w_tracker w) (w_limiter w)
    (w_last_seen w) (w_waiters w) (w_outbox w) (w_tasks w) (w_msg_counter w) (w_env w) w.
Definition with_queue (x : Q) w : World Q L :=
  update (w_registry w) (w_router w) x (w_store w) (w_metrics w) (w_tracker w) (w_limiter w)
    (w_last_seen w) (w_waiters w) (w_outbox w) (w_tasks w) (w_msg_counter w) (w_env w) w.
Definition with_store (x : Store) w : World Q L :=
  update (w_registry w) (w_router w) (w_queue w) x (w_metrics w) (w_tracker w) (w_limiter w)
    (w_last_seen w) (w_waiters w) (w_outbox w) (w_tasks w) (w_msg_counter w) (w_env w) w.
Definition with_metrics (x : Metrics) w : World Q L :=
  update (w_registry w) (w_router w) (w_queue w) (w_store w) x (w_tracker w) (w_limiter w)
    (w_last_seen w) (w_waiters w) (w_outbox w) (w_tasks w) (w_msg_counter w) (w_env w) w.
Definition with_tracker (x : PollTracker) w : World Q L :=
  update (w_registry w) (w_router w) (w_queue w) (w_store w) (w_metrics w) x (w_limiter w)
    (w_last_seen w) (w_waiters w) (w_outbox w) (w_tasks w) (w_msg_counter w) (w_env w) w.
Definition with_limiter (x : L) w : World Q L :=
  update (w_registry w) (w_router w) (w_queue w) (w_store w) (w_metrics w) (w_tracker w) x
    (w_last_seen w) (w_waiters w) (w_outbox w) (w_tasks w) (w_msg_counter w) (w_env w) w.
Definition with_last_seen (x : gmap string Z) w : World Q L :=
  update (w_registry w) (w_router w) (w_queue w) (w_store w) (w_metrics w) (w_tracker w)
    (w_limiter w) x (w_waiters w) (w_outbox w) (w_tasks w) (w_msg_counter w) (w_env w) w.
Definition with_waiters (x : Waiters) w : World Q L :=
  update (w_registry w) (w_router w) (w_queue w) (w_store w) (w_metrics w) (w_tracker w)
    (w_limiter w) (w_last_seen w) x (w_outbox w) (w_tasks w) (w_msg_counter w) (w_env w) w.
Definition with_outbox (x : list SendMessageRequest) w : World Q L :=
  update (w_registry w) (w_router w) (w_queue w) (w_store w) (w_metrics w) (w_tracker w)
    (w_limiter w) (w_last_seen w) (w_waiters w) x (w_tasks w) (w_msg_counter w) (w_env w) w.
Definition with_tasks (x : list HistoryTask) w : World Q L :=
  update (w_registry w) (w_router w) (w_queue w) (w_store w) (w_metrics w) (w_tracker w)
    (w_limiter w) (w_last_seen w) (w_waiters w) (w_outbox w) x (w_msg_counter w) (w_env w) w.
Definition with_msg_counter (x : Z) w : World Q L :=
  update (w_registry w) (w_router w) (w_queue w) (w_store w) (w_metrics w) (w_tracker w)
    (w_limiter w) (w_last_seen w) (w_waiters w) (w_outbox w) (w_tasks w) x (w_env w) w.
Definition with_env (x : Env) w : World Q L :=
  update (w_registry w) (w_router w) (w_queue w) (w_store w) (w_metrics w) (w_tracker w)
    (w_limiter w) (w_last_seen w) (w_waiters w) (w_outbox w) (w_tasks w) (w_msg_counter w) x w.

Definition with_web (x : Web) w : World Q L :=
  {| w_registry := w_registry w; w_router := w_router w; w_queue := w_queue w; w_store := w_store w;
     w_metrics := w_metrics w; w_acl := w_acl w; w_admin := w_admin w; w_tracker := w_tracker w;
     w_limiter := w_limiter w; w_last_seen := w_last_seen w; w_waiters := w_waiters w;
     w_outbox := w_outbox w; w_tasks := w_tasks w; w_msg_counter := w_msg_counter w;
     w_web := x; w_env := w_env w |}.

(** *** Primitives *)

Definition reads {A} (f : World Q L -> A) : hub Q L A := fun w => (f w, w).
Definition changes (f : World Q L -> World Q L) : hub Q L unit := fun w => (tt, f w).

Definition set_faults (x : list Fault) (e : Env) : Env :=
  {| faults := x; send_replies := send_replies e; uuids := uuids e; random_bytes := random_bytes e; now_secs := now_secs e;
     now_millis := now_millis e; now_nanos := now_nanos e; local_stamp := local_stamp e;
     local_stamp_ms := local_stamp_ms e;
     upsert_arbiter := upsert_arbiter e |}.
Definition set_replies (x : list (result SendMessageResponse string)) (e : Env) : Env :=
  {| faults := faults e; send_replies := x; uuids := uuids e; random_bytes := random_bytes e; now_secs := now_secs e;
     now_millis := now_millis e; now_nanos := now_nanos e; local_stamp := local_stamp e;
     local_stamp_ms := local_stamp_ms e;
     upsert_arbiter := upsert_arbiter e |}.
Definition set_uuids (x : list string) (e : Env) : Env :=
  {| faults := faults e; send_replies := send_replies e; uuids := x; random_bytes := random_bytes e; now_secs := now_secs e;
     now_millis := now_millis e; now_nanos := now_nanos e; local_stamp := local_stamp e;
     local_stamp_ms := local_stamp_ms e;
     upsert_arbiter := upsert_arbiter e |}.
Definition set_random (x : list (list N)) (e : Env) : Env :=
  {| faults := faults e; send_replies := send_replies e; uuids := uuids e; random_bytes := x;
     now_secs := now_secs e; now_millis := now_millis e; now_nanos := now_nanos e;
     local_stamp := local_stamp e; local_stamp_ms := local_stamp_ms e;
     upsert_arbiter := upsert_arbiter e |}.

(** The next fault of the supply; an exhausted supply means that calls execute. *)
Definition next_fault : hub Q L Fault := fun w =>
  match faults (w_env w) with
  | [] => (Executes, w)
  | f :: fs => (f, with_env (set_faults fs (w_env w)) w)
  end.

(** [Uuid::new_v4], in simple form. *)
Definition new_uuid : hub Q L string := fun w =>
  match uuids (w_env w) with
  | [] => ("", w)
  | u :: us => (u, with_env (set_uuids us (w_env w)) w)
  end.

(** Bytes of the system's random generator. *)
Definition draw : hub Q L (list N) := fun w =>
  match random_bytes (w_env w) with
  | [] => ([], w)
  | b :: bs => (b, with_env (set_random bs (w_env w)) w)
  end.

(** A call of the store under [tokio::time::timeout]: [None] when it timed out. *)
Definition db_timeout {A} (f : Store -> A * Store) : hub Q L (option (result A string)) :=
  let* o := next_fault in
  match o with
  | Executes => fun w => let '(x, s) := f (w_store w) in (Some (Ok x), with_store s w)
  | Fails e => ret (Some (Err e))
  | Late => ret None
  end.

(** A call of the store that is simply awaited. *)
Definition db {A} (f : Store -> A * Store) : hub Q L (result A string) :=
  let* o := next_fault in
  match o with
  | Executes => fun w => let '(x, s) := f (w_store w) in (Ok x, with_store s w)
  | Fails e => ret (Err e)
  | Late => ret (Err "pool timed out")
  end.

Definition query {A} (f : Store -> A) : Store -> A * Store := fun s => (f s, s).
Definition exec (f : Store -> Store) : Store -> unit * Store := fun s => (tt, f s).

(** [upstream.send_message]: the request goes out; the answer is the environment's. *)
Definition send_message (r : SendMessageRequest) : hub Q L (result SendMessageResponse string) :=
  fun w =>
    let w := with_outbox (w_outbox w ++ [r]) w in
    match send_replies (w_env w) with
    | [] => (Ok SendMessageResponse_ok, w)
    | x :: xs => (x, with_env (set_replies xs (w_env w)) w)
    end.

(** [SendMessageRequest::reply]: mints a client id and a message id. *)
Definition reply_request (ctx t to : string) : hub Q L SendMessageRequest :=
  let* u := new_uuid in
  fun w => (reply ctx t to u (now_millis (w_env w)) (w_msg_counter w),
            with_msg_counter (w_msg_counter w + 1) w).

Definition count (c : Counter) : hub Q L unit :=
  changes (fun w => with_metrics (bump c (w_metrics w)) w).

Definition spawn (t : HistoryTask) : hub Q L unit :=
  changes (fun w => with_tasks (w_tasks w ++ [t]) w).

(** Body of a detached history task; [permit] tells whether the semaphore had one. *)
Definition run_task (permit : bool) (t : HistoryTask) : hub Q L unit :=
  if permit then
    let* now := reads (fun w => now_secs (w_env w)) in
    db (exec (save_message_with_msg_id now (t_vctx t) (Some (t_vtoken t)) (t_session t)
                (t_peer t) (t_role t) (t_content t) (t_msg_id t))) ;;
    ret tt
  else count PersistDropped.
End Hub.
