(* ===== verification/Login.v ===== *)
(** * QR logins ([src/src/ilink/login.rs], [src/src/client/pairing.rs])

    Two clients that show a QR code and poll until it is confirmed: the hub's own login to
    the messaging service, and the pairing of a backend with a hub. The HTTP answers are
    a parameter, indexed by the number of the poll; encoding and rendering QR codes, the
    JSON codec of the credentials file and the clock are parameters too. *)
From Stdlib Require Import Ascii.
From S2P Require Import Prelude StrLemmas Pairing Types Hub.
Import Str.
Local Open Scope hub_scope.

(** One status request: no answer, a body that does not parse, or a response. *)
Inductive PollReply := NetError | ParseError (e : string) | Reply (r : QrcodeStatusResponse).

(** ** Login to the messaging service *)
Module LoginClient.

Definition MAX_ATTEMPTS : nat := 60.

Definition SCANNED_MESSAGE : string := "已在手机上扫码，请在微信里确认登录".

(** What a response does to the loop: go on, with the event shown to the user, or stop. *)
Definition on_login_status (resp : QrcodeStatusResponse)
    : (result string string * list QrLoginUiEvent) + list QrLoginUiEvent :=
  match qs_status resp with
  | None => inr []
  | Some status =>
      if (status =? "wait")%string then inr []
      else if (status =? "scaned")%string || (status =? "scanned")%string then inr [UiStatus SCANNED_MESSAGE]
      else if (status =? "confirmed")%string then
        inl (match qs_bot_token resp with
             | Some token => (Ok token, [])
             | None => (Err "login confirmed but no bot_token in response", [])
             end)
      else if (status =? "expired")%string then inl (Err "QR code expired, please run login again", [UiExpired])
      else if negb (qs_ret resp =? 0)%Z then
        inl (Err ("qrcode status error: " +:+ unwrap_or (qs_errmsg resp) status), [])
      else inr []
  end.

(** [remaining] attempts are left; [i] is the number of the next one. *)
Fixpoint poll_qrcode_status (remaining i : nat) (replies : nat -> PollReply)
    : result string string * list QrLoginUiEvent :=
  match remaining with
  | 0%nat => (Err "QR login timed out after 60 attempts", [UiExpired])
  | S remaining =>
      match replies i with
      | NetError | ParseError _ => poll_qrcode_status remaining (S i) replies
      | Reply resp =>
          match on_login_status resp with
          | inl out => out
          | inr events =>
              let '(out, more) := poll_qrcode_status remaining (S i) replies in (out, events ++ more)
          end
      end
  end.

(** [get_qrcode], on the answer to its request. *)
Definition get_qrcode (answer : result GetQrcodeResponse string) : result GetQrcodeResponse string :=
  match answer with
  | Err e => Err e
  | Ok resp =>
      if negb (gq_ret resp =? 0)%Z
      then Err ("get_bot_qrcode failed: " +:+ unwrap_or (gq_errmsg resp) "unknown") else Ok resp
  end.

(** [encode] makes an image of a URL; [None] is an encoding error. With a UI the image is
    pushed to it, without one it is printed. The second component is what the UI gets. *)
Definition login_with_qr_ui (encode : string -> option string) (ui : bool)
    (answer : result GetQrcodeResponse string) (replies : nat -> PollReply)
    : result string string * list QrLoginUiEvent :=
  match get_qrcode answer with
  | Err e => (Err e, [])
  | Ok qr =>
      match gq_qrcode qr, gq_img_content qr with
      | None, _ => (Err "no qrcode key in response", [])
      | Some _, None => (Err "no qrcode URL in response", [])
      | Some key, Some url =>
          match encode url with
          | None => (Err "QR encode error", [])
          | Some image =>
              let '(out, events) := poll_qrcode_status MAX_ATTEMPTS 0 replies in
              (out, if ui then UiReady image url :: events ++ (if is_ok out then [UiDone] else []) else [])
          end
      end
  end.

(** The bridge to the event stream caches the code to show to late subscribers. *)
Definition cache_event (last_ready : option QrLoginUiEvent) (evt : QrLoginUiEvent) : option QrLoginUiEvent :=
  match evt with
  | UiReady _ _ => Some evt
  | UiDone | UiExpired => None
  | UiStatus _ => last_ready
  end.

(** *** Lemmas *)

(** The loop stops at the first response that decides. *)
Lemma poll_first remaining i replies k resp out :
  (forall j, (j < k)%nat -> match replies (i + j)%nat with
             | Reply r => exists ev, on_login_status r = inr ev | _ => True end) ->
  replies (i + k)%nat = Reply resp -> on_login_status resp = inl out -> (k < remaining)%nat ->
  (poll_qrcode_status remaining i replies).1 = out.1.
Proof.
  revert i k. induction remaining as [|remaining IH]; intros i k Hpre Hk Hout Hlt; [lia|]. cbn [poll_qrcode_status].
  destruct k as [|k].
  - rewrite Nat.add_0_r in Hk. by rewrite Hk, Hout.
  - assert (IH' : (poll_qrcode_status remaining (S i) replies).1 = out.1).
    { apply (IH (S i) k); [|by rewrite Nat.add_succ_comm in *|done|lia].
      intros j Hj. specialize (Hpre (S j)). rewrite <- Nat.add_succ_comm in Hpre. apply Hpre. lia. }
    specialize (Hpre 0%nat ltac:(lia)). rewrite Nat.add_0_r in Hpre.
    destruct (replies i) as [|e|r]; [done|done|]. destruct Hpre as [ev ->].
    by destruct (poll_qrcode_status remaining (S i) replies).
Qed.

Lemma poll_timeout remaining i replies :
  (forall j, (j < remaining)%nat -> match replies (i + j)%nat with
             | Reply r => exists ev, on_login_status r = inr ev | _ => True end) ->
  (poll_qrcode_status remaining i replies).1 = Err "QR login timed out after 60 attempts" /\
  last (poll_qrcode_status remaining i replies).2 = Some UiExpired.
Proof.
  revert i. induction remaining as [|remaining IH]; intros i Hpre; [done|]. cbn [poll_qrcode_status].
  destruct (IH (S i)) as [H1 H2].
  { intros j Hj. specialize (Hpre (S j)). rewrite <- Nat.add_succ_comm in Hpre. apply Hpre. lia. }
  specialize (Hpre 0%nat ltac:(lia)). rewrite Nat.add_0_r in Hpre.
  destruct (replies i) as [|e|r]; [done|done|]. destruct Hpre as [ev ->].
  destruct (poll_qrcode_status remaining (S i) replies) as [o more]. cbn in *. split; [done|].
  by rewrite last_app, H2.
Qed.

Lemma poll_decides remaining i replies r out :
  replies i = Reply r -> on_login_status r = inl out -> poll_qrcode_status (S remaining) i replies = out.
Proof. intros Hr Ho. cbn [poll_qrcode_status]. by rewrite Hr, Ho. Qed.

(** A login that ends with a confirmation without token leaves its dead code in the cache of the
    event stream: no closing event is sent. *)
Lemma failed_login_keeps_code encode answer replies url key qr image :
  get_qrcode answer = Ok qr -> gq_qrcode qr = Some key -> gq_img_content qr = Some url ->
  encode url = Some image ->
  (exists r, replies 0%nat = Reply r /\ qs_status r = Some "confirmed" /\ qs_bot_token r = None) ->
  let '(out, events) := login_with_qr_ui encode true answer replies in
  is_ok out = false /\ foldl cache_event None events = Some (UiReady image url).
Proof.
  intros H1 H2 H3 H4 (r & Hr & Hs & Ht). unfold login_with_qr_ui. rewrite H1, H2, H3, H4.
  change MAX_ATTEMPTS with (S 59). rewrite (poll_decides 59 0 replies r (Err "login confirmed but no bot_token in response", []) Hr); [done|].
  unfold on_login_status. by rewrite Hs, Ht.
Qed.
End LoginClient.

(** ** Pairing a backend with a hub *)
Module HubClient.

Definition MAX_QR_REFRESH : nat := 3.
Definition PAIRING_DEADLINE : Z := secs 480.

Record HubPairingCredentials := {
  hp_token : string;
  hp_base_url : string;
  hp_account_id : string;
  hp_user_id : string;
  hp_saved_at : option string;
  hp_client_name : option string;
}.

(** [is_qr_expired], on the text of an error. *)
Definition is_qr_expired (e : string) : bool := contains "expired" e.

Section Client.
(** The hub's URL, and the text of the clock. *)
Variables (hub_url now_text : string).

(** [fetch_qrcode]: the POST's answer counts if it is a success, else the GET's; an answer
    is a status and a parsed body ([None] when it does not parse). *)
Definition fetch_qrcode (post get : option (Z * option GetQrcodeResponse)) : result GetQrcodeResponse string :=
  let resp :=
    match post with
    | Some (code, body) => if ((200 <=? code) && (code <=? 299))%Z then Some (code, body) else get
    | None => get
    end in
  match resp with
  | None => Err "get_bot_qrcode request failed"
  | Some (_, None) => Err "parse get_bot_qrcode"
  | Some (_, Some body) =>
      if negb (gq_ret body =? 0)%Z
      then Err ("get_bot_qrcode failed: " +:+ unwrap_or (gq_errmsg body) "unknown") else Ok body
  end.

Definition credentials_of (token : string) (body : QrcodeStatusResponse) : HubPairingCredentials :=
  {| hp_token := token;
     hp_base_url := unwrap_or (ofilter (fun u => negb (is_empty u)) (qs_baseurl body)) hub_url;
     hp_account_id := unwrap_or (qs_ilink_bot_id body) "ilink-hub@hub.local";
     hp_user_id := unwrap_or (qs_ilink_user_id body) "hub-client";
     hp_saved_at := Some now_text; hp_client_name := None |}.

(** What a response does: stop with a result, or poll again. *)
Definition on_pairing_status (body : QrcodeStatusResponse) : option (result HubPairingCredentials string) :=
  match qs_status body with
  | None => None
  | Some status =>
      if (status =? "wait")%string then None
      else if (status =? "scaned")%string || (status =? "scanned")%string then None
      else if (status =? "confirmed")%string then
        Some (match ofilter (fun t => negb (is_empty t)) (qs_bot_token body) with
              | Some token => Ok (credentials_of token body)
              | None => Err "confirmed but bot_token missing"
              end)
      else if (status =? "expired")%string then Some (Err "pairing session expired")
      else None
  end.

(** The polls: the reply to each, and how long it took. [None] means that the fuel ran
    out, which [poll_returns] excludes. *)
Fixpoint poll_until_confirmed (fuel : nat) (now deadline : Z) (i : nat) (polls : nat -> PollReply * Z)
    : option (result HubPairingCredentials string) :=
  if (deadline <=? now)%Z then Some (Err "pairing timed out after 480s") else
  match fuel with
  | 0%nat => None
  | S fuel =>
      let '(reply, took) := polls i in
      let now := (now + Z.max 0 took)%Z in
      match reply with
      | NetError => poll_until_confirmed fuel (now + secs 1) deadline (S i) polls
      | ParseError _ => Some (Err "parse qrcode status")
      | Reply body =>
          match on_pairing_status body with
          | Some out => Some out
          | None => poll_until_confirmed fuel (now + secs 1 / 2) deadline (S i) polls
          end
      end
  end.

(** Half a second passes at least between two polls. *)
Definition poll_fuel : nat := 960.

(** One round of [pair_with_qr]: the answers of its requests, and the clock at its polls. *)
Record Round := {
  r_post : option (Z * option GetQrcodeResponse);
  r_get : option (Z * option GetQrcodeResponse);
  r_renders : bool;
  r_now : Z;
  r_polls : nat -> PollReply * Z;
}.

(** The part before the polls; its errors end the pairing. *)
Definition start_round (r : Round) : result string string :=
  match fetch_qrcode (r_post r) (r_get r) with
  | Err e => Err e
  | Ok qr =>
      match ofilter (fun s => negb (is_empty s)) (gq_qrcode qr),
            ofilter (fun s => negb (is_empty s)) (gq_img_content qr) with
      | None, _ => Err "get_bot_qrcode: missing qrcode key"
      | Some _, None => Err "get_bot_qrcode: missing qrcode_img_content"
      | Some key, Some url => if negb (r_renders r) then Err "QR encode error" else Ok key
      end
  end.

(** The loop of [pair_with_qr] with [refreshes] codes left; [n] is the number of the code.
    An expiry reported while polling asks for a new code. *)
Fixpoint pair_loop (refreshes n : nat) (rounds : nat -> Round) : option (result HubPairingCredentials string * nat) :=
  match refreshes with
  | 0%nat => Some (Err "pairing QR expired 3 times — aborted", n)
  | S refreshes =>
      let r := rounds n in
      match start_round r with
      | Err e => Some (Err e, S n)
      | Ok _ =>
          match poll_until_confirmed poll_fuel (r_now r) (r_now r + PAIRING_DEADLINE) 0 (r_polls r) with
          | None => None
          | Some (Ok creds) => Some (Ok creds, S n)
          | Some (Err e) =>
              if is_qr_expired e then pair_loop refreshes (S n) rounds else Some (Err e, S n)
          end
      end
  end.

(** *** The credentials file *)

(** [None]: no such file. [creds_from_json] is the decoder of the file's text. *)
Variables (creds_to_json : HubPairingCredentials -> string)
          (creds_from_json : string -> option HubPairingCredentials).

Definition newline : string := String "010"%char "".

Definition save_credentials (writable : bool) (c : HubPairingCredentials) (file : option string)
    : result unit string * option string :=
  if writable then (Ok tt, Some (creds_to_json c +:+ newline)) else (Err "write failed", file).

Definition load_credentials (readable : bool) (file : option string)
    : result (option HubPairingCredentials) string :=
  match file with
  | None => Ok None
  | Some data =>
      if negb readable then Err "read failed" else
      match creds_from_json data with Some c => Ok (Some c) | None => Err "parse failed" end
  end.

Definition pair_with_qr (writable : bool) (rounds : nat -> Round) (file : option string)
    : option (result HubPairingCredentials string * option string) :=
  match pair_loop MAX_QR_REFRESH 0 rounds with
  | None => None
  | Some (Err e, _) => Some (Err e, file)
  | Some (Ok creds, _) =>
      let '(r, file) := save_credentials writable creds file in
      Some (match r with Ok _ => Ok creds | Err e => Err e end, file)
  end.

Definition pair (force readable writable : bool) (rounds : nat -> Round) (file : option string)
    : option (result HubPairingCredentials string * option string) :=
  if force then pair_with_qr writable rounds file else
  match load_credentials readable file with
  | Err e => Some (Err e, file)
  | Ok (Some creds) => Some (Ok creds, file)
  | Ok None => pair_with_qr writable rounds file
  end.

(** *** Properties *)

Lemma poll_returns fuel now deadline i polls :
  (deadline - now <= Z.of_nat fuel * (secs 1 / 2))%Z ->
  is_Some (poll_until_confirmed fuel now deadline i polls).
Proof.
  revert now i. induction fuel as [|fuel IH]; intros now i Hd; cbn [poll_until_confirmed].
  - destruct (Z.leb_spec deadline now); [by eexists|]. lia.
  - destruct (deadline <=? now)%Z; [by eexists|]. destruct (polls i) as [reply took].
    assert (Hstep : forall s, (secs 1 / 2 <= s)%Z -> (deadline - (now + Z.max 0 took + s) <= Z.of_nat fuel * (secs 1 / 2))%Z).
    { intros s Hs. rewrite Nat2Z.inj_succ in Hd. unfold secs in *. change (1 * 1000000000 / 2)%Z with 500000000%Z in *. lia. }
    destruct reply as [|e|body]; [apply IH, Hstep; vm_compute; done|by eexists|].
    destruct (on_pairing_status body); [by eexists|]. by apply IH, Hstep.
Qed.

Lemma pair_loop_returns refreshes n rounds :
  exists r m, pair_loop refreshes n rounds = Some (r, m) /\ (m <= n + refreshes)%nat.
Proof.
  revert n. induction refreshes as [|k IH]; intros n; cbn [pair_loop].
  - do 2 eexists. split; [done|lia].
  - destruct (start_round _); [|do 2 eexists; split; [done|lia]].
    destruct (poll_returns poll_fuel (r_now (rounds n)) (r_now (rounds n) + PAIRING_DEADLINE) 0 (r_polls (rounds n)))
      as [out ->]; [change (Z.of_nat poll_fuel) with 960%Z; change (secs 1 / 2)%Z with 500000000%Z; unfold PAIRING_DEADLINE, secs; lia|]. destruct out as [c|e]; [do 2 eexists; split; [done|lia]|].
    destruct (is_qr_expired e); [|do 2 eexists; split; [done|lia]].
    destruct (IH (S n)) as (r & m & -> & Hm). do 2 eexists. split; [done|lia].
Qed.

(** (C40) Pairing terminates: whatever the hub answers, the client comes back with credentials
    or an error; credentials it returns are in its file, so that the next start finds them
    without another code. *)
Theorem pairing_client_returns (force readable writable : bool) (rounds : nat -> Round) (file : option string)
    (Hcodec : forall c, creds_from_json (creds_to_json c +:+ newline) = Some c) :
  exists r file', pair force readable writable rounds file = Some (r, file') /\
    (forall c, r = Ok c -> load_credentials true file' = Ok (Some c)).
Proof.
  assert (Hqr : exists r file', pair_with_qr writable rounds file = Some (r, file') /\
    (forall c, r = Ok c -> load_credentials true file' = Ok (Some c))).
  { unfold pair_with_qr. destruct (pair_loop_returns MAX_QR_REFRESH 0 rounds) as (r & m & -> & _).
    destruct r as [c|e]; [|by do 2 eexists]. unfold save_credentials. destruct writable; do 2 eexists;
      (split; [done|]); [|done]. intros c' [= <-]. cbn. by rewrite Hcodec. }
  unfold pair. destruct force; [done|]. destruct file as [data|]; [|done]. cbn.
  destruct readable; cbn; [|by do 2 eexists]. destruct (creds_from_json data) as [c|] eqn:E; [|by do 2 eexists].
  do 2 eexists. split; [done|]. intros c' [= <-]. cbn. by rewrite E.
Qed.
End Client.
End HubClient.

(** ** Instances *)
Section Instances.
Import HubClient.

Definition creds_tuple (c : HubPairingCredentials) :=
  (hp_token c, hp_base_url c, hp_account_id c, hp_user_id c, hp_saved_at c, hp_client_name c).
Definition tuple_creds (t : string * string * string * string * option string * option string) : HubPairingCredentials :=
  let '(a, b, c, d, e, f) := t in
  {| hp_token := a; hp_base_url := b; hp_account_id := c; hp_user_id := d; hp_saved_at := e; hp_client_name := f |}.

(** A text form of the credentials: the bits of their encoding. *)
Fixpoint bits (p : positive) : string :=
  match p with xH => "" | xO p => String "0" (bits p) | xI p => String "1" (bits p) end.
Fixpoint of_bits (s : string) : positive :=
  match s with
  | String "0" s => xO (of_bits s)
  | String "1" s => xI (of_bits s)
  | _ => xH
  end.

Definition sample_to_json (c : HubPairingCredentials) : string := bits (encode (creds_tuple c)).
Definition sample_from_json (s : string) : option HubPairingCredentials := tuple_creds <$> decode (of_bits s).

Lemma of_bits_bits p : of_bits (bits p +:+ newline) = p.
Proof. induction p as [p IH|p IH|]; [| |done]; cbn [bits]; rewrite append_cons; cbn [of_bits]; by rewrite IH. Qed.

Lemma sample_codec c : sample_from_json (sample_to_json c +:+ newline) = Some c.
Proof.
  unfold sample_from_json, sample_to_json. rewrite of_bits_bits, decode_encode. by destruct c.
Qed.

Definition silent_round : Round :=
  {| r_post := None; r_get := Some (200%Z, Some {| gq_ret := 0; gq_qrcode := Some "q"; gq_img_content := Some "u";
                                                   gq_errmsg := None |});
     r_renders := true; r_now := 0; r_polls := fun _ => (NetError, secs 120) |}.

Lemma pairing_client_returns_witness :
  exists r file', pair "http://hub" "now" sample_to_json sample_from_json false true true (fun _ => silent_round) None = Some (r, file') /\
    (forall c, r = Ok c -> load_credentials sample_from_json true file' = Ok (Some c)).
Proof.
  apply (pairing_client_returns "http://hub" "now" sample_to_json sample_from_json false true true (fun _ => silent_round) None).
  apply sample_codec.
Defined.
End Instances.
