(* ===== verification/Upstream.v ===== *)
(** * The upstream client ([src/src/ilink/upstream.rs])

    The loop that polls the messaging service, hands its messages to the dispatcher, backs
    off on errors, and renews an expired session with a QR login. An iteration of the loop
    is a function of what the environment decides in it: the shutdown flag, a re-login
    signal, the answer to the poll, the course of a login, and how each wait ends. *)
From S2P Require Import Prelude StrLemmas Types Pairing Hub Login.
Import Str.
Local Open Scope hub_scope.

Definition ILINK_BASE_URL : string := "https://ilinkai.weixin.qq.com".

Definition is_well_formed_bot_token (token : string) : bool := negb (is_empty token) && contains ":" token.

Definition bot_id (token : string) : string := unwrap_or (head (split ":" token)) "".

(** [SessionRenewal]: which of its channels are present. *)
Record Renewal := {
  rn_base_url : option string;
  rn_desktop : bool;
  rn_stream : bool;
  rn_status : bool;
}.

(** State of the client and of its loop: the token in use, the saved credentials, the
    counters, the cursor, the backoff, the guard of a renewal, the status byte, the cached
    QR event, what the dispatcher received and the seconds spent in waits. *)
Record Upstream := {
  u_token : string;
  u_saved : option (string * string);
  u_polls_ok : Z;
  u_polls_err : Z;
  u_relogins : Z;
  u_buf : string;
  u_backoff : Z;
  u_renewing : bool;
  u_status : Z;
  u_last_ready : option QrLoginUiEvent;
  u_delivered : list WeixinMessage;
  u_waits : list Z;
}.

Definition Upstream_new (token : string) (saved : option (string * string)) : Upstream :=
  {| u_token := token; u_saved := saved; u_polls_ok := 0; u_polls_err := 0; u_relogins := 0;
     u_buf := ""; u_backoff := 1; u_renewing := false; u_status := UNKNOWN; u_last_ready := None;
     u_delivered := []; u_waits := [] |}.

Definition set_token (t : string) (u : Upstream) : Upstream :=
  {| u_token := t; u_saved := u_saved u; u_polls_ok := u_polls_ok u; u_polls_err := u_polls_err u;
     u_relogins := u_relogins u; u_buf := u_buf u; u_backoff := u_backoff u; u_renewing := u_renewing u;
     u_status := u_status u; u_last_ready := u_last_ready u; u_delivered := u_delivered u; u_waits := u_waits u |}.
Definition save_credentials (t base : string) (u : Upstream) : Upstream :=
  {| u_token := u_token u; u_saved := Some (t, base); u_polls_ok := u_polls_ok u; u_polls_err := u_polls_err u;
     u_relogins := u_relogins u; u_buf := u_buf u; u_backoff := u_backoff u; u_renewing := u_renewing u;
     u_status := u_status u; u_last_ready := u_last_ready u; u_delivered := u_delivered u; u_waits := u_waits u |}.
(** The three counters, one [fetch_add] each. *)
Definition add_counts (ok err relogin : Z) (u : Upstream) : Upstream :=
  {| u_token := u_token u; u_saved := u_saved u; u_polls_ok := wrap_u64 (u_polls_ok u + ok);
     u_polls_err := wrap_u64 (u_polls_err u + err); u_relogins := wrap_u64 (u_relogins u + relogin);
     u_buf := u_buf u; u_backoff := u_backoff u; u_renewing := u_renewing u; u_status := u_status u;
     u_last_ready := u_last_ready u; u_delivered := u_delivered u; u_waits := u_waits u |}.
Definition set_loop (buf : string) (backoff : Z) (renewing : bool) (u : Upstream) : Upstream :=
  {| u_token := u_token u; u_saved := u_saved u; u_polls_ok := u_polls_ok u; u_polls_err := u_polls_err u;
     u_relogins := u_relogins u; u_buf := buf; u_backoff := backoff; u_renewing := renewing;
     u_status := u_status u; u_last_ready := u_last_ready u; u_delivered := u_delivered u; u_waits := u_waits u |}.
Definition set_login (status : Z) (ready : option QrLoginUiEvent) (u : Upstream) : Upstream :=
  {| u_token := u_token u; u_saved := u_saved u; u_polls_ok := u_polls_ok u; u_polls_err := u_polls_err u;
     u_relogins := u_relogins u; u_buf := u_buf u; u_backoff := u_backoff u; u_renewing := u_renewing u;
     u_status := status; u_last_ready := ready; u_delivered := u_delivered u; u_waits := u_waits u |}.
Definition add_output (msgs : list WeixinMessage) (waits : list Z) (u : Upstream) : Upstream :=
  {| u_token := u_token u; u_saved := u_saved u; u_polls_ok := u_polls_ok u; u_polls_err := u_polls_err u;
     u_relogins := u_relogins u; u_buf := u_buf u; u_backoff := u_backoff u; u_renewing := u_renewing u;
     u_status := u_status u; u_last_ready := u_last_ready u;
     u_delivered := u_delivered u ++ msgs; u_waits := u_waits u ++ waits |}.

Definition set_buf (buf : string) (u : Upstream) : Upstream := set_loop buf (u_backoff u) (u_renewing u) u.
Definition set_backoff (b : Z) (u : Upstream) : Upstream := set_loop (u_buf u) b (u_renewing u) u.
Definition set_renewing (b : bool) (u : Upstream) : Upstream := set_loop (u_buf u) (u_backoff u) b u.

Definition set_status (r : Renewal) (status : Z) (u : Upstream) : Upstream :=
  if rn_status r then set_login status (u_last_ready u) u else u.

(** ** Renewal *)

(** The course of one login: whether the HTTP client can be built, the encoder of images,
    the answers, and whether the credentials can be saved. *)
Record LoginScript := {
  ls_client : bool;
  ls_encode : string -> option string;
  ls_qr : result GetQrcodeResponse string;
  ls_replies : nat -> PollReply;
  ls_save : option string;
}.

(** The bridge forwards the events to the stream and keeps the last code shown; with a
    desktop channel the events go there instead. *)
Definition push_events (r : Renewal) (events : list QrLoginUiEvent) (u : Upstream) : Upstream :=
  if negb (rn_desktop r) && rn_stream r
  then set_login (u_status u) (foldl LoginClient.cache_event (u_last_ready u) events) u else u.

Definition renew_expired_session (r : Renewal) (s : LoginScript) (u : Upstream) : result unit string * Upstream :=
  let u := set_status r LOGGING_IN u in
  if negb (ls_client s) then (Err "failed to build HTTP client", u) else
  let ui := rn_desktop r || rn_stream r in
  let '(out, events) := LoginClient.login_with_qr_ui (ls_encode s) ui (ls_qr s) (ls_replies s) in
  let u := push_events r events u in
  match out with
  | Err e => (Err e, u)
  | Ok token =>
      let base := unwrap_or (rn_base_url r) ILINK_BASE_URL in
      match ls_save s with
      | Some e => (Err e, u)
      | None => (Ok tt, set_token token (save_credentials token base u))
      end
  end.

(** ** The loop *)

(** How a wait ends: after its time, or early on a change of the shutdown flag. *)
Inductive Wait := Elapses | Changes (flag : bool).

Definition sleep_or_shutdown (w : Wait) (n : Z) (u : Upstream) : bool * Upstream :=
  match w with
  | Elapses => (false, add_output [] [n] u)
  | Changes b => (b, u)
  end.

Inductive Selected := FlagChanged (b : bool) | Polled (r : result GetUpdatesResponse string).

(** What the environment decides in one iteration. [tick_channel]: after how many messages
    the dispatcher is gone, if it is. *)
Record Tick := {
  tick_shutdown : bool;
  tick_manual : bool;
  tick_select : Selected;
  tick_login : LoginScript;
  tick_login_wait : Wait;
  tick_wait : Wait;
  tick_channel : option nat;
}.

Definition forward_batch (channel : option nat) (msgs : list WeixinMessage) (u : Upstream) : bool * Upstream :=
  match channel with
  | Some k => if (k <? length msgs)%nat then (false, add_output (take k msgs) [] u) else (true, add_output msgs [] u)
  | None => (true, add_output msgs [] u)
  end.

Definition with_renewal (o : option Renewal) (f : Renewal -> Upstream -> Upstream) (u : Upstream) : Upstream :=
  match o with Some r => f r u | None => u end.

Definition new_cursor (resp : GetUpdatesResponse) (u : Upstream) : Upstream :=
  match gur_get_updates_buf resp with
  | Some b => if is_empty b then u else set_buf b u
  | None => u
  end.

(** Wait and double the backoff; the boolean tells whether the loop goes on. *)
Definition back_off (w : Wait) (u : Upstream) : bool * Upstream :=
  let '(stop, u) := sleep_or_shutdown w (u_backoff u) u in
  if stop then (false, u) else (true, set_backoff (Z.min (u_backoff u * 2) 30) u).

(** The arm of a response the loop takes as a success. *)
Definition accept (o : option Renewal) (t : Tick) (resp : GetUpdatesResponse) (u : Upstream) : bool * Upstream :=
  let u := set_backoff 1 (add_counts 1 0 0 u) in
  let u := with_renewal o (fun r => set_status r CONNECTED) u in
  let u := new_cursor resp u in
  forward_batch (tick_channel t) (default [] (gur_msgs resp)) u.

(** The arm of a response with an error code. *)
Definition reject (o : option Renewal) (t : Tick) (resp : GetUpdatesResponse) (u : Upstream) : bool * Upstream :=
  let u := add_counts 0 1 0 u in
  let code := unwrap_or (gur_errcode resp <|> gur_ret resp) (-1)%Z in
  match (if (code =? -14)%Z then o else None) with
  | None => back_off (tick_wait t) u
  | Some r =>
      let u := set_status r NEEDS_LOGIN u in
      if u_renewing u then back_off (tick_wait t) u else
      let u := add_counts 0 0 1 (set_renewing true u) in
      match renew_expired_session r (tick_login t) u with
      | (Ok _, u) => (true, set_renewing false (set_buf "" (set_backoff 1 (set_status r CONNECTED u))))
      | (Err _, u) =>
          let '(stop, u) := sleep_or_shutdown (tick_login_wait t) 30 u in
          let u := set_renewing false u in
          if stop then (false, u) else back_off (tick_wait t) u
      end
  end.

(** A re-login asked for by the administrator. *)
Definition manual_relogin (r : Renewal) (s : LoginScript) (u : Upstream) : Upstream :=
  let u := set_status r LOGGING_IN (add_counts 0 0 1 u) in
  match renew_expired_session r s u with
  | (Ok _, u) => set_buf "" (set_status r CONNECTED u)
  | (Err _, u) => set_status r NEEDS_LOGIN u
  end.

(** One iteration; the boolean tells whether the loop goes on. *)
Definition iterate (o : option Renewal) (t : Tick) (u : Upstream) : bool * Upstream :=
  if tick_shutdown t then (false, u) else
  match (if tick_manual t then o else None) with
  | Some r => (true, manual_relogin r (tick_login t) u)
  | None =>
      match tick_select t with
      | FlagChanged b => (negb b, u)
      | Polled (Ok resp) =>
          if bool_decide (gur_ret resp = Some 0%Z) || bool_decide (gur_errcode resp = None)
          then accept o t resp u else reject o t resp u
      | Polled (Err _) => back_off (tick_wait t) (add_counts 0 1 0 u)
      end
  end.

(** Before the loop: [notifystart], whose outcome is only logged, and a poll with timeout
    zero that detects an expired session. *)
Definition startup (o : option Renewal) (probe : result GetUpdatesResponse string) (s : LoginScript)
    (u : Upstream) : Upstream :=
  match probe with
  | Err _ => u
  | Ok resp =>
      if (unwrap_or (gur_errcode resp <|> gur_ret resp) 0 =? -14)%Z then
        with_renewal o (fun r u =>
          let u := set_status r NEEDS_LOGIN u in
          match renew_expired_session r s u with
          | (Ok _, u) => set_buf "" (set_status r CONNECTED u)
          | (Err _, u) => u
          end) u
      else new_cursor resp (with_renewal o (fun r => set_status r CONNECTED) u)
  end.

Fixpoint polling (o : option Renewal) (ticks : list Tick) (u : Upstream) : bool * Upstream :=
  match ticks with
  | [] => (true, u)
  | t :: ticks =>
      match iterate o t u with
      | (true, u) => polling o ticks u
      | (false, u) => (false, u)
      end
  end.

Definition run_polling_loop (o : option Renewal) (probe : result GetUpdatesResponse string)
    (s : LoginScript) (ticks : list Tick) (u : Upstream) : bool * Upstream :=
  polling o ticks (startup o probe s u).

(** [send_message], on the text the service answers with: an empty or unreadable body
    counts as a success. *)
Definition send_message_answer (parse : string -> option SendMessageResponse)
    (answer : result string string) : result SendMessageResponse string :=
  match answer with
  | Err e => Err e
  | Ok text =>
      if is_empty (trim text) then Ok SendMessageResponse_ok else
      match parse text with Some resp => Ok resp | None => Ok SendMessageResponse_ok end
  end.

(** ** Invariant of the loop *)

Record loop_inv (u : Upstream) : Prop := {
  inv_backoff : (1 <= u_backoff u <= 30)%Z;
  inv_renewing : u_renewing u = false;
  inv_status : u_status u ∈ [UNKNOWN; CONNECTED; NEEDS_LOGIN; LOGGING_IN];
  inv_waits : Forall (fun n => 1 <= n <= 30)%Z (u_waits u);
  inv_saved : forall t b, u_saved u = Some (t, b) -> u_token u = t;
}.

(** What a renewal can change. *)
Lemma renew_frame r s u :
  let '(res, u') := renew_expired_session r s u in
  u_backoff u' = u_backoff u /\ u_renewing u' = u_renewing u /\ u_buf u' = u_buf u /\
  u_delivered u' = u_delivered u /\ u_waits u' = u_waits u /\
  u_status u' = (if rn_status r then LOGGING_IN else u_status u) /\
  match res with
  | Ok _ => exists t, u_token u' = t /\ u_saved u' = Some (t, unwrap_or (rn_base_url r) ILINK_BASE_URL)
  | Err _ => u_token u' = u_token u /\ u_saved u' = u_saved u
  end.
Proof.
  unfold renew_expired_session, push_events, set_status.
  repeat case_match; simplify_eq; cbn in *; repeat split; eauto.
Qed.

Lemma back_off_inv w u c u' : loop_inv u -> back_off w u = (c, u') -> loop_inv u'.
Proof.
  intros [H1 H2 H3 H4 H5]. unfold back_off, sleep_or_shutdown. destruct w as [|[]]; intros [= <- <-];
    split; try assumption; cbn; try lia; by rewrite Forall_app, Forall_singleton.
Qed.

Lemma set_status_inv r st u : st ∈ [UNKNOWN; CONNECTED; NEEDS_LOGIN; LOGGING_IN] ->
  loop_inv u -> loop_inv (set_status r st u).
Proof. intros Hs [H1 H2 H3 H4 H5]. unfold set_status. destruct (rn_status r); by split. Qed.

Lemma counts_inv a b c u : loop_inv u -> loop_inv (add_counts a b c u).
Proof. by intros [H1 H2 H3 H4 H5]. Qed.

Lemma set_loop_inv buf b u : (1 <= b <= 30)%Z -> loop_inv u -> loop_inv (set_loop buf b false u).
Proof. intros Hb [H1 H2 H3 H4 H5]. by split. Qed.

(** A renewal that ran with the guard taken or not, once the guard is released. *)
Lemma renew_inv r s u res u' buf : loop_inv (set_renewing false u) -> renew_expired_session r s u = (res, u') ->
  loop_inv (set_loop buf (u_backoff u') false u').
Proof.
  intros [H1 H2 H3 H4 H5] E. pose proof (renew_frame r s u) as Hf. rewrite E in Hf.
  destruct Hf as (F1 & F2 & F3 & F4 & F5 & F6 & F7). cbn in *. split; cbn.
  - by rewrite F1.
  - done.
  - rewrite F6. destruct (rn_status r); [set_solver|done].
  - by rewrite F5.
  - intros t b Hs. destruct res as [[]|e].
    + destruct F7 as (t' & <- & E2). rewrite E2 in Hs. by simplify_eq.
    + destruct F7 as [F7 F8]. rewrite F8 in Hs. rewrite F7. by eapply H5.
Qed.

Lemma forward_inv ch msgs u c u' : loop_inv u -> forward_batch ch msgs u = (c, u') -> loop_inv u'.
Proof.
  intros [H1 H2 H3 H4 H5]. unfold forward_batch. destruct ch as [k|]; [destruct (k <? length msgs)%nat|];
    intros [= <- <-]; split; cbn; rewrite ?app_nil_r; done.
Qed.

Lemma new_cursor_inv resp u : loop_inv u -> loop_inv (new_cursor resp u).
Proof.
  intros H. unfold new_cursor, set_buf. destruct (gur_get_updates_buf resp) as [b|]; [|done].
  destruct (is_empty b); [done|]. rewrite (inv_renewing u H). by apply set_loop_inv; [apply H|].
Qed.

Lemma with_renewal_inv o st u : st ∈ [UNKNOWN; CONNECTED; NEEDS_LOGIN; LOGGING_IN] ->
  loop_inv u -> loop_inv (with_renewal o (fun r => set_status r st) u).
Proof. intros. destruct o; [by apply set_status_inv|done]. Qed.

Lemma accept_inv o t resp u c u' : loop_inv u -> accept o t resp u = (c, u') -> loop_inv u'.
Proof.
  intros H. apply forward_inv, new_cursor_inv, with_renewal_inv; [set_solver|].
  unfold set_backoff. change (u_renewing (add_counts 1 0 0 u)) with (u_renewing u).
  rewrite (inv_renewing u H). apply set_loop_inv; [lia|]. by apply counts_inv.
Qed.

Lemma reject_inv o t resp u c u' : loop_inv u -> reject o t resp u = (c, u') -> loop_inv u'.
Proof.
  intros H. unfold reject. cbv zeta. destruct (if (_ =? -14)%Z then o else None) as [r|].
  2: by apply back_off_inv, counts_inv.
  set (u0 := set_status r NEEDS_LOGIN _).
  assert (H0 : loop_inv u0) by (apply set_status_inv; [set_solver|by apply counts_inv]).
  rewrite (inv_renewing u0 H0). set (u1 := add_counts 0 0 1 _).
  assert (H1 : loop_inv (set_renewing false u1)) by (destruct H0; by split).
  destruct (renew_expired_session r (tick_login t) u1) as [[[]|e] u2] eqn:E.
  - intros [= <- <-]. pose proof (renew_inv _ _ _ _ _ "" H1 E) as H2.
    assert (H3 : loop_inv (set_status r CONNECTED (set_loop "" (u_backoff u2) false u2)))
      by (apply set_status_inv; [set_solver|done]).
    unfold set_status in *. destruct H3; destruct (rn_status r); by split.
  - pose proof (renew_inv _ _ _ _ _ (u_buf u2) H1 E) as H2.
    destruct (sleep_or_shutdown (tick_login_wait t) 30 u2) as [stop u3] eqn:Es.
    assert (H3 : loop_inv (set_renewing false u3)).
    { unfold sleep_or_shutdown in Es. destruct (tick_login_wait t); simplify_eq; destruct H2; split; cbn in *;
        try done. rewrite Forall_app, Forall_singleton. done. }
    destruct stop; [by intros [= <- <-]|]. by apply back_off_inv.
Qed.

Lemma manual_inv r s u : loop_inv u -> loop_inv (manual_relogin r s u).
Proof.
  intros H. unfold manual_relogin. set (u1 := set_status r LOGGING_IN _).
  assert (H1 : loop_inv u1) by (apply set_status_inv; [set_solver|by apply counts_inv]).
  assert (H1' : loop_inv (set_renewing false u1)) by (destruct H1; by split).
  destruct (renew_expired_session r s u1) as [[[]|e] u2] eqn:E.
  - pose proof (renew_inv _ _ _ _ _ "" H1' E) as H2. pose proof (renew_frame r s u1) as Hf. rewrite E in Hf.
    destruct Hf as (_ & F & _). rewrite (inv_renewing _ H1) in F.
    assert (H3 : loop_inv (set_status r CONNECTED (set_loop "" (u_backoff u2) false u2)))
      by (apply set_status_inv; [set_solver|done]).
    unfold set_status in *. destruct H3; destruct (rn_status r); by split.
  - pose proof (renew_inv _ _ _ _ _ (u_buf u2) H1' E) as H2. pose proof (renew_frame r s u1) as Hf. rewrite E in Hf.
    destruct Hf as (_ & F & _). rewrite (inv_renewing _ H1) in F.
    assert (H3 : loop_inv (set_status r NEEDS_LOGIN (set_loop (u_buf u2) (u_backoff u2) false u2)))
      by (apply set_status_inv; [set_solver|done]).
    unfold set_status in *. destruct H3; destruct (rn_status r); by split.
Qed.

Lemma iterate_inv o t u c u' : loop_inv u -> iterate o t u = (c, u') -> loop_inv u'.
Proof.
  intros H. unfold iterate. destruct (tick_shutdown t); [by intros [= <- <-]|].
  destruct (if tick_manual t then o else None) as [r|]; [intros [= <- <-]; by apply manual_inv|].
  destruct (tick_select t) as [b|[resp|e]]; [by intros [= <- <-]| |by apply back_off_inv, counts_inv].
  destruct (_ || _); [by apply accept_inv|by apply reject_inv].
Qed.

(** The polling loop is safe in every run: the backoff and every wait stay between one
    and thirty seconds, no renewal is left marked as running, the status is one of the
    four codes, and a token the client has saved is the one it uses. *)
Theorem polling_invariant (o : option Renewal) (probe : result GetUpdatesResponse string)
    (s : LoginScript) (ticks : list Tick) (token : string) (saved : option (string * string))
    (Hsaved : forall t b, saved = Some (t, b) -> token = t) :
  loop_inv (run_polling_loop o probe s ticks (Upstream_new token saved)).2.
Proof.
  unfold run_polling_loop.
  assert (H0 : loop_inv (startup o probe s (Upstream_new token saved))).
  { assert (Hn : loop_inv (Upstream_new token saved)) by (split; cbn; [lia|done|set_solver|constructor|done]).
    unfold startup. destruct probe as [resp|]; [|done]. destruct (_ =? -14)%Z.
    - destruct o as [r|]; [|done]. cbn [with_renewal].
      assert (H1 : loop_inv (set_status r NEEDS_LOGIN (Upstream_new token saved))) by (apply set_status_inv; [set_solver|done]).
      assert (H1' : loop_inv (set_renewing false (set_status r NEEDS_LOGIN (Upstream_new token saved)))) by (destruct H1; by split).
      pose proof (renew_frame r s (set_status r NEEDS_LOGIN (Upstream_new token saved))) as Hf.
      destruct (renew_expired_session _ _ _) as [[[]|e] u2] eqn:E; destruct Hf as (_ & F & _);
        rewrite (inv_renewing _ H1) in F.
      + pose proof (renew_inv _ _ _ _ _ "" H1' E) as H2.
        assert (H3 : loop_inv (set_status r CONNECTED (set_loop "" (u_backoff u2) false u2)))
          by (apply set_status_inv; [set_solver|done]).
        unfold set_status in *. destruct H3; destruct (rn_status r); by split.
      + pose proof (renew_inv _ _ _ _ _ (u_buf u2) H1' E) as []. by split.
    - apply new_cursor_inv, with_renewal_inv; [set_solver|done]. }
  revert H0. generalize (startup o probe s (Upstream_new token saved)).
  induction ticks as [|t ticks IH]; intros u H0; [done|]. cbn [polling].
  destruct (iterate o t u) as [[] u'] eqn:E; [apply IH|]; by eapply iterate_inv.
Qed.

(** ** Delivery *)

Definition accepted (t : Tick) : option GetUpdatesResponse :=
  if tick_manual t then None else
  match tick_select t with
  | Polled (Ok resp) =>
      if bool_decide (gur_ret resp = Some 0%Z) || bool_decide (gur_errcode resp = None) then Some resp else None
  | _ => None
  end.

Definition messages_of (t : Tick) : list WeixinMessage :=
  match accepted t with Some resp => default [] (gur_msgs resp) | None => [] end.

(** No shutdown during the iteration, and the dispatcher is there. *)
Definition undisturbed (t : Tick) : bool :=
  negb (tick_shutdown t) && bool_decide (tick_channel t = None) &&
  match tick_select t with FlagChanged b => negb b | _ => true end &&
  match tick_wait t with Changes true => false | _ => true end &&
  match tick_login_wait t with Changes true => false | _ => true end.

Lemma back_off_delivers w u : match w with Changes true => false | _ => true end = true ->
  (back_off w u).1 = true /\ u_delivered (back_off w u).2 = u_delivered u.
Proof. unfold back_off, sleep_or_shutdown. destruct w as [|[]]; cbn; rewrite ?app_nil_r; done. Qed.

Lemma status_delivered r st u : u_delivered (set_status r st u) = u_delivered u.
Proof. unfold set_status. by destruct (rn_status r). Qed.

Lemma reject_delivers o t resp u : undisturbed t = true ->
  (reject o t resp u).1 = true /\ u_delivered (reject o t resp u).2 = u_delivered u.
Proof.
  unfold undisturbed. rewrite !andb_true_iff. intros [[[[_ _] _] Hw] Hl]. unfold reject. cbv zeta.
  destruct (if (_ =? -14)%Z then o else None) as [r|]; [|by apply (back_off_delivers _ (add_counts 0 1 0 u))].
  set (u0 := set_status r NEEDS_LOGIN _).
  assert (E0 : u_delivered u0 = u_delivered u) by (unfold u0; by rewrite status_delivered).
  destruct (u_renewing u0); [by rewrite <- E0; apply back_off_delivers|].
  set (u1 := add_counts 0 0 1 _). pose proof (renew_frame r (tick_login t) u1) as Hf.
  destruct (renew_expired_session r (tick_login t) u1) as [[[]|e] u2];
    destruct Hf as (_ & _ & _ & F & _); cbn [fst snd].
  - split; [done|]. cbn. rewrite status_delivered, F. exact E0.
  - assert (Es : u_delivered (sleep_or_shutdown (tick_login_wait t) 30 u2).2 = u_delivered u /\
                 (sleep_or_shutdown (tick_login_wait t) 30 u2).1 = false).
    { unfold sleep_or_shutdown. destruct (tick_login_wait t) as [|[]]; cbn; rewrite ?app_nil_r; [|done|];
        (split; [|done]); rewrite F; exact E0. }
    destruct (sleep_or_shutdown _ _ _) as [stop u3]. cbn in Es. destruct Es as [<- ->].
    apply (back_off_delivers _ (set_renewing false u3)). done.
Qed.

Lemma iterate_delivers o t u : undisturbed t = true -> o <> None ->
  (iterate o t u).1 = true /\ u_delivered (iterate o t u).2 = u_delivered u ++ messages_of t.
Proof.
  intros Hu Ho. pose proof Hu as Hu'. unfold undisturbed in Hu'. rewrite !andb_true_iff in Hu'.
  destruct Hu' as [[[[Hs Hc] Hf] Hw] Hl]. apply bool_decide_eq_true in Hc.
  unfold iterate, messages_of, accepted. destruct (tick_shutdown t); [done|].
  destruct (tick_manual t).
  { destruct o as [r|]; [|done]. split; [done|]. rewrite app_nil_r. cbn [snd]. unfold manual_relogin.
    pose proof (renew_frame r (tick_login t) (set_status r LOGGING_IN (add_counts 0 0 1 u))) as Hr.
    destruct (renew_expired_session _ _ _) as [[[]|e] u2]; destruct Hr as (_ & _ & _ & F & _); cbn;
      rewrite status_delivered, F, status_delivered; done. }
  destruct (tick_select t) as [b|[resp|e]].
  - rewrite app_nil_r. by destruct b.
  - destruct (bool_decide (gur_ret resp = Some 0%Z) || bool_decide (gur_errcode resp = None)).
    + unfold accept, forward_batch. rewrite Hc. split; [done|]. cbn. f_equal. unfold new_cursor.
      destruct o as [r|]; cbn [with_renewal]; repeat case_match; cbn; by rewrite ?status_delivered.
    + rewrite app_nil_r. by apply reject_delivers.
  - rewrite app_nil_r. by apply (back_off_delivers _ (add_counts 0 1 0 u)).
Qed.

(** The start hands no message over, whatever its probe returned. *)
Lemma startup_delivers r probe s u : u_delivered (startup (Some r) probe s u) = u_delivered u.
Proof.
  unfold startup, with_renewal. destruct probe as [resp|e]; [|done]. destruct (_ =? -14)%Z.
  - pose proof (renew_frame r s (set_status r NEEDS_LOGIN u)) as Hf.
    destruct (renew_expired_session _ _ _) as [[[]|e] u2]; destruct Hf as (_ & _ & _ & F & _); cbn;
      rewrite ?status_delivered, F; apply status_delivered.
  - unfold new_cursor. repeat case_match; cbn; apply status_delivered.
Qed.

Lemma polling_delivers r ticks u : forallb undisturbed ticks = true ->
  (polling (Some r) ticks u).1 = true /\
  u_delivered (polling (Some r) ticks u).2 = u_delivered u ++ List.concat (map messages_of ticks).
Proof.
  revert u. induction ticks as [|t ticks IH]; intros u; cbn [forallb polling map List.concat].
  - intros _. by rewrite app_nil_r.
  - intros [Ht Hts]%andb_true_iff. destruct (iterate_delivers (Some r) t u Ht) as [H1 H2]; [done|].
    destruct (iterate (Some r) t u) as [c u']. cbn in H1, H2. subst c. destruct (IH u' Hts) as [H3 H4].
    split; [done|]. by rewrite H4, H2, <- app_assoc.
Qed.

(** (C19) Messages reach the dispatcher once and in order: while no shutdown comes and the
    dispatcher is there, the whole polling task keeps running and hands over exactly the
    messages of the polls of its loop that it accepts, in the order they came, whatever
    errors, expired sessions and re-logins happen in between. The poll with which the
    task probes the session at its start is not among them: nothing it returns is handed
    over ([probe_messages_dropped]). *)
Theorem polling_delivers_in_order (r : Renewal) (probe : result GetUpdatesResponse string)
    (s : LoginScript) (ticks : list Tick) (u : Upstream)
    (Hu : forallb undisturbed ticks = true) :
  let out := run_polling_loop (Some r) probe s ticks u in
  out.1 = true /\ u_delivered out.2 = u_delivered u ++ List.concat (map messages_of ticks).
Proof.
  intros out. unfold out, run_polling_loop.
  destruct (polling_delivers r ticks (startup (Some r) probe s u) Hu) as [H1 H2].
  split; [exact H1|]. by rewrite H2, startup_delivers.
Qed.

(** The cursor of an accepted probe is adopted although its messages are not handed over:
    the service is asked only for what comes after them. *)
Lemma probe_messages_dropped r s u resp cursor :
  gur_ret resp = Some 0%Z -> gur_errcode resp = None -> gur_get_updates_buf resp = Some cursor -> cursor <> "" ->
  let u' := startup (Some r) (Ok resp) s u in
  u_buf u' = cursor /\ u_delivered u' = u_delivered u.
Proof.
  intros Hr He Hb Hc u'. split; [|apply startup_delivers].
  unfold u', startup, new_cursor. rewrite He, Hr, Hb. cbn. by destruct cursor.
Qed.

(** ** Backoff *)

Definition failing (t : Tick) : bool :=
  negb (tick_shutdown t) && negb (tick_manual t) &&
  match tick_select t with Polled (Err _) => true | _ => false end &&
  match tick_wait t with Elapses => true | _ => false end.

(** The wait after the [n]-th failure in a row. *)
Definition nth_wait (n : nat) : Z := Z.min (2 ^ Z.of_nat n) 30.

Lemma nth_wait_S n : Z.min (nth_wait n * 2) 30 = nth_wait (S n).
Proof.
  unfold nth_wait. rewrite Nat2Z.inj_succ, Z.pow_succ_r by lia.
  pose proof (Z.pow_pos_nonneg 2 (Z.of_nat n)). lia.
Qed.

Lemma failing_run o ticks u n :
  forallb failing ticks = true -> u_backoff u = nth_wait n ->
  let r := polling o ticks u in
  r.1 = true /\ u_backoff r.2 = nth_wait (n + length ticks) /\
  u_waits r.2 = u_waits u ++ map nth_wait (List.seq n (length ticks)) /\ u_buf r.2 = u_buf u.
Proof.
  revert u n. induction ticks as [|t ticks IH]; intros u n; cbn [forallb polling].
  - intros _ Hb. cbn. by rewrite Nat.add_0_r, app_nil_r.
  - intros [Ht Hts]%andb_true_iff Hb. unfold failing in Ht. rewrite !andb_true_iff in Ht.
    destruct Ht as [[[Hs Hm] Hp] Hw]. unfold iterate. destruct (tick_shutdown t); [done|].
    destruct (tick_manual t); [done|]. destruct (tick_select t) as [|[|e]]; [done|done|].
    destruct (tick_wait t); [|done].
    assert (E : back_off Elapses (add_counts 0 1 0 u)
                = (true, set_backoff (nth_wait (S n)) (add_output [] [nth_wait n] (add_counts 0 1 0 u)))).
    { rewrite <- nth_wait_S, <- Hb. reflexivity. }
    rewrite E. destruct (IH (set_backoff (nth_wait (S n)) (add_output [] [nth_wait n] (add_counts 0 1 0 u))) (S n) Hts eq_refl)
      as (H1 & H2 & H3 & H4).
    split; [exact H1|]. split; [|split; [|exact H4]].
    + rewrite H2. f_equal. cbn. lia.
    + rewrite H3. cbn. by rewrite <- app_assoc.
Qed.

(** Exponential backoff: the waits after consecutive failed polls are 1, 2, 4, 8, 16, 30,
    30, ... seconds, and the cursor stays where it was, so that nothing is skipped. *)
Theorem backoff_schedule (o : option Renewal) (ticks : list Tick) (u : Upstream)
    (Hu : forallb failing ticks = true) (Hb : u_backoff u = 1%Z) :
  let r := polling o ticks u in
  r.1 = true /\ u_waits r.2 = u_waits u ++ map nth_wait (List.seq 0 (length ticks)) /\ u_buf r.2 = u_buf u.
Proof. destruct (failing_run o ticks u 0 Hu Hb) as (H1 & _ & H2 & H3). done. Qed.

(** ** Error responses *)

(** The loop and the start-up probe disagree on errors reported in [ret] alone: the probe
    takes such a -14 for an expired session and logs in again; the loop takes it for a
    success, reports being connected, neither waits nor renews, and keeps the dead token. *)
Theorem expiry_in_ret_is_missed (r : Renewal) (t : Tick) (u : Upstream) (resp : GetUpdatesResponse)
    (Hplain : tick_shutdown t = false /\ tick_manual t = false /\ tick_channel t = None)
    (Hstatus : rn_status r = true) (Hpoll : tick_select t = Polled (Ok resp))
    (Hret : gur_ret resp = Some (-14)%Z) (Herr : gur_errcode resp = None) :
  (let '(goes_on, u') := iterate (Some r) t u in
   goes_on = true /\ u_status u' = CONNECTED /\ u_waits u' = u_waits u /\ u_backoff u' = 1%Z /\
   u_token u' = u_token u) /\
  (forall s token events, ls_client s = true -> ls_save s = None ->
     LoginClient.login_with_qr_ui (ls_encode s) (rn_desktop r || rn_stream r) (ls_qr s) (ls_replies s)
       = (Ok token, events) ->
     u_token (startup (Some r) (Ok resp) s u) = token).
Proof.
  destruct Hplain as (Hs & Hm & Hc). split.
  - unfold iterate. rewrite Hs, Hm, Hpoll, Herr, (bool_decide_true (None = None)) by done.
    rewrite orb_true_r. unfold accept, forward_batch. rewrite Hc. cbn [with_renewal]. unfold set_status. rewrite Hstatus.
    split; [done|]. unfold new_cursor. repeat case_match; cbn; by rewrite app_nil_r.
  - intros s token events Hcl Hsv Hl. unfold startup. rewrite Hret, Herr. cbn [or_else unwrap_or Z.eqb].
    change (-14 =? -14)%Z with true. cbn [with_renewal].
    unfold renew_expired_session. rewrite Hcl, Hl, Hsv. cbn [negb]. unfold set_status. by rewrite Hstatus.
Qed.

(** After an automatic renewal that failed, the status stays at "logging in" although no
    login is under way; after a manual one it says that a login is needed. *)
Theorem failed_renewal_status (r : Renewal) (t : Tick) (u : Upstream) (resp : GetUpdatesResponse) (e : string)
    (Hplain : tick_shutdown t = false /\ u_renewing u = false) (Hstatus : rn_status r = true)
    (Hpoll : tick_select t = Polled (Ok resp)) (Hret : gur_ret resp <> Some 0%Z)
    (Herr : gur_errcode resp = Some (-14)%Z)
    (Hfail : forall u, (renew_expired_session r (tick_login t) u).1 = Err e) :
  (tick_manual t = false -> u_status (iterate (Some r) t u).2 = LOGGING_IN) /\
  (tick_manual t = true -> u_status (iterate (Some r) t u).2 = NEEDS_LOGIN).
Proof.
  destruct Hplain as [Hs Hn]. unfold iterate. rewrite Hs. split; intros ->.
  - rewrite Hpoll, bool_decide_false, Herr, (bool_decide_false (Some (-14)%Z = None)) by done. cbn [orb].
    unfold reject. rewrite Herr. cbn [or_else unwrap_or]. change (-14 =? -14)%Z with true. cbv iota.
    set (u0 := set_status r NEEDS_LOGIN _).
    assert (E0 : u_renewing u0 = false) by (unfold u0, set_status; by destruct (rn_status r)). rewrite E0.
    set (u1 := add_counts 0 0 1 _). pose proof (Hfail u1) as Hf. pose proof (renew_frame r (tick_login t) u1) as Hfr.
    destruct (renew_expired_session r (tick_login t) u1) as [res u2]. cbn in Hf. subst res.
    destruct Hfr as (_ & _ & _ & _ & _ & F & _). rewrite Hstatus in F.
    unfold sleep_or_shutdown, back_off. destruct (tick_login_wait t) as [|[]]; cbn; [|done|];
      destruct (tick_wait t) as [|[]]; done.
  - cbn [snd]. unfold manual_relogin. set (u1 := set_status r LOGGING_IN _). pose proof (Hfail u1) as Hf.
    destruct (renew_expired_session r (tick_login t) u1) as [res u2]. cbn in Hf. subst res.
    unfold set_status. by rewrite Hstatus.
Qed.

(** ** Instances *)

Definition sample_script : LoginScript :=
  {| ls_client := false; ls_encode := Some; ls_qr := Err "down"; ls_replies := fun _ => NetError; ls_save := None |}.

Definition sample_tick (r : result GetUpdatesResponse string) : Tick :=
  {| tick_shutdown := false; tick_manual := false; tick_select := Polled r; tick_login := sample_script;
     tick_login_wait := Elapses; tick_wait := Elapses; tick_channel := None |}.

Definition sample_answer (code : option Z) (msgs : list WeixinMessage) : result GetUpdatesResponse string :=
  Ok {| gur_ret := None; gur_errcode := code; gur_errmsg := None; gur_msgs := Some msgs; gur_get_updates_buf := Some "c" |}.

Definition sample_renewal : Renewal := {| rn_base_url := None; rn_desktop := false; rn_stream := true; rn_status := true |}.

(** A message, an expired session whose renewal fails, an error, and another message. *)
Definition sample_ticks : list Tick :=
  [sample_tick (sample_answer None [set_seq WeixinMessage_default (Some 1%Z)]);
   sample_tick (sample_answer (Some (-14)%Z) []);
   sample_tick (Err "timeout");
   sample_tick (sample_answer None [set_seq WeixinMessage_default (Some 2%Z)])].

Lemma polling_delivers_in_order_witness :
  u_delivered (run_polling_loop (Some sample_renewal)
    (sample_answer None [set_seq WeixinMessage_default (Some 0%Z)]) sample_script sample_ticks
    (Upstream_new "a:b" None)).2
  = [set_seq WeixinMessage_default (Some 1%Z); set_seq WeixinMessage_default (Some 2%Z)].
Proof.
  destruct (polling_delivers_in_order sample_renewal (sample_answer None [set_seq WeixinMessage_default (Some 0%Z)])
    sample_script sample_ticks (Upstream_new "a:b" None)) as [_ H]; [reflexivity|]. rewrite H. reflexivity.
Defined.

Lemma polling_invariant_witness :
  loop_inv (run_polling_loop (Some sample_renewal) (Err "down") sample_script sample_ticks
              (Upstream_new "a:b" (Some ("a:b", ILINK_BASE_URL)))).2.
Proof.
  apply (polling_invariant (Some sample_renewal) (Err "down") sample_script sample_ticks "a:b"
    (Some ("a:b", ILINK_BASE_URL))). intros t b [= <- _]. reflexivity.
Defined.
