(* ===== verification/RateLimit.v ===== *)
(** * Outbound rate limiting ([src/src/hub/rate_limit.rs])

    One token bucket per virtual token, in IEEE binary64 arithmetic ([spec_float] with
    53 bits of precision). An [Instant] and a [Duration] are numbers of nanoseconds. The
    bucket map sits behind a mutex; a panic while it is held poisons it. *)
From S2P Require Import Prelude StrLemmas Types Queue Router Footer VToken Registry Acl Store PollTracker Hub.
From Stdlib Require Import SpecFloat.
Import Str.
Local Open Scope hub_scope.

(** ** [f64] *)

Notation f64 := spec_float.

Definition f_add : f64 -> f64 -> f64 := SFadd 53 1024.
Definition f_sub : f64 -> f64 -> f64 := SFsub 53 1024.
Definition f_mul : f64 -> f64 -> f64 := SFmul 53 1024.
Definition f_div : f64 -> f64 -> f64 := SFdiv 53 1024.

(** [as f64] of an integer: round to nearest, ties to even. *)
Definition f_of (n : Z) : f64 := binary_normalize 53 1024 n 0 false.

Definition is_nan (x : f64) : bool := match x with S754_nan => true | _ => false end.

Definition is_finite (x : f64) : bool :=
  match x with S754_zero _ | S754_finite _ _ _ => true | _ => false end.

(** [f64::min]. *)
Definition f_min (x y : f64) : f64 :=
  if is_nan x then y else if is_nan y then x else if SFltb x y then x else y.

Definition NANOS_PER_SEC : Z := 1000000000.

(** [Duration::as_secs_f64]. *)
Definition as_secs_f64 (ns : Z) : f64 :=
  f_add (f_of (ns / NANOS_PER_SEC)) (f_div (f_of (ns mod NANOS_PER_SEC)) (f_of NANOS_PER_SEC)).

(** Nearest integer to [n / d], ties to even. *)
Definition div_round (n d : Z) : Z :=
  let q := (n / d)%Z in
  match (2 * (n mod d) ?= d)%Z with
  | Lt => q
  | Gt => (q + 1)%Z
  | Eq => if Z.even q then q else (q + 1)%Z
  end.

(** [Duration::from_secs_f64]; [None] is its panic on a negative, infinite, undefined or
    too large number of seconds. *)
Definition from_secs_f64 (x : f64) : option Z :=
  match x with
  | S754_zero _ => Some 0%Z
  | S754_finite false m e =>
      let n := (Zpos m * NANOS_PER_SEC)%Z in
      let ns := if (0 <=? e)%Z then (n * 2 ^ e)%Z else div_round n (2 ^ (- e)) in
      if (ns <? 2 ^ 64 * NANOS_PER_SEC)%Z then Some ns else None
  | _ => None
  end.

(** ** The limiter *)

Definition BOT_RATE_LIMIT_PER_SEC_DEFAULT : f64 := f_of 20.
Definition BOT_RATE_LIMIT_BURST_DEFAULT : f64 := f_of 40.
Definition BOT_RATE_LIMIT_MAX_ENTRIES : nat := 4096.

Inductive RateLimitOutcome :=
| Allowed (remaining : f64)
| Denied (retry_after : Z).

Definition sanitize_rate (r : f64) : f64 :=
  if is_finite r && SFltb (f_of 0) r then r else f_div (f_of 1) (f_of 1000).

Definition sanitize_burst (b : f64) : f64 :=
  if is_finite b && SFleb (f_of 1) b then b else f_of 1.

Record Bucket := {
  b_tokens : f64;
  b_last : Z;
  b_rejected : Z;
}.

Record RateLimitSnapshot := {
  sn_tokens : f64;
  sn_burst : f64;
  sn_rejected : Z;
}.

Record VtokenRateLimiter := {
  buckets : gmap string Bucket;
  poisoned : bool;
  rate_per_sec : f64;
  burst : f64;
  rl_capacity : nat;
}.

Definition VtokenRateLimiter_new (rate b : f64) : VtokenRateLimiter :=
  {| buckets := ∅; poisoned := false; rate_per_sec := sanitize_rate rate;
     burst := sanitize_burst b; rl_capacity := BOT_RATE_LIMIT_MAX_ENTRIES |}.

Definition VtokenRateLimiter_default : VtokenRateLimiter :=
  VtokenRateLimiter_new BOT_RATE_LIMIT_PER_SEC_DEFAULT BOT_RATE_LIMIT_BURST_DEFAULT.

Definition set_limits (rate b : f64) (l : VtokenRateLimiter) : VtokenRateLimiter :=
  {| buckets := buckets l; poisoned := poisoned l; rate_per_sec := sanitize_rate rate;
     burst := sanitize_burst b; rl_capacity := rl_capacity l |}.

Definition evict (vt : string) (cap : nat) (m : gmap string Bucket) : gmap string Bucket :=
  if (cap <=? size m)%nat && bool_decide (m !! vt = None) then
    drop_oldest b_last m
  else m.

(** Refilling a bucket and charging it; [None] is a panic. *)
Definition charge (rate b : f64) (now : Z) (k : Bucket) : option RateLimitOutcome * Bucket :=
  let elapsed := as_secs_f64 (Z.max 0 (now - b_last k)) in
  let t := f_min (f_add (b_tokens k) (f_mul elapsed rate)) b in
  if SFleb (f_of 1) t then
    let r := f_sub t (f_of 1) in
    (Some (Allowed r), {| b_tokens := r; b_last := now; b_rejected := b_rejected k |})
  else
    (Denied <$> from_secs_f64 (f_div (f_sub (f_of 1) t) rate),
     {| b_tokens := t; b_last := now; b_rejected := Z.min u64_max (b_rejected k + 1) |}).

(** [check_at]; the outcome [None] is a panic, which poisons the map. *)
Definition check_at (vt : string) (now : Z) (l : VtokenRateLimiter)
    : option RateLimitOutcome * VtokenRateLimiter :=
  if poisoned l then (Some (Allowed (burst l)), l) else
  let m := evict vt (rl_capacity l) (buckets l) in
  let k := default {| b_tokens := burst l; b_last := now; b_rejected := 0 |} (m !! vt) in
  let '(o, k) := charge (rate_per_sec l) (burst l) now k in
  (o, {| buckets := <[vt := k]> m; poisoned := bool_decide (o = None);
         rate_per_sec := rate_per_sec l; burst := burst l; rl_capacity := rl_capacity l |}).

Definition snapshot (l : VtokenRateLimiter) : list (string * RateLimitSnapshot) :=
  if poisoned l then [] else
  (fun p : string * Bucket =>
     (p.1, {| sn_tokens := b_tokens p.2; sn_burst := burst l; sn_rejected := b_rejected p.2 |}))
  <$> map_to_list (buckets l).

Definition tracked_count (l : VtokenRateLimiter) : nat := size (buckets l).

(** The limiter behind the handlers. A request whose check panics is never admitted; the
    handlers see a refusal. *)
#[export] Instance VtokenRateLimiter_RateLimiter : RateLimiter VtokenRateLimiter :=
  fun l now vt =>
    match check_at vt now l with
    | (Some (Allowed _), l) => (None, l)
    | (Some (Denied ns), l) => (Some ns, l)
    | (None, l) => (Some 0%Z, l)
    end.

(** ** Sequences of requests *)

(** Requests of tenants, each with the instant it arrives at. *)
Fixpoint checks (reqs : list (Z * string)) (l : VtokenRateLimiter)
    : list (option RateLimitOutcome) * VtokenRateLimiter :=
  match reqs with
  | [] => ([], l)
  | (now, vt) :: reqs =>
      let '(o, l) := check_at vt now l in
      let '(os, l) := checks reqs l in (o :: os, l)
  end.

(** The reference: one bucket of whole tokens per tenant, which sees only that tenant's
    requests. The state is the level after the last request and the second of that
    request; [None] before the first. *)
Definition Share : Type := option (Z * Z).

(** The tokens a tenant finds at second [k]: the bucket is full before the first request,
    and gains 20 tokens a second up to 40 after it. *)
Definition available (b : Share) (k : Z) : Z :=
  match b with
  | None => 40
  | Some (n, last) => Z.min 40 (n + 20 * Z.max 0 (k - last))
  end.

(** A request takes one token if there is one. *)
Definition take_token (b : Share) (k : Z) : Share := Some (Z.max 0 (available b k - 1), k).

Definition share_step (vt : string) (b : Share) (r : Z * string) : Share :=
  if String.eqb r.2 vt then take_token b r.1 else b.

(** The bucket of [vt] after the requests [past]. *)
Definition share (vt : string) (past : list (Z * string)) : Share := foldl (share_step vt) None past.

(** The answer to a request at second [k] that finds the bucket [b]. *)
Definition share_answer (b : Share) (k : Z) : option RateLimitOutcome :=
  Some (if (1 <=? available b k)%Z then Allowed (f_of (available b k - 1)) else Denied 50000000).

(** Requests at whole seconds after [t0]. *)
Definition at_second (t0 k : Z) : Z := (t0 + k * NANOS_PER_SEC)%Z.

Definition at_seconds (t0 : Z) (reqs : list (Z * string)) : list (Z * string) :=
  (fun r : Z * string => (at_second t0 r.1, r.2)) <$> reqs.

(** ** Lemmas *)

Lemma size_evict vt cap m : (1 <= cap)%nat -> (size m <= cap)%nat ->
  evict vt cap m !! vt = None -> (size (evict vt cap m) < cap)%nat.
Proof.
  intros Hc Hs. unfold evict. destruct (Nat.leb_spec cap (size m)); cbn; [|lia].
  case_bool_decide as Hn; [|done]. intros _. rewrite size_drop_oldest. lia.
Qed.

(** The map never outgrows its capacity. *)
Lemma check_size vt now l :
  (1 <= rl_capacity l)%nat -> (tracked_count l <= rl_capacity l)%nat ->
  (tracked_count (check_at vt now l).2 <= rl_capacity l)%nat.
Proof.
  intros Hc Hs. unfold check_at, tracked_count in *. destruct (poisoned l); [done|]. cbv zeta.
  destruct (charge _ _ _ _) as [o k]. cbn. rewrite map_size_insert.
  destruct (evict vt (rl_capacity l) (buckets l) !! vt) eqn:E.
  - revert E. unfold evict. destruct (_ && _); [|done]. intros _. rewrite size_drop_oldest. unfold id. lia.
  - pose proof (size_evict vt (rl_capacity l) (buckets l) Hc Hs E). lia.
Qed.

#[export] Instance spec_float_eq_dec : EqDecision spec_float.
Proof. solve_decision. Defined.

(** What charging a default bucket with [n] tokens gives [d] seconds after its last use. *)
Definition charged (n d : Z) : bool :=
  let t := f_min (f_add (f_of n) (f_mul (as_secs_f64 (d * NANOS_PER_SEC))
                                        (rate_per_sec VtokenRateLimiter_default)))
                 (burst VtokenRateLimiter_default) in
  bool_decide (t = f_of (Z.min 40 (n + 20 * d))).

(** The longest pause of a tenant, in seconds, for which the refill is computed. An empty
    bucket is full after two. *)
Definition LONGEST_PAUSE : Z := 60.

(** The refill is exact for every level of the bucket and every pause in whole seconds. *)
Lemma refill_computed :
  forallb (fun d => forallb (fun n => charged (Z.of_nat n) (Z.of_nat d)) (List.seq 0 41)) (List.seq 0 61) = true.
Proof. vm_compute. reflexivity. Qed.

Lemma refill_exact n d :
  (0 <= n <= 40)%Z -> (0 <= d <= LONGEST_PAUSE)%Z ->
  f_min (f_add (f_of n) (f_mul (as_secs_f64 (d * NANOS_PER_SEC)) (rate_per_sec VtokenRateLimiter_default)))
    (burst VtokenRateLimiter_default) = f_of (Z.min 40 (n + 20 * d)).
Proof.
  intros Hn Hd. unfold LONGEST_PAUSE in Hd. pose proof refill_computed as H. rewrite forallb_forall in H.
  specialize (H (Z.to_nat d)). rewrite forallb_forall in H.
  specialize (H ltac:(apply in_seq; lia) (Z.to_nat n) ltac:(apply in_seq; lia)).
  rewrite !Z2Nat.id in H by lia. by apply bool_decide_eq_true in H.
Qed.

(** A whole number of tokens is charged exactly. *)
Lemma charge_level_computed (t : nat) :
  (t <= 40)%nat ->
  SFleb (f_of 1) (f_of (Z.of_nat t)) = (1 <=? Z.of_nat t)%Z /\
  ((1 <= t)%nat -> f_sub (f_of (Z.of_nat t)) (f_of 1) = f_of (Z.of_nat t - 1)) /\
  (t = 0%nat -> from_secs_f64 (f_div (f_sub (f_of 1) (f_of (Z.of_nat t)))
                                     (rate_per_sec VtokenRateLimiter_default)) = Some 50000000%Z).
Proof.
  intros Ht. do 41 (destruct t as [|t]; [split_and!; try (vm_compute; reflexivity); intros; try lia;
    vm_compute; reflexivity|]). lia.
Qed.

Lemma charge_level t :
  (0 <= t <= 40)%Z ->
  SFleb (f_of 1) (f_of t) = (1 <=? t)%Z /\
  ((1 <= t)%Z -> f_sub (f_of t) (f_of 1) = f_of (t - 1)) /\
  (t = 0%Z -> from_secs_f64 (f_div (f_sub (f_of 1) (f_of t)) (rate_per_sec VtokenRateLimiter_default))
              = Some 50000000%Z).
Proof.
  intros Ht. destruct (charge_level_computed (Z.to_nat t)) as (H1 & H2 & H3); [lia|].
  rewrite Z2Nat.id in * by lia. split_and!; [done|intros; apply H2; lia|intros; apply H3; lia].
Qed.

Lemma evict_room vt cap m : (m !! vt = None -> (size m < cap)%nat) -> evict vt cap m = m.
Proof.
  intros Hm. unfold evict. case_bool_decide as Hn; [|by rewrite andb_false_r].
  specialize (Hm Hn). destruct (Nat.leb_spec cap (size m)); [lia|done].
Qed.

(** The seconds since the last request of a tenant. *)
Definition pause (b : Share) (k : Z) : Z :=
  match b with Some (_, last) => (k - last)%Z | None => 0%Z end.

(** The bucket of the limiter that stands for a bucket of the reference. *)
Definition stands_for (t0 : Z) (b : Share) (k : option Bucket) : Prop :=
  match b, k with
  | None, None => True
  | Some (n, last), Some k =>
      (0 <= n <= 40)%Z /\ b_tokens k = f_of n /\ b_last k = at_second t0 last
  | _, _ => False
  end.

Lemma available_range b k :
  match b with Some (n, _) => (0 <= n <= 40)%Z | None => True end -> (0 <= available b k <= 40)%Z.
Proof. destruct b as [[n last]|]; cbn [available]; lia. Qed.

(** Charging follows the reference. *)
Lemma charge_share t0 b ko k :
  stands_for t0 b ko ->
  (pause b k <= LONGEST_PAUSE)%Z ->
  let now := at_second t0 k in
  let bk := default {| b_tokens := burst VtokenRateLimiter_default; b_last := now; b_rejected := 0 |} ko in
  (charge (rate_per_sec VtokenRateLimiter_default) (burst VtokenRateLimiter_default) now bk).1
  = share_answer b k /\
  stands_for t0 (take_token b k)
    (Some (charge (rate_per_sec VtokenRateLimiter_default) (burst VtokenRateLimiter_default) now bk).2).
Proof.
  intros Hs Hd now bk.
  assert (Ht : f_min (f_add (b_tokens bk) (f_mul (as_secs_f64 (Z.max 0 (now - b_last bk)))
      (rate_per_sec VtokenRateLimiter_default))) (burst VtokenRateLimiter_default) = f_of (available b k)).
  { destruct b as [[n last]|], ko as [kk|]; try done; cbn in bk; subst bk.
    - destruct Hs as (Hn & -> & ->). cbn [available]. subst now. unfold at_second.
      replace (Z.max 0 _) with (Z.max 0 (k - last) * NANOS_PER_SEC)%Z by (unfold NANOS_PER_SEC; lia).
      cbn [pause] in Hd. apply refill_exact; [done|unfold LONGEST_PAUSE in *; lia].
    - cbn [b_tokens b_last available]. rewrite Z.sub_diag. exact (refill_exact 40 0 ltac:(lia) ltac:(done)). }
  assert (Hr : (0 <= available b k <= 40)%Z).
  { apply available_range. destruct b as [[n last]|], ko; try done. apply Hs. }
  destruct (charge_level _ Hr) as (H1 & H2 & H3).
  unfold charge. cbv zeta. rewrite Ht, H1. unfold share_answer, take_token.
  destruct (Z.leb_spec 1 (available b k)); cbn [fst snd stands_for b_tokens b_last].
  - rewrite H2 by done. split; [done|]. rewrite Z.max_r by lia. split_and!; [lia|lia|done|done].
  - rewrite H3 by lia. split; [done|]. rewrite Z.max_l by lia. split_and!; [lia|lia| |done].
    f_equal. lia.
Qed.

(** The default limiter after the requests [past]. *)
Record tracks (t0 : Z) (past : list (Z * string)) (l : VtokenRateLimiter) : Prop := {
  tr_policy : poisoned l = false /\ rate_per_sec l = rate_per_sec VtokenRateLimiter_default /\
              burst l = burst VtokenRateLimiter_default /\ rl_capacity l = BOT_RATE_LIMIT_MAX_ENTRIES;
  tr_dom : dom (buckets l) = list_to_set past.*2;
  tr_bucket : forall vt, stands_for t0 (share vt past) (buckets l !! vt);
}.

Lemma share_snoc vt past r : share vt (past ++ [r]) = share_step vt (share vt past) r.
Proof. unfold share. by rewrite foldl_app. Qed.

Lemma tracks_new t0 : tracks t0 [] VtokenRateLimiter_default.
Proof. by split. Qed.

Lemma tracks_step t0 past l k vt :
  tracks t0 past l -> (pause (share vt past) k <= LONGEST_PAUSE)%Z ->
  (size (list_to_set (vt :: past.*2) : gset string) <= BOT_RATE_LIMIT_MAX_ENTRIES)%nat ->
  (check_at vt (at_second t0 k) l).1 = share_answer (share vt past) k /\
  tracks t0 (past ++ [(k, vt)]) (check_at vt (at_second t0 k) l).2.
Proof.
  intros [(Hp & Hr & Hb & Hc) Hd Hs] Hk Hsize.
  assert (Hev : evict vt (rl_capacity l) (buckets l) = buckets l).
  { apply evict_room. intros Hn. apply not_elem_of_dom in Hn. rewrite Hc, <- size_dom, Hd.
    rewrite Hd in Hn. cbn [list_to_set] in Hsize. rewrite size_union, size_singleton in Hsize by set_solver.
    lia. }
  destruct (charge_share t0 (share vt past) (buckets l !! vt) k (Hs vt) Hk) as [Ho Hn].
  unfold check_at. rewrite Hp. cbv zeta. rewrite Hev, Hr, Hb.
  destruct (charge _ _ _ _) as [o b]. cbn [fst snd] in Ho, Hn |- *. subst o.
  split; [done|]. split.
  - done.
  - cbn. rewrite dom_insert_L, Hd, fmap_app, list_to_set_app_L. cbn. set_solver.
  - intros v. cbn. rewrite share_snoc. unfold share_step. cbn [fst snd].
    destruct (String.eqb_spec vt v) as [<-|Hne].
    + by rewrite lookup_insert_eq.
    + rewrite lookup_insert_ne by done. apply Hs.
Qed.

Lemma checks_tracks t0 reqs past l :
  tracks t0 past l ->
  (forall i k vt, reqs !! i = Some (k, vt) ->
     (pause (share vt (past ++ take i reqs)) k <= LONGEST_PAUSE)%Z) ->
  (size (list_to_set (past ++ reqs).*2 : gset string) <= BOT_RATE_LIMIT_MAX_ENTRIES)%nat ->
  forall i k vt, reqs !! i = Some (k, vt) ->
    (checks (at_seconds t0 reqs) l).1 !! i = Some (share_answer (share vt (past ++ take i reqs)) k).
Proof.
  revert past l. induction reqs as [|[k1 v] reqs IH]; intros past l Hsp Hp Hsize i k vt Hi; [done|].
  cbn [at_seconds fmap list_fmap checks fst snd].
  destruct (tracks_step t0 past l k1 v Hsp) as [Ho Hn].
  { rewrite <- (app_nil_r past). by apply (Hp 0%nat). }
  { etransitivity; [|exact Hsize]. apply subseteq_size. rewrite fmap_app, list_to_set_app_L. set_solver. }
  destruct (check_at v _ l) as [o l1]. cbn in Ho, Hn.
  assert (IH' := IH (past ++ [(k1, v)]) l1 Hn). rewrite <- app_assoc in IH'. specialize (fun H => IH' H Hsize).
  assert (Hp' : forall i k vt, reqs !! i = Some (k, vt) ->
      (pause (share vt ((past ++ [(k1, v)]) ++ take i reqs)) k <= LONGEST_PAUSE)%Z).
  { intros j k' v' Hj. rewrite <- app_assoc. by apply (Hp (S j)). }
  change ((fun r : Z * string => (at_second t0 r.1, r.2)) <$> reqs) with (at_seconds t0 reqs).
  destruct (checks _ l1) as [os l2]. destruct i as [|i]; cbn in *.
  - injection Hi as -> ->. by rewrite app_nil_r, Ho.
  - etransitivity; [exact (IH' Hp' i k vt Hi)|]. by rewrite <- app_assoc.
Qed.

Definition occurrences (vt : string) (l : list (Z * string)) : nat := count_occ String.string_dec l.*2 vt.

(** Requests of one second only drain the bucket. *)
Lemma share_burst vt k past :
  Forall (fun r : Z * string => r.1 = k) past ->
  available (share vt past) k = Z.of_nat (40 - occurrences vt past) /\
  match share vt past with Some (_, last) => last = k | None => True end.
Proof.
  induction past as [|r past IH] using rev_ind; [done|]. intros Hk.
  apply Forall_app in Hk as [Hk Hr]. apply Forall_cons in Hr as [Hr _]. destruct (IH Hk) as [IH1 IH2].
  rewrite share_snoc. unfold occurrences in *. rewrite fmap_app, count_occ_app. unfold share_step.
  destruct r as [k' v]. cbn [fst snd fmap list_fmap count_occ] in Hr |- *. subst k'.
  destruct (String.eqb_spec v vt) as [->|Hne].
  - destruct (String.string_dec vt vt); [|done]. split; [|done].
    unfold take_token. rewrite IH1. cbn [available]. rewrite Z.sub_diag. lia.
  - destruct (String.string_dec v vt); [done|]. by rewrite Nat.add_0_r.
Qed.

(** (C33) Fair shares: a limiter that starts fresh under the default policy serves every
    tenant as if it were alone. Of any requests of at most 4096 tenants that arrive at
    whole seconds, in any order, and no more than a minute after the tenant's previous
    one, each is answered from the tenant's own bucket of 40 tokens, which gains 20 a
    second: it is admitted, and told how many tokens remain, exactly when a token is
    there, and refused with a wait of 50 milliseconds otherwise. In particular each
    tenant gets exactly its first 40 requests of one instant through. *)
Theorem fair_burst (t0 : Z) (reqs : list (Z * string))
    (Hpause : forall i k vt, reqs !! i = Some (k, vt) ->
       (pause (share vt (take i reqs)) k <= LONGEST_PAUSE)%Z)
    (Hsize : (size (list_to_set reqs.*2 : gset string) <= BOT_RATE_LIMIT_MAX_ENTRIES)%nat) :
  (forall i k vt, reqs !! i = Some (k, vt) ->
     (checks (at_seconds t0 reqs) VtokenRateLimiter_default).1 !! i
     = Some (Some (if (1 <=? available (share vt (take i reqs)) k)%Z
                   then Allowed (f_of (available (share vt (take i reqs)) k - 1))
                   else Denied 50000000))) /\
  (forall i k vt, reqs !! i = Some (k, vt) -> Forall (fun r : Z * string => r.1 = k) (take i reqs) ->
     (checks (at_seconds t0 reqs) VtokenRateLimiter_default).1 !! i
     = Some (Some (if (occurrences vt (take i reqs) <? 40)%nat
                   then Allowed (f_of (Z.of_nat (39 - occurrences vt (take i reqs))))
                   else Denied 50000000))).
Proof.
  pose proof (checks_tracks t0 reqs [] _ (tracks_new t0) Hpause Hsize) as H.
  split; intros i k vt Hi; [exact (H i k vt Hi)|]. intros Hk. rewrite (H i k vt Hi).
  cbn [app]. unfold share_answer. destruct (share_burst vt k _ Hk) as [-> _].
  destruct (Nat.ltb_spec (occurrences vt (take i reqs)) 40), (Z.leb_spec 1 (Z.of_nat (40 - occurrences vt (take i reqs)))); try lia; [|done].
  do 4 f_equal. lia.
Qed.

(** 41 requests at once and two of the next second: the 41st is refused, the bucket has
    20 tokens a second later. *)
Definition burst_then_pause : list (Z * string) := replicate 41 (0%Z, "a") ++ [(0%Z, "b"); (1%Z, "a"); (1%Z, "a")].

Lemma fair_burst_witness :
  let os := (checks (at_seconds 7 burst_then_pause) VtokenRateLimiter_default).1 in
  os !! 39%nat = Some (Some (Allowed (f_of 0))) /\ os !! 40%nat = Some (Some (Denied 50000000)) /\
  os !! 41%nat = Some (Some (Allowed (f_of 39))) /\ os !! 42%nat = Some (Some (Allowed (f_of 19))) /\
  os !! 43%nat = Some (Some (Allowed (f_of 18))).
Proof.
  assert (H : forall i k vt, burst_then_pause !! i = Some (k, vt) ->
      (pause (share vt (take i burst_then_pause)) k <= LONGEST_PAUSE)%Z).
  { intros i k vt Hi. do 44 (destruct i as [|i]; [injection Hi as <- <-; vm_compute; discriminate|]). done. }
  pose proof (fair_burst 7 burst_then_pause H ltac:(vm_compute; lia)) as [F _].
  split_and!; [exact (F 39 0%Z "a" eq_refl)|exact (F 40 0%Z "a" eq_refl)|exact (F 41 0%Z "b" eq_refl)
    |exact (F 42 1%Z "a" eq_refl)|exact (F 43 1%Z "a" eq_refl)].
Defined.

(** A positive rate that is too small for [Duration] makes the check panic; the poisoned
    limiter then admits everything. *)
Lemma tiny_rate_fails_open :
  let l := VtokenRateLimiter_new (f_div (f_of 1) (f_of (2 ^ 80))) (f_of 1) in
  let os := (checks [(0%Z, "a"); (0%Z, "a"); (0%Z, "a")] l).1 in
  os !! 1%nat = Some None /\ os !! 2%nat = Some (Some (Allowed (f_of 1))).
Proof. split; vm_compute; reflexivity. Qed.

(** With a high rate, the advertised wait can be zero. *)
Lemma retry_after_can_be_zero :
  let l := VtokenRateLimiter_new (f_of (10 ^ 12)) (f_div (f_of 3) (f_of 2)) in
  (checks [(0%Z, "a"); (0%Z, "a")] l).1 !! 1%nat = Some (Some (Denied 0)).
Proof. vm_compute. reflexivity. Qed.
