(* ===== verification/Runtime.v ===== *)
(** * Startup and shutdown of the process ([src/runtime/serve.rs], [src/store/retention.rs],
    [src/store/instance_guard.rs])

    The configuration read from the environment, the choice of the bot token, the lock on
    the database, the retention sweeper's loop, and the drain of the queues at shutdown.
    The environment is a function from variable names to values. *)
From S2P Require Import Prelude StrLemmas Types Queue VToken PollTracker Store RelayBase Crypto Hub Login Upstream RateLimit.
From Stdlib Require Import Ascii SpecFloat.
Import Str.
Local Open Scope hub_scope.

(** ** Configuration *)

Inductive ConfigError :=
| NotANumber (name value : string)
| NotPositive (name : string)
| BadRate (name : string)
| BadRetention
| UnknownBackend (value : string).

Inductive Warning := BothAdminSettings | NothingToDelete | DryRun | OpenAdmin (addr : string).

Record RuntimeConfig := {
  dispatch_channel_size : Z;
  shutdown_drain_secs : Z;
  rc_admin : AdminConfig;
  max_hub_polls : Z;
  rc_retention : RetentionConfig;
  bot_rate_limit_per_sec : f64;
  bot_rate_limit_burst : f64;
}.

Definition DEFAULT_SHUTDOWN_DRAIN_SECS : Z := 30.

Section Config.
Context (var : string -> option string).
(** [str::parse::<f64>]. *)
Context (parse_f64 : string -> option f64).

(** [parse_env_u64] of both files, [parse_env_usize] and [parse_env_f64]. *)
Definition parse_env {A} (parse : string -> option A) (name : string) (default : A) : result A ConfigError :=
  match var name with
  | None => Ok default
  | Some v =>
      if is_empty (trim v) then Ok default else
      match parse (trim v) with
      | Some n => Ok n
      | None => Err (NotANumber name v)
      end
  end.

Definition parse_env_u64 : string -> Z -> result Z ConfigError := parse_env parse_u64.
Definition parse_env_usize : string -> Z -> result Z ConfigError := parse_env parse_u64.
Definition parse_env_f64 : string -> f64 -> result f64 ConfigError := parse_env parse_f64.

Definition parse_env_bool (name : string) (default : bool) : bool :=
  match var name with
  | Some v => existsb (String.eqb (to_ascii_lowercase (trim v))) ["1"; "true"; "yes"]
  | None => default
  end.

Definition retention_from_env : result RetentionConfig ConfigError :=
  let d := RetentionConfig_default in
  let en := parse_env_bool "ILINK_RETENTION_ENABLED" (enabled d) in
  let dry := parse_env_bool "ILINK_RETENTION_DRY_RUN" (dry_run d) in
  try sweep := parse_env_u64 "ILINK_RETENTION_SWEEP_SECS" (sweep_interval_secs d) in
  try batch := parse_env_u64 "ILINK_RETENTION_BATCH_SIZE" (batch_size d) in
  try messages := parse_env_u64 "ILINK_RETENTION_MESSAGES_TTL_SECS" (messages_ttl_secs d) in
  try active := parse_env_u64 "ILINK_RETENTION_ACTIVE_SESSIONS_TTL_SECS" (active_sessions_ttl_secs d) in
  Ok {| enabled := en; dry_run := dry; sweep_interval_secs := sweep; batch_size := batch;
        messages_ttl_secs := messages; active_sessions_ttl_secs := active |}.

Definition admin_from_env : AdminConfig :=
  AdminConfig_from_env (var "ILINK_ADMIN_TOKEN") (var "ILINK_ADMIN_INSECURE_NO_AUTH")
    (var "ILINKHUB_OUTBOUND_ORIGIN_LABEL").

Definition both_admin_settings (admin : AdminConfig) : bool :=
  insecure_no_auth admin &&
  match ofilter (fun s => negb (is_empty s)) (var "ILINK_ADMIN_TOKEN") with Some _ => true | None => false end.

Definition config_warnings (admin : AdminConfig) (r : RetentionConfig) : list Warning :=
  (if both_admin_settings admin then [BothAdminSettings] else []) ++
  (if enabled r && (messages_ttl_secs r =? 0)%Z && (active_sessions_ttl_secs r =? 0)%Z then [NothingToDelete] else []) ++
  (if enabled r && dry_run r then [DryRun] else []).

(** [anyhow::bail!] under a condition. *)
Definition bail_if {E} (c : bool) (e : E) : result unit E := if c then Err e else Ok tt.

Definition runtime_from_env : result (RuntimeConfig * list Warning) ConfigError :=
  try channel := parse_env_usize "ILINK_DISPATCH_CHANNEL_SIZE" 1024 in
  try _ := bail_if (channel =? 0)%Z (NotPositive "ILINK_DISPATCH_CHANNEL_SIZE") in
  try drain := parse_env_u64 "ILINK_SHUTDOWN_DRAIN_SECS" DEFAULT_SHUTDOWN_DRAIN_SECS in
  try polls := parse_env_usize "ILINK_MAX_HUB_POLLS" MAX_HUB_POLLS_DEFAULT in
  try _ := bail_if (polls =? 0)%Z (NotPositive "ILINK_MAX_HUB_POLLS") in
  try rate := parse_env_f64 "ILINK_BOT_RATE_LIMIT_PER_SEC" BOT_RATE_LIMIT_PER_SEC_DEFAULT in
  try _ := bail_if (negb (is_finite rate && SFltb (f_of 0) rate)) (BadRate "ILINK_BOT_RATE_LIMIT_PER_SEC") in
  try burst := parse_env_f64 "ILINK_BOT_RATE_LIMIT_BURST" BOT_RATE_LIMIT_BURST_DEFAULT in
  try _ := bail_if (negb (is_finite burst && SFleb (f_of 1) burst)) (BadRate "ILINK_BOT_RATE_LIMIT_BURST") in
  let admin := admin_from_env in
  try r := retention_from_env in
  try _ := bail_if (enabled r && ((sweep_interval_secs r =? 0)%Z || (batch_size r =? 0)%Z)) BadRetention in
  Ok ({| dispatch_channel_size := channel; shutdown_drain_secs := drain; rc_admin := admin;
         max_hub_polls := polls; rc_retention := r; bot_rate_limit_per_sec := rate;
         bot_rate_limit_burst := burst |}, config_warnings admin r).

Definition MIN_MAX_QUEUE_SIZE : Z := 10.
Definition MAX_MAX_QUEUE_SIZE : Z := 10000.

Definition resolve_max_queue_size : Z :=
  let default := Z.of_nat DEFAULT_MAX_QUEUE_SIZE in
  match var "ILINK_MAX_QUEUE_SIZE" with
  | None => default
  | Some val =>
      if is_empty val then default else
      match parse_u64 val with
      | Some n => if (n <? MIN_MAX_QUEUE_SIZE)%Z then MIN_MAX_QUEUE_SIZE
                  else if (MAX_MAX_QUEUE_SIZE <? n)%Z then MAX_MAX_QUEUE_SIZE else n
      | None => default
      end
  end.

Definition build_queue_backend : result InMemoryQueue ConfigError :=
  let limit := resolve_max_queue_size in
  let backend := unwrap_or (var "ILINK_QUEUE_BACKEND") "" in
  if (backend =? "memory")%string || is_empty backend then Ok (with_limit (Z.to_nat limit))
  else Err (UnknownBackend backend).
End Config.

(** [str::rsplit_once]. *)
Definition rsplit_once (p s : string) : option (string * string) :=
  match rfind p s with
  | Some n => Some (String.substring 0 n s, slice_from (n + len p) s)
  | None => None
  end.

Definition is_bracket (c : string) : bool := (c =? "[")%string || (c =? "]")%string.

Definition trim_brackets (s : string) : string :=
  concat (rev (drop_while is_bracket (rev (drop_while is_bracket (chars s))))).

Definition bind_host (bind_addr : string) : string :=
  match rsplit_once ":" bind_addr with
  | Some (h, _) => trim_brackets h
  | None => bind_addr
  end.

Definition is_public (host : string) : bool :=
  (host =? "0.0.0.0")%string || (host =? "::")%string || eq_ignore_ascii_case host "::0".

Definition warn_if_insecure (admin : AdminConfig) (bind_addr : string) : result (list Warning) string :=
  if negb (insecure_no_auth admin) then Ok [] else
  if is_public (bind_host bind_addr) then Err "refusing to start" else Ok [OpenAdmin bind_addr].

(** ** The bot token *)
Section Token.
Context {Key : Type}.
Context (b64_encode : list N -> string) (b64_decode : string -> option (list N)).
Context (seal : Key -> list N -> list N -> option (list N)) (open : Key -> list N -> list N -> option (list N)).

Notation creds := (@Credentials Key).
Notation save := (save_bot_credentials b64_encode seal).
Notation load := (load_bot_credentials b64_decode open).

(** The statements of the database that can fail, and the nonce of the encryption. *)
Record SaveScript := { ss_nonce : list N; ss_fault : option string }.

Definition perform_qr_login (ilink_base_url : option string) (ui : bool) (login : LoginScript) (sv : SaveScript)
    (c : creds) : result (string * string) string * creds :=
  if negb (ls_client login) then (Err "failed to build HTTP client", c) else
  match (LoginClient.login_with_qr_ui (ls_encode login) ui (ls_qr login) (ls_replies login)).1 with
  | Err e => (Err e, c)
  | Ok token =>
      let base := unwrap_or ilink_base_url ILINK_BASE_URL in
      match save (ss_nonce sv) (ss_fault sv) token base c with
      | (Err e, c) => (Err e, c)
      | (Ok _, c) => (Ok (token, base), c)
      end
  end.

(** The stored token first, the argument as a seed for an empty database, a login last. *)
Definition resolve_token (token_arg ilink_base_url : option string) (ui : bool) (load_fault : option string)
    (login : LoginScript) (sv : SaveScript) (c : creds) : result (string * string) string * creds :=
  match load load_fault c with
  | Err e => (Err e, c)
  | Ok db_creds =>
      let '(candidate, base) :=
        match db_creds with
        | Some (token, base) => (Some token, base)
        | None => (token_arg, unwrap_or ilink_base_url ILINK_BASE_URL)
        end in
      match ofilter is_well_formed_bot_token candidate with
      | Some token =>
          match db_creds with
          | Some _ => (Ok (token, base), c)
          | None =>
              match save (ss_nonce sv) (ss_fault sv) token base c with
              | (Err e, c) => (Err e, c)
              | (Ok _, c) => (Ok (token, base), c)
              end
          end
      | None => perform_qr_login ilink_base_url ui login sv c
      end
  end.
End Token.

(** ** One hub per database *)

(** The locks that are held: a file lock per canonical path, an advisory lock per
    PostgreSQL database. *)
Inductive Lock := FileLock (path : string) | AdvisoryLock (database : string).

#[export] Instance Lock_eq_dec : EqDecision Lock.
Proof. solve_decision. Defined.

#[export] Instance Lock_countable : Countable Lock.
Proof.
  refine (inj_countable' (fun l => match l with FileLock p => inl p | AdvisoryLock d => inr d end)
            (fun s => match s with inl p => FileLock p | inr d => AdvisoryLock d end) _).
  by intros [].
Defined.

Definition CONFLICT : string := "Another instance of iLink Hub is already running on this database.".

Section Guard.
(** [std::fs::canonicalize], and the database a PostgreSQL URL denotes when it can be
    reached. *)
Context (canonicalize : string -> option string) (pg_database : string -> option string).

Definition lock_of (kind : DatabaseKind) (url : string) : result (option Lock) string :=
  match kind with
  | Sqlite =>
      match sqlite_file_path url with
      | None => Ok None
      | Some path =>
          match canonicalize path with
          | Some p => Ok (Some (FileLock (p +:+ ".lock")))
          | None => Err "I/O error"
          end
      end
  | Postgres =>
      match pg_database url with
      | Some d => Ok (Some (AdvisoryLock d))
      | None => Err "database error"
      end
  | MySql => Ok None
  end.

(** [held] is what every live process holds. *)
Definition acquire_instance_guard (kind : DatabaseKind) (url : string) (held : gset Lock)
    : result (option Lock) string * gset Lock :=
  match lock_of kind url with
  | Err e => (Err e, held)
  | Ok None => (Ok None, held)
  | Ok (Some l) => if bool_decide (l ∈ held) then (Err CONFLICT, held) else (Ok (Some l), {[l]} ∪ held)
  end.

(** The process ends, in whatever way. *)
Definition release_guard (g : option Lock) (held : gset Lock) : gset Lock :=
  match g with Some l => held ∖ {[l]} | None => held end.
End Guard.

(** ** The retention sweeper *)

(** What wakes the sweeper's loop; [now] is the clock and [others] what the rest of the hub
    did to the store in the meantime. A sweep that fails is logged. *)
Inductive SweepEvent := SweepShutdown (b : bool) | SweepTimer (now : Z) (others : Store -> Store) (fails : bool).

Fixpoint retention_sweeper (cfg : RetentionConfig) (events : list SweepEvent) (s : Store) : option Store :=
  match events with
  | [] => Some s
  | SweepShutdown true :: _ => Some s
  | SweepShutdown false :: events => retention_sweeper cfg events s
  | SweepTimer now others fails :: events =>
      if fails then retention_sweeper cfg events (others s) else
      match sweep_retention cfg now (others s) with
      | (Err OutOfFuel, _) => None
      | (_, s) => retention_sweeper cfg events s
      end
  end.

(** ** The drain at shutdown *)

Inductive DrainExit := DrainDisabled | SizesFailed | AllAcknowledged | DrainTimedOut (pending : nat).

Definition total_pending (sizes : gmap string nat) : nat := map_fold (fun _ n acc => n + acc) 0 sizes.

Definition CHECK_INTERVAL : Z := 500000000.

Section Drain.
(** What the [i]-th check reads of the queues, and the clock when it has read it. *)
Context (sizes : nat -> result (gmap string nat) HubError) (clock : nat -> Z).

Fixpoint drain_loop (fuel i : nat) (deadline : Z) : option DrainExit :=
  match fuel with
  | 0 => None
  | S fuel =>
      match sizes i with
      | Err _ => Some SizesFailed
      | Ok m =>
          let total := total_pending m in
          if (total =? 0)%nat then Some AllAcknowledged
          else if (deadline <=? clock i)%Z then Some (DrainTimedOut total)
          else drain_loop fuel (S i) deadline
      end
  end.

(** Two checks a second, and one more. *)
Definition drain_fuel (drain_secs : Z) : nat := S (2 * Z.to_nat drain_secs).

Definition drain_queues_before_shutdown (start drain_secs : Z) : option DrainExit :=
  if (drain_secs =? 0)%Z then Some DrainDisabled
  else drain_loop (drain_fuel drain_secs) 0 (start + drain_secs * 1000000000).
End Drain.
