(* ===== verification/RuntimeProps.v ===== *)
(** * Properties of startup and shutdown

    The configuration that passes validation is usable as it is; the resolved token is used
    again by every later start; two hubs never share a database; the drain ends in time. *)
From S2P Require Import Prelude StrLemmas Types Queue VToken PollTracker Store RelayBase Crypto Hub Login Upstream RateLimit Runtime.
From Stdlib Require Import Ascii SpecFloat.
Import Str.
Local Open Scope hub_scope.

(** ** Configuration *)

Lemma bail_if_Ok {E} c (e : E) u : bail_if c e = Ok u -> c = false.
Proof. by destruct c. Qed.

Ltac unbind H :=
  repeat (apply result_bind_Ok in H as (? & ? & H));
  repeat match goal with E : bail_if _ _ = Ok _ |- _ => apply bail_if_Ok in E end.

Lemma digits_acc_nonneg s acc n : (0 <= acc)%Z -> digits_acc acc s = Some n -> (0 <= n)%Z.
Proof.
  revert acc. induction s as [|a s IH]; intros acc Ha; cbn; [by intros [= <-]|].
  unfold is_digit. destruct (_ && _)%N eqn:Ed; [|done]. apply andb_true_iff in Ed as [E1%N.leb_le _].
  apply IH. lia.
Qed.

Lemma parse_u64_range s n : parse_u64 s = Some n -> (0 <= n <= u64_max)%Z.
Proof.
  unfold parse_u64, ofilter. destruct (parse_unsigned s) as [m|] eqn:E; [|done]. cbn.
  destruct (Z.leb_spec m u64_max); [|done]. intros [= <-]. split; [|done].
  unfold parse_unsigned in E. destruct (is_empty _); [done|]. by eapply digits_acc_nonneg in E.
Qed.

Section ConfigProps.
Context (var : string -> option string) (parse_f64 : string -> option f64).

Lemma parse_env_range name d n : (0 <= d <= u64_max)%Z ->
  parse_env var parse_u64 name d = Ok n -> (0 <= n <= u64_max)%Z.
Proof.
  intros Hd. unfold parse_env. destruct (var name) as [v|]; [|by intros [= <-]].
  destruct (is_empty (trim v)); [by intros [= <-]|].
  destruct (parse_u64 (trim v)) as [m|] eqn:E; [|done]. intros [= <-]. by eapply parse_u64_range.
Qed.

(** What the rest of the hub takes for granted of its configuration. *)
Record config_ok (c : RuntimeConfig) : Prop := {
  co_channel : (0 < dispatch_channel_size c <= u64_max)%Z;
  co_drain : (0 <= shutdown_drain_secs c <= u64_max)%Z;
  co_polls : (0 < max_hub_polls c <= u64_max)%Z;
  co_rate : sanitize_rate (bot_rate_limit_per_sec c) = bot_rate_limit_per_sec c;
  co_burst : sanitize_burst (bot_rate_limit_burst c) = bot_rate_limit_burst c;
  co_retention : enabled (rc_retention c) = true ->
    (0 < sweep_interval_secs (rc_retention c) <= u64_max)%Z /\ (0 < batch_size (rc_retention c) <= u64_max)%Z;
  co_admin : insecure_no_auth (rc_admin c) = true -> admin_token (rc_admin c) = None;
}.

Lemma retention_from_env_range r : retention_from_env var = Ok r ->
  (0 <= sweep_interval_secs r <= u64_max)%Z /\ (0 <= batch_size r <= u64_max)%Z.
Proof.
  unfold retention_from_env. intros H. unbind H. simplify_eq/=.
  split; (eapply parse_env_range; [|done]); done.
Qed.

Lemma insecure_means_no_token : insecure_no_auth (admin_from_env var) = true ->
  ofilter (fun s => negb (is_empty s)) (var "ILINK_ADMIN_TOKEN") = None.
Proof. unfold admin_from_env. cbn. by destruct (ofilter _ _). Qed.

Lemma config_ok_from_env c ws : runtime_from_env var parse_f64 = Ok (c, ws) -> config_ok c.
Proof.
  unfold runtime_from_env. intros H. unbind H. simplify_eq.
  repeat match goal with
  | E : parse_env_usize _ _ _ = Ok _ |- _ => apply parse_env_range in E; [|done]
  | E : parse_env_u64 _ _ _ = Ok _ |- _ => apply parse_env_range in E; [|done]
  | E : retention_from_env _ = Ok _ |- _ => apply retention_from_env_range in E
  | E : negb _ = false |- _ => apply negb_false_iff in E
  end.
  split; cbn [dispatch_channel_size shutdown_drain_secs max_hub_polls bot_rate_limit_per_sec bot_rate_limit_burst
              rc_retention rc_admin]; try lia.
  - unfold sanitize_rate. by case_match.
  - unfold sanitize_burst. by case_match.
  - intros He. rewrite He in *. cbn in *. repeat match goal with E : _ || _ = false |- _ => apply orb_false_iff in E as [? ?] end. lia.
  - apply insecure_means_no_token.
Qed.

(** (C39) A configuration that passes validation is well-formed: every bound is in its
    machine range and not zero where zero would stop the hub, the two rates are the ones
    the limiter installs (its sanitizer does not replace them), an enabled sweeper has a
    period and a batch size, and the open admin interface is never combined with a token. *)
Theorem config_wellformed (c : RuntimeConfig) (ws : list Warning) :
  runtime_from_env var parse_f64 = Ok (c, ws) -> config_ok c.
Proof. apply config_ok_from_env. Qed.

(** The warning about the two admin settings cannot be given: the flag it tests already is
    false when a token is set. *)
Lemma both_settings_never_warned c ws :
  runtime_from_env var parse_f64 = Ok (c, ws) -> BothAdminSettings ∉ ws.
Proof.
  unfold runtime_from_env. intros H. unbind H. simplify_eq. unfold config_warnings, both_admin_settings.
  destruct (insecure_no_auth (admin_from_env var)) eqn:E.
  - rewrite (insecure_means_no_token E). cbn. repeat case_match; set_solver.
  - cbn. repeat case_match; set_solver.
Qed.

Lemma max_queue_size_bounds : (MIN_MAX_QUEUE_SIZE <= resolve_max_queue_size var <= MAX_MAX_QUEUE_SIZE)%Z.
Proof.
  unfold resolve_max_queue_size, MIN_MAX_QUEUE_SIZE, MAX_MAX_QUEUE_SIZE, DEFAULT_MAX_QUEUE_SIZE.
  destruct (var _) as [v|]; [|lia]. destruct (is_empty v); [lia|].
  destruct (parse_u64 v) as [n|]; [|lia].
  destruct (Z.ltb_spec n 10); [lia|]. destruct (Z.ltb_spec 10000 n); lia.
Qed.
End ConfigProps.

(** An unset environment gives the defaults, without a warning. *)
Lemma default_config parse_f64 :
  runtime_from_env (fun _ => None) parse_f64 =
    Ok ({| dispatch_channel_size := 1024; shutdown_drain_secs := 30;
           rc_admin := {| admin_token := None; insecure_no_auth := false; outbound_origin_label := None |};
           max_hub_polls := 8192; rc_retention := RetentionConfig_default;
           bot_rate_limit_per_sec := BOT_RATE_LIMIT_PER_SEC_DEFAULT;
           bot_rate_limit_burst := BOT_RATE_LIMIT_BURST_DEFAULT |}, []).
Proof. vm_compute. reflexivity. Qed.

(** ** The open admin interface *)

(** The check compares the text of the address: the same address in full length passes. *)
Lemma long_wildcard_accepted :
  let admin := {| admin_token := None; insecure_no_auth := true; outbound_origin_label := None |} in
  warn_if_insecure admin "[::]:8765" = Err "refusing to start" /\
  warn_if_insecure admin "[0:0:0:0:0:0:0:0]:8765" = Ok [OpenAdmin "[0:0:0:0:0:0:0:0]:8765"].
Proof. split; vm_compute; reflexivity. Qed.

(** ** The bot token *)
Section TokenProps.
Context {Key : Type}.
Context (b64_encode : list N -> string) (b64_decode : string -> option (list N)).
Context (seal : Key -> list N -> list N -> option (list N)) (open : Key -> list N -> list N -> option (list N)).
Context (codecs : Codecs b64_encode b64_decode seal open).

Notation resolve := (resolve_token b64_encode b64_decode seal open).
Notation load := (load_bot_credentials b64_decode open).
Notation save := (save_bot_credentials b64_encode seal).

(** A start that ends with a token has it in the database. *)
Lemma save_then_load sv token base c c' u :
  length (ss_nonce sv) = 12%nat -> is_bytes (ss_nonce sv) -> utf8_valid (to_bytes token) = true ->
  save (ss_nonce sv) (ss_fault sv) token base c = (Ok u, c') -> load None c' = Ok (Some (token, base)).
Proof.
  intros Hn Hb Hu E. pose proof (credentials_roundtrip _ _ _ _ codecs (ss_nonce sv) (ss_fault sv) token base c Hn Hb Hu) as H.
  rewrite E in H. apply H.
Qed.

Lemma load_no_fault f c r : load f c = Ok r -> load None c = Ok r.
Proof. by destruct f. Qed.

Lemma resolved_is_stored arg url ui lf login sv c token base c' :
  length (ss_nonce sv) = 12%nat -> is_bytes (ss_nonce sv) -> utf8_valid (to_bytes token) = true ->
  resolve arg url ui lf login sv c = (Ok (token, base), c') -> load None c' = Ok (Some (token, base)).
Proof.
  intros Hn Hb Hu. unfold resolve_token, perform_qr_login.
  destruct (load lf c) as [[[t b]|]|e] eqn:El; [| |done].
  - cbn [ofilter]. destruct (is_well_formed_bot_token t); [intros [= <- <- <-]; by eapply load_no_fault|].
    repeat case_match; try done. intros. simplify_eq. by eapply save_then_load.
  - destruct (ofilter is_well_formed_bot_token arg) as [t|]; repeat case_match; try done;
      intros; simplify_eq; by eapply save_then_load.
Qed.

(** A start on stored credentials that decrypt to a well-formed token uses it and writes
    nothing. *)
Lemma stored_is_resolved arg url ui login sv c token base :
  load None c = Ok (Some (token, base)) -> is_well_formed_bot_token token = true ->
  resolve arg url ui None login sv c = (Ok (token, base), c).
Proof. intros Hl Hw. unfold resolve_token. rewrite Hl. cbn [ofilter]. by rewrite Hw. Qed.

(** The stored row as a start with the master key [key] of its environment sees it. *)
Definition under_key (key : option Key) (c : Credentials (Key := Key)) : Credentials (Key := Key) :=
  {| cr_key := key; cr_row := cr_row c |}.

(** The row cannot be read: the query fails, there is no master key, or the key is not the
    one the token was encrypted with. *)
Definition unreadable (lf : option string) (c : Credentials (Key := Key)) : Prop :=
  is_Some lf \/ (lf = None /\ is_Some (cr_row c) /\ cr_key c = None) \/
  exists blob b key, lf = None /\ cr_row c = Some (blob, b) /\ cr_key c = Some key /\
    is_ok (decrypt_token b64_decode open blob key) = false.

Lemma unreadable_fails arg url ui lf login sv c :
  unreadable lf c -> exists e, resolve arg url ui lf login sv c = (Err e, c).
Proof.
  unfold resolve_token, load_bot_credentials.
  intros [[e ->]|[(-> & [[blob b] ->] & ->)|(blob & b & key & -> & -> & -> & Hd)]]; [by eexists..|].
  destruct (decrypt_token _ _ blob key); [done|by eexists].
Qed.

(** (C22) The token of a start survives restarts: once a start resolved a well-formed
    token, every later start with the same master key that can read the database uses
    that token and the server stored with it, whatever its command line says, without
    logging in and without writing to the database. A later start that cannot read the
    row, because the query fails or the master key is missing or another one, fails and
    leaves the row in place; it neither logs in nor falls back on the command line. A
    token that a renewal saved in between takes the place of the first. *)
Theorem token_survives_restart (arg url : option string) (ui : bool) (lf : option string) (login : LoginScript)
    (sv : SaveScript) (c c' : Credentials) (token base : string) :
  length (ss_nonce sv) = 12%nat -> is_bytes (ss_nonce sv) -> utf8_valid (to_bytes token) = true ->
  is_well_formed_bot_token token = true ->
  resolve arg url ui lf login sv c = (Ok (token, base), c') ->
  forall arg2 url2 ui2 lf2 login2 sv2,
    resolve arg2 url2 ui2 None login2 sv2 c' = (Ok (token, base), c') /\
    (forall key, unreadable lf2 (under_key key c') ->
       exists e, resolve arg2 url2 ui2 lf2 login2 sv2 (under_key key c') = (Err e, under_key key c')) /\
    (forall nonce fault token3 base3 c3,
       length nonce = 12%nat -> is_bytes nonce -> utf8_valid (to_bytes token3) = true ->
       is_well_formed_bot_token token3 = true ->
       save nonce fault token3 base3 c' = (Ok tt, c3) ->
       resolve arg2 url2 ui2 None login2 sv2 c3 = (Ok (token3, base3), c3)).
Proof.
  intros Hn Hb Hu Hw H arg2 url2 ui2 lf2 login2 sv2. split; [|split].
  - apply stored_is_resolved; [|done]. by eapply resolved_is_stored.
  - intros key. apply unreadable_fails.
  - intros nonce fault token3 base3 c3 Hn3 Hb3 Hu3 Hw3 Hs. apply stored_is_resolved; [|done].
    by apply (save_then_load {| ss_nonce := nonce; ss_fault := fault |} token3 base3 c' c3 tt).
Qed.

(** A start that fails leaves the stored credentials as they were. *)
Lemma failed_resolution_keeps arg url ui lf login sv c c' e :
  resolve arg url ui lf login sv c = (Err e, c') -> c' = c.
Proof.
  unfold resolve_token, perform_qr_login, save_bot_credentials.
  repeat case_match; simplify_eq; intros; by simplify_eq.
Qed.
End TokenProps.

(** ** One hub per database *)
Section GuardProps.
Context (canonicalize : string -> option string) (pg_database : string -> option string).
Notation acquire := (acquire_instance_guard canonicalize pg_database).

(** Two hubs cannot run on one database: while a hub holds the lock of its database,
    a second start on any URL that denotes the same one is refused and changes nothing;
    when the first process ends, the same start succeeds. *)
Theorem one_hub_per_database (kind : DatabaseKind) (url url' : string) (held held' : gset Lock) (l : Lock) :
  acquire kind url held = (Ok (Some l), held') ->
  lock_of canonicalize pg_database kind url' = Ok (Some l) ->
  acquire kind url' held' = (Err CONFLICT, held') /\
  acquire kind url' (release_guard (Some l) held') = (Ok (Some l), held') /\
  release_guard (Some l) held' = held.
Proof.
  intros H Hl. unfold acquire_instance_guard in *. rewrite Hl.
  destruct (lock_of _ _ kind url) as [[l0|]|]; try done. case_bool_decide as Hin; [done|]. simplify_eq.
  assert (E : release_guard (Some l) ({[l]} ∪ held) = held) by (cbn; set_solver).
  rewrite E. repeat split.
  - rewrite bool_decide_true; [done|set_solver].
  - by rewrite bool_decide_false.
Qed.
End GuardProps.

(** ** The drain *)
Section DrainProps.
Context (sizes : nat -> result (gmap string nat) HubError) (clock : nat -> Z).

(** What the check [i] decides. *)
Definition drain_exit (deadline : Z) (i : nat) : option DrainExit :=
  match sizes i with
  | Err _ => Some SizesFailed
  | Ok m => if (total_pending m =? 0)%nat then Some AllAcknowledged
            else if (deadline <=? clock i)%Z then Some (DrainTimedOut (total_pending m)) else None
  end.

Lemma drain_loop_step fuel i d :
  drain_loop sizes clock (S fuel) i d =
    match drain_exit d i with Some e => Some e | None => drain_loop sizes clock fuel (S i) d end.
Proof. cbn. unfold drain_exit. by repeat case_match. Qed.

Lemma drain_loop_first fuel i d k : (k < fuel)%nat -> is_Some (drain_exit d (i + k)) ->
  exists j e, (i <= j <= i + k)%nat /\ (forall m, (i <= m < j)%nat -> drain_exit d m = None) /\
    drain_exit d j = Some e /\ drain_loop sizes clock fuel i d = Some e.
Proof.
  revert fuel i. induction k as [|k IH]; intros fuel i Hf Hk; (destruct fuel as [|fuel]; [lia|]);
    rewrite drain_loop_step.
  - rewrite Nat.add_0_r in Hk. destruct Hk as [e He]. exists i, e. rewrite He. repeat split; try done; intros; lia.
  - destruct (drain_exit d i) as [e|] eqn:Ei.
    + exists i, e. repeat split; try done; intros; lia.
    + rewrite <-Nat.add_succ_comm in Hk. destruct (IH fuel (S i) ltac:(lia) Hk) as (j & e & Hj & Hb & He & Hl).
      exists j, e. split; [lia|]. split; [|done].
      intros m Hm. destruct (decide (m = i)) as [->|]; [done|]. apply Hb. lia.
Qed.

Lemma drain_exit_None d j : drain_exit d j = None ->
  (clock j < d)%Z /\ exists m, sizes j = Ok m /\ total_pending m <> 0%nat.
Proof.
  unfold drain_exit. destruct (sizes j) as [m|]; [|done].
  destruct (Nat.eqb_spec (total_pending m) 0); [done|]. destruct (Z.leb_spec d (clock j)); [done|]. eauto.
Qed.

Lemma clock_advances start : (start <= clock 0)%Z -> (forall i, clock i + CHECK_INTERVAL <= clock (S i))%Z ->
  forall i, (start + Z.of_nat i * CHECK_INTERVAL <= clock i)%Z.
Proof.
  intros H0 Hs i. induction i as [|i IH]; [lia|]. specialize (Hs i). unfold CHECK_INTERVAL in *. lia.
Qed.

(** The shutdown never waits longer than it is told: with checks at least half a second
    apart, the drain ends after at most [2 * drain_secs + 1] of them, at the first check
    that cannot read the queues, finds them empty, or comes after the deadline, and with
    that outcome. *)
Theorem drain_ends (start drain_secs : Z) :
  (0 < drain_secs)%Z -> (start <= clock 0)%Z -> (forall i, clock i + CHECK_INTERVAL <= clock (S i))%Z ->
  let deadline := (start + drain_secs * 1000000000)%Z in
  exists i e, (i <= 2 * Z.to_nat drain_secs)%nat /\
    (forall j, (j < i)%nat -> (clock j < deadline)%Z /\
       exists m, sizes j = Ok m /\ total_pending m <> 0%nat) /\
    drain_exit deadline i = Some e /\
    drain_queues_before_shutdown sizes clock start drain_secs = Some e.
Proof.
  intros Hd H0 Hs deadline. unfold drain_queues_before_shutdown.
  destruct (Z.eqb_spec drain_secs 0); [lia|]. fold deadline.
  assert (Hlast : is_Some (drain_exit deadline (0 + 2 * Z.to_nat drain_secs))).
  { pose proof (clock_advances start H0 Hs (0 + 2 * Z.to_nat drain_secs)) as Hc. unfold CHECK_INTERVAL in Hc.
    unfold drain_exit. destruct (sizes _) as [m|]; [|done]. destruct (_ =? 0)%nat; [done|].
    destruct (Z.leb_spec deadline (clock (0 + 2 * Z.to_nat drain_secs))) as [|Hlt]; [done|]. subst deadline. lia. }
  destruct (drain_loop_first (drain_fuel drain_secs) 0 deadline (2 * Z.to_nat drain_secs) ltac:(unfold drain_fuel; lia) Hlast)
    as (i & e & Hi & Hb & He & Hl).
  exists i, e. split; [lia|]. split; [|done]. intros j Hj. apply drain_exit_None, Hb. lia.
Qed.
End DrainProps.

(** ** Instances *)

Lemma config_wellformed_witness :
  exists c, runtime_from_env (fun _ => None) (fun _ => None) = Ok (c, []) /\ config_ok c.
Proof.
  eexists. split; [apply default_config|].
  apply (config_wellformed (fun _ => None) (fun _ => None) _ []). apply default_config.
Defined.

(** A login whose polls never get an answer. *)
Definition silent_login : LoginScript :=
  {| ls_client := true; ls_encode := Some;
     ls_qr := Ok {| gq_ret := 0; gq_qrcode := Some "q"; gq_img_content := Some "u"; gq_errmsg := None |};
     ls_replies := fun _ => NetError; ls_save := None |}.

Definition sample_save : SaveScript := {| ss_nonce := repeat 9%N 12; ss_fault := None |}.

Notation sample_resolve := (resolve_token hex_lower Sample.hex_decode Sample.zero_tag Sample.cut_tag).

Definition empty_credentials : Credentials := {| cr_key := Some tt; cr_row := None |}.
Definition seeded : Credentials :=
  (sample_resolve (Some "bot:1") None false None silent_login sample_save empty_credentials).2.

Lemma token_survives_restart_witness :
  sample_resolve (Some "bot:1") None false None silent_login sample_save empty_credentials
    = (Ok ("bot:1", ILINK_BASE_URL), seeded) /\
  sample_resolve (Some "bot:2") (Some "https://other") true None silent_login sample_save seeded
    = (Ok ("bot:1", ILINK_BASE_URL), seeded) /\
  (exists e, sample_resolve (Some "bot:2") (Some "https://other") true None silent_login sample_save
     (under_key None seeded) = (Err e, under_key None seeded)).
Proof.
  assert (H : sample_resolve (Some "bot:1") None false None silent_login sample_save empty_credentials
    = (Ok ("bot:1", ILINK_BASE_URL), seeded)) by (vm_compute; reflexivity).
  split; [exact H|].
  destruct (token_survives_restart hex_lower Sample.hex_decode Sample.zero_tag Sample.cut_tag Sample.sample_codecs
    (Some "bot:1") None false None silent_login sample_save empty_credentials seeded "bot:1" ILINK_BASE_URL
    eq_refl ltac:(repeat constructor) eq_refl eq_refl H (Some "bot:2") (Some "https://other") true None silent_login
    sample_save) as (H1 & H2 & _).
  split; [exact H1|]. apply H2. right. left. by split_and!; [|eexists; vm_compute|].
Defined.

Lemma one_hub_per_database_witness :
  let acquire := acquire_instance_guard (fun _ => Some "/data/hub.db") (fun _ => None) Sqlite in
  let held := {[FileLock "/data/hub.db.lock"]} in
  acquire "sqlite:hub.db" ∅ = (Ok (Some (FileLock "/data/hub.db.lock")), held) /\
  acquire "sqlite:///data/hub.db?mode=rwc" held = (Err CONFLICT, held).
Proof.
  intros acquire held.
  assert (H : acquire "sqlite:hub.db" ∅ = (Ok (Some (FileLock "/data/hub.db.lock")), held))
    by (vm_compute; reflexivity).
  split; [exact H|].
  apply (one_hub_per_database _ _ Sqlite "sqlite:hub.db" "sqlite:///data/hub.db?mode=rwc" ∅ held _ H).
  vm_compute. reflexivity.
Defined.

Lemma drain_ends_witness :
  exists i e, (i <= 4)%nat /\
    drain_queues_before_shutdown (fun i => Ok (if (i <? 3)%nat then {["vt" := 1%nat]} else ∅))
      (fun i => Z.of_nat i * 600000000)%Z 0 2 = Some e /\ e = AllAcknowledged /\ (0 <= i)%nat.
Proof.
  destruct (drain_ends (fun i => Ok (if (i <? 3)%nat then {["vt" := 1%nat]} else ∅))
      (fun i => Z.of_nat i * 600000000)%Z 0 2) as (i & e & Hi & _ & _ & He); [lia|lia| |].
  - intros i. unfold CHECK_INTERVAL. lia.
  - exists i, e. split; [exact Hi|]. split; [exact He|]. vm_compute in He. split; [congruence|lia].
Defined.
