(* ===== verification/Desktop.v ===== *)
(** * The desktop shell: addresses and bridge profiles
    ([desktop/ilink-hub-desktop/src-tauri/src/listen_addr.rs], [bridge_profiles.rs])

    Where the embedded hub listens, and the files that describe the agents started beside
    it. The crate that parses and runs such profiles is a parameter. *)
From S2P Require Import Prelude StrLemmas RelayBase Crypto Runtime.
From Stdlib Require Import Ascii.
Import Str.
Local Open Scope hub_scope.

(** ** Listen address *)
Module ListenAddr.

(** [str::trim_start_matches] with a non-empty pattern. *)
Fixpoint strip_all (fuel : nat) (p s : string) : string :=
  match fuel with
  | 0 => s
  | S n => match strip_prefix p s with Some r => strip_all n p r | None => s end
  end.

Definition trim_start_str (p s : string) : string := strip_all (len s) p s.

Definition without_scheme (s : string) : string := trim_start_str "https://" (trim_start_str "http://" s).

Definition loopback_hub_origin (listen_addr : string) : string :=
  let s := without_scheme listen_addr in
  let host_port :=
    match strip_prefix "0.0.0.0:" s with
    | Some port_and_rest => "127.0.0.1:" +:+ port_and_rest
    | None =>
        match strip_prefix "[::]:" s with
        | Some port_and_rest => "127.0.0.1:" +:+ port_and_rest
        | None => s
        end
    end in
  "http://" +:+ host_port.

Definition loopback_listen_addr_for_port (port : Z) : string := "127.0.0.1:" +:+ show_u64 port.

(** [str::parse::<u16>], and the ports that can be chosen. *)
Definition parse_u16 (s : string) : option Z := ofilter (fun n => n <=? 65535)%Z (parse_unsigned s).

Definition parse_port (s : string) : option Z := ofilter (fun p => 0 <? p)%Z (parse_u16 s).

Definition ensure_loopback_listen_addr (addr : string) : result unit string :=
  let trimmed := trim addr in
  if is_empty trimmed then Err "ILINK_HUB_ADDR is empty" else
  if negb (contains ":" trimmed) then
    match parse_port trimmed with
    | Some _ => Ok tt
    | None => Err ("ILINK_HUB_ADDR `" +:+ trimmed +:+ "` is not a valid port")
    end
  else
    let s := without_scheme trimmed in
    try host :=
      match strip_prefix "[" s with
      | Some rest =>
          match split_once "]" rest with
          | Some (host, _) => Ok host
          | None => Err ("ILINK_HUB_ADDR `" +:+ trimmed +:+ "` has invalid IPv6 brackets")
          end
      | None =>
          match rsplit_once ":" s with
          | Some (host, _) => Ok host
          | None => Err ("ILINK_HUB_ADDR `" +:+ trimmed +:+ "` is missing a port")
          end
      end in
    if (host =? "127.0.0.1")%string || (host =? "localhost")%string || (host =? "::1")%string then Ok tt
    else Err ("ILINK_HUB_ADDR `" +:+ trimmed +:+
              "` must use a loopback host (127.0.0.1, localhost, or ::1); got host `" +:+ host +:+ "`").

Definition SAFE_LOOPBACK_LISTEN_ADDR : string := "127.0.0.1:8765".

Definition parse_loopback_port (addr : string) : option Z :=
  let trimmed := trim addr in
  match strip_prefix "127.0.0.1:" trimmed with
  | Some rest => parse_port rest
  | None =>
      match strip_prefix "localhost:" trimmed with
      | Some rest => parse_port rest
      | None => if negb (contains ":" trimmed) then parse_port trimmed else None
      end
  end.

(** The file [desktop-port.json] and its temporary sibling. *)
Record PortFiles := { pf_main : option string; pf_tmp : option string }.

(** Where writing it stops, with what the temporary file then holds. *)
Inductive SaveFault := NoFault | DirFails (e : string) | WriteFails (e : string) (partial : option string) | RenameFails (e : string).

Section PortFile.
(** The JSON codec of the file, [{ "port": <u16> }]. *)
Context (port_from_json : string -> result Z string) (port_to_json : Z -> string).

(** [unreadable]: the error of reading a file that exists. *)
Definition load_desktop_port_override (unreadable : option string) (fs : PortFiles) : result (option Z) string :=
  match pf_main fs with
  | None => Ok None
  | Some raw =>
      match unreadable with
      | Some e => Err ("读取端口设置失败: " +:+ e)
      | None =>
          match port_from_json raw with
          | Err e => Err ("端口设置格式无效: " +:+ e)
          | Ok port =>
              if (port =? 0)%Z then Err "端口设置包含 0，必须在 1..=65535 之间" else Ok (Some port)
          end
      end
  end.

Definition save_desktop_port_override (fault : SaveFault) (port : Z) (fs : PortFiles) : result unit string * PortFiles :=
  match fault with
  | DirFails e => (Err ("创建设置目录失败: " +:+ e), fs)
  | WriteFails e partial => (Err ("写入端口设置失败: " +:+ e), {| pf_main := pf_main fs; pf_tmp := partial |})
  | RenameFails e =>
      (Err ("提交端口设置失败: " +:+ e), {| pf_main := pf_main fs; pf_tmp := Some (port_to_json port) |})
  | NoFault => (Ok tt, {| pf_main := Some (port_to_json port); pf_tmp := None |})
  end.

Definition resolve_initial_listen_addr (unreadable : option string) (var : option string) (fs : PortFiles)
    : result string string :=
  try o := load_desktop_port_override unreadable fs in
  match o with
  | Some port => Ok (loopback_listen_addr_for_port port)
  | None =>
      match var with
      | Some addr => try _ := ensure_loopback_listen_addr addr in Ok addr
      | None => Ok SAFE_LOOPBACK_LISTEN_ADDR
      end
  end.

(** [safe_listen_addr_on_resolve_error], where [setup] uses it. *)
Definition setup_listen_addr (unreadable var : option string) (fs : PortFiles) : string :=
  match resolve_initial_listen_addr unreadable var fs with Ok addr => addr | Err _ => SAFE_LOOPBACK_LISTEN_ADDR end.

Record DesktopSettingsPayload := { listen_port : Z; ds_requested_addr : string }.

(** [requested]: the address the controller holds, if there is a controller. *)
Definition get_desktop_settings (requested : option string) : DesktopSettingsPayload :=
  match requested with
  | None => {| listen_port := 8765; ds_requested_addr := "127.0.0.1:8765" |}
  | Some addr => {| listen_port := unwrap_or (parse_loopback_port addr) 8765%Z; ds_requested_addr := addr |}
  end.

Record SetListenPortResult := {
  sp_ok : bool;
  sp_requested_addr : string;
  sp_listen_port : Z;
  sp_error : option string;
}.

Definition set_listen_port (fault : SaveFault) (port : Z) (requested : option string) (fs : PortFiles)
    : SetListenPortResult * option string * PortFiles :=
  if (port =? 0)%Z then
    ({| sp_ok := false; sp_requested_addr := ""; sp_listen_port := 0; sp_error := Some "端口必须在 1..=65535 之间" |},
     requested, fs)
  else
    match save_desktop_port_override fault port fs with
    | (Err e, fs) =>
        ({| sp_ok := false; sp_requested_addr := ""; sp_listen_port := port; sp_error := Some e |}, requested, fs)
    | (Ok _, fs) =>
        let new_addr := loopback_listen_addr_for_port port in
        ({| sp_ok := true; sp_requested_addr := new_addr; sp_listen_port := port; sp_error := None |},
         match requested with Some _ => Some new_addr | None => None end, fs)
    end.
End PortFile.
End ListenAddr.

(** ** Text of a profile *)
Module Profiles.

Record EnvVar := { ev_key : string; ev_value : string }.

Definition line_feed : string := String "010" "".
Definition double_quote : string := String "034" "".

(** The escape of one character inside double quotes. *)
Definition yaml_escape (ch : string) : string :=
  if (ch =? "\")%string then "\\" else
  if (ch =? double_quote)%string then "\" +:+ double_quote else
  if (ch =? line_feed)%string then "\n" else
  if (ch =? String "013" "")%string then "\r" else
  if (ch =? String "009" "")%string then "\t" else ch.

Definition yaml_quote (s : string) : string :=
  double_quote +:+ concat (map yaml_escape (chars s)) +:+ double_quote.

Definition spaces (n : nat) : string := concat (repeat " " n).

Definition env_line (inner : string) (e : EnvVar) : string :=
  inner +:+ trim (ev_key e) +:+ ": " +:+ yaml_quote (trim (ev_value e)) +:+ line_feed.

Definition env_vars_yaml (env_vars : list EnvVar) (indent : nat) : string :=
  let valid := List.filter (fun e => negb (is_empty (trim (ev_key e)))) env_vars in
  match valid with
  | [] => ""
  | _ => spaces indent +:+ "env:" +:+ line_feed +:+ concat (map (env_line (spaces (indent + 2))) valid)
  end.

Definition yaml_string_array (items : list string) : string :=
  "[" +:+ join ", " (map yaml_quote items) +:+ "]".

Definition build_claude_profile_yaml (cwd : string) (env_vars : list EnvVar) : result string string :=
  let cwd := trim cwd in
  if is_empty cwd then Err "请填写项目目录" else
  Ok ("agentproc:" +:+ line_feed +:+ "  executor: claude-code" +:+ line_feed +:+
      "  cwd: " +:+ yaml_quote cwd +:+ line_feed +:+ env_vars_yaml env_vars 2).

Definition build_simple_command_yaml (command : string) (args : list string) (cwd : string) (env_vars : list EnvVar)
    : result string string :=
  let cwd := trim cwd in
  if is_empty cwd then Err "请填写项目目录" else
  if is_empty (trim command) then Err "请填写命令" else
  Ok ("agentproc:" +:+ line_feed +:+ "  command: " +:+ yaml_quote (trim command) +:+ line_feed +:+
      "  args: " +:+ yaml_string_array args +:+ line_feed +:+
      "  cwd: " +:+ yaml_quote cwd +:+ line_feed +:+ env_vars_yaml env_vars 2).

(** *** Names of profile files *)

Definition id_byte (a : ascii) : bool := is_ascii_alphanumeric a || (a =? "-")%char || (a =? "_")%char.

(** One character of a name: kept, or a dash. *)
Definition id_char (c : string) : string :=
  match c with
  | String a EmptyString => if id_byte a then c else "-"
  | _ => "-"
  end.

(** [while out.contains("--") { out = out.replace("--", "-") }] *)
Fixpoint squeeze (fuel : nat) (out : string) : string :=
  match fuel with
  | 0 => out
  | S n => if contains "--" out then squeeze n (replace "--" "-" out) else out
  end.

Definition sanitize_profile_file_id (raw : string) : result string string :=
  let out := concat (map id_char (chars (trim raw))) in
  let out := squeeze (len out) out in
  let out := take_chars 64 (trim_matches "-" out) in
  if is_empty out then Err "请填写 workspace 名称（仅支持字母、数字、-、_；其他字符会转换为 -）" else Ok out.

Record SaveBridgeProfileRequest := {
  rq_original_id : option string;
  rq_id : string;
  rq_template : string;
  rq_cwd : string;
  rq_env_vars : option (list EnvVar);
  rq_yaml : option string;
}.

Definition MESSAGE : string := "{{MESSAGE}}".

Definition build_bridge_profile_yaml (req : SaveBridgeProfileRequest) : result string string :=
  let env_vars := unwrap_or (rq_env_vars req) [] in
  let template := rq_template req in
  if (template =? "claude")%string then build_claude_profile_yaml (rq_cwd req) env_vars else
  if (template =? "cursor")%string then build_simple_command_yaml "agent" ["-p"; MESSAGE] (rq_cwd req) env_vars else
  if (template =? "codex")%string then build_simple_command_yaml "codex" ["exec"; MESSAGE] (rq_cwd req) env_vars else
  if (template =? "gemini")%string then build_simple_command_yaml "gemini" ["-p"; MESSAGE] (rq_cwd req) env_vars else
  if (template =? "custom")%string then
    match ofilter (fun s => negb (is_empty s)) (trim <$> rq_yaml req) with
    | Some yaml => Ok (yaml +:+ line_feed)
    | None => Err "请填写 YAML"
    end
  else Err ("未知模板: " +:+ template).
End Profiles.

(** ** Profile files *)
Module ProfileFiles.
Import Profiles.

(** What the bridge crate offers: a parsed configuration and its profiles. *)
Class BridgeLib (App Profile : Type) := {
  parse_yaml : string -> string -> result App string;
  profile : App -> string -> option Profile;
  default_profile_name : App -> string;
  profile_names : App -> list string;
  routing_label : App -> string;
  p_executor : Profile -> option string;
  p_command : Profile -> string;
  p_args : Profile -> list string;
  p_cwd : Profile -> option string;
  p_timeout_secs : Profile -> Z;
  p_max_reply_chars : Profile -> Z;
  p_env : Profile -> gmap string string;
  probe_profile_light : Profile -> option string;
}.

Record DesktopBridgeProfileFile := {
  f_id : string;
  f_path : string;
  f_valid : bool;
  f_error : option string;
  f_template : string;
  f_yaml : string;
  f_profiles : list string;
  f_default_profile : option string;
  f_routing : option string;
  f_cwd : option string;
  f_timeout_secs : Z;
  f_max_reply_chars : Z;
  f_model : option string;
  f_command : option string;
  f_args : list string;
  f_env_vars : list EnvVar;
  f_probe_error : option string;
}.

Definition invalid_file (id path yaml error : string) : DesktopBridgeProfileFile :=
  {| f_id := id; f_path := path; f_valid := false; f_error := Some error; f_template := "custom"; f_yaml := yaml;
     f_profiles := []; f_default_profile := None; f_routing := None; f_cwd := None; f_timeout_secs := 600;
     f_max_reply_chars := 8000; f_model := None; f_command := None; f_args := []; f_env_vars := [];
     f_probe_error := None |}.

(** The order of [str::cmp] on the keys. *)
Definition key_le (a b : EnvVar) : Prop := String.le (ev_key a) (ev_key b).

#[export] Instance key_le_dec : RelDecision key_le.
Proof. intros a b. unfold key_le. apply _. Defined.

Section Files.
Context {App Profile : Type} `{BridgeLib App Profile}.

Definition default_profile_of (app : App) : option Profile := profile app (default_profile_name app).

Definition is_claude (p : Profile) : bool :=
  bool_decide (p_executor p = Some "claude-code") || (p_command p =? "ilink-hub-bridge")%string.

Definition detect_bridge_profile_template (app : App) : string :=
  match default_profile_of app with
  | None => "custom"
  | Some p =>
      if is_claude p then "claude" else
      if (p_command p =? "agent")%string then "cursor" else
      if (p_command p =? "codex")%string then "codex" else
      if (p_command p =? "gemini")%string then "gemini" else "custom"
  end.

Definition env_list (p : Profile) : list EnvVar :=
  merge_sort key_le (map (fun kv => {| ev_key := kv.1; ev_value := kv.2 |}) (map_to_list (p_env p))).

Definition summarize_bridge_profile_file (id path yaml : string) : DesktopBridgeProfileFile :=
  match parse_yaml yaml id with
  | Err e => invalid_file id path yaml e
  | Ok app =>
      let p := default_profile_of app in
      {| f_id := id; f_path := path; f_valid := true; f_error := None;
         f_template := detect_bridge_profile_template app; f_yaml := yaml; f_profiles := profile_names app;
         f_default_profile := Some (default_profile_name app); f_routing := Some (routing_label app);
         f_cwd := p ≫= p_cwd; f_timeout_secs := unwrap_or (p_timeout_secs <$> p) 600%Z;
         f_max_reply_chars := unwrap_or (p_max_reply_chars <$> p) 8000%Z;
         f_model := p ≫= (fun p => p_env p !! "CLAUDE_MODEL"); f_command := p_command <$> p;
         f_args := unwrap_or (p_args <$> p) []; f_env_vars := unwrap_or (env_list <$> p) [];
         f_probe_error := p ≫= probe_profile_light |}
  end.

(** The files of the profiles directory by name; [None] when there is no such directory. *)
Definition Dir := option (gmap string string).

Definition files_of (d : Dir) : gmap string string := default ∅ d.

(** A file of the directory, by the sanitized name. *)
Definition profile_path (id : string) : result string string :=
  try id := sanitize_profile_file_id id in Ok (id +:+ ".yaml").

Definition existing_profile_path (d : Dir) (id : string) : result (option string) string :=
  try id := sanitize_profile_file_id id in
  Ok (if bool_decide (is_Some (files_of d !! (id +:+ ".yaml"))) then Some (id +:+ ".yaml")
      else if bool_decide (is_Some (files_of d !! (id +:+ ".yml"))) then Some (id +:+ ".yml") else None).

(** [transpose] of an optional sanitized name. *)
Definition sanitize_opt (o : option string) : result (option string) string :=
  match o with
  | None => Ok None
  | Some s => try id := sanitize_profile_file_id s in Ok (Some id)
  end.

(** What the file system refuses, in the order of the calls. *)
Record DiskFaults := { df_dir : option string; df_remove : option string; df_write : option string }.

Definition remove_file (f : DiskFaults) (name : string) (d : Dir) : result unit string * Dir :=
  match df_remove f with
  | Some e => (Err e, d)
  | None => (Ok tt, Some (delete name (files_of d)))
  end.

(** The renaming part: the name to write to, and the directory without the old file. *)
Definition choose_path (f : DiskFaults) (original : option string) (id : string) (d : Dir)
    : result string string * Dir :=
  match profile_path id, existing_profile_path d id with
  | Err e, _ | _, Err e => (Err e, d)
  | Ok path, Ok target =>
      if bool_decide (original = Some id) then (Ok (unwrap_or target path), d) else
      match target with
      | Some _ => (Err ("profile `" +:+ id +:+ "` 已存在，请换一个 workspace 名称"), d)
      | None =>
          match original with
          | None => (Ok path, d)
          | Some old =>
              match existing_profile_path d old with
              | Err e => (Err e, d)
              | Ok None => (Ok path, d)
              | Ok (Some old_path) =>
                  match remove_file f old_path d with
                  | (Err e, d) => (Err ("删除旧 profile 失败: " +:+ e), d)
                  | (Ok _, d) => (Ok path, d)
                  end
              end
          end
      end
  end.

Definition bridge_save_profile (f : DiskFaults) (req : SaveBridgeProfileRequest) (d : Dir)
    : result DesktopBridgeProfileFile string * Dir :=
  match (try id := sanitize_profile_file_id (rq_id req) in
         try yaml := build_bridge_profile_yaml req in
         try _ := parse_yaml yaml "bridge" in Ok (id, yaml)) with
  | Err e => (Err e, d)
  | Ok (id, yaml) =>
      match df_dir f with
      | Some e => (Err ("创建 profile 目录失败: " +:+ e), d)
      | None =>
          let d := Some (files_of d) in
          match sanitize_opt (rq_original_id req) with
          | Err e => (Err e, d)
          | Ok original =>
              match choose_path f original id d with
              | (Err e, d) => (Err e, d)
              | (Ok path, d) =>
                  match df_write f with
                  | Some e => (Err ("保存 profile 失败: " +:+ e), d)
                  | None =>
                      (Ok (summarize_bridge_profile_file id path yaml), Some (<[path := yaml]> (files_of d)))
                  end
              end
          end
      end
  end.

Definition bridge_delete_profile (f : DiskFaults) (id : string) (d : Dir) : result unit string * Dir :=
  match existing_profile_path d id with
  | Err e => (Err e, d)
  | Ok None => (Ok tt, d)
  | Ok (Some path) =>
      match remove_file f path d with
      | (Err e, d) => (Err ("删除 profile 失败: " +:+ e), d)
      | (Ok _, d) => (Ok tt, d)
      end
  end.

(** [Path::extension] and [Path::file_stem] of a file name. *)
Definition extension (name : string) : option string :=
  match rsplit_once "." name with
  | Some (stem, ext) => if is_empty stem then None else Some ext
  | None => None
  end.

Definition file_stem (name : string) : string :=
  match rsplit_once "." name with
  | Some (stem, _) => if is_empty stem then name else stem
  | None => name
  end.

Definition is_yaml (name : string) : bool :=
  match extension name with
  | Some ext => eq_ignore_ascii_case ext "yaml" || eq_ignore_ascii_case ext "yml"
  | None => false
  end.

(** [unreadable]: the files that cannot be read, with the error. *)
Definition list_entry (unreadable : gmap string string) (p : string * string) : option DesktopBridgeProfileFile :=
  let '(name, yaml) := p in
  if negb (is_yaml name) then None else
  let id := file_stem name in
  Some match unreadable !! name with
       | Some e => invalid_file id name "" ("读取 YAML 失败: " +:+ e)
       | None => summarize_bridge_profile_file id name yaml
       end.

Definition id_le (a b : DesktopBridgeProfileFile) : Prop := String.le (f_id a) (f_id b).

#[local] Instance id_le_dec : RelDecision id_le.
Proof. intros a b. unfold id_le. apply _. Defined.

(** The listing, with the error of reading the directory itself. *)
Definition bridge_profiles (dir_error : option string) (unreadable : gmap string string) (d : Dir)
    : list DesktopBridgeProfileFile * option string :=
  match d, dir_error with
  | None, _ => ([], None)
  | Some _, Some e => ([], Some ("读取 profile 目录失败: " +:+ e))
  | Some files, None => (merge_sort id_le (omap (list_entry unreadable) (map_to_list files)), None)
  end.
End Files.
End ProfileFiles.
