(* ===== verification/DesktopProps.v ===== *)
(** * Properties of the desktop shell

    A chosen port is the port of the next start; file names stay inside their directory;
    quoted text is read back as it was; saving and deleting a profile touch its own file
    only. *)
From S2P Require Import Prelude StrLemmas RelayBase Crypto Runtime Desktop.
From Stdlib Require Import Ascii.
Import Str.
Local Open Scope hub_scope.

(** ** The listen address *)
Module ListenProps.
Import ListenAddr.

Lemma parse_unsigned_show n : (0 <= n <= u64_max)%Z -> parse_unsigned (show_u64 n) = Some n.
Proof. intros H. pose proof (parse_show_u64 n H) as E. by apply ofilter_Some in E as [E _]. Qed.

Lemma parse_port_show n : (0 < n <= 65535)%Z -> parse_port (show_u64 n) = Some n.
Proof.
  intros H. unfold parse_port, parse_u16. rewrite parse_unsigned_show by (unfold u64_max; lia).
  cbn. rewrite (proj2 (Z.leb_le n 65535)) by lia. cbn. by rewrite (proj2 (Z.ltb_lt 0 n)) by lia.
Qed.

Lemma loopback_trim n : (0 <= n)%Z -> trim (loopback_listen_addr_for_port n) = loopback_listen_addr_for_port n.
Proof.
  intros H. apply trim_no_ws. unfold loopback_listen_addr_for_port. rewrite all_bytes_app. apply andb_true_iff.
  split; [done|]. eapply all_bytes_impl; [|apply show_u64_digits; exact H].
  intros a Ha. unfold is_digit in Ha. unfold is_ascii. apply andb_true_iff in Ha as [H1 H2]. apply N.leb_le in H1, H2.
  apply andb_true_iff. split; [apply N.ltb_lt; lia|].
  clear -H1 H2. destruct a as [[] [] [] [] [] [] [] []]; cbn in H1, H2; try lia; reflexivity.
Qed.

Lemma parse_loopback_show n : (0 < n <= 65535)%Z -> parse_loopback_port (loopback_listen_addr_for_port n) = Some n.
Proof.
  intros H. unfold parse_loopback_port. rewrite loopback_trim by lia. unfold loopback_listen_addr_for_port.
  rewrite strip_prefix_app. by apply parse_port_show.
Qed.

(** The host an address names: inside the brackets, or before the last colon; none for a
    bare port. *)
Definition host_of (addr : string) : option string :=
  let s := without_scheme (trim addr) in
  if negb (contains ":" (trim addr)) then None else
  match strip_prefix "[" s with
  | Some rest => fst <$> split_once "]" rest
  | None => fst <$> rsplit_once ":" s
  end.

Definition loopback_hosts : list string := ["127.0.0.1"; "localhost"; "::1"].

Lemma ensure_loopback_Ok addr u : ensure_loopback_listen_addr addr = Ok u ->
  match host_of addr with Some h => h ∈ loopback_hosts | None => is_Some (parse_port (trim addr)) end.
Proof.
  unfold ensure_loopback_listen_addr, host_of. cbv zeta. destruct (is_empty (trim addr)); [done|].
  destruct (contains ":" (trim addr)); cbn [negb]; [|by destruct (parse_port _)].
  intros H. apply result_bind_Ok in H as (h & Hh & H).
  assert (Hin : h ∈ loopback_hosts).
  { unfold loopback_hosts. destruct (String.eqb_spec h "127.0.0.1"); [set_solver|].
    destruct (String.eqb_spec h "localhost"); [set_solver|]. destruct (String.eqb_spec h "::1"); [set_solver|done]. }
  destruct (strip_prefix "[" _) as [rest|].
  - destruct (split_once "]" rest) as [[? ?]|]; [|done]. by injection Hh as ->.
  - destruct (rsplit_once ":" _) as [[? ?]|]; [|done]. by injection Hh as ->.
Qed.

Lemma show_no_colon n : (0 <= n)%Z -> no_byte ":" (show_u64 n) = true.
Proof.
  intros H. rewrite no_byte_all_bytes. eapply all_bytes_impl; [|apply show_u64_digits; exact H].
  intros a Ha. by destruct (Ascii.eqb_spec ":" a) as [<-|].
Qed.

Lemma host_of_loopback n : (0 <= n)%Z -> host_of (loopback_listen_addr_for_port n) = Some "127.0.0.1".
Proof.
  intros H. unfold host_of. rewrite loopback_trim by done. unfold loopback_listen_addr_for_port.
  change (contains ":" ("127.0.0.1:" +:+ show_u64 n)) with true. cbn [negb].
  change (without_scheme ("127.0.0.1:" +:+ show_u64 n)) with ("127.0.0.1:" +:+ show_u64 n).
  change (strip_prefix "[" ("127.0.0.1:" +:+ show_u64 n)) with (@None string). unfold rsplit_once.
  change ("127.0.0.1:" +:+ show_u64 n) with ("127.0.0.1" +:+ (String ":" (show_u64 n))).
  rewrite (rfind_app_absent ":" "127.0.0.1" (String ":" (show_u64 n)) 0); [done|].
  cbn [rfind]. pose proof (absent_no_byte ":" "" "" (show_u64 n) (show_no_colon n H)) as E.
  rewrite append_nil_l in E. by rewrite E.
Qed.

Section Ports.
Context (from_json : string -> result Z string) (to_json : Z -> string).

(** A port that was chosen is the port of the next start, whatever the environment says:
    the choice is stored, resolved to the loopback address with that port, and shown in
    the settings; a choice that could not be stored changes neither the stored one nor
    the controller's address. *)
Theorem chosen_port_persists (fault : SaveFault) (port : Z) (requested var : option string) (fs fs' : PortFiles)
    (res : SetListenPortResult) (requested' : option string)
    (Hport : (0 <= port <= 65535)%Z) (Hcodec : from_json (to_json port) = Ok port)
    (Hset : set_listen_port to_json fault port requested fs = (res, requested', fs')) :
  (sp_ok res = true ->
     resolve_initial_listen_addr from_json None var fs' = Ok (loopback_listen_addr_for_port port) /\
     parse_loopback_port (loopback_listen_addr_for_port port) = Some port /\
     (is_Some requested -> listen_port (get_desktop_settings requested') = port)) /\
  (sp_ok res = false -> requested' = requested /\ pf_main fs' = pf_main fs) /\
  (sp_ok res = true <-> port <> 0%Z /\ fault = NoFault).
Proof.
  unfold set_listen_port in Hset. destruct (Z.eqb_spec port 0) as [->|Hne].
  { injection Hset as <- <- <-. cbn. split; [done|]. split; [done|]. split; [done|]. by intros []. }
  assert (Hp : parse_loopback_port (loopback_listen_addr_for_port port) = Some port)
    by (apply parse_loopback_show; lia).
  destruct fault; cbn in Hset; injection Hset as <- <- <-; cbn; try (split_and!; naive_solver).
  split; [|by split]. intros _. split.
  - unfold resolve_initial_listen_addr, load_desktop_port_override. cbn. rewrite Hcodec.
    by destruct (Z.eqb_spec port 0).
  - split; [done|]. intros [a ->]. unfold get_desktop_settings. cbn [listen_port]. by rewrite Hp.
Qed.

(** The address the shell starts with names no host but a loopback one, whatever the file
    and the environment hold (every port the file can hold is a [u16]). *)
Theorem shell_starts_on_loopback (unreadable var : option string) (fs : PortFiles)
    (Hu16 : forall raw port, from_json raw = Ok port -> (0 <= port <= 65535)%Z) :
  let addr := setup_listen_addr from_json unreadable var fs in
  match host_of addr with Some h => h ∈ loopback_hosts | None => is_Some (parse_port (trim addr)) end.
Proof.
  intros addr. unfold addr, setup_listen_addr.
  destruct (resolve_initial_listen_addr from_json unreadable var fs) as [a|e] eqn:E.
  - unfold resolve_initial_listen_addr in E. apply result_bind_Ok in E as (o & Ho & E).
    destruct o as [port|].
    + injection E as <-. assert (Hp : (0 <= port <= 65535)%Z).
      { unfold load_desktop_port_override in Ho. destruct (pf_main fs); [|done]. destruct unreadable; [done|].
        destruct (from_json s) as [p|] eqn:Ep; [|done]. destruct (p =? 0)%Z; [done|]. injection Ho as ->. by eapply Hu16. }
      rewrite host_of_loopback by lia. set_solver.
    + destruct var as [v|]; [|injection E as <-; vm_compute; by left].
      apply result_bind_Ok in E as (u & Hv & [= <-]). by eapply ensure_loopback_Ok.
  - vm_compute. by left.
Qed.
End Ports.

(** A bare port passes the check and is handed on as it is; no host is put in front of it,
    so it is not an address a socket can be bound to, and the origin shown to backends
    lacks a host. An address with a scheme is handed on with it. *)
Lemma bare_port_is_no_address :
  let start := setup_listen_addr (fun _ => Err "") None in
  let none := {| pf_main := None; pf_tmp := None |} in
  start (Some "9123") none = "9123" /\ loopback_hub_origin "9123" = "http://9123" /\
  start (Some "http://127.0.0.1:9123") none = "http://127.0.0.1:9123".
Proof. repeat split; vm_compute; reflexivity. Qed.
End ListenProps.

(** ** Quoted text *)
Module QuoteProps.
Import Profiles.

(** A reader of YAML's double-quoted style, for the escapes the writer uses: the value,
    and the text after the closing quote. *)
Fixpoint read_quoted (s : string) : option (string * string) :=
  match s with
  | EmptyString => None
  | String a s' =>
      if (a =? "034")%char then Some ("", s') else
      if (a =? "\")%char then
        match s' with
        | EmptyString => None
        | String b s'' =>
            let c := if (b =? "n")%char then Some "010"%char else
                     if (b =? "r")%char then Some "013"%char else
                     if (b =? "t")%char then Some "009"%char else
                     if (b =? "\")%char || (b =? "034")%char then Some b else None in
            match c, read_quoted s'' with
            | Some c, Some (v, rest) => Some (String c v, rest)
            | _, _ => None
            end
        end
      else match read_quoted s' with Some (v, rest) => Some (String a v, rest) | None => None end
  end.

Definition yaml_unquote (s : string) : option (string * string) :=
  match s with String "034" s' => read_quoted s' | _ => None end.

Definition plain_quoted (a : ascii) : bool := negb (a =? "034")%char && negb (a =? "\")%char.

Lemma read_plain c t v rest : all_bytes plain_quoted c = true -> read_quoted t = Some (v, rest) ->
  read_quoted (c +:+ t) = Some (c +:+ v, rest).
Proof.
  intros Hc Ht. induction c as [|a c IH]; [done|]. cbn [all_bytes] in Hc.
  apply andb_true_iff in Hc as [[H1 H2]%andb_true_iff Hc]. apply negb_true_iff in H1, H2.
  rewrite !append_cons. cbn [read_quoted]. by rewrite H1, H2, IH.
Qed.

(** Bytes that would end a line. *)
Definition in_line (a : ascii) : bool := negb (a =? "010")%char && negb (a =? "013")%char.

(** A byte that is none of those the goal compares it with. *)
Ltac other_bytes :=
  repeat match goal with |- context [(?a =? ?x)%char] => destruct (Ascii.eqb_spec a x); [by subst|] end; done.

Lemma yaml_escape_spec c t v rest : utf8_char c = true -> read_quoted t = Some (v, rest) ->
  read_quoted (yaml_escape c +:+ t) = Some (c +:+ v, rest) /\ all_bytes in_line (yaml_escape c) = true.
Proof.
  intros Hc Ht. unfold yaml_escape.
  destruct (String.eqb_spec c "\") as [->|E1]; [by unfold double_quote, line_feed; rewrite ?append_assoc, ?append_cons, ?append_nil_l; cbn; rewrite Ht|].
  destruct (String.eqb_spec c double_quote) as [->|E2]; [by unfold double_quote, line_feed; rewrite ?append_assoc, ?append_cons, ?append_nil_l; cbn; rewrite Ht|].
  destruct (String.eqb_spec c line_feed) as [->|E3]; [by unfold double_quote, line_feed; rewrite ?append_assoc, ?append_cons, ?append_nil_l; cbn; rewrite Ht|].
  destruct (String.eqb_spec c (String "013" "")) as [->|E4]; [by unfold double_quote, line_feed; rewrite ?append_assoc, ?append_cons, ?append_nil_l; cbn; rewrite Ht|].
  destruct (String.eqb_spec c (String "009" "")) as [->|E5]; [by unfold double_quote, line_feed; rewrite ?append_assoc, ?append_cons, ?append_nil_l; cbn; rewrite Ht|].
  assert (Hb : all_bytes (fun a => plain_quoted a && in_line a) c = true).
  { destruct c as [|a [|b c]]; [done| |].
    - cbn. rewrite andb_true_r. unfold plain_quoted, in_line, double_quote, line_feed in *. other_bytes.
    - revert Hc. unfold utf8_char. apply all_bytes_impl. intros x Hx. unfold plain_quoted, in_line.
      other_bytes. }
  split; [apply read_plain; [|done]|]; (eapply all_bytes_impl; [|exact Hb]); intros a [? ?]%andb_true_iff; done.
Qed.

Lemma read_escaped cs t : forallb utf8_char cs = true ->
  read_quoted (concat (map yaml_escape cs) +:+ String "034" t) = Some (concat cs, t) /\
  all_bytes in_line (concat (map yaml_escape cs)) = true.
Proof.
  induction cs as [|c cs IH]; [done|]. cbn [forallb map]. intros [Hc [I1 I2]%IH]%andb_true_iff.
  change (concat (?x :: ?y)) with (x +:+ concat y). rewrite append_assoc.
  destruct (yaml_escape_spec c _ _ _ Hc I1) as [E1 E2]. rewrite E1, all_bytes_app, E2, I2. done.
Qed.

(** Quoting is faithful: a reader gets the text back, continues exactly after the closing
    quote whatever follows, and the quoted text stays on its line, so a value can never
    add a key to the document. *)
Theorem yaml_quote_roundtrip (s rest : string) (Hs : utf8 s = true) :
  yaml_unquote (yaml_quote s +:+ rest) = Some (s, rest) /\ all_bytes in_line (yaml_quote s) = true.
Proof.
  destruct (read_escaped (chars s) rest Hs) as [E1 E2]. rewrite concat_chars in E1.
  unfold yaml_quote. split.
  - change (read_quoted ((concat (map yaml_escape (chars s)) +:+ double_quote) +:+ rest) = Some (s, rest)).
    by rewrite append_assoc.
  - rewrite !all_bytes_app, E2. done.
Qed.

(** Keys are not quoted: a name with a line break adds a key of its own. *)
Lemma env_key_injects :
  env_vars_yaml [{| ev_key := "A: x" +:+ line_feed +:+ "  command"; ev_value := "sh" |}] 2
  = "  env:" +:+ line_feed +:+ "    A: x" +:+ line_feed +:+ "  command: " +:+ yaml_quote "sh" +:+ line_feed.
Proof. vm_compute. reflexivity. Qed.
End QuoteProps.

(** ** Names and files *)
Module FileProps.
Import Profiles ProfileFiles.

Lemma id_char_bytes c : all_bytes id_byte (id_char c) = true.
Proof. destruct c as [|a [|b c]]; [done| |done]. cbn. destruct (id_byte a) eqn:E; cbn; by rewrite ?E. Qed.

Lemma squeeze_bytes n s : all_bytes id_byte s = true -> all_bytes id_byte (squeeze n s) = true.
Proof.
  revert s. induction n as [|n IH]; intros s Hs; [done|]. cbn [squeeze]. destruct (contains "--" s); [|done].
  apply IH. by apply all_bytes_replace.
Qed.

(** The loop ends with its condition false: every round shortens the name. *)
Lemma squeeze_ends n s : len s <= n -> contains "--" (squeeze n s) = false.
Proof.
  revert s. induction n as [|n IH]; intros s Hs; cbn [squeeze].
  - by destruct s; [|cbn in Hs; lia].
  - destruct (contains "--" s) eqn:E; [|done]. apply IH.
    pose proof (replace_shorter "--" ltac:(done) "-" s ltac:(cbn; lia) E). lia.
Qed.

Lemma trim_start_matches_suffix a s : exists x, s = x +:+ trim_start_matches a s.
Proof.
  induction s as [|b s [x IH]]; [by exists ""|]. cbn [trim_start_matches].
  destruct (a =? b)%char; [|by exists ""]. exists (String b x). rewrite append_cons. by f_equal.
Qed.

Lemma trim_end_matches_prefix a s : exists x, s = trim_end_matches a s +:+ x.
Proof.
  induction s as [|b s [x IH]]; [by exists ""|]. cbn [trim_end_matches].
  destruct (trim_end_matches a s) as [|c t] eqn:E.
  - destruct (a =? b)%char; [by exists (String b s)|]. exists s. by rewrite append_cons.
  - exists x. rewrite append_cons. by f_equal.
Qed.

Lemma trim_matches_infix a s : exists x y, s = x +:+ trim_matches a s +:+ y.
Proof.
  destruct (trim_start_matches_suffix a s) as [x Hx].
  destruct (trim_end_matches_prefix a (trim_start_matches a s)) as [y Hy].
  exists x, y. unfold trim_matches. by rewrite <- Hy.
Qed.

Lemma trim_start_matches_head a s : starts_with (String a "") (trim_start_matches a s) = false.
Proof.
  induction s as [|b s IH]; [done|]. cbn [trim_start_matches]. destruct (a =? b)%char eqn:E; [done|].
  unfold starts_with. cbn. by rewrite E.
Qed.

Lemma starts_with_prefix p s x : starts_with p (s +:+ x) = false -> starts_with p s = false.
Proof.
  intros H. apply not_true_iff_false. intros [r ->]%starts_with_spec. rewrite append_assoc, starts_with_app in H. done.
Qed.

Lemma take_chars_prefix n s : exists x, s = take_chars n s +:+ x.
Proof.
  exists (concat (drop n (chars s))). unfold take_chars. rewrite <- (concat_chars s) at 1.
  rewrite <- (take_drop n (chars s)) at 1. generalize (take n (chars s)) as l. intros l.
  induction l as [|c l IH]; [done|]. change (concat ((c :: l) ++ drop n (chars s))) with (c +:+ concat (l ++ drop n (chars s))).
  change (concat (c :: l)) with (c +:+ concat l). by rewrite IH, append_assoc.
Qed.

Lemma id_byte_ascii a : id_byte a = true -> is_ascii a = true.
Proof. by destruct a as [[] [] [] [] [] [] [] []]. Qed.

Lemma take_chars_len n s : all_bytes is_ascii s = true -> len (take_chars n s) <= n.
Proof.
  intros Hs. unfold take_chars. rewrite chars_ascii by done. generalize (String.list_ascii_of_string s) as l. intros l.
  revert n. induction l as [|a l IH]; intros [|n]; [cbn; lia..|]. specialize (IH n). cbn [map take].
  change (concat (String a "" :: ?m)) with (String a "" +:+ concat m). unfold len in *. rewrite length_append.
  cbn [String.length]. lia.
Qed.

(** The result of sanitizing: a name of at most 64 bytes from a safe alphabet. *)
Record safe_name (id : string) : Prop := {
  sn_nonempty : id <> "";
  sn_bytes : all_bytes id_byte id = true;
  sn_len : len id <= 64;
  sn_dashes : contains "--" id = false;
  sn_head : starts_with "-" id = false;
}.

Lemma sanitize_safe raw id : sanitize_profile_file_id raw = Ok id -> safe_name id.
Proof.
  unfold sanitize_profile_file_id. cbv zeta. set (out := concat (map id_char (chars (trim raw)))).
  set (sq := squeeze (len out) out). set (tm := trim_matches "-" sq).
  destruct (is_empty (take_chars 64 tm)) eqn:E; [done|]. intros [= <-].
  assert (Hsq : all_bytes id_byte sq = true).
  { apply squeeze_bytes, all_bytes_concat, Forall_forall. intros x (c & -> & _)%list_elem_of_fmap. apply id_char_bytes. }
  assert (Hno : contains "--" sq = false) by (by apply squeeze_ends).
  destruct (trim_matches_infix "-" sq) as (x & y & Hxy). fold tm in Hxy.
  destruct (take_chars_prefix 64 tm) as [z Hz].
  assert (Htm : all_bytes id_byte tm = true) by (rewrite Hxy in Hsq; by eapply all_bytes_infix).
  split.
  - intros H. by rewrite H in E.
  - rewrite Hz in Htm. rewrite all_bytes_app in Htm. by apply andb_true_iff in Htm as [? _].
  - apply take_chars_len. eapply all_bytes_impl; [|exact Htm]. apply id_byte_ascii.
  - rewrite Hxy in Hno. apply contains_infix in Hno. rewrite Hz in Hno.
    apply (contains_infix "--" "" (take_chars 64 tm) z). by rewrite append_nil_l.
  - apply (starts_with_prefix _ _ z). rewrite <- Hz.
    destruct (trim_end_matches_prefix "-" (trim_start_matches "-" sq)) as [w Hw].
    apply (starts_with_prefix _ _ w). unfold tm, trim_matches. rewrite <- Hw. apply trim_start_matches_head.
Qed.

(** Truncation comes last, so a name can end in a dash, and sanitizing it again gives
    another name: such a profile is stored under a name that differs from its identifier. *)
Lemma truncated_name_changes :
  let a := concat (repeat "a" 63) in
  sanitize_profile_file_id (a +:+ "-b") = Ok (a +:+ "-") /\ sanitize_profile_file_id (a +:+ "-") = Ok a.
Proof. split; vm_compute; reflexivity. Qed.

(** The two file names of a profile. *)
Definition names_of (id : string) : list string := [id +:+ ".yaml"; id +:+ ".yml"].

(** No byte of a profile's file name leads out of the directory. *)
Lemma names_of_safe id n : safe_name id -> n ∈ names_of id ->
  no_byte "/" n = true /\ no_byte "\" n = true /\ starts_with "." n = false.
Proof.
  intros Hs Hn.
  assert (H : forall a, id_byte a = false -> no_byte a ".yaml" = true -> no_byte a n = true).
  { intros a Ha Ht. assert (Hi : no_byte a id = true).
    { rewrite no_byte_all_bytes. eapply all_bytes_impl; [|apply (sn_bytes id Hs)]. intros b Hb.
      destruct (Ascii.eqb_spec a b) as [<-|]; [congruence|done]. }
    apply list_elem_of_In in Hn. destruct Hn as [<-|[<-|[]]]; rewrite no_byte_app, Hi; [done|].
    cbn in Ht |- *. by repeat destruct (a =? _)%char. }
  split; [by apply H|]. split; [by apply H|].
  destruct id as [|a id]; [by destruct (sn_nonempty "" Hs)|].
  pose proof (sn_bytes _ Hs) as Hb. cbn in Hb. apply andb_true_iff in Hb as [Ha _].
  assert (E : ("." =? a)%char = false) by (by destruct (Ascii.eqb_spec "." a) as [<-|]).
  apply list_elem_of_In in Hn. by destruct Hn as [<-|[<-|[]]]; unfold starts_with; rewrite append_cons; cbn [strip_prefix]; rewrite E.
Qed.

Section SaveDelete.
Context {App Profile : Type} `{BridgeLib App Profile}.

Lemma existing_path_spec d id o : existing_profile_path d id = Ok o ->
  exists id', sanitize_profile_file_id id = Ok id' /\
  match o with
  | Some n => n ∈ names_of id' /\ is_Some (files_of d !! n)
  | None => forall n, n ∈ names_of id' -> files_of d !! n = None
  end.
Proof.
  unfold existing_profile_path. intros (id' & Hid & E)%result_bind_Ok. exists id'. split; [done|].
  injection E as <-. unfold names_of. case_bool_decide as H1; [split; [by left|done]|].
  case_bool_decide as H2; [split; [by right; left|done]|].
  rewrite <- eq_None_not_Some in H1, H2. intros n. rewrite !elem_of_cons, elem_of_nil. naive_solver.
Qed.

(** What a rename may do before the file is written. *)
Lemma choose_path_spec f original id d out d' : choose_path f original id d = (out, d') ->
  (files_of d' = files_of d \/
   exists old old' n, original = Some old /\ old <> id /\ sanitize_profile_file_id old = Ok old' /\
     n ∈ names_of old' /\ files_of d' = delete n (files_of d)) /\
  match out with
  | Ok path => exists id', sanitize_profile_file_id id = Ok id' /\ path ∈ names_of id' /\
                 (original <> Some id -> files_of d !! path = None)
  | Err _ => files_of d' = files_of d
  end.
Proof.
  unfold choose_path, profile_path. destruct (sanitize_profile_file_id id) as [id'|e] eqn:Eid; cbn [result_bind].
  2: by intros [= <- <-]; split; [left|].
  destruct (existing_profile_path d id) as [target|e] eqn:Et; [|by intros [= <- <-]; split; [left|]].
  apply existing_path_spec in Et as (id2 & E2 & Ht). rewrite Eid in E2. injection E2 as <-.
  case_bool_decide as Ho.
  { intros [= <- <-]. split; [by left|]. exists id'. split; [done|]. split; [|done].
    destruct target as [n|]; cbn; [by apply Ht|by left]. }
  destruct target as [n|]; [by intros [= <- <-]; split; [left|]|].
  assert (Hnew : exists id2, @Ok _ string id' = Ok id2 /\ id' +:+ ".yaml" ∈ names_of id2 /\
                   (original <> Some id -> files_of d !! (id' +:+ ".yaml") = None)).
  { exists id'. split; [done|]. split; [by left|]. intros _. apply Ht. by left. }
  destruct original as [old|]; [|by intros [= <- <-]; split; [left|]].
  destruct (existing_profile_path d old) as [[n|]|e] eqn:Eo; [|by intros [= <- <-]; split; [left|]..].
  apply existing_path_spec in Eo as (old' & E3 & Hn & _). unfold remove_file.
  destruct (df_remove f); intros [= <- <-]; [by split; [left|]|]. split; [|done].
  right. exists old, old', n. repeat split; try done. congruence.
Qed.

(** Saving a profile is confined to its own file: the directory changes at most at the two
    file names of the requested identifier and, in a rename, of the original one, all of
    them plain names inside the directory; a request that succeeds leaves its YAML, which
    the bridge accepts, under such a name, and never replaces the file of another profile;
    without a fault of the disk, a request that is refused changes nothing. *)
Theorem save_profile_confined (f : DiskFaults) (req : SaveBridgeProfileRequest) (d d' : Dir)
    (out : result DesktopBridgeProfileFile string) :
  bridge_save_profile f req d = (out, d') ->
  (forall n, files_of d' !! n <> files_of d !! n ->
     exists raw id id', (raw = rq_id req \/ rq_original_id req = Some raw) /\
       sanitize_profile_file_id raw = Ok id /\ sanitize_profile_file_id id = Ok id' /\
       safe_name id' /\ n ∈ names_of id') /\
  match out with
  | Ok file => exists id yaml app, sanitize_profile_file_id (rq_id req) = Ok id /\
      build_bridge_profile_yaml req = Ok yaml /\ parse_yaml yaml "bridge" = Ok app /\
      file = summarize_bridge_profile_file id (f_path file) yaml /\
      files_of d' !! f_path file = Some yaml /\
      (sanitize_opt (rq_original_id req) <> Ok (Some id) -> files_of d !! f_path file = None)
  | Err _ => df_write f = None -> files_of d' = files_of d
  end.
Proof.
  unfold bridge_save_profile.
  destruct (sanitize_profile_file_id (rq_id req)) as [id|e] eqn:Eid; cbn [result_bind]; [|by intros [= <- <-]].
  destruct (build_bridge_profile_yaml req) as [yaml|e] eqn:Ey; cbn [result_bind]; [|by intros [= <- <-]].
  destruct (parse_yaml yaml "bridge") as [app|e] eqn:Ep; cbn [result_bind]; [|by intros [= <- <-]].
  destruct (df_dir f); [by intros [= <- <-]|].
  destruct (sanitize_opt (rq_original_id req)) as [original|e] eqn:Eo; [|by intros [= <- <-]].
  destruct (choose_path f original id (Some (files_of d))) as [[path|e] d1] eqn:Ec;
    apply choose_path_spec in Ec as [Hd Hout]; change (files_of (Some (files_of d))) with (files_of d) in Hd, Hout.
  2: by intros [= <- <-]; rewrite Hout.
  destruct Hout as (id' & Ei' & Hpath & Hfree).
  set (changed n := exists raw id id', (raw = rq_id req \/ rq_original_id req = Some raw) /\
    sanitize_profile_file_id raw = Ok id /\ sanitize_profile_file_id id = Ok id' /\ safe_name id' /\ n ∈ names_of id').
  assert (Hold : forall n, files_of d1 !! n <> files_of d !! n -> changed n).
  { intros n Hn. destruct Hd as [Hd|(old & old' & m & -> & _ & Eold & Hm & Edel)]; [by rewrite Hd in Hn|].
    rewrite Edel in Hn. destruct (decide (m = n)) as [<-|Hne]; [|by rewrite lookup_delete_ne in Hn].
    destruct (rq_original_id req) as [raw|] eqn:Er; [|done]. cbn in Eo.
    apply result_bind_Ok in Eo as (o & Eraw & [= ->]). exists raw, old, old'.
    split; [by right|]. split; [done|]. split; [done|]. split; [by eapply sanitize_safe|done]. }
  destruct (df_write f) as [e|] eqn:Ew; intros [= <- <-]; [by split|].
  assert (Hsum : f_path (summarize_bridge_profile_file id path yaml) = path)
    by (unfold summarize_bridge_profile_file; by destruct (parse_yaml yaml id)).
  rewrite Hsum. change (files_of (Some ?m)) with m. split.
  - intros n. destruct (decide (path = n)) as [<-|Hne]; [|rewrite lookup_insert_ne by done; apply Hold].
    intros _. exists (rq_id req), id, id'. repeat split; try done; [by left|by eapply sn_nonempty, sanitize_safe|..].
    all: by apply (sanitize_safe id).
  - exists id, yaml, app. rewrite lookup_insert_eq. repeat split; try done.
    intros Hne. apply Hfree. congruence.
Qed.

(** Deleting removes at most one file, of that profile; what is not there is not an error. *)
Theorem delete_profile_confined (f : DiskFaults) (id : string) (d d' : Dir) (out : result unit string) :
  bridge_delete_profile f id d = (out, d') ->
  (forall n, files_of d' !! n <> files_of d !! n ->
     exists id', sanitize_profile_file_id id = Ok id' /\ n ∈ names_of id' /\ files_of d' !! n = None) /\
  (is_ok out = false -> files_of d' = files_of d).
Proof.
  unfold bridge_delete_profile. destruct (existing_profile_path d id) as [[n|]|e] eqn:E; [|by intros [= <- <-]..].
  apply existing_path_spec in E as (id' & Hid & Hn & _). unfold remove_file.
  destruct (df_remove f); intros [= <- <-]; [done|]. split; [|done]. intros m Hm. change (files_of (Some ?x)) with x in *.
  destruct (decide (n = m)) as [<-|Hne]; [|by rewrite lookup_delete_ne in Hm].
  exists id'. by rewrite lookup_delete_eq.
Qed.
End SaveDelete.

(** ** Instances *)

(** A bridge that accepts every text and knows one profile. *)
Definition demo_bridge : BridgeLib string unit := {|
  parse_yaml := fun y _ => Ok y; profile := fun _ _ => Some tt; default_profile_name := fun _ => "main";
  profile_names := fun _ => ["main"]; routing_label := fun _ => "single"; p_executor := fun _ => None;
  p_command := fun _ => "agent"; p_args := fun _ => []; p_cwd := fun _ => None; p_timeout_secs := fun _ => 60%Z;
  p_max_reply_chars := fun _ => 2000%Z; p_env := fun _ => ∅; probe_profile_light := fun _ => None |}.

Definition rename_request : SaveBridgeProfileRequest :=
  {| rq_original_id := Some "work"; rq_id := "../Home!"; rq_template := "custom"; rq_cwd := "/"; rq_env_vars := None;
     rq_yaml := Some " a: 1 " |}.

Definition profile_dir : Dir := Some {[ "work.yaml" := "x"; "other.yml" := "y" ]}.

Lemma save_profile_confined_witness :
  let d' := (@bridge_save_profile _ _ demo_bridge {| df_dir := None; df_remove := None; df_write := None |}
               rename_request profile_dir).2 in
  (exists n, files_of d' !! n <> files_of profile_dir !! n) /\
  forall n, files_of d' !! n <> files_of profile_dir !! n ->
    exists raw id id', (raw = "../Home!" \/ Some "work" = Some raw) /\ sanitize_profile_file_id raw = Ok id /\
      sanitize_profile_file_id id = Ok id' /\ safe_name id' /\ n ∈ names_of id'.
Proof.
  intros d'. split; [exists "work.yaml"; vm_compute; discriminate|].
  destruct (@save_profile_confined _ _ demo_bridge {| df_dir := None; df_remove := None; df_write := None |}
              rename_request profile_dir d' _ (surjective_pairing _)) as [Hn _].
  exact Hn.
Defined.

(** A rename removes the old file before the new one is written: when the write fails the
    profile is lost, under both names. *)
Lemma failed_rename_loses_profile :
  let r := @bridge_save_profile _ _ demo_bridge {| df_dir := None; df_remove := None; df_write := Some "disk full" |}
             rename_request profile_dir in
  is_ok r.1 = false /\ files_of profile_dir !! "work.yaml" = Some "x" /\
  existing_profile_path r.2 "work" = Ok None /\ existing_profile_path r.2 "../Home!" = Ok None.
Proof. repeat split; vm_compute; reflexivity. Qed.
End FileProps.
