(* ===== verification/HubShell.v ===== *)
(** * The desktop shell's hub controller
    ([desktop/ilink-hub-desktop/src-tauri/src/lib.rs])

    Starting, stopping and restarting the embedded hub: the slot with the shutdown sender,
    the handles of the spawned tasks, and the tasks themselves, which run concurrently with
    the commands. Every section under a lock is one step, and every task advances on its
    own; runs are sequences of such steps. *)
From S2P Require Import Prelude StrLemmas Desktop.
From Stdlib Require Import Ascii.
Import Str ListenAddr.
Local Open Scope hub_scope.

(** The task around [run_serve]: serving, or in its teardown, whose three assignments are
    made under three locks. *)
Inductive ServePhase := Serving | Returned | ClearedState | ClearedAddr | Finished | Aborted.

(** The task that forwards what [run_serve] reports: it waits for the state first, for the
    address second. *)
Inductive BindPhase := AwaitState | AwaitAddr | BindDone | BindAborted.

#[export] Instance ServePhase_eq_dec : EqDecision ServePhase.
Proof. solve_decision. Defined.
#[export] Instance BindPhase_eq_dec : EqDecision BindPhase.
Proof. solve_decision. Defined.

(** One spawned hub. [tk_told]: the shutdown value is true or the sender is gone;
    [tk_receivers]: some receiver of the channel is left ([run_serve] hands clones to tasks
    that may outlive it); the two values [run_serve] sent. *)
Record Task := {
  tk_serve : ServePhase;
  tk_bind : BindPhase;
  tk_told : bool;
  tk_receivers : bool;
  tk_addr_sent : option string;
  tk_state_sent : bool;
}.

Definition Task_new : Task :=
  {| tk_serve := Serving; tk_bind := AwaitState; tk_told := false; tk_receivers := true;
     tk_addr_sent := None; tk_state_sent := false |}.

Definition set_serve (x : ServePhase) (t : Task) : Task :=
  {| tk_serve := x; tk_bind := tk_bind t; tk_told := tk_told t; tk_receivers := tk_receivers t;
     tk_addr_sent := tk_addr_sent t; tk_state_sent := tk_state_sent t |}.
Definition set_bind (x : BindPhase) (t : Task) : Task :=
  {| tk_serve := tk_serve t; tk_bind := x; tk_told := tk_told t; tk_receivers := tk_receivers t;
     tk_addr_sent := tk_addr_sent t; tk_state_sent := tk_state_sent t |}.
Definition set_told (t : Task) : Task :=
  {| tk_serve := tk_serve t; tk_bind := tk_bind t; tk_told := true; tk_receivers := tk_receivers t;
     tk_addr_sent := tk_addr_sent t; tk_state_sent := tk_state_sent t |}.
Definition set_gone (t : Task) : Task :=
  {| tk_serve := tk_serve t; tk_bind := tk_bind t; tk_told := tk_told t; tk_receivers := false;
     tk_addr_sent := tk_addr_sent t; tk_state_sent := tk_state_sent t |}.
Definition set_sent (a : option string) (st : bool) (t : Task) : Task :=
  {| tk_serve := tk_serve t; tk_bind := tk_bind t; tk_told := tk_told t; tk_receivers := tk_receivers t;
     tk_addr_sent := a; tk_state_sent := st |}.

(** The controller and the tasks. [sh_starting]: tasks spawned by a [start_hub] that has
    not installed its sender yet; [sh_restarting]: the sender and the handle each waiting
    [restart_hub] took. *)
Record Shell := {
  sh_slot : option nat;
  sh_bind_handle : option nat;
  sh_run_handle : option nat;
  sh_requested : string;
  sh_listening : option string;
  sh_hub_state : option nat;
  sh_tasks : gmap nat Task;
  sh_next : nat;
  sh_starting : gset nat;
  sh_restarting : list (option nat * option nat);
}.

Definition set_slot (x : option nat) (s : Shell) : Shell :=
  {| sh_slot := x; sh_bind_handle := sh_bind_handle s; sh_run_handle := sh_run_handle s;
     sh_requested := sh_requested s; sh_listening := sh_listening s; sh_hub_state := sh_hub_state s;
     sh_tasks := sh_tasks s; sh_next := sh_next s; sh_starting := sh_starting s; sh_restarting := sh_restarting s |}.
Definition set_handles (b r : option nat) (s : Shell) : Shell :=
  {| sh_slot := sh_slot s; sh_bind_handle := b; sh_run_handle := r;
     sh_requested := sh_requested s; sh_listening := sh_listening s; sh_hub_state := sh_hub_state s;
     sh_tasks := sh_tasks s; sh_next := sh_next s; sh_starting := sh_starting s; sh_restarting := sh_restarting s |}.
Definition set_requested_addr (a : string) (s : Shell) : Shell :=
  {| sh_slot := sh_slot s; sh_bind_handle := sh_bind_handle s; sh_run_handle := sh_run_handle s;
     sh_requested := a; sh_listening := sh_listening s; sh_hub_state := sh_hub_state s;
     sh_tasks := sh_tasks s; sh_next := sh_next s; sh_starting := sh_starting s; sh_restarting := sh_restarting s |}.
Definition set_views (l : option string) (h : option nat) (s : Shell) : Shell :=
  {| sh_slot := sh_slot s; sh_bind_handle := sh_bind_handle s; sh_run_handle := sh_run_handle s;
     sh_requested := sh_requested s; sh_listening := l; sh_hub_state := h;
     sh_tasks := sh_tasks s; sh_next := sh_next s; sh_starting := sh_starting s; sh_restarting := sh_restarting s |}.
Definition set_tasks (ts : gmap nat Task) (n : nat) (s : Shell) : Shell :=
  {| sh_slot := sh_slot s; sh_bind_handle := sh_bind_handle s; sh_run_handle := sh_run_handle s;
     sh_requested := sh_requested s; sh_listening := sh_listening s; sh_hub_state := sh_hub_state s;
     sh_tasks := ts; sh_next := n; sh_starting := sh_starting s; sh_restarting := sh_restarting s |}.
Definition set_pending (st : gset nat) (rs : list (option nat * option nat)) (s : Shell) : Shell :=
  {| sh_slot := sh_slot s; sh_bind_handle := sh_bind_handle s; sh_run_handle := sh_run_handle s;
     sh_requested := sh_requested s; sh_listening := sh_listening s; sh_hub_state := sh_hub_state s;
     sh_tasks := sh_tasks s; sh_next := sh_next s; sh_starting := st; sh_restarting := rs |}.

Definition on_task (k : nat) (f : Task -> Task) (s : Shell) : Shell := set_tasks (alter f k (sh_tasks s)) (sh_next s) s.

Definition on_opt (o : option nat) (f : Task -> Task) (s : Shell) : Shell :=
  match o with Some k => on_task k f s | None => s end.

(** [watch::Sender::is_closed]. *)
Definition is_closed (k : nat) (s : Shell) : bool :=
  match sh_tasks s !! k with Some t => negb (tk_receivers t) | None => true end.

Definition is_running (s : Shell) : bool := match sh_slot s with Some _ => true | None => false end.

(** The sender in the slot whose hub is still there. *)
Definition open_slot (s : Shell) : bool := match sh_slot s with Some k => negb (is_closed k s) | None => false end.

(** [sqlite_url_for_path], for a path as text. *)
Definition sqlite_url_for_path (path : string) : string :=
  let normalized := replace "\" "/" path in
  if starts_with "/" normalized then "sqlite:" +:+ normalized
  else if (2 <=? len normalized)%nat && bool_decide (chars normalized !! 1%nat = Some ":")
       then "sqlite:/" +:+ normalized
  else "sqlite:" +:+ normalized.

(** ** Commands *)

(** [spawn_hub_task]: three tasks of one hub. *)
Definition spawn_hub_task (s : Shell) : nat * Shell :=
  (sh_next s, set_tasks (<[sh_next s := Task_new]> (sh_tasks s)) (S (sh_next s)) s).

(** [start_hub], up to the spawned tasks: the slot is checked and, if stale, cleared. *)
Definition start_claim (s : Shell) : result nat string * Shell :=
  if open_slot s then (Err "hub already running", s) else
  let '(k, s) := spawn_hub_task (set_slot None s) in
  (Ok k, set_pending ({[k]} ∪ sh_starting s) (sh_restarting s) s).

(** Abortion of the tasks behind handles; what is finished stays so. *)
Definition abort_serve (t : Task) : Task := if decide (tk_serve t = Finished) then t else set_serve Aborted t.
Definition abort_bind (t : Task) : Task := if decide (tk_bind t = BindDone) then t else set_bind BindAborted t.

(** [start_hub], the installation; the loser of a race aborts its tasks and drops its
    sender. *)
Definition start_install (k : nat) (s : Shell) : result unit string * Shell :=
  let s := set_pending (sh_starting s ∖ {[k]}) (sh_restarting s) s in
  if open_slot s then (Err "hub already running", on_task k (fun t => set_told (abort_serve (abort_bind t))) s)
  else (Ok tt, set_handles (Some k) (Some k) (set_slot (Some k) s)).

(** The installation at the end of [setup], for the first hub: it asks nothing, and drops a
    sender that a command may have installed meanwhile. *)
Definition setup_install (s : Shell) : Shell :=
  let s := set_pending (sh_starting s ∖ {[0]}) (sh_restarting s) s in
  set_handles (Some 0) (Some 0) (set_slot (Some 0) (on_opt (sh_slot s) set_told s)).

Definition stop_hub (s : Shell) : result unit string * Shell :=
  match sh_slot s with
  | None => (Ok tt, s)
  | Some k =>
      (if is_closed k s then Err "hub already stopped" else Ok tt, on_task k set_told (set_slot None s))
  end.

(** [restart_hub]: sender and handle are taken and the hub is told to stop; then the
    command waits for the handle. *)
Definition restart_take (s : Shell) : Shell :=
  let pending := (sh_slot s, sh_run_handle s) in
  let s' := on_opt (sh_slot s) set_told (set_handles (sh_bind_handle s) None (set_slot None s)) in
  set_pending (sh_starting s') (pending :: sh_restarting s') s'.

(** The wait took too long: the sender is put back if the slot is still empty. *)
Definition restart_timeout (tx : option nat) (rest : list (option nat * option nat)) (s : Shell)
    : result unit string * Shell :=
  let s := set_pending (sh_starting s) rest s in
  (Err "hub stop timed out", match sh_slot s with None => set_slot tx s | Some _ => s end).

(** Closing the window, and leaving the application. *)
Definition close_window (s : Shell) : Shell :=
  let s := on_opt (sh_slot s) set_told (set_slot None s) in
  set_handles None None (on_opt (sh_run_handle s) abort_serve (on_opt (sh_bind_handle s) abort_bind s)).

Record HubInfo := {
  hi_requested_addr : string;
  hi_listening_addr : option string;
  hi_admin_url : option string;
  hi_hub_base_url : option string;
  hi_database_path : string;
}.

Definition hub_info (database_path : string) (s : Shell) : HubInfo :=
  let base := (fun a => trim_end_matches "/"%char (loopback_hub_origin a)) <$> sh_listening s in
  {| hi_requested_addr := sh_requested s; hi_listening_addr := sh_listening s;
     hi_admin_url := (fun origin => origin +:+ "/hub/ui") <$> base; hi_hub_base_url := base;
     hi_database_path := database_path |}.

(** ** Steps *)

(** A finished task, as its handle sees it. *)
Definition task_over (o : option nat) (s : Shell) : bool :=
  match o with
  | None => true
  | Some k => match sh_tasks s !! k with
              | Some t => bool_decide (tk_serve t = Finished \/ tk_serve t = Aborted)
              | None => true
              end
  end.

(** The senders [run_serve] holds are gone. *)
Definition ended (t : Task) : bool := negb (bool_decide (tk_serve t = Serving)).

(** One assignment of the teardown. The last takes what is in the slot, whose sender is
    then dropped. *)
Definition teardown (k : nat) (t : Task) (s : Shell) : Shell :=
  match tk_serve t with
  | Returned => on_task k (set_serve ClearedState) (set_views (sh_listening s) None s)
  | ClearedState => on_task k (set_serve ClearedAddr) (set_views None (sh_hub_state s) s)
  | ClearedAddr => on_task k (set_serve Finished) (on_opt (sh_slot s) set_told (set_slot None s))
  | _ => s
  end.

(** One wait of the bind listener that is over. *)
Definition bind_progress (k : nat) (t : Task) (s : Shell) : Shell :=
  match tk_bind t with
  | AwaitState =>
      if tk_state_sent t then on_task k (set_bind AwaitAddr) (set_views (sh_listening s) (Some k) s)
      else if ended t then on_task k (set_bind AwaitAddr) s else s
  | AwaitAddr =>
      match tk_addr_sent t with
      | Some a => on_task k (set_bind BindDone) (set_views (Some a) (sh_hub_state s) s)
      | None => if ended t then on_task k (set_bind BindDone) s else s
      end
  | _ => s
  end.

Inductive shell_step : Shell -> Shell -> Prop :=
| ss_claim s : shell_step s (start_claim s).2
| ss_setup s : 0 ∈ sh_starting s -> shell_step s (setup_install s)
| ss_install k s : k ∈ sh_starting s -> k <> 0 -> shell_step s (start_install k s).2
| ss_stop s : shell_step s (stop_hub s).2
| ss_restart s : shell_step s (restart_take s)
| ss_timeout l tx run r s : sh_restarting s = l ++ (tx, run) :: r -> task_over run s = false ->
    shell_step s (restart_timeout tx (l ++ r) s).2
| ss_waited l tx run r s : sh_restarting s = l ++ (tx, run) :: r -> task_over run s = true ->
    shell_step s (set_pending (sh_starting s) (l ++ r) s)
| ss_close s : shell_step s (close_window s)
| ss_request a s : shell_step s (set_requested_addr a s)
| ss_report_addr k t a s : sh_tasks s !! k = Some t -> tk_serve t = Serving -> tk_addr_sent t = None ->
    shell_step s (on_task k (set_sent (Some a) false) s)
| ss_report_state k t s : sh_tasks s !! k = Some t -> tk_serve t = Serving -> is_Some (tk_addr_sent t) ->
    shell_step s (on_task k (set_sent (tk_addr_sent t) true) s)
| ss_return k t s : sh_tasks s !! k = Some t -> tk_serve t = Serving -> shell_step s (on_task k (set_serve Returned) s)
| ss_teardown k t s : sh_tasks s !! k = Some t -> shell_step s (teardown k t s)
| ss_bind k t s : sh_tasks s !! k = Some t -> shell_step s (bind_progress k t s)
| ss_receivers k t s : sh_tasks s !! k = Some t -> tk_serve t <> Serving -> shell_step s (on_task k set_gone s).

(** [setup]: the controller is there and the first hub, with number 0, is spawned; its
    sender is about to be installed. *)
Definition shell_setup (addr : string) : Shell :=
  let s := {| sh_slot := None; sh_bind_handle := None; sh_run_handle := None; sh_requested := addr;
              sh_listening := None; sh_hub_state := None; sh_tasks := ∅; sh_next := 0; sh_starting := ∅;
              sh_restarting := [] |} in
  (start_claim s).2.

(** ** What holds in every run *)

(** Every hub that serves can still be reached: it was told to stop, its sender is in the
    slot, or the command that spawned it is about to put it there. *)
Record shell_inv (s : Shell) : Prop := {
  si_receivers : forall k t, sh_tasks s !! k = Some t -> tk_serve t = Serving -> tk_receivers t = true;
  si_reached : forall k t, sh_tasks s !! k = Some t -> tk_serve t = Serving ->
    tk_told t = true \/ sh_slot s = Some k \/ k ∈ sh_starting s;
  si_fresh : forall k, is_Some (sh_tasks s !! k) -> k < sh_next s;
}.

(** Changes of a task that neither revive it nor take back that it was told. *)
Definition winding (f : Task -> Task) : Prop := forall t, tk_serve (f t) = Serving ->
  tk_serve t = Serving /\ tk_receivers (f t) = tk_receivers t /\ (tk_told t = true -> tk_told (f t) = true).

Lemma winding_told : winding set_told.
Proof. by intros t. Qed.
Lemma winding_serve x : x <> Serving -> winding (set_serve x).
Proof. intros Hx t Ht. by destruct Hx. Qed.
Lemma winding_bind x : winding (set_bind x).
Proof. by intros t. Qed.
Lemma winding_sent a b : winding (set_sent a b).
Proof. by intros t. Qed.
Lemma winding_abort_serve : winding abort_serve.
Proof. intros t. unfold abort_serve. by case_decide as E; [rewrite E|]. Qed.
Lemma winding_abort_bind : winding abort_bind.
Proof. intros t. unfold abort_bind. by case_decide. Qed.
Lemma winding_compose f g : winding f -> winding g -> winding (fun t => f (g t)).
Proof. intros Hf Hg t (H1 & H2 & H3)%Hf. destruct (Hg t H1) as (G1 & G2 & G3). split; [done|]. split; [congruence|auto]. Qed.

Create HintDb winding.
#[export] Hint Resolve winding_told winding_serve winding_bind winding_sent winding_abort_serve winding_abort_bind
  winding_compose : winding.

Lemma inv_on_task k f s : winding f -> shell_inv s -> shell_inv (on_task k f s).
Proof.
  intros Hf [H1 H2 H3].
  assert (Hl : forall j t, sh_tasks (on_task k f s) !! j = Some t -> tk_serve t = Serving ->
    exists t0, sh_tasks s !! j = Some t0 /\ tk_serve t0 = Serving /\ tk_receivers t = tk_receivers t0 /\
               (tk_told t0 = true -> tk_told t = true)).
  { intros j t. cbn. destruct (decide (k = j)) as [<-|Hne].
    - rewrite lookup_alter_eq. intros (t0 & Ht0 & ->)%fmap_Some (S1 & S2 & S3)%Hf. by exists t0.
    - rewrite lookup_alter_ne by done. by exists t. }
  split.
  - intros j t Ht Hs. destruct (Hl j t Ht Hs) as (t0 & E & S0 & -> & _). by eapply H1.
  - intros j t Ht Hs. destruct (Hl j t Ht Hs) as (t0 & E & S0 & _ & T). destruct (H2 j t0 E S0) as [?|[?|?]]; auto.
  - intros j. cbn. rewrite lookup_alter_is_Some. apply H3.
Qed.

Lemma inv_on_opt o f s : winding f -> shell_inv s -> shell_inv (on_opt o f s).
Proof. destruct o; [apply inv_on_task|done]. Qed.

(** Taking the sender out of the slot and using or dropping it. *)
Lemma inv_take_slot s : shell_inv s -> shell_inv (on_opt (sh_slot s) set_told (set_slot None s)).
Proof.
  intros [H1 H2 H3]. destruct (sh_slot s) as [k|] eqn:E; cbn [on_opt].
  - split; cbn.
    + intros j t. destruct (decide (k = j)) as [<-|Hne]; [|rewrite lookup_alter_ne by done; apply H1].
      rewrite lookup_alter_eq. intros (t0 & Ht0 & ->)%fmap_Some Hs. by apply (H1 k t0).
    + intros j t. destruct (decide (k = j)) as [<-|Hne].
      * rewrite lookup_alter_eq. intros (t0 & Ht0 & ->)%fmap_Some Hs. by left.
      * rewrite lookup_alter_ne by done. intros Ht Hs. destruct (H2 j t Ht Hs) as [?|[?|?]]; first [congruence|auto].
    + intros j. rewrite lookup_alter_is_Some. apply H3.
  - split; [done| |done]. intros j t Ht Hs. cbn. destruct (H2 j t Ht Hs) as [?|[?|?]]; first [congruence|auto].
Qed.

(** A slot that is empty or stale can be overwritten. *)
Lemma inv_overwrite s x : shell_inv s -> open_slot s = false -> shell_inv (set_slot x s).
Proof.
  intros [H1 H2 H3] Ho. split; [done| |done]. intros k t Ht Hs. cbn in *.
  destruct (H2 k t Ht Hs) as [?|[E|?]]; auto. unfold open_slot, is_closed in Ho.
  rewrite E, Ht, (H1 k t Ht Hs) in Ho. done.
Qed.

Lemma inv_views l h s : shell_inv s -> shell_inv (set_views l h s).
Proof. by intros []. Qed.
Lemma inv_handles a b s : shell_inv s -> shell_inv (set_handles a b s).
Proof. by intros []. Qed.

#[export] Hint Resolve inv_on_task inv_on_opt inv_take_slot inv_overwrite inv_views inv_handles : winding.

Lemma start_claim_inv s : shell_inv s -> shell_inv (start_claim s).2.
Proof.
  intros Hs. unfold start_claim. destruct (open_slot s) eqn:Eo; [done|].
  destruct (inv_overwrite s None Hs Eo) as [H1 H2 H3]. cbn in *. split; cbn.
  - intros k t. rewrite lookup_insert. case_decide; [by intros [= <-]|apply H1].
  - intros k t. rewrite lookup_insert. case_decide; [subst; set_solver|].
    intros Ht Hst. destruct (H2 k t Ht Hst) as [?|[?|?]]; auto. set_solver.
  - intros k. rewrite lookup_insert. case_decide; [lia|]. intros Hk. specialize (H3 k Hk). lia.
Qed.

Lemma install_inv k s : shell_inv s -> shell_inv (start_install k s).2.
Proof.
  intros [H1 H2 H3]. unfold start_install. set (s1 := set_pending _ _ s).
  destruct (open_slot s1) eqn:Eo; cbn [snd].
  - split; cbn.
    + intros j t. destruct (decide (k = j)) as [<-|Hne]; [|rewrite lookup_alter_ne by done; apply H1].
      rewrite lookup_alter_eq. intros (t0 & Ht0 & ->)%fmap_Some Hs. apply winding_abort_serve in Hs as (Hs & Hr & _).
      cbn in *. apply winding_abort_bind in Hs as (Hs & Hr' & _). rewrite Hr, Hr'. by eapply H1.
    + intros j t. destruct (decide (k = j)) as [<-|Hne].
      * rewrite lookup_alter_eq. intros (t0 & Ht0 & ->)%fmap_Some Hs. by left.
      * rewrite lookup_alter_ne by done. intros Ht Hs. destruct (H2 j t Ht Hs) as [?|[?|?]]; auto. set_solver.
    + intros j. rewrite lookup_alter_is_Some. apply H3.
  - split; cbn; [done| |done]. intros j t Ht Hs. destruct (decide (k = j)) as [<-|Hne]; [auto|].
    destruct (H2 j t Ht Hs) as [?|[E|?]]; auto; [|set_solver].
    unfold open_slot, is_closed in Eo. cbn in Eo. rewrite E, Ht, (H1 j t Ht Hs) in Eo. done.
Qed.

Lemma setup_install_inv s : shell_inv s -> shell_inv (setup_install s).
Proof.
  intros [H1 H2 H3]%inv_take_slot. unfold setup_install. set (s1 := set_pending _ _ s).
  assert (E : sh_tasks (on_opt (sh_slot s1) set_told s1) = sh_tasks (on_opt (sh_slot s) set_told (set_slot None s)))
    by (unfold s1; cbn; by destruct (sh_slot s)).
  split; cbn [sh_tasks sh_slot sh_starting sh_next set_handles set_slot]; rewrite ?E.
  - exact H1.
  - intros k t Ht Hs. destruct (decide (k = 0)) as [->|Hne]; [auto|].
    destruct (H2 k t Ht Hs) as [?|[Hk|Hk]]; [auto|by destruct (sh_slot s)|].
    right. right. revert Hk. unfold s1. cbn. destruct (sh_slot s); cbn; intros Hk; apply elem_of_difference;
      (split; [done|by rewrite elem_of_singleton]).
  - intros k Hk. specialize (H3 k Hk). revert H3. unfold s1. cbn. by destruct (sh_slot s).
Qed.

Lemma shell_step_inv s s' : shell_step s s' -> shell_inv s -> shell_inv s'.
Proof.
  intros Hstep Hs. destruct Hstep.
  - by apply start_claim_inv.
  - by apply setup_install_inv.
  - by apply install_inv.
  - unfold stop_hub. destruct (sh_slot s) as [k|] eqn:E; cbn [snd]; [|done].
    pose proof (inv_take_slot s Hs) as H. by rewrite E in H.
  - unfold restart_take. assert (H : shell_inv (on_opt (sh_slot s) set_told (set_handles (sh_bind_handle s) None (set_slot None s)))).
    { apply (inv_handles (sh_bind_handle s) None) in Hs. by apply inv_take_slot in Hs. }
    by destruct H.
  - unfold restart_timeout. cbn. destruct (sh_slot s) eqn:E; [by destruct Hs|].
    apply (inv_overwrite _ tx); [by destruct Hs|]. unfold open_slot. cbn. by rewrite E.
  - by destruct Hs.
  - unfold close_window. auto 10 with winding.
  - by destruct Hs.
  - auto with winding.
  - auto with winding.
  - auto with winding.
  - unfold teardown. destruct (tk_serve t); auto 10 with winding.
  - unfold bind_progress. destruct (tk_bind t); [destruct (tk_state_sent t)|destruct (tk_addr_sent t)|..];
      try destruct (ended t); auto 10 with winding.
  - destruct Hs as [H1 H2 H3]. split; cbn.
    + intros j u. destruct (decide (k = j)) as [<-|Hne]; [|rewrite lookup_alter_ne by done; apply H1].
      rewrite lookup_alter_eq, H. by intros [= <-].
    + intros j u. destruct (decide (k = j)) as [<-|Hne]; [|rewrite lookup_alter_ne by done; apply H2].
      rewrite lookup_alter_eq, H. by intros [= <-].
    + intros j. rewrite lookup_alter_is_Some. apply H3.
Qed.

Lemma setup_inv addr : shell_inv (shell_setup addr).
Proof. apply start_claim_inv. split; cbn; intros k; rewrite lookup_empty; [done..|by intros []]. Qed.

Lemma shell_run_inv addr s : rtc shell_step (shell_setup addr) s -> shell_inv s.
Proof.
  intros Hr. pose proof (setup_inv addr) as Hi. induction Hr as [|x y z Hxy _ IH]; [done|].
  apply IH. by eapply shell_step_inv.
Qed.

(** (C30) At most one hub is meant to run: in every run of commands and tasks, of the hubs that
    serve, were not told to stop, and whose start is over, there is at most one, and its
    sender is in the slot; so [stop_hub] leaves none. *)
Theorem one_hub_at_a_time (addr : string) (s : Shell) (j k : nat) (tj tk : Task)
    (Hrun : rtc shell_step (shell_setup addr) s)
    (Hj : sh_tasks s !! j = Some tj /\ tk_serve tj = Serving /\ tk_told tj = false /\ j ∉ sh_starting s)
    (Hk : sh_tasks s !! k = Some tk /\ tk_serve tk = Serving /\ tk_told tk = false /\ k ∉ sh_starting s) :
  j = k /\ sh_slot s = Some j /\ (stop_hub s).1 = Ok tt /\
  exists t, sh_tasks (stop_hub s).2 !! j = Some t /\ tk_told t = true.
Proof.
  pose proof (shell_run_inv _ _ Hrun) as [H1 H2 _].
  assert (Hslot : forall i t, sh_tasks s !! i = Some t /\ tk_serve t = Serving /\ tk_told t = false /\ i ∉ sh_starting s ->
            sh_slot s = Some i).
  { intros i t (Ht & Hs & Hn & Hns). destruct (H2 i t Ht Hs) as [?|[?|?]]; [congruence|done|done]. }
  pose proof (Hslot _ _ Hj) as Ej. pose proof (Hslot _ _ Hk) as Ek. split; [congruence|]. split; [done|].
  destruct Hj as (Hj & Hs & _). unfold stop_hub, is_closed. rewrite Ej, Hj, (H1 j tj Hj Hs). split; [done|].
  exists (set_told tj). split; [|done]. cbn. by rewrite lookup_alter_eq, Hj.
Qed.

(** ** Two races *)

Ltac shell_fact := first [vm_compute; reflexivity | vm_compute; by eexists
                         | apply (bool_decide_unpack _); vm_compute; exact I].
Tactic Notation "step_by" uconstr(c) := eapply rtc_l; [eapply c; shell_fact|].

(** The teardown takes whatever sender is in the slot. After a stop and a start in quick
    succession, the first hub's teardown takes the second one's: the new hub is told to
    stop, and the views of it are erased. *)
Lemma teardown_takes_new_sender : exists s t, rtc shell_step (shell_setup "127.0.0.1:8765") s /\
  sh_tasks s !! 1%nat = Some t /\ tk_serve t = Serving /\ tk_told t = true /\ sh_slot s = None /\
  sh_listening s = None /\ sh_hub_state s = None.
Proof.
  eexists _, _. split.
  - step_by ss_setup. step_by ss_stop. step_by (ss_return 0). step_by ss_claim. step_by (ss_install 1).
    step_by (ss_report_addr 1 _ "127.0.0.1:8765"). step_by (ss_report_state 1). step_by (ss_bind 1). step_by (ss_bind 1).
    step_by (ss_teardown 0). step_by (ss_teardown 0). step_by (ss_teardown 0). apply rtc_refl.
  - split; [vm_compute; reflexivity|]. repeat split; vm_compute; reflexivity.
Qed.

(** A hub that binds its socket and then fails sends the address but not its state. The
    bind listener, which waits for the state first, can store the address after the
    teardown has cleared it: the shell shows an address although no hub runs. *)
Lemma address_of_dead_hub : exists s t, rtc shell_step (shell_setup "127.0.0.1:8765") s /\
  sh_listening s = Some "127.0.0.1:8765" /\ sh_slot s = None /\
  sh_tasks s = {[0%nat := t]} /\ tk_serve t = Finished /\ tk_bind t = BindDone.
Proof.
  eexists _, (set_sent (Some "127.0.0.1:8765") false (set_told (set_serve Finished (set_bind BindDone Task_new)))). split.
  - step_by ss_setup. step_by (ss_report_addr 0 _ "127.0.0.1:8765"). step_by (ss_return 0).
    step_by (ss_teardown 0). step_by (ss_teardown 0). step_by (ss_teardown 0).
    step_by (ss_bind 0). step_by (ss_bind 0). apply rtc_refl.
  - repeat split; vm_compute; reflexivity.
Qed.

Lemma one_hub_at_a_time_witness : exists s t, rtc shell_step (shell_setup "127.0.0.1:8765") s /\
  sh_tasks s !! 0%nat = Some t /\ sh_slot s = Some 0%nat.
Proof.
  assert (Hrun : rtc shell_step (shell_setup "127.0.0.1:8765") (setup_install (shell_setup "127.0.0.1:8765"))).
  { step_by ss_setup. apply rtc_refl. }
  eexists _, Task_new. split; [exact Hrun|]. split; [reflexivity|].
  assert (Hs : 0%nat ∉ sh_starting (setup_install (shell_setup "127.0.0.1:8765")))
    by (cbn; set_solver).
  destruct (one_hub_at_a_time "127.0.0.1:8765" _ 0 0 Task_new Task_new Hrun) as (_ & E & _);
    [repeat split; done..|exact E].
Defined.
