(* ===== verification/Bridge.v ===== *)
(** * The desktop shell's bridge: its configuration file and its task
    ([desktop/ilink-hub-desktop/src-tauri/src/bridge_profiles.rs], [lib.rs], [main.rs])

    The single configuration file of the wizard, the controller that starts, stops and
    restarts the bridge manager, the trial of a profile, and what a launch does before the
    shell runs. The manager belongs to the bridge crate: what the controller asks of it is
    a log. *)
From S2P Require Import Prelude StrLemmas Desktop.
From Stdlib Require Import Ascii.
Import Str ListenAddr Profiles ProfileFiles.
Local Open Scope hub_scope.

(** ** The configuration file *)
Module BridgeConfig.

Record DesktopBridgeProfileView := {
  pv_name : string;
  pv_cwd : option string;
  pv_timeout_secs : Z;
  pv_max_reply_chars : Z;
  pv_model : option string;
}.

Record BridgeConfigPayload := {
  bp_exists : bool;
  bp_path : string;
  bp_valid : bool;
  bp_error : option string;
  bp_yaml : string;
  bp_profiles : list string;
  bp_default_profile : option string;
  bp_routing : option string;
  bp_claude_profile : option DesktopBridgeProfileView;
}.

Definition no_config (path : string) (error : option string) : BridgeConfigPayload :=
  {| bp_exists := false; bp_path := path; bp_valid := false; bp_error := error; bp_yaml := ""; bp_profiles := [];
     bp_default_profile := None; bp_routing := None; bp_claude_profile := None |}.

(** The file, as a read finds it. *)
Inductive ConfigFile := Missing | Unreadable (e : string) | Text (yaml : string).

(** What writing it can fail at. *)
Record WriteFaults := { wf_dir : option string; wf_write : option string }.

Section Config.
Context {App Profile : Type} `{BridgeLib App Profile} (path : string).

Definition claude_view (app : App) : option DesktopBridgeProfileView :=
  default_profile_of app ≫= (fun p =>
    if is_claude p || (p_command p =? "claude")%string then
      Some {| pv_name := default_profile_name app; pv_cwd := p_cwd p; pv_timeout_secs := p_timeout_secs p;
              pv_max_reply_chars := p_max_reply_chars p; pv_model := p_env p !! "CLAUDE_MODEL" |}
    else None).

Definition summarize_bridge_config (yaml : string) (exists_ : bool) : BridgeConfigPayload :=
  match parse_yaml yaml "bridge" with
  | Ok app =>
      {| bp_exists := exists_; bp_path := path; bp_valid := true; bp_error := None; bp_yaml := yaml;
         bp_profiles := profile_names app; bp_default_profile := Some (default_profile_name app);
         bp_routing := Some (routing_label app); bp_claude_profile := claude_view app |}
  | Err e =>
      {| bp_exists := exists_; bp_path := path; bp_valid := false; bp_error := Some e; bp_yaml := yaml;
         bp_profiles := []; bp_default_profile := None; bp_routing := None; bp_claude_profile := None |}
  end.

(** [initialized]: the bridge controller exists. *)
Definition bridge_config (initialized : bool) (file : ConfigFile) : BridgeConfigPayload :=
  if negb initialized then no_config "" (Some "Bridge 未初始化") else
  match file with
  | Text yaml => summarize_bridge_config yaml true
  | Missing => no_config path None
  | Unreadable e => no_config path (Some ("读取配置失败: " +:+ e))
  end.

Definition write_config (f : WriteFaults) (yaml : string) (file : ConfigFile)
    : result BridgeConfigPayload string * ConfigFile :=
  match wf_dir f with
  | Some e => (Err ("创建配置目录失败: " +:+ e), file)
  | None =>
      match wf_write f with
      | Some e => (Err ("保存配置失败: " +:+ e), file)
      | None => (Ok (summarize_bridge_config yaml true), Text yaml)
      end
  end.

Definition bridge_save_yaml (initialized : bool) (f : WriteFaults) (yaml : string) (file : ConfigFile)
    : result BridgeConfigPayload string * ConfigFile :=
  if negb initialized then (Err "Bridge 未初始化", file) else
  match parse_yaml yaml "bridge" with
  | Err e => (Err e, file)
  | Ok _ => write_config f yaml file
  end.

Definition bridge_save_claude_profile (initialized : bool) (f : WriteFaults) (cwd : string)
    (env_vars : option (list EnvVar)) (file : ConfigFile) : result BridgeConfigPayload string * ConfigFile :=
  if negb initialized then (Err "Bridge 未初始化", file) else
  match build_claude_profile_yaml cwd (unwrap_or env_vars []) with
  | Err e => (Err e, file)
  | Ok yaml =>
      match parse_yaml yaml "bridge" with
      | Err e => (Err e, file)
      | Ok _ => write_config f yaml file
      end
  end.

Lemma write_config_spec f yaml file out file' app :
  parse_yaml yaml "bridge" = Ok app -> write_config f yaml file = (out, file') ->
  match out with
  | Ok p => file' = Text yaml /\ bp_valid p = true /\ bridge_config true file' = p
  | Err _ => file' = file
  end.
Proof.
  intros Hp. unfold write_config. destruct (wf_dir f); [by intros [= <- <-]|].
  destruct (wf_write f); intros [= <- <-]; [done|]. split; [done|].
  split; [|done]. unfold summarize_bridge_config. by rewrite Hp.
Qed.

(** A saved configuration is one the bridge accepts, and what the command answers is what
    a later read shows; a refused one leaves the file as it was. *)
Theorem saved_config_valid (initialized : bool) (f : WriteFaults) (yaml cwd : string) (env : option (list EnvVar))
    (file file' : ConfigFile) (out : result BridgeConfigPayload string)
    (Hsave : bridge_save_yaml initialized f yaml file = (out, file') \/
             bridge_save_claude_profile initialized f cwd env file = (out, file')) :
  match out with
  | Ok p => exists y, file' = Text y /\ bp_valid p = true /\ bridge_config true file' = p
  | Err _ => file' = file
  end.
Proof.
  unfold bridge_save_yaml, bridge_save_claude_profile in Hsave.
  destruct initialized; cbn [negb] in Hsave; [|by destruct Hsave as [[= <- <-]|[= <- <-]]].
  assert (Hw : forall y app, parse_yaml y "bridge" = Ok app -> write_config f y file = (out, file') ->
    match out with Ok p => exists y, file' = Text y /\ bp_valid p = true /\ bridge_config true file' = p
              | Err _ => file' = file end).
  { intros y app Hy Hf. pose proof (write_config_spec _ _ _ _ _ _ Hy Hf). destruct out; [by exists y|done]. }
  destruct Hsave as [Hsave|Hsave].
  - destruct (parse_yaml yaml "bridge") eqn:E; [by eapply Hw|by injection Hsave as <- <-].
  - destruct (build_claude_profile_yaml _ _) as [y|]; [|by injection Hsave as <- <-].
    destruct (parse_yaml y "bridge") eqn:E; [by eapply Hw|by injection Hsave as <- <-].
Qed.
End Config.
End BridgeConfig.

(** ** The bridge task *)
Module BridgeTask.

Record BridgeRuntime := { br_state : string; br_error : option string }.

(** What the controller asks of the bridge crate and of its own task. *)
Inductive Action := SpawnManager (k : nat) (hub_url : string) | StopManager (k : nat) | AbortTask (k : nat).

Record BridgeController := {
  bc_task : option nat;
  bc_manager : option nat;
  bc_runtime : BridgeRuntime;
  bc_next : nat;
  bc_log : list Action;
}.

Definition BridgeController_new : BridgeController :=
  {| bc_task := None; bc_manager := None; bc_runtime := {| br_state := "stopped"; br_error := None |};
     bc_next := 0; bc_log := [] |}.

Definition set_bridge_runtime (state : string) (error : option string) (c : BridgeController) : BridgeController :=
  {| bc_task := bc_task c; bc_manager := bc_manager c; bc_runtime := {| br_state := state; br_error := error |};
     bc_next := bc_next c; bc_log := bc_log c |}.

Definition log (l : list Action) (c : BridgeController) : BridgeController :=
  {| bc_task := bc_task c; bc_manager := bc_manager c; bc_runtime := bc_runtime c; bc_next := bc_next c;
     bc_log := bc_log c ++ l |}.

Definition set_refs (t m : option nat) (n : nat) (c : BridgeController) : BridgeController :=
  {| bc_task := t; bc_manager := m; bc_runtime := bc_runtime c; bc_next := n; bc_log := bc_log c |}.

Definition active_state (s : string) : bool := (s =? "starting")%string || (s =? "running")%string.

(** [start_bridge_task]; [listening] is the hub's address, once it has one. *)
Definition start_bridge_task (listening : option string) (c : BridgeController) : result unit string * BridgeController :=
  match listening with
  | None => (Err "Hub 尚未就绪，请稍候再启动 Bridge", c)
  | Some listen =>
      let hub_url := trim_end_matches "/"%char (loopback_hub_origin listen) in
      if bool_decide (is_Some (bc_task c)) && active_state (br_state (bc_runtime c))
      then (Ok tt, set_bridge_runtime "running" None c)
      else
        let c := match bc_task c with Some k => log [AbortTask k] c | None => c end in
        let k := bc_next c in
        (Ok tt, set_refs (Some k) (Some k) (S k) (log [SpawnManager k hub_url] (set_bridge_runtime "starting" None c)))
  end.

(** The spawned task: it reports that it runs, waits for the manager, and reports how that
    ended. *)
Definition wrapper_runs (c : BridgeController) : BridgeController := set_bridge_runtime "running" None c.
Definition wrapper_ends (r : result unit string) (c : BridgeController) : BridgeController :=
  match r with
  | Ok _ => set_bridge_runtime "stopped" None c
  | Err e => set_bridge_runtime "error" (Some e) c
  end.

Definition stop_manager (c : BridgeController) : BridgeController :=
  match bc_manager c with
  | Some k => log [StopManager k] (set_refs (bc_task c) None (bc_next c) c)
  | None => c
  end.

Definition bridge_stop (c : BridgeController) : BridgeController :=
  let c := stop_manager c in
  let c := match bc_task c with
           | Some k => log [AbortTask k] (set_refs None (bc_manager c) (bc_next c) c)
           | None => c
           end in
  set_bridge_runtime "stopped" None c.

(** What closing the window and leaving the application do to the bridge: as a stop, but
    nothing is reported. *)
Definition bridge_close (c : BridgeController) : BridgeController :=
  let c := stop_manager c in
  match bc_task c with
  | Some k => log [AbortTask k] (set_refs None (bc_manager c) (bc_next c) c)
  | None => c
  end.

(** [bridge_restart] before its wait: the manager is told to stop, the task is taken but
    not aborted. What follows the wait, whether the task ended or not, is a start. *)
Definition bridge_restart_take (c : BridgeController) : BridgeController :=
  let c := stop_manager c in set_refs None (bc_manager c) (bc_next c) c.

(** [bs_manager]: the manager whose own status is shown. *)
Record BridgeStatusPayload := {
  bs_configured : bool;
  bs_path : string;
  bs_state : string;
  bs_running : bool;
  bs_error : option string;
  bs_manager : option nat;
}.

Definition bridge_status (profiles : Dir) (path : string) (c : BridgeController) : BridgeStatusPayload :=
  let s := br_state (bc_runtime c) in
  let running := bool_decide (is_Some (bc_task c)) && active_state s in
  {| bs_configured := bool_decide (is_Some profiles); bs_path := path;
     bs_state := if negb running && (s =? "running")%string then "stopped" else s; bs_running := running;
     bs_error := br_error (bc_runtime c); bs_manager := bc_manager c |}.

(** Starting is idempotent: a start that succeeds leaves a bridge that is shown as running
    with one manager spawned at most, for the hub's loopback origin, and starting again
    before it ends spawns nothing; a stop asks that manager to stop and shows it stopped. *)
Theorem bridge_start_once (d : Dir) (path listen : string) (c c' : BridgeController) :
  start_bridge_task (Some listen) c = (Ok tt, c') ->
  bs_running (bridge_status d path c') = true /\
  (bc_log c' = bc_log c \/
   exists l, bc_log c' = bc_log c ++ l ++ [SpawnManager (bc_next c) (trim_end_matches "/"%char (loopback_hub_origin listen))] /\
     bc_manager c' = Some (bc_next c) /\ bc_task c' = Some (bc_next c)) /\
  bc_log (start_bridge_task (Some listen) (wrapper_runs c')).2 = bc_log c' /\
  bs_running (bridge_status d path (bridge_stop c')) = false /\ bs_state (bridge_status d path (bridge_stop c')) = "stopped" /\
  (forall k, bc_manager c' = Some k -> StopManager k ∈ bc_log (bridge_stop c')).
Proof.
  unfold start_bridge_task. destruct (bool_decide (is_Some (bc_task c)) && active_state (br_state (bc_runtime c))) eqn:E.
  - intros [= <-]. apply andb_true_iff in E as [Ht _]. unfold bridge_status, bridge_stop, stop_manager. cbn.
    rewrite Ht. split; [done|]. split; [by left|]. split; [done|].
    destruct (bc_manager c) as [m|]; cbn; destruct (bc_task c); cbn; (split; [done|]; split; [done|]); intros k [= <-]; set_solver.
  - intros [= <-]. destruct (bc_task c) as [k|]; cbn.
    all: split; [done|]; split; [right|split; [done|split; [done|split; [done|intros j [= <-]; set_solver]]]].
    + exists [AbortTask k]. by rewrite <- app_assoc.
    + by exists [].
Qed.

Lemma bridge_start_once_witness :
  let c := (start_bridge_task (Some "0.0.0.0:8765") BridgeController_new).2 in
  bs_running (bridge_status None "" c) = true /\ bc_log c = [SpawnManager 0 "http://127.0.0.1:8765"].
Proof.
  intros c. destruct (bridge_start_once None "" "0.0.0.0:8765" BridgeController_new c) as (H & _); [reflexivity|].
  split; [exact H|vm_compute; reflexivity].
Defined.

(** When the wait of a restart ends before the old task does, that task reports the end of
    the old manager over the new one's state; the next start then spawns a third manager
    and replaces the handle of the second, which was never told to stop. *)
Lemma late_report_spawns_again :
  let start c := (start_bridge_task (Some "127.0.0.1:1") c).2 in
  let restarted := wrapper_runs (start (bridge_restart_take (wrapper_runs (start BridgeController_new)))) in
  let c := start (wrapper_ends (Ok tt) restarted) in
  bc_log c = [SpawnManager 0 "http://127.0.0.1:1"; StopManager 0; SpawnManager 1 "http://127.0.0.1:1"; AbortTask 1;
              SpawnManager 2 "http://127.0.0.1:1"].
Proof. vm_compute. reflexivity. Qed.
End BridgeTask.

(** ** Trying a profile *)
Module Probe.

Record ProbeResult := {
  pr_success : bool;
  pr_error_type : option string;
  pr_error_message : option string;
  pr_stdout : option string;
  pr_stderr : option string;
}.

(** The bridge crate's probe error: its two texts, and the detail that an unauthenticated
    agent or a failed execution carries. *)
Record ProbeError := { pe_type : string; pe_text : string; pe_detail : option string }.

Section Test.
Context {App Profile : Type} `{BridgeLib App Profile}.
Context (load : string -> result App string) (dry_run_profile : Profile -> string -> result string ProbeError).

(** The message of the request is not used. *)
Definition bridge_test_profile (initialized : bool) (d : Dir) (id _message : string) : result ProbeResult string :=
  if negb initialized then Err "Bridge 未初始化" else
  try found := existing_profile_path d id in
  match found with
  | None => Err ("未找到 profile `" +:+ id +:+ "`")
  | Some config_path =>
      match load config_path with
      | Err e => Err ("加载配置失败: " +:+ e)
      | Ok app_cfg =>
          let profile_name := default_profile_name app_cfg in
          match profile app_cfg profile_name with
          | None => Err ("配置中未找到默认 profile `" +:+ profile_name +:+ "`")
          | Some p =>
              Ok (match dry_run_profile p "ping" with
                  | Ok out => {| pr_success := true; pr_error_type := None; pr_error_message := None;
                                 pr_stdout := Some out; pr_stderr := None |}
                  | Err e => {| pr_success := false; pr_error_type := Some (pe_type e); pr_error_message := Some (pe_text e);
                                pr_stdout := None; pr_stderr := pe_detail e |}
                  end)
          end
      end
  end.
End Test.
End Probe.

(** ** Launch ([lib.rs], [main.rs]) *)
Module Launch.

(** The arguments with which the application runs a built-in profile instead of the shell. *)
Definition builtin_profile_type_from_args (args : list string) : option string :=
  match args with
  | [cmd; profile_type] => if (cmd =? "profile")%string then Some profile_type else None
  | _ => None
  end.

(** Faults of copying: the directory cannot be made or listed; a file is not copied, and
    what is left of it at the target. *)
Record CopyFaults := { cf_create : bool; cf_read : bool; cf_copy : gmap string (option string) }.

Definition no_faults : CopyFaults := {| cf_create := false; cf_read := false; cf_copy := ∅ |}.

Definition copied (f : CopyFaults) (ext : string) (n content : string) : option string :=
  if bool_decide (extension n = Some ext) then match cf_copy f !! n with None => Some content | Some left_ => left_ end
  else None.

Definition copy_dir_ext (f : CopyFaults) (src dst : Dir) (ext : string) : Dir :=
  match src with
  | None => dst
  | Some files =>
      if cf_create f then dst else
      if cf_read f then Some (files_of dst) else
      Some (map_imap (copied f ext) files ∪ files_of dst)
  end.

(** The faults of the three copies. *)
Definition migrate_bridge_dir_once (f1 f2 f3 : CopyFaults) (old_profiles old_creds new_profiles new_creds : Dir)
    : Dir * Dir :=
  match new_profiles with
  | Some _ => (new_profiles, new_creds)
  | None =>
      (copy_dir_ext f2 old_profiles (copy_dir_ext f1 old_profiles new_profiles "yaml") "yml",
       copy_dir_ext f3 old_creds new_creds "json")
  end.

Lemma copied_lookup files ext n :
  map_imap (copied no_faults ext) files !! n = if bool_decide (extension n = Some ext) then files !! n else None.
Proof.
  rewrite map_lookup_imap. unfold copied. cbn. destruct (files !! n) as [c|]; cbn; [|by case_bool_decide].
  by rewrite lookup_empty.
Qed.

(** The migration happens once and is complete: on a first launch without faults the new
    profiles are exactly the old files with the two extensions, unchanged; a second launch,
    whatever fails in it, changes nothing of them; and a directory that exists is never
    touched. *)
Theorem migration_once (old_profiles : gmap string string) (old_creds new_creds : Dir) (f1 f2 f3 : CopyFaults) :
  let r := migrate_bridge_dir_once no_faults no_faults no_faults (Some old_profiles) old_creds None new_creds in
  (forall n, files_of r.1 !! n =
     if bool_decide (extension n = Some "yaml" \/ extension n = Some "yml") then old_profiles !! n else None) /\
  migrate_bridge_dir_once f1 f2 f3 (Some old_profiles) old_creds r.1 r.2 = r.
Proof.
  cbn. split; [|done]. intros n. rewrite !lookup_union, !copied_lookup, lookup_empty.
  destruct (decide (extension n = Some "yaml")) as [E|E].
  - rewrite (bool_decide_eq_false_2 (extension n = Some "yml")) by congruence.
    rewrite !bool_decide_eq_true_2 by auto. by destruct (old_profiles !! n).
  - rewrite (bool_decide_eq_false_2 _ E). destruct (decide (extension n = Some "yml")) as [E'|E'].
    + rewrite !bool_decide_eq_true_2 by auto. by destruct (old_profiles !! n).
    + rewrite !bool_decide_eq_false_2 by tauto. done.
Qed.

(** The listing takes an extension in any case, the lookup by identifier and the migration
    only in lower case: such a profile is shown, deleting it reports success and does
    nothing, and it is not migrated. *)
Lemma upper_case_extension {App Profile} `{BridgeLib App Profile} :
  let d := Some {[ "work.YAML" := "a" ]} in
  f_id <$> (bridge_profiles None ∅ d).1 = ["work"] /\
  bridge_delete_profile {| df_dir := None; df_remove := None; df_write := None |} "work" d = (Ok tt, d) /\
  (migrate_bridge_dir_once no_faults no_faults no_faults d None None None).1 = Some ∅.
Proof.
  split; [|split; reflexivity]. unfold bridge_profiles. rewrite map_to_list_singleton.
  change (omap (list_entry ∅) [("work.YAML", "a")]) with [summarize_bridge_profile_file "work" "work.YAML" "a"].
  cbn. unfold summarize_bridge_profile_file. by destruct (parse_yaml "a" "work").
Qed.
End Launch.
