(* ===== verification/UpstreamHttp.v ===== *)
(** * Requests to the messaging service ([src/src/ilink/upstream.rs], [src/src/error.rs])

    The HTTP side of the upstream client: the headers of a request, the six calls, and the
    errors they return on their way into the hub. The service is an argument: what it
    answers to a request, if anything. The HTTP library's check of header values and its
    error texts, base64 and the JSON codecs are parameters. *)
From S2P Require Import Prelude StrLemmas Types Queue Pairing Hub Login Upstream.
Import Str.
Local Open Scope hub_scope.

Definition ILINK_APP_CLIENT_VERSION : Z := pack_client_version 2 4 6.

(** ** Errors *)

(** [reqwest::Error]: the status it carries, if any, and its text. *)
Record ReqwestError := { re_status : option Z; re_text : string }.

(** [anyhow::Error]: what it was made from. *)
Inductive AnyError :=
| AnyHub (e : HubError)
| AnySqlx (text : string)
| AnyOther (text : string).

Definition upstream_http_err (e : ReqwestError) : AnyError :=
  AnyHub (UpstreamHttp (unwrap_or (re_status e) 0%Z) (re_text e)).

Definition upstream_parse_err (e : string) : AnyError := AnyHub (UpstreamParse e).

(** [From<anyhow::Error> for HubError]. *)
Definition from_anyhow (e : AnyError) : HubError :=
  match e with
  | AnyHub e => e
  | AnySqlx e => Database e
  | AnyOther e => Queue.Upstream e
  end.

(** [Display]. *)
Definition hub_error_text (e : HubError) : string :=
  match e with
  | UpstreamHttp status msg => "iLink upstream HTTP error " +:+ show_u64 status +:+ ": " +:+ msg
  | UpstreamParse e => "iLink upstream parse error: " +:+ e
  | Queue.Upstream e => "iLink upstream error: " +:+ e
  | ClientNotFound e => "client not found: " +:+ e
  | InvalidToken => "invalid token"
  | SessionNotFound e => "session not found: " +:+ e
  | Config e => "configuration error: " +:+ e
  | Io e => "I/O error: " +:+ e
  | Database e => "database error: " +:+ e
  | Timeout_ => "operation timed out"
  | QueueBackend e => "queue backend error: " +:+ e
  end.

Definition error_text (e : AnyError) : string :=
  match e with AnyHub e => hub_error_text e | AnySqlx e | AnyOther e => e end.

Definition map_err {A E F} (f : E -> F) (r : result A E) : result A F :=
  match r with Ok x => Ok x | Err e => Err (f e) end.

(** ** Requests *)

Record UpstreamClient := { uc_base_url : string; uc_token : string }.

(** [UpstreamClient::new]; [built] tells whether the HTTP client could be made. *)
Definition UpstreamClient_new (built : bool) (token : string) (base_url : option string) : result UpstreamClient AnyError :=
  if built then Ok {| uc_base_url := unwrap_or base_url ILINK_BASE_URL; uc_token := token |}
  else Err (AnyOther "failed to build HTTP client").

(** A response: its status and its body, which may fail while it is read. *)
Record Response := { rs_status : Z; rs_body : result string ReqwestError }.

(** A request as it is sent. *)
Record Sent (B : Type) := { sent_url : string; sent_headers : list (string * string); sent_body : B }.
Arguments sent_url {B} _.
Arguments sent_headers {B} _.
Arguments sent_body {B} _.

Section Calls.
Context (header_value : string -> bool) (b64 : string -> string) (http_error : Z -> string).

(** The number is one of 32 bits, drawn for every request. *)
Definition random_uin (uint32 : Z) : string := b64 (show_u64 uint32).

Definition HeaderValue_from_str (s : string) : result string AnyError :=
  if header_value s then Ok s else Err (AnyOther "failed to parse header value").

Definition headers (c : UpstreamClient) (uint32 : Z) : result (list (string * string)) AnyError :=
  try auth := HeaderValue_from_str ("Bearer " +:+ uc_token c) in
  try uin := HeaderValue_from_str (random_uin uint32) in
  try version := HeaderValue_from_str (show_u64 ILINK_APP_CLIENT_VERSION) in
  Ok [("AuthorizationType", "ilink_bot_token"); ("authorization", auth); ("X-WECHAT-UIN", uin);
      ("iLink-App-Id", "bot"); ("iLink-App-ClientVersion", version)].

(** A client error or a server error becomes an error that carries the status. *)
Definition error_for_status (r : Response) : result Response ReqwestError :=
  if ((400 <=? rs_status r) && (rs_status r <? 600))%Z
  then Err {| re_status := Some (rs_status r); re_text := http_error (rs_status r) |} else Ok r.

(** [.json::<T>()]: the error of the body, or of the codec. *)
Definition read_json {T} (decode : string -> result T string) (r : Response) : result T string :=
  match rs_body r with Ok text => decode text | Err e => Err (re_text e) end.

(** A POST: what is sent, if the headers can be made, and the service's answer to it. *)
Definition post {B} (c : UpstreamClient) (uint32 : Z) (path : string) (body : B)
    (service : Sent B -> result Response ReqwestError) : option (Sent B) * result Response AnyError :=
  match headers c uint32 with
  | Err e => (None, Err e)
  | Ok hs =>
      let sent := {| sent_url := uc_base_url c +:+ path; sent_headers := hs; sent_body := body |} in
      (Some sent, map_err upstream_http_err (service sent))
  end.

(** [notify_start]: the outcome, and the code and text it warns about. *)
Definition notify_warning (j : json) : option (Z * string) :=
  match json_get "ret" j ≫= json_as_i64 with
  | Some ret => if (ret =? 0)%Z then None
                else Some (ret, unwrap_or (json_get "errmsg" j ≫= as_str) "(no errmsg)")
  | None => None
  end.

Definition notify_start (decode : string -> result json string) (c : UpstreamClient) (uint32 : Z)
    (service : Sent BaseInfo -> result Response ReqwestError)
    : option (Sent BaseInfo) * (result unit AnyError * option (Z * string)) :=
  let '(sent, r) := post c uint32 "/ilink/bot/msg/notifystart" BaseInfo_default service in
  (sent,
   match (try resp := r in map_err upstream_http_err (error_for_status resp)) with
   | Err e => (Err e, None)
   | Ok resp => (Ok tt, match read_json decode resp with Ok j => notify_warning j | Err _ => None end)
   end).

Definition get_updates (decode : string -> result GetUpdatesResponse string) (c : UpstreamClient) (uint32 : Z)
    (buf : string) (timeout : option Z) (service : Sent GetUpdatesRequest -> result Response ReqwestError)
    : option (Sent GetUpdatesRequest) * result GetUpdatesResponse AnyError :=
  let body := {| get_updates_buf := buf; last_ack_id := None; gu_base_info := Some BaseInfo_default;
                 gu_timeout := timeout |} in
  let '(sent, r) := post c uint32 "/ilink/bot/getupdates" body service in
  (sent, try resp := r in map_err upstream_parse_err (read_json decode resp)).

(** The request [send_message] sends for the one it is given. *)
Definition outbound_request (uuid : string) (millis n : Z) (req : SendMessageRequest) : SendMessageRequest :=
  {| req_msg := ensure_outbound uuid millis n <$> req_msg req;
     req_base_info := req_base_info req <|> Some BaseInfo_default |}.

Definition send_message (decode : string -> option SendMessageResponse) (c : UpstreamClient) (uint32 : Z)
    (uuid : string) (millis n : Z) (req : SendMessageRequest)
    (service : Sent SendMessageRequest -> result Response ReqwestError)
    : option (Sent SendMessageRequest) * result SendMessageResponse AnyError :=
  let '(sent, r) := post c uint32 "/ilink/bot/sendmessage" (outbound_request uuid millis n req) service in
  (sent,
   try resp := r in
   try text := map_err upstream_http_err (rs_body resp) in
   if is_empty (trim text) then Ok SendMessageResponse_ok
   else match decode text with Some resp => Ok resp | None => Ok SendMessageResponse_ok end).

Definition send_typing (c : UpstreamClient) (uint32 : Z) (req : SendTypingRequest)
    (service : Sent SendTypingRequest -> result Response ReqwestError)
    : option (Sent SendTypingRequest) * result unit AnyError :=
  let '(sent, r) := post c uint32 "/ilink/bot/sendtyping" req service in
  (sent, try resp := r in try _ := map_err upstream_http_err (error_for_status resp) in Ok tt).

Definition get_config (decode : string -> result GetConfigResponse string) (c : UpstreamClient) (uint32 : Z)
    (req : GetConfigRequest) (service : Sent GetConfigRequest -> result Response ReqwestError)
    : option (Sent GetConfigRequest) * result GetConfigResponse AnyError :=
  let '(sent, r) := post c uint32 "/ilink/bot/getconfig" req service in
  (sent, try resp := r in map_err upstream_parse_err (read_json decode resp)).

Definition get_upload_url (decode : string -> result GetUploadUrlResponse string) (c : UpstreamClient) (uint32 : Z)
    (req : GetUploadUrlRequest) (service : Sent GetUploadUrlRequest -> result Response ReqwestError)
    : option (Sent GetUploadUrlRequest) * result GetUploadUrlResponse AnyError :=
  let '(sent, r) := post c uint32 "/ilink/bot/getuploadurl" req service in
  (sent, try resp := r in map_err upstream_parse_err (read_json decode resp)).

(** ** Properties *)

(** A request leaves only with the token in use, below the configured address. *)
Lemma post_sends {B} c uint32 path (body : B) service s r :
  post c uint32 path body service = (Some s, r) ->
  sent_url s = uc_base_url c +:+ path /\ sent_body s = body /\
  assoc "authorization" (sent_headers s) = Some ("Bearer " +:+ uc_token c) /\
  r = map_err upstream_http_err (service s).
Proof.
  unfold post, headers, HeaderValue_from_str.
  destruct (header_value ("Bearer " +:+ uc_token c)); [|done]. cbn [result_bind].
  destruct (header_value (random_uin _)); [|done]. cbn [result_bind].
  destruct (header_value (show_u64 _)); [|done]. by intros [= <- <-].
Qed.

(** A token the header does not take (one with a line break, say) sends nothing at all. *)
Lemma post_unsendable {B} c uint32 path (body : B) service :
  header_value ("Bearer " +:+ uc_token c) = false ->
  post c uint32 path body service = (None, Err (AnyOther "failed to parse header value")).
Proof. intros E. unfold post, headers, HeaderValue_from_str. by rewrite E. Qed.

(** What a send does, in full: it fails only when the headers cannot be made, the request
    gets no response or the response's body cannot be read; and what went out was the
    outbound form of the message, with the bot's own sender, an identifier and a state. *)
Theorem send_message_spec decode c uint32 uuid millis n req service :
  match send_message decode c uint32 uuid millis n req service with
  | (None, r) => exists e, headers c uint32 = Err e /\ r = Err e
  | (Some s, r) =>
      assoc "authorization" (sent_headers s) = Some ("Bearer " +:+ uc_token c) /\
      (forall m, req_msg (sent_body s) = Some m ->
         from_user_id m = Some "" /\ is_Some (message_id m) /\ is_Some (message_type m) /\
         is_Some (message_state m) /\ exists i, client_id m = Some i /\ i <> "") /\
      match service s with
      | Err e => r = Err (upstream_http_err e)
      | Ok resp =>
          match rs_body resp with
          | Err e => r = Err (upstream_http_err e)
          | Ok text => is_ok r = true
          end
      end
  end.
Proof.
  unfold send_message. destruct (post _ _ _ _ _) as [[s|] r] eqn:E.
  - apply post_sends in E as (_ & Eb & Ea & ->). split; [exact Ea|]. split.
    + rewrite Eb. cbn [outbound_request req_msg]. intros m (m' & _ & ->)%fmap_Some. cbn. split; [done|].
      split; [by destruct (message_id m')|]. split; [by destruct (message_type m')|].
      split; [by destruct (message_state m')|].
      destruct (client_id m') as [[|a i]|]; cbn; [by eexists|by eexists|by eexists].
    + destruct (service s) as [resp|e]; [|done]. cbn. destruct (rs_body resp) as [text|e]; [|done]. cbn.
      destruct (is_empty _); [done|]. by destruct (decode text).
  - unfold post in E. destruct (headers c uint32) as [hs|e]; [done|]. injection E as <-. by exists e.
Qed.

(** The errors of a call keep their kind on the way into the hub: a status above 399 of a
    call that checks it arrives as that status, a missing response as status 0, a body
    that does not decode as a parse error. *)
Theorem errors_keep_their_kind c uint32 req service :
  match send_typing c uint32 req service with
  | (Some s, Err e) =>
      match service s with
      | Err re => from_anyhow e = UpstreamHttp (unwrap_or (re_status re) 0%Z) (re_text re)
      | Ok resp => (400 <= rs_status resp < 600)%Z /\
                   from_anyhow e = UpstreamHttp (rs_status resp) (http_error (rs_status resp))
      end
  | (Some s, Ok _) => exists resp, service s = Ok resp /\ (rs_status resp < 400 \/ 600 <= rs_status resp)%Z
  | (None, r) => is_ok r = false
  end.
Proof.
  unfold send_typing. destruct (post _ _ _ _ _) as [[s|] r] eqn:E.
  - apply post_sends in E as (_ & _ & _ & ->). destruct (service s) as [resp|e]; [|done]. cbn.
    unfold error_for_status.
    destruct (Z.leb_spec 400 (rs_status resp)), (Z.ltb_spec (rs_status resp) 600); cbn;
      [split; [lia|done]|exists resp; split; [done|lia]..].
  - unfold post in E. destruct (headers c uint32) as [hs|e]; [done|]. by injection E as <-.
Qed.

(** ** Findings *)

(** The status of a response to a send is not looked at: an error page that is no JSON is
    reported to the backend as a message sent. *)
Lemma refused_send_counts_as_sent decode c uint32 uuid millis n req service hs status text :
  headers c uint32 = Ok hs -> (forall s, service s = Ok {| rs_status := status; rs_body := Ok text |}) ->
  decode text = None ->
  (send_message decode c uint32 uuid millis n req service).2 = Ok SendMessageResponse_ok.
Proof.
  intros Eh Es Ed. unfold send_message, post. rewrite Eh, Es. cbn. rewrite Ed. by destruct (is_empty _).
Qed.

(** Nor is that of a response to a poll: an error whose body is any JSON object without
    [errcode] is a successful poll without messages. *)
Lemma refused_poll_counts_as_poll decode c uint32 buf timeout service hs status text resp :
  headers c uint32 = Ok hs -> (forall s, service s = Ok {| rs_status := status; rs_body := Ok text |}) ->
  decode text = Ok resp ->
  (get_updates decode c uint32 buf timeout service).2 = Ok resp.
Proof. intros Eh Es Ed. unfold get_updates, post, read_json. rewrite Eh, Es. cbn. by rewrite Ed. Qed.
End Calls.

(** The loop takes such an answer for a success every time: it resets its backoff, waits
    for nothing, and asks again at once, as often as the service refuses. *)
Definition refusal : GetUpdatesResponse :=
  {| gur_ret := None; gur_errcode := None; gur_errmsg := None; gur_msgs := None; gur_get_updates_buf := None |}.

Lemma refused_polls_never_wait o (ticks : list Tick) u :
  Forall (fun t => tick_shutdown t = false /\ tick_manual t = false /\ tick_select t = Polled (Ok refusal)) ticks ->
  let '(goes_on, u') := polling o ticks u in goes_on = true /\ u_waits u' = u_waits u.
Proof.
  revert u. induction ticks as [|t ticks IH]; intros u Ht; [done|].
  apply Forall_cons in Ht as ((E1 & E2 & E3) & Ht). cbn [polling].
  assert (H : exists u', iterate o t u = (true, u') /\ u_waits u' = u_waits u).
  { unfold iterate. rewrite E1, E2, E3. cbn. unfold accept, forward_batch. cbn.
    destruct (tick_channel t) as [[|k]|]; cbn; (eexists; split; [done|]); cbn; rewrite app_nil_r;
      destruct o as [r|]; cbn; unfold set_status; by destruct (rn_status _) || done. }
  destruct H as (u' & -> & Ew). specialize (IH u' Ht). destruct (polling o ticks u') as [b u'']. by rewrite <- Ew.
Qed.
