(* ===== verification/MetricsHttp.v ===== *)
(** * The metrics endpoint ([src/server/routes/metrics.rs], [src/metrics.rs])

    The text the monitoring system scrapes. Numbers in floating point are printed by the
    standard library, a parameter here; the counters the rest of the development does not
    track are arguments. *)
From S2P Require Import Prelude StrLemmas Types Queue VToken PollTracker Registry Store Hub RateLimit.
From Stdlib Require Import Ascii SpecFloat.
Import Str.
Local Open Scope hub_scope.

Definition nl : string := String "010" "".
Definition quote : string := String "034" "".
Definition backslash : string := "\".

(** ** Labels *)

Definition escape_label_char (c : string) : string :=
  if (c =? backslash)%string then backslash +:+ backslash
  else if (c =? quote)%string then backslash +:+ quote
  else if (c =? nl)%string then backslash +:+ "n"
  else c.

Definition escape_label_value (v : string) : string := concat (map escape_label_char (chars v)).

(** [u64::saturating_add]. *)
Definition sat_add (a b : Z) : Z := Z.min u64_max (a + b).

Definition client_name (names : gmap string string) (vt : string) : string := unwrap_or (names !! vt) "unknown".

Definition collapse_by_client (entries : list (string * Z)) (names : gmap string string) : gmap string Z :=
  foldl (fun m p => let c := client_name names p.1 in <[c := sat_add (unwrap_or (m !! c) 0%Z) p.2]> m) ∅ entries.

Definition label (name client value : string) : string :=
  name +:+ "{client=" +:+ quote +:+ escape_label_value client +:+ quote +:+ "} " +:+ value +:+ nl.

(** A [BTreeMap] is walked in the order of its keys. *)
Definition by_key (m : gmap string Z) : list (string * Z) := merge_sort (fun a b => String.le a.1 b.1) (map_to_list m).

(** ** Rendering *)

Definition strip_suffix (p s : string) : option string :=
  let n := len s - len p in
  if (len p <=? len s)%nat && (slice_from n s =? p)%string then Some (String.substring 0 n s) else None.

Definition help_and_type (name help kind : string) : string :=
  "# HELP " +:+ name +:+ " " +:+ help +:+ nl +:+ "# TYPE " +:+ name +:+ " " +:+ kind +:+ nl.

Definition render_counter (name help : string) (value : Z) (created : string) : string :=
  let base := unwrap_or (strip_suffix "_total" name) name in
  help_and_type base help "counter" +:+ name +:+ " " +:+ show_u64 value +:+ nl
  +:+ base +:+ "_created " +:+ created +:+ nl.

(** The running totals a histogram prints, the last for all observations. *)
Fixpoint cumulate (acc : Z) (l : list Z) : list Z :=
  match l with [] => [] | n :: l => let acc := sat_add acc n in acc :: cumulate acc l end.

Definition bucket_line (name bound : string) (n : Z) : string :=
  name +:+ "_bucket{le=" +:+ quote +:+ bound +:+ quote +:+ "} " +:+ show_u64 n +:+ nl.

Definition bucket_bounds : list string := map show_u64 HISTOGRAM_BUCKETS_MS ++ ["+Inf"].

Definition render_histogram (name help : string) (h : LatencyHistogram) (created : string) : string :=
  help_and_type name help "histogram"
  +:+ concat (zip_with (bucket_line name) bucket_bounds (cumulate 0 (h_buckets h)))
  +:+ name +:+ "_count " +:+ show_u64 (h_count h) +:+ nl
  +:+ name +:+ "_sum " +:+ show_u64 (h_sum_us h / 1000) +:+ nl
  +:+ name +:+ "_created " +:+ created +:+ nl.

(** Counters kept by the upstream client, and its histogram. *)
Record Gauges := {
  g_polls_ok : Z;
  g_polls_err : Z;
  g_relogins : Z;
  g_sendmessage : LatencyHistogram;
  g_created : string;
}.

Definition client_names (r : ClientRegistry) : gmap string string := name <$> by_vtoken r.

Definition rejected_lines (m : Metrics) (names : gmap string string) : list string :=
  map (fun p => label "ilink_hub_messages_rejected_total" p.1 (show_u64 p.2))
    (by_key (collapse_by_client (map_to_list (messages_rejected_by_client m)) names)).

Definition queue_lines (sizes : gmap string nat) (names : gmap string string) : list string :=
  map (fun p => label "ilink_hub_queue_size" p.1 (show_u64 p.2))
    (by_key (collapse_by_client (prod_map id Z.of_nat <$> map_to_list sizes) names)).

(** The buckets of clients that still have a name. *)
Definition named_limits (l : VtokenRateLimiter) (names : gmap string string) : list (string * RateLimitSnapshot) :=
  List.filter (fun p => bool_decide (is_Some (names !! p.1))) (snapshot l).

Definition limit_lines (family : string) (value : RateLimitSnapshot -> string) (l : VtokenRateLimiter)
    (names : gmap string string) : list string :=
  map (fun p => label family (client_name names p.1) (value p.2)) (named_limits l names).

Section Metrics.
Context {Q : Type} (show_f64 : f64 -> string).

(** [sizes] is the answer of [queue_sizes]; an error counts as no queues. *)
Definition metrics (w : World Q VtokenRateLimiter) (sizes : result (gmap string nat) HubError) (g : Gauges)
    : Z * string :=
  let names := client_names (w_registry w) in
  let m := w_metrics w in
  let created := g_created g in
  (200%Z,
   help_and_type "ilink_hub_clients_online" "Number of online clients" "gauge"
   +:+ "ilink_hub_clients_online " +:+ show_nat (length (online_clients (w_registry w))) +:+ nl
   +:+ help_and_type "ilink_hub_clients_total" "Total registered clients" "gauge"
   +:+ "ilink_hub_clients_total " +:+ show_nat (length (all_clients (w_registry w))) +:+ nl
   +:+ render_counter "ilink_hub_messages_dispatched_total" "Messages dispatched" (messages_dispatched m) created
   +:+ render_counter "ilink_hub_messages_dropped_total" "Messages dropped" (messages_dropped m) created
   +:+ help_and_type "ilink_hub_messages_rejected"
         "Messages rejected by per-client backpressure (queue full; oldest retained)" "counter"
   +:+ concat (rejected_lines m names)
   +:+ render_counter "ilink_hub_messages_persist_dropped_total"
         "Message history persist tasks dropped due to semaphore exhaustion (DB too slow)"
         (messages_persist_dropped m) created
   +:+ render_counter "ilink_hub_upstream_user_messages_total"
         "User-side messages received from upstream (excl. bot echo copies)" (upstream_user_messages m) created
   +:+ render_counter "ilink_hub_upstream_polls_ok_total" "Successful upstream polls" (g_polls_ok g) created
   +:+ render_counter "ilink_hub_upstream_polls_err_total" "Failed upstream polls" (g_polls_err g) created
   +:+ help_and_type "ilink_hub_queue_size" "Current pending message count per client" "gauge"
   +:+ concat (queue_lines (match sizes with Ok s => s | Err _ => ∅ end) names)
   +:+ help_and_type "ilink_hub_ratelimit_tokens" "Remaining outbound request tokens in this client's bucket" "gauge"
   +:+ concat (limit_lines "ilink_hub_ratelimit_tokens" (fun v => show_f64 (sn_tokens v)) (w_limiter w) names)
   +:+ help_and_type "ilink_hub_ratelimit_burst" "Configured burst capacity of this client's bucket" "gauge"
   +:+ concat (limit_lines "ilink_hub_ratelimit_burst" (fun v => show_f64 (sn_burst v)) (w_limiter w) names)
   +:+ "# HELP ilink_hub_ratelimit_rejected_total Outbound bot-API requests rejected by the per-client rate limiter"
   +:+ nl +:+ "# TYPE ilink_hub_ratelimit_rejected counter" +:+ nl
   +:+ concat (limit_lines "ilink_hub_ratelimit_rejected_total" (fun v => show_u64 (sn_rejected v)) (w_limiter w) names)
   +:+ render_counter "ilink_hub_sendmessage_total" "Total sendmessage calls from backend clients"
         (sendmessage_total m) created
   +:+ render_counter "ilink_hub_sendmessage_errors_total"
         "sendmessage calls rejected (unknown token, missing context, etc.)" (sendmessage_errors m) created
   +:+ render_counter "ilink_hub_relogin_attempts_total" "Number of QR re-login attempts (manual or automatic)"
         (g_relogins g) created
   +:+ help_and_type "ilink_hub_ilink_status"
         "iLink upstream connection status (0=unknown 1=connected 2=needs_login 3=logging_in)" "gauge"
   +:+ "ilink_hub_ilink_status " +:+ show_u64 (web_ilink_status (w_web w)) +:+ nl
   +:+ render_histogram "ilink_hub_getupdates_latency_ms"
         "Latency of getupdates long-polls (handler entry to drain), in milliseconds" (getupdates_latency_ms m) created
   +:+ render_histogram "ilink_hub_sendmessage_upstream_latency_ms"
         "Latency of upstream sendmessage HTTP round-trip, in milliseconds" (g_sendmessage g) created
   +:+ render_histogram "ilink_hub_dispatch_latency_ms"
         "Latency of inbound dispatch pipeline (synchronous portion), in milliseconds" (dispatch_latency_ms m) created).
End Metrics.
