(* ===== verification/Connect.v ===== *)
(** * Opening the database ([Store::connect] of [src/store/mod.rs]), and the two queries of
    [src/store/messages.rs] that no handler uses

    The driver, the database file, the connection pools, the migrations, in this order. *)
From S2P Require Import Prelude StrLemmas Store Migrations MetricsHttp.
From Stdlib Require Import Ascii.
Import Str.
Local Open Scope hub_scope.

(** ** The file *)

(** Files by path. *)
Notation Files := (gmap string string).

(** [Store::ensure_sqlite_file]. [dir_error]: creating the parent directory fails;
    [others]: what other processes do between the check and the creation; [open_error]:
    creating the file fails. An existing file is not opened. *)
Definition ensure_sqlite_file (dir_error open_error : option string) (others : Files -> Files) (url : string) (fs : Files)
    : result unit string * Files :=
  match sqlite_file_path url with
  | None => (Ok tt, fs)
  | Some path =>
      match dir_error with
      | Some e => (Err e, fs)
      | None =>
          if bool_decide (is_Some (fs !! path)) then (Ok tt, fs) else
          let fs := others fs in
          match fs !! path with
          | Some _ => (Ok tt, fs)
          | None => match open_error with
                    | Some e => (Err e, fs)
                    | None => (Ok tt, <[path := ""]> fs)
                    end
          end
      end
  end.

(** ** The pools *)

(** The bound on the connections that write, and on those that read when they are others. *)
Record Pools := { p_writers : option Z; p_readers : option Z }.

Definition is_memory_sqlite (url : string) : bool :=
  contains ":memory:" url || match strip_suffix "sqlite:" url with Some _ => true | None => false end.

Definition pools (kind : DatabaseKind) (url : string) : Pools :=
  match kind with
  | Sqlite => {| p_writers := Some 1%Z; p_readers := if is_memory_sqlite url then None else Some 4%Z |}
  | _ => {| p_writers := None; p_readers := None |}
  end.

(** ** Connecting *)

(** What can go wrong, in the order of the calls. *)
Record ConnectFaults := {
  cf_dir : option string;
  cf_open : option string;
  cf_timeout : bool;
  cf_write_pool : option string;
  cf_read_pool : option string;
}.

Section Connect.
Context (migrate : DatabaseKind -> Db -> result unit string * Db) (others : Files -> Files).

(** The blocking task goes on when the wait for it times out. *)
Definition ensure_file (f : ConnectFaults) (kind : DatabaseKind) (url : string) (fs : Files) : result unit string * Files :=
  match kind with
  | Sqlite =>
      let '(r, fs) := ensure_sqlite_file (cf_dir f) (cf_open f) others url fs in
      if cf_timeout f then (Err "ensure_sqlite_file timed out after 10s", fs) else (r, fs)
  | _ => (Ok tt, fs)
  end.

(** The opened store: driver, pools, lifetime of grants. *)
Definition connect (f : ConnectFaults) (ttl_var : option string) (url : string) (fs : Files) (d : Db)
    : result (DatabaseKind * Pools * Z) string * Files * Db :=
  match from_url url with
  | None => (Err "unsupported DATABASE_URL scheme", fs, d)
  | Some kind =>
      let '(r, fs) := ensure_file f kind url fs in
      match r with
      | Err e => (Err e, fs, d)
      | Ok _ =>
          let p := pools kind url in
          match cf_write_pool f, (if p_readers p then cf_read_pool f else None) with
          | Some e, _ => (Err e, fs, d)
          | None, Some e => (Err e, fs, d)
          | None, None =>
              let '(r, d) := migrate kind d in
              match r with
              | Err e => (Err e, fs, d)
              | Ok _ => (Ok (kind, p, grant_ttl_from_env ttl_var), fs, d)
              end
          end
      end
  end.

(** Opening a database loses nothing: whatever fails, and whatever other processes do in
    between, no file that was there is changed, and the tables are touched only by the
    migrations, after the file and the pools are there; a URL that is refused touches
    nothing; an opened SQLite file exists. *)
Theorem connect_loses_nothing (f : ConnectFaults) (ttl_var : option string) (url : string) (fs fs' : Files) (d d' : Db)
    (out : result (DatabaseKind * Pools * Z) string)
    (Hothers : forall g p c, g !! p = Some c -> others g !! p = Some c) :
  connect f ttl_var url fs d = (out, fs', d') ->
  (forall p c, fs !! p = Some c -> fs' !! p = Some c) /\
  (from_url url = None -> fs' = fs /\ d' = d) /\
  match out with
  | Ok (kind, p, ttl) => from_url url = Some kind /\ p = pools kind url /\ (0 < ttl)%Z /\ migrate kind d = (Ok tt, d') /\
      (kind = Sqlite -> forall path, sqlite_file_path url = Some path -> is_Some (fs' !! path))
  | Err _ => d' = d \/ exists kind e, migrate kind d = (Err e, d')
  end.
Proof.
  assert (He : forall kind r g, ensure_file f kind url fs = (r, g) -> (forall p c, fs !! p = Some c -> g !! p = Some c) /\
            (is_ok r = true -> kind = Sqlite -> forall path, sqlite_file_path url = Some path -> is_Some (g !! path))).
  { intros kind r g. unfold ensure_file. destruct kind; [|by intros [= <- <-]..].
    destruct (ensure_sqlite_file _ _ _ _ _) as [r' g'] eqn:E. intros Hr.
    assert (Hg : g' = g /\ (is_ok r = true -> r' = r)) by (destruct (cf_timeout f); by injection Hr as <- <-).
    clear Hr. destruct Hg as [-> Hr]. cut ((forall p c, fs !! p = Some c -> g !! p = Some c) /\
      (is_ok r' = true -> forall path, sqlite_file_path url = Some path -> is_Some (g !! path))).
    { intros [G1 G2]. split; [done|]. intros Hok _. apply G2. by rewrite Hr. }
    revert E. clear Hr. unfold ensure_sqlite_file. destruct (sqlite_file_path url) as [path|]; [|by intros [= <- <-]].
    destruct (cf_dir f); [by intros [= <- <-]|]. case_bool_decide as Hp.
    { intros [= <- <-]. split; [done|]. by intros _ ? [= <-]. }
    destruct (others fs !! path) as [c|] eqn:Eo.
    { intros [= <- <-]. split; [auto|]. intros _ ? [= <-]. by eexists. }
    destruct (cf_open f); intros [= <- <-]; [by split; [auto|]|]. split.
    - intros p c Hc. rewrite lookup_insert_ne; [auto|]. intros <-. apply Hp. by eexists.
    - intros _ ? [= <-]. rewrite lookup_insert_eq. by eexists. }
  unfold connect. destruct (from_url url) as [kind|] eqn:Ek; [|by intros [= <- <- <-]; split; [done|]; split; [done|left]].
  destruct (ensure_file f kind url fs) as [r g] eqn:Ee. destruct (He _ _ _ Ee) as [H1 H2].
  destruct r as [u|e]; [|by intros [= <- <- <-]; split; [done|]; split; [done|left]].
  destruct (cf_write_pool f); [by intros [= <- <- <-]; split; [done|]; split; [done|left]|].
  destruct (if p_readers _ then _ else _); [by intros [= <- <- <-]; split; [done|]; split; [done|left]|].
  destruct (migrate kind d) as [[u'|e] d1] eqn:Em; intros [= <- <- <-]; (split; [done|]; split; [done|]).
  - split; [done|]. split; [done|]. split; [|split; [by destruct u'|by apply H2]].
    unfold grant_ttl_from_env, DEFAULT_GRANT_TTL_SECS. destruct ttl_var; [|lia].
    destruct (parse_u64 _) as [n|]; [|lia]. destruct (Z.ltb_spec 0 n); lia.
  - right. by exists kind, e.
Qed.
End Connect.

(** The file and the pools do not go by the same test of what is in memory: these two URLs
    name no file, so that every connection has a database of its own, and yet readers get
    connections of their own. *)
Lemma private_database_is_split :
  Forall (fun url => from_url url = Some Sqlite /\ sqlite_file_path url = None /\ p_readers (pools Sqlite url) = Some 4%Z)
    [""; "sqlite://"] /\
  p_readers (pools Sqlite "sqlite::memory:") = None.
Proof. split; [|reflexivity]. repeat constructor; vm_compute; reflexivity. Qed.

(** ** Two queries without a caller *)

Definition created_desc (a b : MessageRow) : Prop := (m_created b <= m_created a)%Z.

#[local] Instance created_desc_dec : RelDecision created_desc.
Proof. intros a b. unfold created_desc. apply _. Defined.

(** [ORDER BY created_at DESC LIMIT limit]; [None] is the driver's refusal of the limit. *)
Definition list_messages (vctx : string) (limit : Z) (s : Store) : option (list MessageRow) :=
  let rows := merge_sort created_desc (List.filter (fun m => (m_vctx m =? vctx)%string) (messages s)) in
  sql_limit (kind s) limit rows.

Definition status_entry (vt : string) (s : Store) : option SessionStatusEntry :=
  let rows := reverse (List.filter (fun m => bool_decide (m_vtoken m = Some vt)) (messages s)) in
  m ← head rows;
  let user := List.find (fun u => (m_role u =? "user")%string) rows in
  Some {| e_session := m_session m; last_user_content := m_content <$> user;
          waiting_for_reply := (m_role m =? "user")%string; user_msg_created_at := m_created <$> user |}.

Definition get_session_status_per_vtoken (vtokens : list string) (s : Store) : gmap string SessionStatusEntry :=
  list_to_map (omap (fun vt => pair vt <$> status_entry vt s) vtokens).

(** The session of the summary is the first of the detailed listing, and both say alike
    whether it waits for a reply. *)
Lemma status_is_first_entry vt s :
  (fun e => (e_session e, waiting_for_reply e)) <$> status_entry vt s
  = (fun e => (e_session e, waiting_for_reply e)) <$> head (session_entries vt s).
Proof.
  unfold status_entry, session_entries. destruct (reverse _) as [|m rows]; [done|]. cbn. by case_bool_decide as H; [set_solver|].
Qed.

(** The summary takes the last user message of any session, the listing that of its own:
    after a question in one session and an answer in another, the summary shows the
    question under the name of the session of the answer. *)
Lemma summary_mixes_sessions :
  let s := save_message 2 "v" (Some "t") "two" "p" "assistant" "answer"
             (save_message 1 "v" (Some "t") "one" "p" "user" "question" (Store_new Sqlite 60)) in
  (fun e => (e_session e, last_user_content e)) <$> status_entry "t" s = Some ("two", Some "question") /\
  (fun e => (e_session e, last_user_content e)) <$> head (session_entries "t" s) = Some ("two", None).
Proof. split; vm_compute; reflexivity. Qed.
