(* ===== verification/Resolve.v ===== *)
(** * Resolution helpers of the dispatcher ([src/src/hub/dispatch/])

    Virtual contexts and session metadata of a message ([hub_ext.rs]), delivery to
    the queue of a backend ([queue.rs]) and the four quote-reply resolvers
    ([quote.rs]). *)
From S2P Require Import Prelude StrLemmas Types Queue Router Footer VToken Registry Acl Store PollTracker Hub.
Import Str QuoteRoute.
Local Open Scope hub_scope.

Section Resolve.
Context {Q L : Type} `{MessageQueue Q}.

(** ** [hub_ext.rs] *)

Definition resolve_vctx_for_message (rc peer : string) (group : option string) : hub Q L string :=
  let* u1 := new_uuid in
  let* u2 := new_uuid in
  let* arbiter := reads (fun w => upsert_arbiter (w_env w)) in
  let* r := db (find_or_create_vctx arbiter u1 u2 peer group rc) in
  match r with
  | Ok (Ok vctx) => ret vctx
  | Ok (Err _) | Err _ => let* u := new_uuid in ret ("vctx_" +:+ u)
  end.

Definition session_ext (session_id : option string) (name : string) : HubExt :=
  {| ext_session_id := session_id; ext_session_name := Some name; ext_cli_session_id := None;
     ext_a2a_call_id := None; ext_a2a_depth := None; ext_usage := None |}.

Definition build_hub_ext_for_vctx (vctx vt : string) (session_override : option string)
    : hub Q L (option HubExt) :=
  match ofilter (fun n => negb (is_empty n)) session_override with
  | Some name =>
      let* r := db_timeout (query (get_backend_session vctx vt name)) in
      let session_id :=
        match r with
        | Some (Ok (Some s)) => let t := trim s in if is_empty t then None else Some t
        | _ => None
        end in
      ret (Some (session_ext session_id name))
  | None =>
      let* r := db_timeout (query (get_hub_ext_single vctx vt)) in
      let '(name, session_id) :=
        match r with Some (Ok p) => p | _ => ("default", None) end in
      ret (Some (session_ext session_id name))
  end.

(** ** [queue.rs] *)

Definition count_push (vt : string) (r : result bool HubError) : hub Q L unit :=
  match r with
  | Ok false => count Dispatched
  | Ok true => count Dropped ;; count (Rejected vt)
  | Err _ => count Dropped
  end.

Definition push_to_queue (vt : string) (m : WeixinMessage) : hub Q L unit :=
  let* r := (fun w => let '(r, q) := mq_push (w_queue w) vt m in (r, with_queue q w)) in
  count_push vt r.

Definition push_shared_to_queue (vt : string) (base : WeixinMessage) (ctx : option string)
    (ext : option HubExt) : hub Q L unit :=
  let* r := (fun w => let '(r, q) := mq_push_shared (w_queue w) vt base ctx ext in
                      (r, with_queue q w)) in
  count_push vt r.

(** ** [quote.rs] *)

Definition derive_peer_scope (m : WeixinMessage) : option string :=
  let group := unwrap_or (group_id m) "" in
  let from := unwrap_or (from_user_id m) "" in
  if negb (is_empty group) then Some ("group:" +:+ group)
  else if negb (is_empty from) then Some ("peer:" +:+ from)
  else None.

(** The origin a stored row names; an unregistered token stands for its own name. *)
Definition client_origin (vt : string) (session : option string) : hub Q L QuoteOrigin :=
  reads (fun w =>
    match get_by_vtoken (w_registry w) vt with
    | Some c => Client vt (name c) (label c) session
    | None => Client vt vt None session
    end).

(** The common tail of the three lookups in [messages]. *)
Definition origin_of_row (r : option (result (option (string * option string)) string))
    : hub Q L (option QuoteOrigin) :=
  match r with
  | Some (Ok (Some (vt, session))) =>
      if is_empty vt then ret None
      else let* o := client_origin vt session in ret (Some o)
  | _ => ret None
  end.

Definition resolve_quote_from_msg_id (m : WeixinMessage) : hub Q L (option QuoteOrigin) :=
  match collect_quoted_msg_id m ≫= fun raw => parse_i64 (trim raw) with
  | None => ret None
  | Some id =>
      match derive_peer_scope m with
      | None => ret None
      | Some peer =>
          let* r := db_timeout (query (find_assistant_message_by_msg_id peer id)) in
          origin_of_row r
      end
  end.

(** [ref_ms / 1000]: division of an [i64] truncates towards zero. *)
Definition resolve_quote_from_timestamp (m : WeixinMessage) : hub Q L (option QuoteOrigin) :=
  match collect_quoted_timestamp m with
  | None => ret None
  | Some ref_ms =>
      match derive_peer_scope m with
      | None => ret None
      | Some peer =>
          let* r := db_timeout
            (query (find_assistant_message_by_timestamp peer (Z.quot ref_ms 1000) 10)) in
          origin_of_row r
      end
  end.

Definition resolve_quote_from_db (m : WeixinMessage) : hub Q L (option QuoteOrigin) :=
  match collect_quoted m with
  | None => ret None
  | Some (quoted, _) =>
      match derive_peer_scope m with
      | None => ret None
      | Some peer =>
          let prefix := take_chars 48 (trim quoted) in
          if is_empty prefix then ret None
          else if is_empty (trim prefix) then ret None
          else let* r := db_timeout (query (find_assistant_message_by_content peer prefix)) in
               origin_of_row r
      end
  end.

Definition resolve_quote_from_footer (m : WeixinMessage) : hub Q L (option QuoteOrigin) :=
  match footer_from_user_quote m with
  | None => ret None
  | Some (n, session) =>
      let* c := reads (fun w => get_by_name (w_registry w) n) in
      match c with
      | Some c => ret (Some (Client (Registry.vtoken c) (name c) (label c) session))
      | None =>
          let session_key :=
            if starts_with "at-" n || starts_with "session-" n then Some n else session in
          match session_key, derive_peer_scope m with
          | Some skey, Some scope =>
              let* r := db_timeout (query (find_vctx_for_scope scope)) in
              match r with
              | Some (Ok (Some vctx)) =>
                  let* r := db_timeout (query (find_vtoken_for_session vctx skey)) in
                  match r with
                  | Some (Ok (Some vt)) =>
                      let* o := client_origin vt (Some skey) in ret (Some o)
                  | _ => ret None
                  end
              | _ => ret None
              end
          | _, _ => ret None
          end
      end
  end.

(** The chain of fallbacks in [dispatch_message]. *)
Definition first_of (ms : list (hub Q L (option QuoteOrigin))) : hub Q L (option QuoteOrigin) :=
  foldr (fun m rest => let* o := m in match o with Some _ => ret o | None => rest end)
    (ret None) ms.

Definition resolve_quote (m : WeixinMessage) : hub Q L (option QuoteOrigin) :=
  first_of [resolve_quote_from_msg_id m; resolve_quote_from_timestamp m;
            resolve_quote_from_db m; resolve_quote_from_footer m].
End Resolve.
