(* ===== verification/Commands.v ===== *)
(** * Hub commands ([src/src/hub/commands.rs], texts of [src/src/hub/messages.rs])

    The handlers of [/list], [/use], [/broadcast], [/status], [/help] and the
    [/session] family, and the command entry point that answers the user. *)
From S2P Require Import Prelude StrLemmas Types Queue Router Footer VToken Registry Acl Store PollTracker Hub Resolve.
Import Str.
Local Open Scope hub_scope.

(** ** Texts *)


(** [redact_token] of [lib.rs]. *)
Definition redact_token (t : string) : string := take_chars 8 t +:+ "…".

Definition NO_BACKEND : string := "❌ 当前未路由到任何后端，请先用 `/use <名称>` 切换到一个后端。".
Definition UNRECOGNIZED_COMMAND : string := "未识别的指令。发送 /help 查看可用指令。".
Definition NO_BACKEND_ONLINE : string :=
  join nl
    ["你好！我是 iLink Hub 消息路由服务。"; "";
     "当前暂无 AI 助手后端在线，您的消息暂时无法被处理。"; ""; "您可以：";
     "• 发送 /status 查看服务状态"; "• 发送 /list   查看已注册的后端"; "• 发送 /help   查看完整帮助"; "";
     "如需接入 AI 助手，请联系管理员配置后端服务。"].
Definition SESSION_LIST_NO_SESSIONS : string :=
  "当前后端尚无 session 记录。" +:+ nl +:+ "发送 `/session new <名称>` 创建一个 session。".
Definition SESSION_LIST_SWITCH_HINT : string :=
  nl +:+ "用 `/session use <名称>` 切换，`/session new <名称>` 新建。".
Definition SESSION_SLOT_NO_UUID : string := "（尚无 UUID，下次对话时由后端写入）".

Definition quoted_name (n : string) : string := "`" +:+ n +:+ "`".

Definition session_new_ok (n : string) : string :=
  "✅ 已在当前后端创建并切换到 session " +:+ quoted_name n +:+ "。".
Definition session_new_created_switch_failed (n e : string) : string :=
  "✅ 已创建 session " +:+ quoted_name n +:+ "，但切换失败：" +:+ e.
Definition session_new_failed (e : string) : string := "❌ 创建 session 失败：" +:+ e.
Definition session_use_ok (n : string) : string := "✅ 已切换到 session " +:+ quoted_name n.
Definition session_use_failed (e : string) : string := "❌ 切换 session 失败：" +:+ e.
Definition session_use_slot_create_failed (e : string) : string := "❌ 创建 session slot 失败：" +:+ e.
Definition session_use_query_failed (e : string) : string := "❌ 查询 session 失败：" +:+ e.
Definition session_delete_active_error (n : string) : string :=
  "❌ 无法删除当前活跃的 session " +:+ quoted_name n +:+ "。" +:+ nl +:+
  "请先用 `/session use <其他名称>` 切换后再删除。".
Definition session_delete_ok (n : string) : string := "✅ 已删除 session " +:+ quoted_name n.
Definition session_delete_not_found (n : string) : string := "❌ 未找到 session " +:+ quoted_name n.
Definition session_delete_failed (e : string) : string := "❌ 删除 session 失败：" +:+ e.
Definition session_list_failed (e : string) : string := "❌ 查询 session 失败：" +:+ e.

Definition build_help_text : string :=
  join nl
    ["iLink Hub 帮助"; "";
     "可用指令（括号内为缩写）：";
     "/status（/s）— 查看当前 Hub 状态";
     "/list（/ls）— 列出所有已注册的 AI 后端";
     "/use <名称或序号>（/u <名称或序号>）— 切换到指定的 AI 后端";
     "/help（/h）— 显示此帮助"; "";
     "Session 管理（同一后端下的多会话）：";
     "/session list（/sl）— 列出当前对话的所有 sessions";
     "/session new <名称> [UUID]（/sn <名称>）— 创建新 session（可选初始 UUID）";
     "/session use <名称>（/su <名称>）— 切换到指定 session";
     "/session delete <名称>（/sd <名称>）— 删除指定 session"; "";
     "快捷 @ 后端：发送 `@<名称或序号> <消息>` 可临时在该后端上**新建一个会话**并发送此消息，不会改变你当前 /use 的后端和活跃 session（与引用回复类似的临时操作）。名称与 /use 使用的名称一致（可用 /list 查看，序号即 /list 中的编号）；名称取第一个空格之前的部分，其余为消息内容。需要继续这个临时会话时，引用它的回复即可。"; "";
     "引用回复：引用某条机器人消息后发送的内容，会优先路由到发出该条消息的后端（或 Hub 指令结果），不必依赖当前 /use。";
     "多后端时，各后端回复末尾可能带有「— 工作区名」展示行（仅**同时在线**的后端多于一个时默认追加；历史注册但离线的客户端不计入）。可用环境变量 ILINKHUB_OUTBOUND_ORIGIN_LABEL 强制关/开。"; "";
     "关于 iLink Hub：";
     "本服务是一个消息路由中枢，可将您的微信消息转发给已接入的 AI 助手后端进行处理。"; "";
     "管理员接入指南：";
     "1. 部署并启动 ilink-hub serve";
     "2. 运行 ilink-hub register --name <名称> 注册后端";
     "3. 将输出的 WEIXIN_TOKEN 配置到您的 AI 服务";
     "4. AI 服务调用 /ilink/bot/getupdates 接收消息，并通过 /ilink/bot/sendmessage 回复"].

(** [format_elapsed]. *)
Definition format_elapsed (secs : Z) : string :=
  if (secs <? 60)%Z then show_u64 secs +:+ "s"
  else show_u64 (secs / 60) +:+ "m" +:+ show_u64 (secs mod 60) +:+ "s".

(** One line of [/status]; the elapsed time since a stored [created_at]. *)
Definition status_line (now : Z) (e : SessionStatusEntry) : string :=
  let snippet := unwrap_or (last_user_content e) "（无消息记录）" in
  let truncated := if (30 <? length (chars snippet))%nat then take_chars 30 snippet +:+ "…" else snippet in
  let elapsed :=
    unwrap_or ((fun t => " (" +:+ format_elapsed (Z.max 0 (now - t)) +:+ ")")
                 <$> user_msg_created_at e) "" in
  let tag := if waiting_for_reply e then " ⏳" +:+ elapsed else "" in
  "  └ [" +:+ e_session e +:+ "]" +:+ tag +:+ " " +:+ truncated.

Definition hub_status (now : Z) (online total : nat)
    (clients : list (string * list SessionStatusEntry)) : string :=
  let head := "iLink Hub 状态：" +:+ show_nat online +:+ "/" +:+ show_nat total +:+ " 个客户端在线" in
  let body :=
    match clients with
    | [] => []
    | _ => [""; "**会话列表：**"] ++
        mjoin ((fun p : string * list SessionStatusEntry =>
                  let '(n, es) := p in
                  match es with
                  | [] => ["🟢 " +:+ quoted_name n +:+ nl +:+ "  └ （无会话记录）"]
                  | _ => ("🟢 " +:+ quoted_name n) :: (status_line now <$> es)
                  end) <$> clients)
    end in
  join nl (head :: body).

(** ** Handlers *)

Section Commands.
Context {Q L : Type} `{MessageQueue Q}.

(** [commands::wechat_visible]. *)
Definition user_visible (user : string) : hub Q L (option (gset string)) :=
  reads (fun w => wechat_visible (w_acl w) user (name <$> all_clients (w_registry w))).

Definition resolve_vctx_and_vtoken (rc user : string) (group : option string)
    : hub Q L (string * option string) :=
  let* vctx := resolve_vctx_for_message rc user group in
  let* vt := reads (fun w => get_route (w_router w) user) in
  ret (vctx, vt).

Definition list_line (active : option string) (i : nat) (c : ClientInfo) : string :=
  (if online c then "🟢" else "🔴") +:+ " " +:+ show_nat (S i) +:+ ". " +:+ quoted_name (name c) +:+
  (if bool_decide (active = Some (name c)) then " ✅" else "") +:+ " — " +:+
  unwrap_or (label c) (name c).

Definition handle_cmd_list (user : string) : hub Q L string :=
  let* visible := user_visible user in
  let* clients := reads (fun w => sorted_clients (w_registry w) visible) in
  match clients with
  | [] => ret (if visible then "尚未授权任何后端客户端。" else "尚未注册任何后端客户端。")
  | _ =>
      let* route := reads (fun w => get_route (w_router w) user) in
      let active :=
        route ≫= fun vt => name <$> List.find (fun c => (Registry.vtoken c =? vt)%string) clients in
      ret (join nl
        (("**已注册的后端：**" :: imap (list_line active) clients) ++
         [match active with
          | Some n => nl +:+ "当前选中：" +:+ quoted_name n
          | None => nl +:+ "当前未选中（广播模式）"
          end;
          "用 `/use <名称或序号>`（或 `/u <名称或序号>`）切换后端，或发送 `@<名称或序号> <消息>` 直接发起临时会话。"]))
  end.

Definition handle_cmd_use (user n : string) : hub Q L string :=
  let* visible := user_visible user in
  let* c := reads (fun w => get_by_alias_in (w_registry w) n visible) in
  match c with
  | Some c =>
      let vt := Registry.vtoken c in
      let* r := db (exec (store_set_route user vt)) in
      match r with
      | Err _ => ret ("⚠️ 切换到 " +:+ quoted_name (name c) +:+ " 失败（数据库写入错误），请重试")
      | Ok _ =>
          changes (fun w => with_router (set_route (w_router w) user vt) w) ;;
          ret ("✅ 已切换到 " +:+ quoted_name (name c))
      end
  | None =>
      ret ("❌ 未找到名为 " +:+ quoted_name n +:+
           " 的后端。用 `/list`（或 `/ls`）查看可用后端（支持用序号，如 `/use 1`）。")
  end.

(** The body of the message a broadcast command forwards: the text of the first
    item, if that item carries text. *)
Definition set_head_text (t : string) (m : WeixinMessage) : WeixinMessage :=
  set_items m
    (match item_list m with
     | Some (i :: rest) =>
         Some ((match text_item i with Some _ => set_item_text t i | None => i end) :: rest)
     | l => l
     end).

Definition broadcast_one (rc user : string) (m : WeixinMessage) (t vt : string) : hub Q L unit :=
  let* vctx := resolve_vctx_for_message rc user (group_id m) in
  let* ext := build_hub_ext_for_vctx vctx vt None in
  push_to_queue vt (set_head_text t (set_context m (Some vctx) ext)).

(** [for x in l { f(x).await }]. *)
Fixpoint for_each {A} (l : list A) (f : A -> hub Q L unit) : hub Q L unit :=
  match l with
  | [] => ret tt
  | x :: l => f x ;; for_each l f
  end.

Definition handle_cmd_broadcast (user rc : string) (m : WeixinMessage) (t : string) : hub Q L string :=
  let* visible := user_visible user in
  let* targets := reads (fun w =>
    Registry.vtoken <$> List.filter (allowed_in visible) (online_clients (w_registry w))) in
  for_each targets (broadcast_one rc user m t) ;;
  ret ("📡 Broadcast to " +:+ show_nat (length targets) +:+ " client(s)").

Definition handle_cmd_status (user : string) : hub Q L string :=
  let* visible := user_visible user in
  let* all := reads (fun w => all_clients_in (w_registry w) visible) in
  let up := List.filter online all in
  let* r := db_timeout (query (get_all_session_entries_per_vtoken (Registry.vtoken <$> up))) in
  let entries := match r with Some (Ok m) => m | _ => ∅ end in
  let* now := reads (fun w => now_secs (w_env w)) in
  ret (hub_status now (length up) (length all)
         ((fun c => (name c, default [] (entries !! Registry.vtoken c))) <$> up)).

Definition handle_cmd_help : hub Q L string := ret build_help_text.

Definition session_list_line (active : string) (p : string * string) : string :=
  let '(n, id) := p in
  "• " +:+ quoted_name n +:+ (if (n =? active)%string then " ✅" else "") +:+ " — " +:+
  (if is_empty id then SESSION_SLOT_NO_UUID else quoted_name (take_chars 12 id)).

Definition handle_cmd_session_list (user rc : string) (group : option string) : hub Q L string :=
  let* p := resolve_vctx_and_vtoken rc user group in
  match p with
  | (_, None) => ret NO_BACKEND
  | (vctx, Some vt) =>
      let* backend := reads (fun w =>
        unwrap_or (name <$> List.find (fun c => (Registry.vtoken c =? vt)%string)
                              (all_clients (w_registry w))) (redact_token vt)) in
      let* a := db (query (get_active_session_name vctx vt)) in
      let active := match a with Ok n => n | Err _ => "default" end in
      let* r := db (query (list_backend_sessions vctx vt)) in
      match r with
      | Ok [] => ret ("当前后端 " +:+ quoted_name backend +:+ " " +:+ SESSION_LIST_NO_SESSIONS)
      | Ok sessions =>
          ret (join nl
            ((("**后端 " +:+ quoted_name backend +:+ " 的 sessions：**")
                :: (session_list_line active <$> sessions)) ++
             [nl +:+ "当前活跃：" +:+ quoted_name active; SESSION_LIST_SWITCH_HINT]))
      | Err e => ret (session_list_failed e)
      end
  end.

Definition handle_cmd_session_new (user rc : string) (group : option string) (n uuid : string)
    : hub Q L string :=
  let* p := resolve_vctx_and_vtoken rc user group in
  match p with
  | (_, None) => ret NO_BACKEND
  | (vctx, Some vt) =>
      let* now := reads (fun w => now_secs (w_env w)) in
      let* r := db (exec (set_backend_session now vctx vt n uuid)) in
      match r with
      | Ok _ =>
          let* r := db (exec (set_active_session_name now vctx vt n)) in
          match r with
          | Ok _ => ret (session_new_ok n)
          | Err e => ret (session_new_created_switch_failed n e)
          end
      | Err e => ret (session_new_failed e)
      end
  end.

Definition handle_cmd_session_use (user rc : string) (group : option string) (n : string)
    : hub Q L string :=
  let* p := resolve_vctx_and_vtoken rc user group in
  match p with
  | (_, None) => ret NO_BACKEND
  | (vctx, Some vt) =>
      let* now := reads (fun w => now_secs (w_env w)) in
      let* r := db (query (get_backend_session vctx vt n)) in
      let* ensure :=
        match r with
        | Ok None =>
            let* r := db (exec (set_backend_session now vctx vt n "")) in
            match r with
            | Ok _ => ret (Ok tt)
            | Err e => ret (Err (session_use_slot_create_failed e))
            end
        | Err e => ret (Err (session_use_query_failed e))
        | Ok (Some _) => ret (Ok tt)
        end in
      match ensure with
      | Err t => ret t
      | Ok _ =>
          let* r := db (exec (set_active_session_name now vctx vt n)) in
          match r with
          | Ok _ => ret (session_use_ok n)
          | Err e => ret (session_use_failed e)
          end
      end
  end.

Definition handle_cmd_session_delete (user rc : string) (group : option string) (n : string)
    : hub Q L string :=
  let* p := resolve_vctx_and_vtoken rc user group in
  match p with
  | (_, None) => ret NO_BACKEND
  | (vctx, Some vt) =>
      let* a := db (query (get_active_session_name vctx vt)) in
      let active := match a with Ok n => n | Err _ => "default" end in
      if (n =? active)%string then ret (session_delete_active_error n)
      else
        let* r := db (delete_backend_session vctx vt n) in
        match r with
        | Ok true => ret (session_delete_ok n)
        | Ok false => ret (session_delete_not_found n)
        | Err e => ret (session_delete_failed e)
        end
  end.

Definition run_command (m : WeixinMessage) (rc user : string) (cmd : HubCommand) : hub Q L string :=
  match cmd with
  | List_ => handle_cmd_list user
  | UseClient n => handle_cmd_use user n
  | Broadcast_ t => handle_cmd_broadcast user rc m t
  | Status => handle_cmd_status user
  | Help => handle_cmd_help
  | SessionList => handle_cmd_session_list user rc (group_id m)
  | SessionNew n uuid => handle_cmd_session_new user rc (group_id m) n uuid
  | SessionUse n => handle_cmd_session_use user rc (group_id m) n
  | SessionDelete n => handle_cmd_session_delete user rc (group_id m) n
  end.

Definition handle_hub_command (m : WeixinMessage) (cmd : HubCommand) : hub Q L unit :=
  match ofilter (fun c => negb (is_empty c)) (context_token m) with
  | None => ret tt
  | Some rc =>
      let user := unwrap_or (from_user_id m) "" in
      let* t := run_command m rc user cmd in
      let* req := reply_request rc t user in
      let* _ := send_message req in
      ret tt
  end.
End Commands.
