(* ===== verification/Dispatch.v ===== *)
(** * Inbound dispatch ([src/src/hub/dispatch/mention.rs], [pipeline.rs])

    What the hub does with one message received from upstream: the [@backend]
    shortcut, routing with quote-reply override, forwarding to one backend and the
    broadcast fan-out. *)
From S2P Require Import Prelude StrLemmas Types Queue Router Footer VToken Registry Acl Store PollTracker Hub Resolve Commands.
Import Str QuoteRoute.
Local Open Scope hub_scope.

(** [set_first_text_item]. *)
Fixpoint set_first_text (t : string) (l : list MessageItem) : list MessageItem :=
  match l with
  | [] => []
  | i :: l => match text_item i with
              | Some _ => set_item_text t i :: l
              | None => i :: set_first_text t l
              end
  end.

Definition set_first_text_item (m : WeixinMessage) (t : string) : WeixinMessage :=
  set_items m (set_first_text t <$> item_list m).

(** [build_no_backend_reply]. *)
Definition build_no_backend_reply (user_text : option string) : string :=
  if match user_text with Some t => starts_with "/" (trim t) | None => false end
  then UNRECOGNIZED_COMMAND else NO_BACKEND_ONLINE.

Section Dispatch.
Context {Q L : Type} `{MessageQueue Q}.

Definition nonempty_ctx (m : WeixinMessage) : option string :=
  ofilter (fun c => negb (is_empty c)) (context_token m).

Definition handle_at_mention (m : WeixinMessage) (vt payload : string) : hub Q L unit :=
  match nonempty_ctx m with
  | None => ret tt
  | Some rc =>
      let* vctx := resolve_vctx_for_message rc (unwrap_or (from_user_id m) "") (group_id m) in
      let* stamp := reads (fun w => local_stamp_ms (w_env w)) in
      let session := "at-" +:+ stamp in
      let* now := reads (fun w => now_secs (w_env w)) in
      let* _ := db (exec (set_backend_session now vctx vt session "")) in
      let* ext := build_hub_ext_for_vctx vctx vt (Some session) in
      push_to_queue vt (set_context (set_first_text_item m payload) (Some vctx) ext)
  end.

(** [hub_ext.session_name] or ["default"]. *)
Definition ext_session (e : option HubExt) : string :=
  unwrap_or (e ≫= ext_session_name) "default".

(** The [ForwardTo] arm of [dispatch_message]. *)
Definition forward (m : WeixinMessage) (vt : string) (session_override : option string)
    : hub Q L unit :=
  match nonempty_ctx m with
  | None => ret tt
  | Some rc =>
      let peer := unwrap_or (from_user_id m) "" in
      let* vctx := resolve_vctx_for_message rc peer (group_id m) in
      let* ext := build_hub_ext_for_vctx vctx vt session_override in
      let* now := reads (fun w => now_secs (w_env w)) in
      let* _ := db (exec (set_active_session_with_depth now vctx vt (ext_session ext) 0)) in
      match text m with
      | Some content =>
          spawn {| t_vctx := vctx; t_vtoken := vt; t_session := ext_session ext; t_peer := peer;
                   t_role := "user"; t_content := content; t_msg_id := None |}
      | None => ret tt
      end ;;
      push_to_queue vt (set_context m (Some vctx) ext)
  end.

(** One recipient of [handle_broadcast]. *)
Definition broadcast_to (m : WeixinMessage) (vctx : string)
    (exts : gmap (string * string) (string * option string)) (vt : string) : hub Q L unit :=
  let ext := (fun p : string * option string => session_ext p.2 p.1) <$> exts !! (vctx, vt) in
  let* now := reads (fun w => now_secs (w_env w)) in
  let* _ := db (exec (set_active_session_with_depth now vctx vt (ext_session ext) 0)) in
  push_shared_to_queue vt m (Some vctx) ext.

Definition handle_broadcast (m : WeixinMessage) : hub Q L unit :=
  let* targets := reads (fun w => Registry.vtoken <$> online_clients (w_registry w)) in
  match targets with
  | [] =>
      count Dropped ;;
      match nonempty_ctx m with
      | Some rc =>
          let* req := reply_request rc (build_no_backend_reply (text m))
                        (unwrap_or (from_user_id m) "") in
          let* _ := send_message req in
          ret tt
      | None => ret tt
      end
  | _ =>
      match nonempty_ctx m with
      | None => ret tt
      | Some rc =>
          let* vctx := resolve_vctx_for_message rc (unwrap_or (from_user_id m) "") (group_id m) in
          let* r := db (query (get_hub_ext_batch ((fun vt => (vctx, vt)) <$> targets))) in
          let exts := match r with Ok x => x | Err _ => ∅ end in
          for_each targets (broadcast_to m vctx exts)
      end
  end.

(** The backend an [@] shortcut names, if the user may see it. *)
Definition mentioned_backend (m : WeixinMessage) : hub Q L (option (string * string)) :=
  match text m ≫= parse_at_mention with
  | None => ret None
  | Some (backend, payload) =>
      let* visible := user_visible (unwrap_or (from_user_id m) "") in
      reads (fun w => (fun c => (Registry.vtoken c, payload))
                      <$> get_by_alias_in (w_registry w) backend visible)
  end.

Definition act_on (m : WeixinMessage) (d : RoutingDecision) : hub Q L unit :=
  match d with
  | HubInternal cmd => handle_hub_command m cmd
  | ForwardTo vt session_override => forward m vt session_override
  | Broadcast => handle_broadcast m
  end.

(** Routing of a message that is not an [@] shortcut. *)
Definition decide_routing (m : WeixinMessage) : hub Q L RoutingDecision :=
  let* base := reads (fun w => route (local_stamp (w_env w)) (w_router w) m) in
  let* quoted := resolve_quote m in
  match quoted, collect_quoted_timestamp m with
  | None, Some _ => count QuoteMiss
  | _, _ => ret tt
  end ;;
  ret (merge_routing_with_quote base quoted).

Definition dispatch_body (m : WeixinMessage) : hub Q L unit :=
  if bool_decide (message_type m = Some 2%Z) then ret tt else
  count UserMessage ;;
  let* mention := mentioned_backend m in
  match mention with
  | Some (vt, payload) => handle_at_mention m vt payload
  | None => let* d := decide_routing m in act_on m d
  end.

(** [dispatch_message]; [ns] is the time it took. *)
Definition dispatch_message (ns : Z) (m : WeixinMessage) : hub Q L unit :=
  dispatch_body m ;;
  changes (fun w => with_metrics (observe_dispatch ns (w_metrics w)) w).

(** The loop of [spawn_dispatcher] over the messages it receives. *)
Definition dispatch_all (ms : list (Z * WeixinMessage)) : hub Q L unit :=
  for_each ms (fun p => dispatch_message p.1 p.2).
End Dispatch.
