(* ===== verification/HubLemmas.v ===== *)
(** * Reasoning about hub handlers

    Which components a handler leaves alone ([keeps]), and what database calls do
    when the environment has no fault in supply. *)
From S2P Require Import Prelude StrLemmas Types Queue Router Footer VToken Registry Acl Store StoreProps PollTracker Hub Resolve Commands Dispatch.
Import Str QuoteRoute.
Local Open Scope hub_scope.

Create HintDb keeps.

Section Keeps.
Context {Q L : Type}.
Implicit Types w : World Q L.

Lemma bind_run {A B} (m : hub Q L A) (k : A -> hub Q L B) w :
  bind m k w = k (m w).1 (m w).2.
Proof. unfold bind. by destruct (m w). Qed.

(** [keeps f m]: running [m] does not change the component [f]. *)
Definition keeps {X A} (f : World Q L -> X) (m : hub Q L A) : Prop := forall w, f (m w).2 = f w.

Lemma keeps_ret {X A} (f : World Q L -> X) (x : A) : keeps f (ret x).
Proof. done. Qed.

Lemma keeps_reads {X A} (f : World Q L -> X) (g : World Q L -> A) : keeps f (reads g).
Proof. done. Qed.

Lemma keeps_bind {X A B} (f : World Q L -> X) (m : hub Q L A) (k : A -> hub Q L B) :
  keeps f m -> (forall x, keeps f (k x)) -> keeps f (bind m k).
Proof. intros Hm Hk w. rewrite bind_run, Hk. apply Hm. Qed.

Lemma keeps_for_each {X A} (f : World Q L -> X) (l : list A) (g : A -> hub Q L unit) :
  (forall x, keeps f (g x)) -> keeps f (for_each l g).
Proof. intros Hg. induction l as [|x l IH]; [apply keeps_ret|]. by apply keeps_bind. Qed.

Lemma keeps_changes {X} (f : World Q L -> X) (g : World Q L -> World Q L) :
  (forall w, f (g w) = f w) -> keeps f (changes g).
Proof. done. Qed.

(** A component that is neither the store nor the environment. *)
Class Aside {X} (f : World Q L -> X) : Prop := {
  aside_store : forall s w, f (with_store s w) = f w;
  aside_env : forall e w, f (with_env e w) = f w;
}.

Lemma keeps_fault {X} (f : World Q L -> X) `{!Aside f} : keeps f next_fault.
Proof. intros w. unfold next_fault. destruct (faults (w_env w)); [done|]. apply aside_env. Qed.

Lemma keeps_uuid {X} (f : World Q L -> X) `{!Aside f} : keeps f new_uuid.
Proof. intros w. unfold new_uuid. destruct (uuids (w_env w)); [done|]. apply aside_env. Qed.

Lemma keeps_db {X A} (f : World Q L -> X) `{!Aside f} (g : Store -> A * Store) : keeps f (db g).
Proof.
  apply keeps_bind; [by apply keeps_fault|]. intros [| |] w; cbn; [|done|done].
  destruct (g (w_store w)). apply aside_store.
Qed.

Lemma keeps_db_timeout {X A} (f : World Q L -> X) `{!Aside f} (g : Store -> A * Store) :
  keeps f (db_timeout g).
Proof.
  apply keeps_bind; [by apply keeps_fault|]. intros [| |] w; cbn; [|done|done].
  destruct (g (w_store w)). apply aside_store.
Qed.

#[global] Instance aside_registry : Aside w_registry. Proof. done. Qed.
#[global] Instance aside_router : Aside w_router. Proof. done. Qed.
#[global] Instance aside_queue : Aside w_queue. Proof. done. Qed.
#[global] Instance aside_acl : Aside w_acl. Proof. done. Qed.
#[global] Instance aside_outbox : Aside w_outbox. Proof. done. Qed.
#[global] Instance aside_tasks : Aside w_tasks. Proof. done. Qed.
#[global] Instance aside_metrics : Aside w_metrics. Proof. done. Qed.
End Keeps.

#[export] Hint Resolve keeps_ret keeps_reads keeps_bind keeps_for_each keeps_uuid keeps_db
  keeps_db_timeout : keeps.
#[export] Hint Extern 2 (keeps _ (changes _)) => by apply keeps_changes : keeps.
#[export] Hint Extern 2 (keeps _ (count _)) => by apply keeps_changes : keeps.
#[export] Hint Extern 2 (keeps _ (spawn _)) => by apply keeps_changes : keeps.
#[export] Hint Extern 4 (keeps _ (match ?x with _ => _ end)) => destruct x : keeps.
#[export] Hint Extern 4 (keeps _ (if ?x then _ else _)) => destruct x : keeps.

#[export] Hint Extern 1 (Aside _) => apply _ : keeps.

(** One step of a handler: a read of the state, one change, several changes. *)
Ltac run_read := rewrite bind_run; cbn [reads ret fst snd].
Ltac run_change := rewrite bind_run; cbn [count changes fst snd].
Ltac run_changes := rewrite !bind_run; cbn [changes fst snd].

Ltac keeps := intros; eauto 20 with keeps.

(** A query that answers, answers with what the store holds. *)
Lemma query_answer {Q L A} (f : Store -> A) (w : World Q L) x :
  (db_timeout (query f) w).1 = Some (Ok x) -> x = f (w_store w).
Proof.
  unfold db_timeout. rewrite bind_run. unfold next_fault.
  destruct (faults (w_env w)) as [|[| |] fs]; cbn; congruence.
Qed.

Section NoFaults.
Context {Q L : Type} `{MessageQueue Q}.
Implicit Types w : World Q L.

(** The environment has no fault in supply. *)
Definition healthy w : Prop := faults (w_env w) = [].

Lemma db_healthy {A} (f : Store -> A * Store) w :
  healthy w -> db f w = (Ok (f (w_store w)).1, with_store (f (w_store w)).2 w).
Proof.
  intros Hf. unfold db, bind, next_fault. rewrite Hf. by destruct (f (w_store w)).
Qed.

Lemma db_timeout_healthy {A} (f : Store -> A * Store) w :
  healthy w -> db_timeout f w = (Some (Ok (f (w_store w)).1), with_store (f (w_store w)).2 w).
Proof.
  intros Hf. unfold db_timeout, bind, next_fault. rewrite Hf. by destruct (f (w_store w)).
Qed.

(** Everything but the supply of UUIDs and faults is the same. *)
Lemma query_healthy {A} (f : Store -> A) w :
  healthy w -> (db_timeout (query f) w).1 = Some (Ok (f (w_store w))) /\
               w_store (db_timeout (query f) w).2 = w_store w.
Proof. intros Hf. by rewrite db_timeout_healthy. Qed.
End NoFaults.
