(* ===== verification/DispatchProps.v ===== *)
(** * Properties of inbound dispatch

    Delivery, reply authority, quote routing and the behaviour under database
    faults, proved against the queue interface. *)
From S2P Require Import Prelude StrLemmas Types Queue Router Footer VToken Registry Acl Store StoreProps PollTracker Hub Resolve Commands Dispatch HubLemmas.
Import Str QuoteRoute.
Local Open Scope hub_scope.

(** ** The store outside the context table *)

(** [s'] differs from [s] at most in its context table. *)
Definition same_but_ctx (s s' : Store) : Prop := s' = set_context_token_map (context_token_map s') s.

Lemma same_but_ctx_refl s : same_but_ctx s s.
Proof. by destruct s. Qed.

Lemma same_but_ctx_put v rc key s : same_but_ctx s (put_ctx v rc key s).
Proof. done. Qed.

Lemma find_or_create_same arbiter u1 u2 peer group rc s :
  same_but_ctx s (find_or_create_vctx arbiter u1 u2 peer group rc s).2.
Proof.
  unfold find_or_create_vctx, upsert_ctx, two_step_ctx. cbv zeta.
  repeat (case_match; simplify_eq); cbn;
    auto using same_but_ctx_refl, same_but_ctx_put.
Qed.

Section Delivery.
Context {Q L : Type} `{MessageQueueLaws Q}.
Implicit Types (w : World Q L) (m : WeixinMessage).

(** ** Delivery under faults *)

Lemma keeps_resolve_vctx {X} (f : World Q L -> X) `{!Aside f} rc peer group :
  keeps f (resolve_vctx_for_message rc peer group).
Proof. unfold resolve_vctx_for_message. keeps. Qed.

Lemma keeps_build_ext {X} (f : World Q L -> X) `{!Aside f} vctx vt so :
  keeps f (build_hub_ext_for_vctx vctx vt so).
Proof. unfold build_hub_ext_for_vctx. keeps. Qed.

Lemma keeps_count_push {X} (f : World Q L -> X) vt r :
  (forall x w, f (with_metrics x w) = f w) -> keeps f (count_push vt r).
Proof. intros Hf. destruct r as [[]|]; cbn; repeat apply keeps_bind; intros; try apply keeps_changes; auto. Qed.

(** What a queue holds for a backend after a push of [m] to [vt]: one more message,
    unless its queue was full. *)
Definition delivered w w' (vt : string) (m : WeixinMessage) : Prop :=
  (forall v, v <> vt -> mq_pending (w_queue w') v = mq_pending (w_queue w) v) /\
  ((exists id, mq_pending (w_queue w') vt = mq_pending (w_queue w) vt ++ [set_seq m (Some id)]) \/
   (exists r, (mq_push (w_queue w) vt m).1 = r /\ r <> Ok false)).

Lemma push_delivers w vt m : delivered w (push_to_queue vt m w).2 vt m.
Proof.
  unfold push_to_queue. rewrite bind_run. destruct (mq_push (w_queue w) vt m) as [r q] eqn:E. cbn.
  assert (Hq : w_queue (count_push vt r (with_queue q w)).2 = q) by (by rewrite keeps_count_push).
  split.
  - intros v Hv. rewrite Hq. eapply mq_push_other; eauto.
  - rewrite Hq, E. destruct r as [[]|e]; [right; by exists (Ok true)| |right; by exists (Err e)].
    left. by eapply mq_push_accepted.
Qed.

Lemma delivered_from w1 w w' vt m :
  w_queue w1 = w_queue w -> delivered w1 w' vt m -> delivered w w' vt m.
Proof. intros Hq. unfold delivered. by rewrite Hq. Qed.

(** The part of [forward] before the push. *)
Lemma forward_any w m vt so rc :
  nonempty_ctx m = Some rc ->
  exists vctx ext, delivered w (forward m vt so w).2 vt (set_context m (Some vctx) ext).
Proof.
  intros Hrc. unfold forward. rewrite Hrc, !bind_run. cbn [reads fst snd].
  set (p := resolve_vctx_for_message _ _ _ w). set (e := build_hub_ext_for_vctx _ _ _ _).
  exists p.1, e.1. eapply delivered_from; [|apply push_delivers].
  transitivity (w_queue e.2).
  - destruct (text m); cbn; by rewrite keeps_db.
  - unfold e. rewrite (keeps_build_ext w_queue). apply (keeps_resolve_vctx w_queue).
Qed.

(** ** Delivery without faults *)

(** What a healthy lookup of the conversation's context returns. *)
Lemma resolve_vctx_healthy w rc peer group u1 u2 us :
  healthy w -> uuids (w_env w) = u1 :: u2 :: us -> ctx_ok (w_store w) ->
  context_token_map (w_store w) !! ("vctx_" +:+ u1) = None ->
  context_token_map (w_store w) !! ("vctx_" +:+ u2) = None -> conv_key peer group <> "" ->
  (forall v c, context_token_map (w_store w) !! v = Some c -> real_ctx c = rc ->
               ctx_peer c = conv_key peer group) ->
  exists vctx s', resolve_vctx_for_message rc peer group w
    = (vctx, with_store s' (with_env (set_uuids us (w_env w)) w)) /\
    vctx_post (conv_key peer group) rc (w_store w) (Ok vctx, s') /\ same_but_ctx (w_store w) s'.
Proof.
  intros Hh Hu Hok Hfresh1 Hfresh Hkey Hrc. unfold resolve_vctx_for_message.
  unfold bind at 1, new_uuid at 1. rewrite Hu. unfold bind at 1, new_uuid at 1. cbn -[db find_or_create_vctx].
  rewrite bind_run, db_healthy by exact Hh. cbn -[find_or_create_vctx].
  set (r := find_or_create_vctx _ _ _ _ _ _ _).
  assert (Hpost : vctx_post (conv_key peer group) rc (w_store w) r).
  { destruct (vctx_stable_aux (upsert_arbiter (w_env w)) u1 u2 peer group rc (w_store w) Hok Hfresh)
      as [Hp|[Hs _]]; [exact Hp|]. rewrite Hfresh1 in Hs. by destruct Hs. }
  pose proof (find_or_create_same (upsert_arbiter (w_env w)) u1 u2 peer group rc (w_store w)) as Hsame.
  fold r in Hsame. destruct r as [[v|err] s']; cbn in *.
  - exists v, s'. done.
  - destruct Hpost as (_ & v & c & Hc & Hr & Hne). by destruct (Hne Hkey); eapply Hrc.
Qed.

(** The session metadata a healthy store yields. *)
Definition ext_value (s : Store) (vctx vt : string) (so : option string) : HubExt :=
  match ofilter (fun n => negb (is_empty n)) so with
  | Some n =>
      session_ext (get_backend_session vctx vt n s ≫= fun i =>
                     if is_empty (trim i) then None else Some (trim i)) n
  | None => let '(n, sid) := get_hub_ext_single vctx vt s in session_ext sid n
  end.

Lemma with_store_id w : with_store (w_store w) w = w.
Proof. by destruct w. Qed.

Lemma build_ext_healthy w vctx vt so :
  healthy w -> build_hub_ext_for_vctx vctx vt so w = (Some (ext_value (w_store w) vctx vt so), w).
Proof.
  intros Hh. unfold build_hub_ext_for_vctx, ext_value.
  destruct (ofilter _ so) as [n|]; rewrite bind_run, db_timeout_healthy by done; cbn.
  - rewrite with_store_id. by destruct (get_backend_session vctx vt n (w_store w)).
  - rewrite with_store_id. by destruct (get_hub_ext_single vctx vt (w_store w)).
Qed.

Lemma keeps_push {X} (f : World Q L -> X) vt m :
  (forall x w, f (with_metrics x w) = f w) -> (forall x w, f (with_queue x w) = f w) ->
  keeps f (push_to_queue vt m).
Proof.
  intros Hm Hq. apply keeps_bind; [|intros; by apply keeps_count_push].
  intros w. cbn. destruct (mq_push (w_queue w) vt m). apply Hq.
Qed.

(** Hypotheses of the theorems on delivery: the conversation of [m] is known by its
    sender or group, its context token is not taken by another one, and fresh
    UUIDs are at hand. *)
Record arrives w m (rc : string) : Prop := {
  arr_ctx : nonempty_ctx m = Some rc;
  arr_key : conv_key (unwrap_or (from_user_id m) "") (group_id m) <> "";
  arr_free : forall v c, context_token_map (w_store w) !! v = Some c -> real_ctx c = rc ->
               ctx_peer c = conv_key (unwrap_or (from_user_id m) "") (group_id m);
  arr_ok : ctx_ok (w_store w);
  arr_fresh : exists u1 u2 us, uuids (w_env w) = u1 :: u2 :: us /\
                context_token_map (w_store w) !! ("vctx_" +:+ u1) = None /\
                context_token_map (w_store w) !! ("vctx_" +:+ u2) = None;
}.

Definition conversation m : string := conv_key (unwrap_or (from_user_id m) "") (group_id m).

(** A backend that was sent [m] may answer it: its token owns the virtual context
    it was given, which leads back to the conversation of [m]. *)
Definition may_answer w m (rc vctx vt session : string) : Prop :=
  forall t, (t < grant_expires_at (now_secs (w_env w)) (w_store w))%Z ->
    resolve_send_context t vctx vt (w_store w) = Some (rc, conversation m, session).

Lemma forward_healthy w m vt so rc :
  healthy w -> arrives w m rc ->
  exists vctx ext, let w' := (forward m vt so w).2 in
    delivered w w' vt (set_context m (Some vctx) (Some ext)) /\
    may_answer w' m rc vctx vt (ext_session (Some ext)) /\
    (forall n, ofilter (fun n => negb (is_empty n)) so = Some n -> ext_session_name ext = Some n) /\
    ctx_ok (w_store w').
Proof.
  intros Hh [Hrc Hkey Hfree Hok (u1 & u2 & us & Hu & Hfresh1 & Hfresh)].
  destruct (resolve_vctx_healthy w rc (unwrap_or (from_user_id m) "") (group_id m) u1 u2 us)
    as (vctx & s' & Hr & (Hok' & Hrow & _) & Hsame); [done..|].
  set (w1 := with_store s' (with_env (set_uuids us (w_env w)) w)) in *.
  set (ext := ext_value s' vctx vt so).
  set (w2 := with_store (set_active_session_with_depth (now_secs (w_env w)) vctx vt
                           (ext_session (Some ext)) 0 s') w1).
  set (w3 := match text m with
             | Some content => with_tasks (w_tasks w ++ [{| t_vctx := vctx; t_vtoken := vt;
                 t_session := ext_session (Some ext); t_peer := unwrap_or (from_user_id m) "";
                 t_role := "user"; t_content := content; t_msg_id := None |}]) w2
             | None => w2 end).
  assert (Hf : forward m vt so w = push_to_queue vt (set_context m (Some vctx) (Some ext)) w3).
  { unfold forward. rewrite Hrc, bind_run, Hr. cbn [fst snd].
    rewrite bind_run, build_ext_healthy by exact Hh. cbn [fst snd].
    rewrite !bind_run. cbn [reads fst snd]. rewrite db_healthy by exact Hh.
    by destruct (text m). }
  exists vctx, ext. rewrite Hf.
  assert (Hst : w_store w3 = w_store w2) by (unfold w3; by destruct (text m)).
  assert (Hen : now_secs (w_env w3) = now_secs (w_env w)) by (unfold w3; by destruct (text m)).
  split; [|split; [|split]].
  - eapply delivered_from; [|apply push_delivers]. unfold w3. by destruct (text m).
  - intros t. rewrite (keeps_push w_store) by done.
    rewrite (keeps_push (fun w => now_secs (w_env w))) by done.
    rewrite Hst, Hen. intros Ht.
    by apply (grant_resolves (now_secs (w_env w)) t vctx vt (ext_session (Some ext)) 0 s' _ Ht) in Hrow.
  - intros n Hn. unfold ext, ext_value. by rewrite Hn.
  - rewrite (keeps_push w_store) by done. rewrite Hst. destruct Hok' as [H1 H2]. split; cbn; eauto.
Qed.

(** ** Routing without faults *)

Lemma timeout_query_healthy {A} (f : Store -> A) w :
  healthy w -> db_timeout (query f) w = (Some (Ok (f (w_store w))), w).
Proof. intros Hh. rewrite db_timeout_healthy by done. cbn. by rewrite with_store_id. Qed.

(** What the resolvers answer on a healthy store. *)
Definition origin (reg : ClientRegistry) (vt : string) (session : option string) : QuoteOrigin :=
  match get_by_vtoken reg vt with
  | Some c => Client vt (name c) (label c) session
  | None => Client vt vt None session
  end.

Definition row_value (reg : ClientRegistry) (r : option (string * option string))
    : option QuoteOrigin :=
  '(vt, session) ← r; if is_empty vt then None else Some (origin reg vt session).

Definition msg_id_value (reg : ClientRegistry) (s : Store) m : option QuoteOrigin :=
  id ← collect_quoted_msg_id m ≫= (fun raw => parse_i64 (trim raw)); peer ← derive_peer_scope m;
  row_value reg (find_assistant_message_by_msg_id peer id s).

Definition timestamp_value (reg : ClientRegistry) (s : Store) m : option QuoteOrigin :=
  ms ← collect_quoted_timestamp m; peer ← derive_peer_scope m;
  row_value reg (find_assistant_message_by_timestamp peer (Z.quot ms 1000) 10 s).

Definition content_value (reg : ClientRegistry) (s : Store) m : option QuoteOrigin :=
  '(quoted, _) ← collect_quoted m; peer ← derive_peer_scope m;
  let prefix := take_chars 48 (trim quoted) in
  if is_empty prefix then None else if is_empty (trim prefix) then None
  else row_value reg (find_assistant_message_by_content peer prefix s).

Definition footer_value (reg : ClientRegistry) (s : Store) m : option QuoteOrigin :=
  '(n, session) ← footer_from_user_quote m;
  match get_by_name reg n with
  | Some c => Some (Client (Registry.vtoken c) (name c) (label c) session)
  | None =>
      skey ← (if starts_with "at-" n || starts_with "session-" n then Some n else session);
      scope ← derive_peer_scope m; vctx ← find_vctx_for_scope scope s;
      vt ← find_vtoken_for_session vctx skey s; Some (origin reg vt (Some skey))
  end.

Definition quote_value (reg : ClientRegistry) (s : Store) m : option QuoteOrigin :=
  msg_id_value reg s m <|> timestamp_value reg s m <|> content_value reg s m <|> footer_value reg s m.

Lemma origin_of_row_healthy r w :
  @origin_of_row Q L (Some (Ok r)) w = (row_value (w_registry w) r, w).
Proof. destruct r as [[vt so]|]; cbn; [|done]. by destruct (is_empty vt). Qed.

Lemma msg_id_healthy m w :
  healthy w -> resolve_quote_from_msg_id m w = (msg_id_value (w_registry w) (w_store w) m, w).
Proof.
  intros Hh. unfold resolve_quote_from_msg_id, msg_id_value.
  destruct (collect_quoted_msg_id m ≫= _); [|done]. destruct (derive_peer_scope m); [|done].
  rewrite bind_run, timeout_query_healthy by done. apply origin_of_row_healthy.
Qed.

Lemma timestamp_healthy m w :
  healthy w -> resolve_quote_from_timestamp m w = (timestamp_value (w_registry w) (w_store w) m, w).
Proof.
  intros Hh. unfold resolve_quote_from_timestamp, timestamp_value.
  destruct (collect_quoted_timestamp m); [|done]. destruct (derive_peer_scope m); [|done].
  rewrite bind_run, timeout_query_healthy by done. apply origin_of_row_healthy.
Qed.

Lemma content_healthy m w :
  healthy w -> resolve_quote_from_db m w = (content_value (w_registry w) (w_store w) m, w).
Proof.
  intros Hh. unfold resolve_quote_from_db, content_value. destruct (collect_quoted m) as [[q ?]|]; [|done].
  destruct (derive_peer_scope m); [|done]. cbn [mbind option_bind]. destruct (is_empty _); [done|].
  destruct (is_empty _); [done|]. rewrite bind_run, timeout_query_healthy by done.
  apply origin_of_row_healthy.
Qed.

Lemma footer_healthy m w :
  healthy w -> resolve_quote_from_footer m w = (footer_value (w_registry w) (w_store w) m, w).
Proof.
  intros Hh. unfold resolve_quote_from_footer, footer_value.
  destruct (footer_from_user_quote m) as [[n so]|]; [|done]. cbn [mbind option_bind].
  run_read. destruct (get_by_name _ n); [done|].
  destruct (if starts_with "at-" n || starts_with "session-" n then Some n else so) as [skey|]; [|done].
  destruct (derive_peer_scope m); [|done].
  rewrite bind_run, timeout_query_healthy by done. cbn [fst snd mbind option_bind].
  destruct (find_vctx_for_scope _ _); [|done].
  rewrite bind_run, timeout_query_healthy by done. cbn [fst snd mbind option_bind].
  by destruct (find_vtoken_for_session _ _ _).
Qed.

Lemma resolve_quote_healthy m w :
  healthy w -> resolve_quote m w = (quote_value (w_registry w) (w_store w) m, w).
Proof.
  intros Hh. unfold resolve_quote, first_of, quote_value. cbn [foldr].
  rewrite bind_run, msg_id_healthy by done. cbn [fst snd]. destruct (msg_id_value _ _ m); [done|].
  rewrite bind_run, timestamp_healthy by done. cbn [fst snd]. destruct (timestamp_value _ _ m); [done|].
  rewrite bind_run, content_healthy by done. cbn [fst snd]. destruct (content_value _ _ m); [done|].
  rewrite bind_run, footer_healthy by done. cbn [fst snd]. by destruct (footer_value _ _ m).
Qed.

(** Routing only counts. *)
Lemma decide_routing_healthy m w :
  healthy w -> exists c, decide_routing m w
    = (merge_routing_with_quote (route (local_stamp (w_env w)) (w_router w) m) (quote_value (w_registry w) (w_store w) m),
       with_metrics c w).
Proof.
  intros Hh. unfold decide_routing. rewrite !bind_run. cbn [reads fst snd].
  rewrite resolve_quote_healthy by done. cbn [fst snd].
  destruct (quote_value _ _ m), (collect_quoted_timestamp m); cbn;
    try (exists (w_metrics w); by destruct w). by eexists.
Qed.

Lemma mentioned_backend_world m w : (mentioned_backend m w).2 = w.
Proof. unfold mentioned_backend. by destruct (text m ≫= parse_at_mention) as [[]|]. Qed.

(** A message that is no echo and no shortcut is handled as its routing says, in a
    world that differs in its counters only. *)
Lemma dispatch_decided ns m w :
  healthy w -> message_type m <> Some 2%Z -> (mentioned_backend m w).1 = None ->
  exists c c', let w1 := with_metrics c w in
    let d := merge_routing_with_quote (route (local_stamp (w_env w)) (w_router w) m)
               (quote_value (w_registry w) (w_store w) m) in
    (dispatch_message ns m w).2 = with_metrics c' (act_on m d w1).2.
Proof.
  intros Hh Hty Hm. unfold dispatch_message, dispatch_body. rewrite bool_decide_false by done.
  rewrite !bind_run. cbn [count changes fst snd].
  set (wc := with_metrics (bump UserMessage (w_metrics w)) w).
  rewrite mentioned_backend_world.
  assert (Hmc : (mentioned_backend m wc).1 = None).
  { rewrite <- Hm. unfold mentioned_backend. by destruct (text m ≫= parse_at_mention) as [[]|]. }
  rewrite Hmc, bind_run.
  destruct (decide_routing_healthy m wc Hh) as (c & ->). cbn [fst snd].
  exists c. by eexists.
Qed.

Lemma arrives_metrics c w m rc : arrives w m rc -> arrives (with_metrics c w) m rc.
Proof. by intros [? ? ? ? ?]. Qed.

Lemma delivered_metrics c c' w w' vt m :
  delivered (with_metrics c w) w' vt m -> delivered w (with_metrics c' w') vt m.
Proof. done. Qed.

Lemma not_mentioned m w t : text m = Some t -> parse_at_mention t = None -> (mentioned_backend m w).1 = None.
Proof. intros Ht Hp. unfold mentioned_backend. rewrite Ht. cbn [mbind option_bind]. by rewrite Hp. Qed.

Lemma keeps_forward {X} (f : World Q L -> X) `{!Aside f} m vt so :
  (forall x w, f (with_metrics x w) = f w) -> (forall x w, f (with_queue x w) = f w) ->
  (forall x w, f (with_tasks x w) = f w) -> keeps f (forward m vt so).
Proof.
  intros Hm Hq Ht. unfold forward. destruct (nonempty_ctx m); [|keeps].
  apply keeps_bind; [by apply keeps_resolve_vctx|]. intros vctx.
  apply keeps_bind; [by apply keeps_build_ext|]. intros ext.
  apply keeps_bind; [keeps|]. intros now. apply keeps_bind; [by apply keeps_db|]. intros _.
  apply keeps_bind; [|intros; by apply keeps_push].
  destruct (text m); [|keeps]. by apply keeps_changes.
Qed.

(** A message whose routing is [ForwardTo]. *)
Lemma dispatch_forward ns w m rc vt so :
  healthy w -> message_type m <> Some 2%Z -> (mentioned_backend m w).1 = None -> arrives w m rc ->
  merge_routing_with_quote (route (local_stamp (w_env w)) (w_router w) m)
    (quote_value (w_registry w) (w_store w) m) = ForwardTo vt so ->
  exists vctx ext, let w' := (dispatch_message ns m w).2 in
    delivered w w' vt (set_context m (Some vctx) (Some ext)) /\
    may_answer w' m rc vctx vt (ext_session (Some ext)) /\
    (forall n, ofilter (fun n => negb (is_empty n)) so = Some n -> ext_session_name ext = Some n) /\
    w_router w' = w_router w /\ w_registry w' = w_registry w /\ w_outbox w' = w_outbox w.
Proof.
  intros Hh Hty Hm Harr Hd. destruct (dispatch_decided ns m w Hh Hty Hm) as (c & c' & He).
  cbv zeta in He. rewrite Hd in He. cbn [act_on] in He.
  destruct (forward_healthy (with_metrics c w) m vt so rc Hh (arrives_metrics c _ _ _ Harr))
    as (vctx & ext & H1 & H2 & H3 & _).
  exists vctx, ext. cbv zeta. rewrite He. repeat split; try exact H3.
  - apply H1.
  - apply H1.
  - exact H2.
  - by refine (keeps_forward w_router m vt so _ _ _ (with_metrics c w)).
  - by refine (keeps_forward w_registry m vt so _ _ _ (with_metrics c w)).
  - by refine (keeps_forward w_outbox m vt so _ _ _ (with_metrics c w)).
Qed.

(** (C1) Delivery of a plain message: with a working database, a text message that
    is neither a command nor a shortcut nor a resolvable quote is put, exactly once
    and unless that backend's queue is full, into the queue of the backend the user
    selected and into no other; the copy carries a virtual context the backend may
    answer in until its grant expires, and which leads back to this conversation;
    routes, registry and upstream are not touched. *)
Theorem plain_message_delivered (w : World Q L) (m : WeixinMessage) (ns : Z) (t vt rc : string)
    (Hh : healthy w) (Hty : message_type m <> Some 2%Z) (Htext : text m = Some t)
    (Hcmd : parse_hub_command (local_stamp (w_env w)) t = None)
    (Hat : parse_at_mention t = None)
    (Hq : quote_value (w_registry w) (w_store w) m = None)
    (Hroute : get_route (w_router w) (unwrap_or (from_user_id m) "") = Some vt)
    (Harr : arrives w m rc) :
  exists vctx ext, let w' := (dispatch_message ns m w).2 in
    delivered w w' vt (set_context m (Some vctx) (Some ext)) /\
    may_answer w' m rc vctx vt (ext_session (Some ext)) /\
    w_router w' = w_router w /\ w_registry w' = w_registry w /\ w_outbox w' = w_outbox w.
Proof.
  destruct (dispatch_forward ns w m rc vt None) as (vctx & ext & H1 & H2 & _ & H3); auto.
  - by eapply not_mentioned.
  - rewrite Hq. unfold route. rewrite Htext. cbn [mbind option_bind]. by rewrite Hcmd, Hroute.
  - by exists vctx, ext.
Qed.

(** (C5) Quote replies return to their author: when a user quotes an assistant
    message that the history holds under its message id, in the same conversation,
    the reply is delivered to the backend and the session that wrote the quoted
    message, whatever backend and session the user has selected meanwhile. *)
Theorem quote_reply_returns (w : World Q L) (m : WeixinMessage) (ns : Z) (t other rc raw scope : string)
    (id : Z) (row : MessageRow) (vt : string)
    (Hh : healthy w) (Hty : message_type m <> Some 2%Z) (Htext : text m = Some t)
    (Hcmd : parse_hub_command (local_stamp (w_env w)) t = None)
    (Hat : parse_at_mention t = None)
    (Hroute : get_route (w_router w) (unwrap_or (from_user_id m) "") = Some other)
    (Hraw : collect_quoted_msg_id m = Some raw) (Hid : parse_i64 (trim raw) = Some id)
    (Hscope : derive_peer_scope m = Some scope)
    (Hrow : row ∈ messages (w_store w)) (Hvt : m_vtoken row = Some vt) (Hne : vt <> "")
    (Hses : m_session row <> "") (Hpeer : m_peer row = scope) (Hrole : m_role row = "assistant")
    (Hrid : m_ilink_msg_id row = Some id)
    (Huniq : forall r, r ∈ messages (w_store w) -> m_ilink_msg_id r = Some id -> r = row)
    (Harr : arrives w m rc) :
  exists vctx ext, let w' := (dispatch_message ns m w).2 in
    delivered w w' vt (set_context m (Some vctx) (Some ext)) /\
    ext_session_name ext = Some (m_session row) /\
    may_answer w' m rc vctx vt (m_session row) /\ w_router w' = w_router w.
Proof.
  assert (Hf : find_assistant_message_by_msg_id scope id (w_store w) = Some (vt, Some (m_session row))).
  { unfold find_assistant_message_by_msg_id, row_origin.
    destruct (find_Some_iff (fun r => bool_decide (m_ilink_msg_id r = Some id))
                (assistant_rows scope (w_store w))) as [_ [r Hr]].
    { exists row. rewrite bool_decide_true by done. split; [|done]. unfold assistant_rows.
      rewrite list_elem_of_In, filter_In, <- list_elem_of_In. by rewrite Hpeer, Hrole, !String.eqb_refl. }
    rewrite Hr. apply List.find_some in Hr as [Hin Hp%bool_decide_eq_true].
    unfold assistant_rows in Hin. apply filter_In in Hin as [Hin _].
    rewrite (Huniq r); [|by apply list_elem_of_In|done]. cbn. by rewrite Hvt. }
  destruct (dispatch_forward ns w m rc vt (Some (m_session row))) as (vctx & ext & H1 & H2 & H3 & H4 & _); auto.
  - by eapply not_mentioned.
  - unfold route. rewrite Htext. cbn [mbind option_bind]. rewrite Hcmd, Hroute.
    unfold quote_value, msg_id_value. rewrite Hraw. cbn [mbind option_bind]. rewrite Hid, Hscope.
    cbn [mbind option_bind]. rewrite Hf. cbn [row_value mbind option_bind].
    destruct vt; [done|]. cbn. unfold origin. by destruct (get_by_vtoken _ _).
  - assert (Hs : ext_session_name ext = Some (m_session row)).
    { apply H3. cbn. by destruct (m_session row). }
    exists vctx, ext. split; [done|]. split; [done|]. split; [|done].
    unfold may_answer, ext_session in H2. cbn in H2. rewrite Hs in H2. exact H2.
Qed.

Lemma get_backend_session_set now vctx vt n id s :
  has_backend_session vctx vt (set_backend_session now vctx vt n id s) = true.
Proof.
  apply has_backend_session_spec. exists n. cbn. rewrite lookup_insert_eq. by eexists.
Qed.

Lemma at_mention_healthy w m vt payload rc :
  healthy w -> arrives w m rc ->
  exists vctx ext, let w' := (handle_at_mention m vt payload w).2 in
    delivered w w' vt (set_context (set_first_text_item m payload) (Some vctx) (Some ext)) /\
    ext_session_name ext = Some ("at-" +:+ local_stamp_ms (w_env w)) /\
    (forall t, is_Some (resolve_send_context t vctx vt (w_store w'))) /\
    resolve_context_token_full vctx (w_store w') = Some (rc, conversation m) /\
    active_sessions (w_store w') = active_sessions (w_store w).
Proof.
  intros Hh [Hrc Hkey Hfree Hok (u1 & u2 & us & Hu & Hfresh1 & Hfresh)].
  destruct (resolve_vctx_healthy w rc (unwrap_or (from_user_id m) "") (group_id m) u1 u2 us)
    as (vctx & s' & Hr & (Hok' & Hrow & _) & Hsame); [done..|].
  set (w1 := with_store s' (with_env (set_uuids us (w_env w)) w)) in *.
  set (session := "at-" +:+ local_stamp_ms (w_env w)).
  set (s2 := set_backend_session (now_secs (w_env w)) vctx vt session "" s').
  set (w2 := with_store s2 w1).
  set (ext := ext_value s2 vctx vt (Some session)).
  assert (Hf : handle_at_mention m vt payload w
    = push_to_queue vt (set_context (set_first_text_item m payload) (Some vctx) (Some ext)) w2).
  { unfold handle_at_mention. rewrite Hrc, bind_run, Hr. cbn [fst snd]. rewrite !bind_run.
    cbn [reads fst snd]. rewrite db_healthy by exact Hh. cbn [fst snd exec].
    by rewrite build_ext_healthy. }
  assert (Hst : w_store (handle_at_mention m vt payload w).2 = w_store w2).
  { rewrite Hf. by apply (keeps_push w_store). }
  exists vctx, ext. cbv zeta. rewrite Hst. split; [|split; [|split; [|split]]].
  - rewrite Hf. eapply delivered_from; [|apply push_delivers]. done.
  - done.
  - intros t. apply resolve_send_context_owned. split.
    + assert (Hb : has_backend_session vctx vt (w_store w2) = true) by apply get_backend_session_set.
      unfold vtoken_owns_vctx. by rewrite Hb, orb_true_r.
    + exists rc. unfold resolve_context_token.
      change (context_token_map (w_store w2)) with (context_token_map s'). by rewrite Hrow.
  - unfold resolve_context_token_full. change (context_token_map (w_store w2)) with (context_token_map s').
    by rewrite Hrow.
  - cbn. by rewrite Hsame.
Qed.

Lemma keeps_at_mention {X} (f : World Q L -> X) `{!Aside f} m vt payload :
  (forall x w, f (with_metrics x w) = f w) -> (forall x w, f (with_queue x w) = f w) ->
  keeps f (handle_at_mention m vt payload).
Proof.
  intros Hm Hq. unfold handle_at_mention. destruct (nonempty_ctx m); [|keeps].
  apply keeps_bind; [by apply keeps_resolve_vctx|]. intros vctx.
  apply keeps_bind; [keeps|]. intros stamp. apply keeps_bind; [keeps|]. intros now.
  apply keeps_bind; [by apply keeps_db|]. intros _.
  apply keeps_bind; [by apply keeps_build_ext|]. intros ext. by apply keeps_push.
Qed.

(** What stripping the name of a shortcut does to the items of a message. *)
Definition is_text_item (i : MessageItem) : bool := match text_item i with Some _ => true | None => false end.

Definition items_of (m : WeixinMessage) : list MessageItem := default [] (item_list m).

Lemma set_first_text_none t l : existsb is_text_item l = false -> set_first_text t l = l.
Proof.
  induction l as [|i l IH]; cbn; [done|]. unfold is_text_item at 1.
  destruct (text_item i); [done|]. cbn. intros Hl. by rewrite IH.
Qed.

Lemma set_first_text_found t l : existsb is_text_item l = true ->
  find_map (fun i => t ← text_item i; text_item_text t) (set_first_text t l) = Some t.
Proof.
  induction l as [|i l IH]; cbn; [done|]. unfold is_text_item at 1.
  destruct (text_item i) eqn:E; [done|]. cbn. rewrite E. exact IH.
Qed.

Lemma set_first_text_other t l k i :
  l !! k = Some i -> is_text_item i = false -> set_first_text t l !! k = Some i.
Proof.
  revert k. induction l as [|j l IH]; intros k; [done|]. unfold is_text_item in *. cbn [set_first_text].
  destruct k as [|k]; cbn.
  - intros [= ->]. by destruct (text_item i).
  - intros Hk Hi. destruct (text_item j); [done|]. cbn. by apply IH.
Qed.

(** [d] is [m], a message with the text [t], with [payload] as its text: the first text item
    is replaced, every item without text and everything else is kept. A message that has
    its text from a voice transcript is unchanged. *)
Record stripped (m d : WeixinMessage) (t payload : string) : Prop := {
  str_text : text d = Some (if existsb is_text_item (items_of m) then payload else t);
  str_voice : existsb is_text_item (items_of m) = false -> d = m;
  str_other : forall k i, items_of m !! k = Some i -> is_text_item i = false -> items_of d !! k = Some i;
  str_frame : set_items d (item_list m) = m;
}.

Lemma set_first_text_stripped m t payload :
  text m = Some t -> stripped m (set_first_text_item m payload) t payload.
Proof.
  intros Ht. assert (Hv : existsb is_text_item (items_of m) = false -> set_first_text_item m payload = m).
  { unfold set_first_text_item, items_of. destruct m as [? ? ? ? ? ? ? ? ? ? ? [l|] ? ?]; cbn; [|done].
    intros Hl. by rewrite set_first_text_none. }
  split; [|exact Hv| |].
  - destruct (existsb is_text_item (items_of m)) eqn:E; [|by rewrite Hv].
    unfold text, set_first_text_item, items_of in *. cbn. destruct (item_list m) as [l|]; [|done]. cbn in *.
    by rewrite set_first_text_found.
  - intros k i. unfold items_of. cbn. destruct (item_list m) as [l|]; cbn; [|done]. apply set_first_text_other.
  - by destruct m.
Qed.

(** (C18) The [@backend] shortcut is temporary and respects visibility: with a working
    database it delivers the message once, unless that backend's queue is full, to the
    named backend (one the user may see) and to no other, with the text after the name
    in place of its text, in a new session of its own that the backend may answer in;
    the user's selected backend and every active session stay as they were. A message
    without a text item, whose text is a voice transcript, is delivered with the name
    still in it. *)
Theorem mention_is_temporary (w : World Q L) (m : WeixinMessage) (ns : Z) (t n payload rc : string)
    (c : ClientInfo)
    (Hh : healthy w) (Hty : message_type m <> Some 2%Z) (Htext : text m = Some t)
    (Hat : parse_at_mention t = Some (n, payload))
    (Hvis : get_by_alias_in (w_registry w) n
              (wechat_visible (w_acl w) (unwrap_or (from_user_id m) "")
                 (name <$> all_clients (w_registry w))) = Some c)
    (Harr : arrives w m rc) :
  exists d vctx ext, let w' := (dispatch_message ns m w).2 in
    delivered w w' (Registry.vtoken c) (set_context d (Some vctx) (Some ext)) /\
    stripped m d t payload /\
    ext_session_name ext = Some ("at-" +:+ local_stamp_ms (w_env w)) /\
    (forall now, is_Some (resolve_send_context now vctx (Registry.vtoken c) (w_store w'))) /\
    resolve_context_token_full vctx (w_store w') = Some (rc, conversation m) /\
    w_router w' = w_router w /\ active_sessions (w_store w') = active_sessions (w_store w).
Proof.
  set (wc := with_metrics (bump UserMessage (w_metrics w)) w).
  assert (Hm : mentioned_backend m wc = (Some (Registry.vtoken c, payload), wc)).
  { unfold mentioned_backend. rewrite Htext. cbn [mbind option_bind]. rewrite Hat, bind_run.
    cbn [user_visible reads fst snd]. unfold reads. cbn. by rewrite Hvis. }
  assert (He : exists c', (dispatch_message ns m w).2
               = with_metrics c' (handle_at_mention m (Registry.vtoken c) payload wc).2).
  { unfold dispatch_message, dispatch_body. rewrite bool_decide_false by done.
    rewrite !bind_run. cbn [count changes fst snd]. fold wc. rewrite Hm. by eexists. }
  destruct He as (c' & ->).
  destruct (at_mention_healthy wc m (Registry.vtoken c) payload rc Hh (arrives_metrics _ _ _ _ Harr))
    as (vctx & ext & H1 & H2 & H3 & H4 & H5).
  exists (set_first_text_item m payload), vctx, ext. split; [by split; apply H1|].
  split; [by apply set_first_text_stripped|]. repeat split; auto.
  - by refine (keeps_at_mention w_router m _ payload _ _ wc).
Qed.

(** (C6) An outage does not lose messages: whatever database calls fail or time out,
    a message that quotes nothing and is routed to a backend is delivered to that
    backend's queue exactly once (unless the queue is full), and to no other. *)
Theorem outage_does_not_lose_messages (w : World Q L) (m : WeixinMessage) (ns : Z) (t vt rc : string)
    (Hty : message_type m <> Some 2%Z) (Htext : text m = Some t)
    (Hcmd : parse_hub_command (local_stamp (w_env w)) t = None)
    (Hat : parse_at_mention t = None)
    (Hq1 : collect_quoted_msg_id m = None) (Hq2 : collect_quoted_timestamp m = None)
    (Hq3 : collect_quoted m = None)
    (Hroute : get_route (w_router w) (unwrap_or (from_user_id m) "") = Some vt)
    (Hrc : nonempty_ctx m = Some rc) :
  exists vctx ext, delivered w (dispatch_message ns m w).2 vt (set_context m (Some vctx) ext).
Proof.
  set (wc := with_metrics (bump UserMessage (w_metrics w)) w).
  assert (Hd : decide_routing m wc = (ForwardTo vt None, wc)).
  { unfold decide_routing. run_read.
    unfold resolve_quote, first_of, resolve_quote_from_msg_id, resolve_quote_from_timestamp,
      resolve_quote_from_db, resolve_quote_from_footer, footer_from_user_quote.
    unfold collect_quoted in *. rewrite Hq1, Hq2, Hq3. cbn.
    unfold route. rewrite Htext. cbn [mbind option_bind]. by rewrite Hcmd, Hroute. }
  destruct (forward_any wc m vt None rc Hrc) as (vctx & ext & Hdel).
  exists vctx, ext. unfold dispatch_message, dispatch_body. rewrite bool_decide_false by done.
  rewrite !bind_run. cbn [count changes fst snd]. fold wc.
  rewrite mentioned_backend_world, (not_mentioned m wc t) by done.
  rewrite bind_run, Hd. cbn [fst snd act_on]. exact Hdel.
Qed.
End Delivery.

(** ** A concrete hub *)

Definition demo_sha (_ : string) : list N := [171%N].

(** One backend [mac] (token hash [ab]), selected by user [bob]. *)
Definition demo_registry : ClientRegistry :=
  mark_online (snd (register demo_sha "u" 0 ClientRegistry_new "mac" None None)) "ab".

Definition demo_world (st : Store) (rt : Router) : World InMemoryQueue unit :=
  {| w_registry := demo_registry; w_router := rt; w_queue := InMemoryQueue_new; w_store := st;
     w_metrics := Metrics_new; w_acl := AgentAcl_default;
     w_admin := {| admin_token := None; insecure_no_auth := true; outbound_origin_label := None |};
     w_tracker := set_hub_cap MAX_HUB_POLLS_DEFAULT PollTracker_default; w_limiter := tt;
     w_last_seen := ∅; w_waiters := ∅; w_outbox := []; w_tasks := []; w_msg_counter := 0; w_web := Web_new "secret";
     w_env := {| faults := []; send_replies := []; uuids := ["1"; "2"; "3"; "4"]; random_bytes := [];
                 now_secs := 100; now_millis := 100000; now_nanos := 0;
                 local_stamp := "20260101-000000"; local_stamp_ms := "20260101-000000000";
                 upsert_arbiter := false |} |}.

Definition demo_store : Store := Store_new Sqlite 60.
Definition demo_router : Router := set_route (Router_new None) "bob" "ab".

Definition demo_item (t : string) (extra : json) : MessageItem :=
  {| item_type := Some 1%Z; text_item := Some {| text_item_text := Some t |}; voice_item := None;
     image_item := None; file_item := None; video_item := None; item_extra := extra |}.

Definition demo_message (t : string) (extra : json) : WeixinMessage :=
  {| seq := None; message_id := None; from_user_id := Some "bob"; to_user_id := None;
     client_id := None; create_time_ms := None; update_time_ms := None; session_id := None;
     group_id := None; message_type := Some 1%Z; message_state := None;
     item_list := Some [demo_item t extra]; context_token := Some "ctx1"; ilink_hub_ext := None |}.

Lemma demo_arrives rt t extra :
  arrives (demo_world demo_store rt) (demo_message t extra) "ctx1".
Proof.
  split; [reflexivity|discriminate| |apply ctx_ok_new|by exists "1", "2", ["3"; "4"]; split_and!].
  intros v c. cbn. by rewrite lookup_empty.
Qed.

Lemma plain_message_delivered_witness :
  exists vctx ext, let w := demo_world demo_store demo_router in
    let m := demo_message "hello" JNull in
    delivered w (dispatch_message 5 m w).2 "ab" (set_context m (Some vctx) (Some ext)).
Proof.
  destruct (plain_message_delivered (demo_world demo_store demo_router) (demo_message "hello" JNull) 5
              "hello" "ab" "ctx1") as (vctx & ext & Hd & _); try reflexivity.
  - discriminate.
  - apply demo_arrives.
  - exists vctx, ext. exact Hd.
Defined.

(** A history with one answer of [mac] in session [s1] under message id 42. *)
Definition demo_history_store : Store :=
  save_message_with_msg_id 90 "vctx_0" (Some "ab") "s1" "peer:bob" "assistant" "hi" (Some 42%Z) demo_store.

Definition demo_quote : json :=
  JObj [("ref_msg", JObj [("message_item", JObj [("msg_id", JStr "42")])])].

Lemma quote_reply_returns_witness :
  exists vctx ext, let w := demo_world demo_history_store (set_route (Router_new None) "bob" "cd") in
    let m := demo_message "and then?" demo_quote in
    delivered w (dispatch_message 5 m w).2 "ab" (set_context m (Some vctx) (Some ext)) /\
    ext_session_name ext = Some "s1".
Proof.
  destruct (quote_reply_returns (demo_world demo_history_store (set_route (Router_new None) "bob" "cd"))
              (demo_message "and then?" demo_quote) 5 "and then?" "cd" "ctx1" "42" "peer:bob" 42%Z
              {| m_id := 0; m_vctx := "vctx_0"; m_vtoken := Some "ab"; m_session := "s1";
                 m_peer := "peer:bob"; m_role := "assistant"; m_content := "hi"; m_created := 90;
                 m_ilink_msg_id := Some 42%Z |} "ab") as (vctx & ext & Hd & He & _);
    try reflexivity; try discriminate.
  - left.
  - intros r Hr _. by apply list_elem_of_singleton in Hr.
  - destruct (demo_arrives (set_route (Router_new None) "bob" "cd") "and then?" demo_quote) as [? ? ? ? ?].
    by split.
  - exists vctx, ext. split; [exact Hd|exact He].
Defined.

Lemma mention_is_temporary_witness :
  exists d vctx ext, let w := demo_world demo_store (Router_new None) in
    let m := demo_message "@mac hello" JNull in
    delivered w (dispatch_message 5 m w).2 "ab" (set_context d (Some vctx) (Some ext)) /\
    text d = Some "hello".
Proof.
  destruct (mention_is_temporary (demo_world demo_store (Router_new None)) (demo_message "@mac hello" JNull) 5
              "@mac hello" "mac" "hello" "ctx1"
              (set_online true (with_hashed_vtoken 0 "mac" None None "ab")))
    as (d & vctx & ext & Hd & Hs & _); try reflexivity.
  - discriminate.
  - apply demo_arrives.
  - exists d, vctx, ext. split; [exact Hd|]. exact (str_text _ _ _ _ Hs).
Defined.

(** A voice message that names a backend reaches it with the name in its transcript. *)
Lemma voice_mention_keeps_name :
  let item := {| item_type := Some 3%Z; text_item := None;
                 voice_item := Some {| voice_item_text := Some "@mac hello" |};
                 image_item := None; file_item := None; video_item := None; item_extra := JNull |} in
  let m := set_items (demo_message "" JNull) (Some [item]) in
  let w' := (dispatch_message 5 m (demo_world demo_store (Router_new None))).2 in
  text <$> mq_pending (w_queue w') "ab" = [Some "@mac hello"].
Proof. vm_compute. reflexivity. Qed.

Definition demo_outage (w : World InMemoryQueue unit) : World InMemoryQueue unit :=
  with_env (set_faults [Fails "disk"; Late; Late; Fails "disk"] (w_env w)) w.

Lemma outage_does_not_lose_messages_witness :
  exists vctx ext, let w := demo_outage (demo_world demo_store demo_router) in
    let m := demo_message "hello" JNull in
    delivered w (dispatch_message 5 m w).2 "ab" (set_context m (Some vctx) ext).
Proof.
  destruct (outage_does_not_lose_messages (demo_outage (demo_world demo_store demo_router))
              (demo_message "hello" JNull) 5 "hello" "ab" "ctx1") as (vctx & ext & Hd); try reflexivity.
  - discriminate.
  - exists vctx, ext. exact Hd.
Defined.

(** ** Who is not reached *)

Section Bystander.
Context {Q L : Type} `{MessageQueueLaws Q} (v : string).
Implicit Types (w : World Q L) (m : WeixinMessage).

(** The registry, and what is queued for [v]. *)
Definition queued_for w : ClientRegistry * list WeixinMessage := (w_registry w, mq_pending (w_queue w) v).

#[local] Instance aside_queued : Aside queued_for.
Proof. done. Qed.

Lemma queued_run {A} (x : hub Q L A) w : keeps queued_for x -> queued_for (x w).2 = queued_for w.
Proof. intros Hx. apply Hx. Qed.

Lemma queued_push vt m : vt <> v -> keeps queued_for (push_to_queue vt m).
Proof.
  intros Hv w. destruct (push_delivers w vt m) as [Hd _]. unfold queued_for. f_equal.
  - by apply (keeps_push w_registry).
  - by apply Hd.
Qed.

Lemma queued_push_shared vt m ctx ext : vt <> v -> keeps queued_for (push_shared_to_queue vt m ctx ext).
Proof.
  intros Hv w. assert (E : push_shared_to_queue vt m ctx ext w = push_to_queue vt (set_context m ctx ext) w).
  { unfold push_shared_to_queue, push_to_queue. rewrite !bind_run. by rewrite mq_push_shared_default. }
  rewrite E. by apply queued_push.
Qed.

Lemma queued_reply ctx t to : keeps queued_for (reply_request ctx t to).
Proof. apply keeps_bind; [by apply keeps_uuid|]. by intros u w. Qed.

Lemma queued_send req : keeps queued_for (send_message req).
Proof. intros w. unfold send_message. by destruct (send_replies _). Qed.

Lemma queued_for_each {A} (l : list A) (g : A -> hub Q L unit) :
  (forall x, x ∈ l -> keeps queued_for (g x)) -> keeps queued_for (for_each l g).
Proof.
  induction l as [|x l IH]; intros Hg; [apply keeps_ret|]. apply keeps_bind; [apply Hg; left|].
  intros _. apply IH. intros y Hy. apply Hg. by right.
Qed.

(** [v] is the token of no backend. *)
Definition nobody w : Prop := registry_wf (w_registry w) /\ get_by_vtoken (w_registry w) v = None.

Lemma nobody_client w c : nobody w -> c ∈ clients (w_registry w) -> Registry.vtoken c <> v.
Proof.
  intros [Hwf Hn] Hc E. apply list_elem_of_fmap in Hc as ([k c'] & -> & Hc%elem_of_map_to_list).
  cbn in E. destruct (wf_vtoken _ Hwf k c' Hc) as [Hk _]. unfold get_by_vtoken in Hn. congruence.
Qed.

Lemma queued_broadcast_one rc user m t vt : vt <> v -> keeps queued_for (broadcast_one rc user m t vt).
Proof.
  intros Hv. unfold broadcast_one. apply keeps_bind; [by apply keeps_resolve_vctx|]. intros vctx.
  apply keeps_bind; [by apply keeps_build_ext|]. intros ext. by apply queued_push.
Qed.

Lemma queued_command m rc user cmd w : nobody w -> queued_for (run_command m rc user cmd w).2 = queued_for w.
Proof.
  intros Hn.
  assert (Hr : forall g, keeps queued_for (@resolve_vctx_and_vtoken Q L rc user g)).
  { intros g. apply keeps_bind; [by apply keeps_resolve_vctx|]. keeps. }
  destruct cmd; cbn [run_command].
  - unfold handle_cmd_list, user_visible. apply queued_run. keeps.
  - unfold handle_cmd_use, user_visible. apply queued_run. keeps.
  - unfold handle_cmd_broadcast, user_visible. do 2 run_read. rewrite bind_run. cbn [ret fst snd].
    apply queued_for_each. intros vt Hvt. apply queued_broadcast_one.
    apply list_elem_of_fmap in Hvt as (c & -> & Hc). apply list_elem_of_In, filter_In in Hc as [Hc _].
    apply (nobody_client w); [done|]. by apply list_elem_of_In, elem_of_online_clients in Hc as [Hc _].
  - unfold handle_cmd_status, user_visible. apply queued_run. keeps.
  - done.
  - unfold handle_cmd_session_list. apply queued_run. keeps.
  - unfold handle_cmd_session_new. apply queued_run. keeps.
  - unfold handle_cmd_session_use. apply queued_run. keeps.
  - unfold handle_cmd_session_delete. apply queued_run. keeps.
Qed.

Lemma queued_forward m vt so : vt <> v -> keeps queued_for (forward m vt so).
Proof.
  intros Hv. unfold forward. destruct (nonempty_ctx m); [|keeps].
  apply keeps_bind; [by apply keeps_resolve_vctx|]. intros vctx.
  apply keeps_bind; [by apply keeps_build_ext|]. intros ext.
  apply keeps_bind; [keeps|]. intros now. apply keeps_bind; [by apply keeps_db|]. intros _.
  apply keeps_bind; [|intros; by apply queued_push]. destruct (text m); keeps.
Qed.

Lemma queued_at_mention m vt payload : vt <> v -> keeps queued_for (handle_at_mention m vt payload).
Proof.
  intros Hv. unfold handle_at_mention. destruct (nonempty_ctx m); [|keeps].
  apply keeps_bind; [by apply keeps_resolve_vctx|]. intros vctx.
  apply keeps_bind; [keeps|]. intros stamp. apply keeps_bind; [keeps|]. intros now.
  apply keeps_bind; [by apply keeps_db|]. intros _.
  apply keeps_bind; [by apply keeps_build_ext|]. intros ext. by apply queued_push.
Qed.

Lemma queued_broadcast m w : nobody w -> queued_for (handle_broadcast m w).2 = queued_for w.
Proof.
  intros Hn. unfold handle_broadcast. run_read.
  assert (Ht : forall vt, vt ∈ Registry.vtoken <$> online_clients (w_registry w) -> vt <> v).
  { intros vt (c & -> & Hc)%list_elem_of_fmap. apply (nobody_client w); [done|].
    by apply elem_of_online_clients in Hc as [Hc _]. }
  destruct (Registry.vtoken <$> online_clients (w_registry w)) as [|x l].
  - apply queued_run. apply keeps_bind; [keeps|]. intros _. destruct (nonempty_ctx m); [|keeps].
    apply keeps_bind; [apply queued_reply|]. intros req. apply keeps_bind; [apply queued_send|keeps].
  - destruct (nonempty_ctx m); [|done]. apply queued_run.
    apply keeps_bind; [by apply keeps_resolve_vctx|]. intros vctx.
    apply keeps_bind; [by apply keeps_db|]. intros r. apply queued_for_each. intros vt Hvt.
    unfold broadcast_to. apply keeps_bind; [keeps|]. intros now. apply keeps_bind; [by apply keeps_db|].
    intros _. by apply queued_push_shared, Ht.
Qed.

Lemma queued_act m d w : nobody w -> (forall so, d <> ForwardTo v so) -> queued_for (act_on m d w).2 = queued_for w.
Proof.
  intros Hn Hd. destruct d as [vt so| |cmd]; cbn [act_on].
  2: by apply queued_broadcast.
  - apply queued_forward. intros ->. by destruct (Hd so).
  - unfold handle_hub_command. destruct (ofilter _ _) as [rc|]; [|done]. rewrite bind_run.
    rewrite <- (queued_command m rc (unwrap_or (from_user_id m) "") cmd w Hn).
    apply queued_run.
    apply keeps_bind; [apply queued_reply|]. intros req. apply keeps_bind; [apply queued_send|keeps].
Qed.

(** A token that nobody has, that no route leads to and that the message does not quote an
    answer of gets nothing. *)
Lemma dispatch_spares ns m w :
  healthy w -> nobody w ->
  (forall n l s, (resolve_quote m w).1 <> Some (Client v n l s)) ->
  (forall so, route (local_stamp (w_env w)) (w_router w) m <> ForwardTo v so) ->
  mq_pending (w_queue (dispatch_message ns m w).2) v = mq_pending (w_queue w) v.
Proof.
  intros Hh Hn Hq Hr. change (w_queue w) with (w_queue w).
  enough (E : queued_for (dispatch_message ns m w).2 = queued_for w) by (by injection E).
  destruct (decide (message_type m = Some 2%Z)) as [Hty|Hty].
  { unfold dispatch_message, dispatch_body. by rewrite bool_decide_true. }
  destruct (mentioned_backend m w).1 as [[vt payload]|] eqn:Em.
  - unfold dispatch_message, dispatch_body. rewrite bool_decide_false by done.
    rewrite !bind_run. cbn [count changes fst snd]. rewrite mentioned_backend_world.
    assert (Ec : forall c, (mentioned_backend m (with_metrics c w)).1 = (mentioned_backend m w).1).
    { intros c. unfold mentioned_backend. by destruct (text m ≫= parse_at_mention) as [[]|]. }
    rewrite Ec, Em. refine (queued_at_mention m vt payload _ _).
    revert Em. unfold mentioned_backend. destruct (text m ≫= parse_at_mention) as [[n p]|]; [|done].
    unfold user_visible. run_read.
    destruct (get_by_alias_in _ _ _) as [c|] eqn:Ea; [|done]. cbn. intros [= <- _].
    apply (nobody_client w); [done|].
    apply (alias_respects_visibility (w_registry w)) in Ea. by apply elem_of_all_clients_in in Ea as [Ea _].
  - destruct (dispatch_decided ns m w Hh Hty Em) as (c & c' & E). cbv zeta in E. rewrite E.
    refine (queued_act m _ (with_metrics c w) Hn _). intros so. unfold merge_routing_with_quote.
    rewrite resolve_quote_healthy in Hq by done. cbn [fst] in Hq.
    destruct (route _ _ m) as [vt s| |cmd]; [| |done];
      (destruct (quote_value _ _ m) as [[vt' n l s'|]|]; [intros [= -> _]; by eapply Hq|done|]).
    + intros [= -> ->]. by apply (Hr so).
    + done.
Qed.
End Bystander.

(** ** Two behaviours that differ from what is documented *)

Section Divergence.
Context {Q L : Type} `{MessageQueue Q}.

Lemma keeps_origin {X} (f : World Q L -> X) r : keeps f (origin_of_row r).
Proof. destruct r as [[[[vt so]|]|]|]; cbn; try apply keeps_ret. by destruct (is_empty vt). Qed.

Lemma keeps_first_of {X} (f : World Q L -> X) ms : Forall (keeps f) ms -> keeps f (first_of ms).
Proof.
  induction 1 as [|x ms Hx _ IH]; [apply keeps_ret|]. cbn. apply keeps_bind; [done|].
  intros [o|]; [apply keeps_ret|exact IH].
Qed.

Lemma keeps_quote {X} (f : World Q L -> X) `{!Aside f} m : keeps f (resolve_quote m).
Proof.
  apply keeps_first_of. repeat constructor.
  - unfold resolve_quote_from_msg_id. destruct (_ ≫= _); [|keeps]. destruct (derive_peer_scope m); [|keeps].
    apply keeps_bind; [by apply keeps_db_timeout|apply keeps_origin].
  - unfold resolve_quote_from_timestamp. destruct (collect_quoted_timestamp m); [|keeps].
    destruct (derive_peer_scope m); [|keeps]. apply keeps_bind; [by apply keeps_db_timeout|apply keeps_origin].
  - unfold resolve_quote_from_db. destruct (collect_quoted m) as [[]|]; [|keeps].
    destruct (derive_peer_scope m); [|keeps]. cbv zeta. destruct (is_empty _); [keeps|].
    destruct (is_empty _); [keeps|]. apply keeps_bind; [by apply keeps_db_timeout|apply keeps_origin].
  - unfold resolve_quote_from_footer. destruct (footer_from_user_quote m) as [[n so]|]; [|keeps].
    apply keeps_bind; [keeps|]. intros [c|]; [keeps|]. cbv zeta.
    destruct (if starts_with "at-" n || starts_with "session-" n then Some n else so); [|keeps].
    destruct (derive_peer_scope m); [|keeps]. apply keeps_bind; [by apply keeps_db_timeout|].
    intros [[[v|]|]|]; [|apply keeps_ret..]. apply keeps_bind; [by apply keeps_db_timeout|].
    intros [[[vt|]|]|]; [|apply keeps_ret..]. by apply keeps_bind.
Qed.

Lemma keeps_help m : keeps w_queue (@handle_hub_command Q L H m Help).
Proof.
  unfold handle_hub_command. destruct (ofilter _ _); [|keeps].
  apply keeps_bind; [keeps|]. intros t. apply keeps_bind.
  - apply keeps_bind; [keeps|]. by intros u w.
  - intros req. apply keeps_bind; [|keeps]. intros w. unfold send_message. by destruct (send_replies _).
Qed.

(** A quote reply is ignored while no backend is selected: for every state of the
    history and of the database, a message that is no command, from a user without a
    selected or default backend, reaches no queue, even when it quotes an answer of
    a backend; the user gets the help text. *)
Theorem quote_ignored_without_selection (w : World Q L) (m : WeixinMessage) (ns : Z) (t : string)
    (Hty : message_type m <> Some 2%Z) (Htext : text m = Some t)
    (Hcmd : parse_hub_command (local_stamp (w_env w)) t = None)
    (Hat : parse_at_mention t = None)
    (Hroute : get_route (w_router w) (unwrap_or (from_user_id m) "") = None) :
  w_queue (dispatch_message ns m w).2 = w_queue w.
Proof.
  set (wc := with_metrics (bump UserMessage (w_metrics w)) w).
  assert (Hd : (decide_routing m wc).1 = HubInternal Help).
  { unfold decide_routing. rewrite !bind_run. cbn [reads ret fst snd]. unfold route. rewrite Htext.
    change (w_env wc) with (w_env w). change (w_router wc) with (w_router w).
    cbn [mbind option_bind]. by rewrite Hcmd, Hroute. }
  assert (Hk : w_queue (decide_routing m wc).2 = w_queue w).
  { unfold decide_routing. rewrite !bind_run. cbn [reads ret fst snd].
    destruct (resolve_quote m wc) as [o w1] eqn:E. cbn [fst snd].
    assert (w_queue w1 = w_queue w).
    { change (w_queue w) with (w_queue wc). rewrite <- (keeps_quote w_queue m wc). by rewrite E. }
    by destruct o, (collect_quoted_timestamp m). }
  unfold dispatch_message, dispatch_body. rewrite bool_decide_false by done.
  rewrite !bind_run. cbn [count changes fst snd]. fold wc.
  assert (Hm : mentioned_backend m wc = (None, wc)).
  { unfold mentioned_backend. rewrite Htext. cbn [mbind option_bind]. by rewrite Hat. }
  rewrite Hm. cbn [fst snd]. rewrite bind_run, Hd. cbn [act_on].
  transitivity (w_queue (handle_hub_command m Help (decide_routing m wc).2).2); [done|].
  by rewrite keeps_help, Hk.
Qed.
End Divergence.

Lemma quote_ignored_without_selection_witness :
  let w := demo_world demo_history_store (Router_new None) in
  w_queue (dispatch_message 5 (demo_message "and then?" demo_quote) w).2 = InMemoryQueue_new.
Proof.
  apply (quote_ignored_without_selection (demo_world demo_history_store (Router_new None))
           (demo_message "and then?" demo_quote) 5 "and then?"); try reflexivity. discriminate.
Defined.

(** [/broadcast] delivers without reply authority: there is a hub with a working
    database in which a broadcast command puts a message into the queue of an online
    backend under a virtual context which that backend's token cannot send to. *)
Theorem broadcast_command_unanswerable :
  exists (w : World InMemoryQueue unit) (m m' : WeixinMessage) (v vctx : string),
    let w' := (dispatch_message 5 m w).2 in
    healthy w /\ pending (w_queue w') v = [m'] /\ context_token m' = Some vctx /\
    resolve_context_token vctx (w_store w') = context_token m /\
    resolve_send_context (now_secs (w_env w')) vctx v (w_store w') = None.
Proof.
  eexists (demo_world demo_store (Router_new None)), (demo_message "/broadcast hello" JNull), _, "ab", "vctx_2".
  split; [reflexivity|]. split; [vm_compute; reflexivity|]. repeat split; vm_compute; reflexivity.
Qed.
