(* ===== verification/CommandProps.v ===== *)
(** * Properties of the chat commands

    Which parts of the state a message can change, the agreement of the routing table
    in memory with the one in the database, and the session commands. *)
From S2P Require Import Prelude StrLemmas Types Queue Router Footer VToken Registry Acl Store StoreProps PollTracker Hub Resolve Commands Dispatch HubLemmas DispatchProps.
Import Str QuoteRoute.
Local Open Scope hub_scope.

Create HintDb view.

Section Routes.
Context {Q L : Type} `{MessageQueue Q}.
Implicit Types (w : World Q L) (m : WeixinMessage).

(** The routing table in memory and the one in the database. *)
Definition view w : Router * gmap string string := (w_router w, routing_state (w_store w)).

Lemma view_fault : keeps view (@next_fault Q L).
Proof. intros w. unfold next_fault. by destruct (faults (w_env w)). Qed.

Lemma view_uuid : keeps view (@new_uuid Q L).
Proof. intros w. unfold new_uuid. by destruct (uuids (w_env w)). Qed.

Lemma view_db {A} (g : Store -> A * Store) :
  (forall s, routing_state (g s).2 = routing_state s) -> keeps view (@db Q L A g).
Proof.
  intros Hg. apply keeps_bind; [apply view_fault|]. intros [| |] w; cbn; [|done|done].
  unfold view. pose proof (Hg (w_store w)). destruct (g (w_store w)). cbn in *. congruence.
Qed.

Lemma view_db_timeout {A} (g : Store -> A * Store) :
  (forall s, routing_state (g s).2 = routing_state s) -> keeps view (@db_timeout Q L A g).
Proof.
  intros Hg. apply keeps_bind; [apply view_fault|]. intros [| |] w; cbn; [|done|done].
  unfold view. pose proof (Hg (w_store w)). destruct (g (w_store w)). cbn in *. congruence.
Qed.

Lemma find_or_create_routes arbiter u1 u2 peer group rc s :
  routing_state (find_or_create_vctx arbiter u1 u2 peer group rc s).2 = routing_state s.
Proof. by rewrite (find_or_create_same arbiter u1 u2 peer group rc s). Qed.

Lemma delete_session_routes vctx vt n s :
  routing_state (delete_backend_session vctx vt n s).2 = routing_state s.
Proof. done. Qed.

Lemma view_push vt m : keeps view (@push_to_queue Q L _ vt m).
Proof.
  unfold push_to_queue. apply keeps_bind.
  - intros w. by destruct (mq_push _ _ _).
  - intros r. by apply keeps_count_push.
Qed.

Lemma view_push_shared vt m ctx ext : keeps view (@push_shared_to_queue Q L _ vt m ctx ext).
Proof.
  unfold push_shared_to_queue. apply keeps_bind.
  - intros w. by destruct (mq_push_shared _ _ _ _ _).
  - intros r. by apply keeps_count_push.
Qed.

Lemma view_send r : keeps view (@send_message Q L r).
Proof. intros w. unfold send_message. cbn. by destruct (send_replies _). Qed.

Lemma view_reply ctx t to : keeps view (@reply_request Q L ctx t to).
Proof. apply keeps_bind; [apply view_uuid|]. by intros u w. Qed.
End Routes.

#[export] Hint Resolve view_uuid view_db view_db_timeout view_push view_push_shared view_send
  view_reply find_or_create_routes delete_session_routes : view.
#[export] Hint Extern 2 (forall s, routing_state _ = routing_state s) => done : view.
Ltac view_keeps := intros; cbv zeta; eauto 30 with keeps view.

Section Sync.
Context {Q L : Type} `{MessageQueue Q}.
Implicit Types (w : World Q L) (m : WeixinMessage).

Lemma view_resolve_vctx rc peer group : keeps view (@resolve_vctx_for_message Q L rc peer group).
Proof. unfold resolve_vctx_for_message. view_keeps. Qed.

Lemma view_build_ext vctx vt so : keeps view (@build_hub_ext_for_vctx Q L vctx vt so).
Proof. unfold build_hub_ext_for_vctx. view_keeps. Qed.

Lemma view_origin r : keeps view (@origin_of_row Q L r).
Proof.
  destruct r as [[[[vt so]|]|]|]; cbn; try apply keeps_ret.
  destruct (is_empty vt); [apply keeps_ret|]. apply keeps_bind; [apply keeps_reads|view_keeps].
Qed.

Lemma view_timeout_origin g :
  (forall s, routing_state (g s).2 = routing_state s) ->
  keeps view (bind (@db_timeout Q L _ g) origin_of_row).
Proof. intros Hg. apply keeps_bind; [by apply view_db_timeout|apply view_origin]. Qed.

Lemma view_quote m : keeps view (@resolve_quote Q L m).
Proof.
  apply keeps_first_of. repeat constructor.
  - unfold resolve_quote_from_msg_id. destruct (_ ≫= _); [|view_keeps].
    destruct (derive_peer_scope m); [|view_keeps]. by apply view_timeout_origin.
  - unfold resolve_quote_from_timestamp. destruct (collect_quoted_timestamp m); [|view_keeps].
    destruct (derive_peer_scope m); [|view_keeps]. by apply view_timeout_origin.
  - unfold resolve_quote_from_db. destruct (collect_quoted m) as [[]|]; [|view_keeps].
    destruct (derive_peer_scope m); [|view_keeps]. cbv zeta. destruct (is_empty _); [view_keeps|].
    destruct (is_empty _); [view_keeps|]. by apply view_timeout_origin.
  - unfold resolve_quote_from_footer. destruct (footer_from_user_quote m) as [[n so]|]; [|view_keeps].
    apply keeps_bind; [view_keeps|]. intros [c|]; [view_keeps|]. cbv zeta.
    destruct (if starts_with "at-" n || starts_with "session-" n then Some n else so); [|view_keeps].
    destruct (derive_peer_scope m); [|view_keeps]. unfold client_origin. view_keeps.
Qed.

#[local] Hint Resolve view_resolve_vctx view_build_ext view_quote : view.

Lemma view_forward m vt so : keeps view (@forward Q L _ m vt so).
Proof. unfold forward. view_keeps. Qed.

Lemma view_at_mention m vt p : keeps view (@handle_at_mention Q L _ m vt p).
Proof. unfold handle_at_mention. view_keeps. Qed.

Lemma view_broadcast m : keeps view (@handle_broadcast Q L _ m).
Proof. unfold handle_broadcast, broadcast_to. view_keeps. Qed.

Lemma view_session_list u rc g : keeps view (@handle_cmd_session_list Q L u rc g).
Proof. unfold handle_cmd_session_list, resolve_vctx_and_vtoken. view_keeps. Qed.

Lemma view_session_new u rc g n id : keeps view (@handle_cmd_session_new Q L u rc g n id).
Proof. unfold handle_cmd_session_new, resolve_vctx_and_vtoken. view_keeps. Qed.

Lemma view_session_use u rc g n : keeps view (@handle_cmd_session_use Q L u rc g n).
Proof. unfold handle_cmd_session_use, resolve_vctx_and_vtoken. view_keeps. Qed.

Lemma view_session_delete u rc g n : keeps view (@handle_cmd_session_delete Q L u rc g n).
Proof. unfold handle_cmd_session_delete, resolve_vctx_and_vtoken. view_keeps. Qed.

Lemma view_cmd_broadcast u rc m t : keeps view (@handle_cmd_broadcast Q L _ u rc m t).
Proof. unfold handle_cmd_broadcast, user_visible, broadcast_one. view_keeps. Qed.

(** Every command but [/use] leaves both routing tables alone. *)
Lemma view_command m rc u cmd :
  (forall n, cmd <> UseClient n) -> keeps view (@run_command Q L _ m rc u cmd).
Proof.
  intros Hc. destruct cmd; cbn; auto using view_session_list, view_session_new, view_session_use,
    view_session_delete, view_cmd_broadcast.
  - unfold handle_cmd_list, user_visible. view_keeps.
  - by destruct (Hc name).
  - unfold handle_cmd_status, user_visible. view_keeps.
  - unfold handle_cmd_help. view_keeps.
Qed.

(** What a message of user [u] may do to the routing tables: nothing, or select for [u],
    in both, a backend [u] may see. *)
Definition selects (u : string) w w' : Prop :=
  view w' = view w \/
  exists n c, get_by_alias_in (w_registry w) n
                (wechat_visible (w_acl w) u (name <$> all_clients (w_registry w))) = Some c /\
    view w' = (set_route (w_router w) u (Registry.vtoken c),
               <[u := Registry.vtoken c]> (routing_state (w_store w))).

Lemma use_selects u n w : selects u w (@handle_cmd_use Q L u n w).2.
Proof.
  unfold handle_cmd_use, user_visible. rewrite !bind_run. cbn [reads fst snd].
  destruct (get_by_alias_in _ _ _) as [c|] eqn:E; [|by left]. cbv zeta. rewrite bind_run.
  unfold db. rewrite bind_run. unfold next_fault.
  destruct (faults (w_env w)) as [|[| |] fs]; cbn; [|..]; try (by left);
    right; exists n, c; (split; [done|reflexivity]).
Qed.

(** Components [/use] reads. *)
Lemma selects_from u w1 w w' :
  view w1 = view w -> w_registry w1 = w_registry w -> w_acl w1 = w_acl w ->
  selects u w1 w' -> selects u w w'.
Proof.
  intros Hv Hr Ha. unfold selects. rewrite Hv, Hr, Ha. unfold view in Hv |- *.
  injection Hv as -> ->. done.
Qed.

Lemma command_selects m cmd w :
  selects (unwrap_or (from_user_id m) "") w (@handle_hub_command Q L _ m cmd w).2.
Proof.
  unfold handle_hub_command. destruct (ofilter _ _) as [rc|]; [|by left].
  set (u := unwrap_or (from_user_id m) ""). cbv zeta. rewrite bind_run.
  set (p := run_command m rc u cmd w).
  assert (Hp : selects u w p.2).
  { destruct cmd; try (left; by apply view_command). apply use_selects. }
  assert (Hk : forall t, view ((let* req := reply_request rc t u in
                 let* _ := send_message req in ret tt) p.2).2 = view p.2).
  { intros t. revert p Hp. intros p _.
    enough (keeps view (let* req := @reply_request Q L rc t u in let* _ := send_message req in ret tt)) by auto.
    view_keeps. }
  destruct Hp as [E|(n & c & Hc & E)]; [left|right; exists n, c; split; [done|]]; by rewrite Hk.
Qed.

Lemma dispatch_selects ns m w :
  selects (unwrap_or (from_user_id m) "") w (@dispatch_message Q L _ ns m w).2.
Proof.
  unfold dispatch_message. rewrite bind_run. cbn [changes snd].
  enough (selects (unwrap_or (from_user_id m) "") w (dispatch_body m w).2) by done.
  unfold dispatch_body. case_bool_decide; [by left|]. run_change.
  set (w1 := with_metrics _ w). rewrite bind_run, mentioned_backend_world.
  destruct (mentioned_backend m w1).1 as [[vt p]|]; [left; by rewrite view_at_mention|].
  rewrite bind_run. set (d := decide_routing m w1).
  assert (Hd : forall X (f : World Q L -> X), keeps f (@resolve_quote Q L m) ->
               (forall x w, f (with_metrics x w) = f w) -> f d.2 = f w).
  { intros X f Hq Hm. unfold d, decide_routing. rewrite !bind_run. cbn [reads ret fst snd].
    transitivity (f (resolve_quote m w1).2); [|by rewrite Hq; apply Hm].
    destruct (resolve_quote m w1) as [[o|] w2], (collect_quoted_timestamp m); cbn; auto. }
  pose proof (Hd _ view (view_quote m) ltac:(done)) as Hv.
  destruct d.1 as [vt so| |cmd]; cbn [act_on].
  - left. by rewrite view_forward.
  - left. by rewrite view_broadcast.
  - apply (selects_from _ d.2); [done| | |apply command_selects].
    + apply Hd; [by apply keeps_quote|done].
    + apply Hd; [by apply keeps_quote|done].
Qed.

(** Routes survive a restart: the routes of users in memory are those in the database. *)
Definition routes_synced w : Prop :=
  forall u, u <> HUB_DEFAULT_SENTINEL -> active_routes (w_router w) !! u = routing_state (w_store w) !! u.

(** (C12) Routing is changed only by its owner and in both places: whatever a user sends
    and whatever database calls fail (a failed call has no effect), dispatching the
    message leaves every other user's route and the default backend alone, changes the
    sender's route only to a backend that is visible to the sender, and keeps the
    routing table in memory equal to the one in the database. *)
Theorem routes_stay_synced (w : World Q L) (m : WeixinMessage) (ns : Z) (Hs : routes_synced w) :
  let w' := (dispatch_message ns m w).2 in
  let u := unwrap_or (from_user_id m) "" in
  routes_synced w' /\
  default_client (w_router w') = default_client (w_router w) /\
  (forall v, v <> u -> active_routes (w_router w') !! v = active_routes (w_router w) !! v) /\
  (active_routes (w_router w') !! u = active_routes (w_router w) !! u \/
   exists n c, get_by_alias_in (w_registry w) n
                 (wechat_visible (w_acl w) u (name <$> all_clients (w_registry w))) = Some c /\
     active_routes (w_router w') !! u = Some (Registry.vtoken c)).
Proof.
  intros w' u. destruct (dispatch_selects ns m w) as [E|(n & c & Hc & E)];
    unfold view in E; fold w' in E; injection E as Er Es; unfold routes_synced; rewrite Er, Es.
  - split; [done|]. split; [done|]. split; [done|by left].
  - split; [|split; [done|split]].
    + intros v Hv. cbn. rewrite !lookup_insert. case_decide; [done|by apply Hs].
    + intros v Hv. cbn. by rewrite lookup_insert_ne.
    + right. exists n, c. split; [done|]. cbn. by rewrite lookup_insert_eq.
Qed.
End Sync.

Lemma routes_stay_synced_witness :
  let w := demo_world demo_store (Router_new None) in
  let w' := (dispatch_message 5 (demo_message "/use mac" JNull) w).2 in
  routes_synced w' /\ active_routes (w_router w') !! "bob" = Some "ab".
Proof.
  intros w w'. split; [|vm_compute; reflexivity].
  apply (routes_stay_synced w (demo_message "/use mac" JNull) 5). by intros u Hu.
Defined.

Section Sessions.
Context {Q L : Type} `{MessageQueue Q}.
Implicit Types (w : World Q L) (m : WeixinMessage).

(** Only the sessions of one conversation and backend differ. *)
Definition isolated (vctx vt : string) (s s' : Store) : Prop :=
  messages s' = messages s /\
  (forall c v, (c, v) <> (vctx, vt) -> active_sessions s' !! (c, v) = active_sessions s !! (c, v)) /\
  (forall c v n, (c, v) <> (vctx, vt) -> backend_sessions s' !! (c, v, n) = backend_sessions s !! (c, v, n)).

Lemma isolated_refl vctx vt s : isolated vctx vt s s.
Proof. done. Qed.

Lemma isolated_backend vctx vt s s' now n id :
  isolated vctx vt s s' -> isolated vctx vt s (set_backend_session now vctx vt n id s').
Proof.
  intros (H1 & H2 & H3). split; [done|]. split; [done|]. intros c v k Hne. cbn.
  rewrite lookup_insert_ne by congruence. by apply H3.
Qed.

Lemma isolated_active vctx vt s s' now n :
  isolated vctx vt s s' -> isolated vctx vt s (set_active_session_name now vctx vt n s').
Proof.
  intros (H1 & H2 & H3). split; [done|]. split; [|done]. intros c v Hne. cbn.
  rewrite lookup_insert_ne by congruence. by apply H2.
Qed.

Lemma isolated_delete vctx vt s s' n :
  isolated vctx vt s s' -> isolated vctx vt s (delete_backend_session vctx vt n s').2.
Proof.
  intros (H1 & H2 & H3). split; [done|]. split; [done|]. intros c v k Hne. cbn.
  rewrite lookup_delete_ne by congruence. by apply H3.
Qed.

Lemma active_after now vctx vt n s :
  n <> "" -> get_active_session_name vctx vt (set_active_session_name now vctx vt n s) = n.
Proof. intros Hn. unfold get_active_session_name. cbn. rewrite lookup_insert_eq. cbn. by destruct n. Qed.

Lemma backend_after now vctx vt n id s :
  get_backend_session vctx vt n (set_backend_session now vctx vt n id s) = Some id.
Proof.
  unfold get_backend_session. cbn. rewrite lookup_insert_eq. by destruct (backend_sessions s !! _).
Qed.

(** The conversation of a message and the backend its sender selected. *)
Lemma resolve_both_healthy w m rc vt :
  healthy w -> arrives w m rc -> get_route (w_router w) (unwrap_or (from_user_id m) "") = Some vt ->
  exists vctx s e, let w1 := with_store s (with_env e w) in
    resolve_vctx_and_vtoken rc (unwrap_or (from_user_id m) "") (group_id m) w = ((vctx, Some vt), w1) /\
    faults e = [] /\ now_secs e = now_secs (w_env w) /\
    resolve_context_token_full vctx s = Some (rc, conversation m) /\ same_but_ctx (w_store w) s.
Proof.
  intros Hh [Hrc Hkey Hfree Hok (u1 & u2 & us & Hu & Hfresh1 & Hfresh)] Hr.
  destruct (resolve_vctx_healthy w rc (unwrap_or (from_user_id m) "") (group_id m) u1 u2 us)
    as (vctx & s' & Hv & (Hok' & Hrow & _) & Hsame); [done..|].
  exists vctx, s', (set_uuids us (w_env w)). cbv zeta. unfold resolve_vctx_and_vtoken.
  rewrite !bind_run, Hv. cbn [fst snd reads ret w_router with_store with_env update]. rewrite Hr.
  split; [done|]. split; [done|]. split; [done|]. split; [|done].
  unfold resolve_context_token_full. by rewrite Hrow.
Qed.

(** (C29) Session commands: with a working database and a selected backend, [/session
    new] stores the given backend session and makes it the active one, [/session use]
    makes the named session active and keeps what is stored for it (or reserves an
    empty slot), and [/session delete] removes the named session unless it is the
    active one, which it never touches; all of them act in the conversation the message
    came from, and sessions of other conversations and backends and the history stay as
    they were. *)
Theorem session_commands_spec (w : World Q L) (m : WeixinMessage) (rc vt n id : string)
    (Hh : healthy w) (Harr : arrives w m rc)
    (Hroute : get_route (w_router w) (unwrap_or (from_user_id m) "") = Some vt) (Hn : n <> "") :
  let u := unwrap_or (from_user_id m) "" in let g := group_id m in
  let s := w_store w in
  exists vctx,
  (let s' := w_store (handle_cmd_session_new u rc g n id w).2 in
   get_active_session_name vctx vt s' = n /\ get_backend_session vctx vt n s' = Some id /\
   isolated vctx vt s s' /\ resolve_context_token_full vctx s' = Some (rc, conversation m)) /\
  (let s' := w_store (handle_cmd_session_use u rc g n w).2 in
   get_active_session_name vctx vt s' = n /\
   get_backend_session vctx vt n s' = Some (unwrap_or (get_backend_session vctx vt n s) "") /\
   isolated vctx vt s s' /\ resolve_context_token_full vctx s' = Some (rc, conversation m)) /\
  (let s' := w_store (handle_cmd_session_delete u rc g n w).2 in
   let active := get_active_session_name vctx vt s in
   get_active_session_name vctx vt s' = active /\
   get_backend_session vctx vt active s' = get_backend_session vctx vt active s /\
   (n <> active -> get_backend_session vctx vt n s' = None) /\
   isolated vctx vt s s' /\ resolve_context_token_full vctx s' = Some (rc, conversation m)).
Proof.
  intros u g s. destruct (resolve_both_healthy w m rc vt Hh Harr Hroute)
    as (vctx & s1 & e & Hres & Hf & Hnow & Hctx & Hsame).
  set (w1 := with_store s1 (with_env e w)) in *.
  assert (Hh1 : healthy w1) by done.
  assert (Hi : isolated vctx vt s s1) by (rewrite Hsame; done).
  assert (Hact : forall v t, get_active_session_name v t s1 = get_active_session_name v t s)
    by (intros; by rewrite Hsame).
  assert (Hback : forall v t k, get_backend_session v t k s1 = get_backend_session v t k s)
    by (intros; by rewrite Hsame).
  exists vctx. split; [|split].
  - unfold handle_cmd_session_new. rewrite bind_run. unfold u, g. rewrite Hres. cbn [fst snd].
    run_read. rewrite bind_run, db_healthy by done. cbn [fst snd exec].
    rewrite bind_run, db_healthy by done. cbn [fst snd exec ret w_store with_store update].
    split; [by apply active_after|]. split; [apply backend_after|]. split; [|done].
    by apply isolated_active, isolated_backend.
  - unfold handle_cmd_session_use. rewrite bind_run. unfold u, g. rewrite Hres. cbn [fst snd].
    run_read. rewrite bind_run, db_healthy by done. cbn [fst snd query].
    rewrite with_store_id. change (w_store w1) with s1. rewrite <- Hback.
    destruct (get_backend_session vctx vt n s1) as [b|] eqn:Eb; rewrite bind_run; cbn [fst snd ret];
      [|rewrite bind_run, db_healthy by done; cbn [fst snd exec ret]];
      rewrite bind_run, db_healthy by done; cbn [fst snd exec ret w_store with_store update].
    + split; [by apply active_after|]. split; [exact Eb|]. split; [by apply isolated_active|done].
    + split; [by apply active_after|]. split; [apply backend_after|]. split; [|done].
      by apply isolated_active, isolated_backend.
  - unfold handle_cmd_session_delete. rewrite bind_run. unfold u, g. rewrite Hres. cbn [fst snd].
    rewrite bind_run, db_healthy by done. cbn [fst snd query]. rewrite with_store_id.
    change (w_store w1) with s1. rewrite Hact. set (active := get_active_session_name vctx vt s).
    destruct (String.eqb_spec n active) as [->|Hne].
    + cbn [ret snd]. change (w_store w1) with s1. rewrite Hact, Hback.
      split; [done|]. split; [done|]. split; [done|]. by split.
    + rewrite bind_run, db_healthy by done. cbn [fst snd].
      set (r := delete_backend_session vctx vt n s1).
      assert (Hw : forall (x : bool), w_store ((if x then ret (session_delete_ok n) else ret (session_delete_not_found n))
                     (with_store r.2 w1)).2 = r.2) by (by intros []).
      change (w_store w1) with s1. rewrite Hw. unfold r, get_backend_session in *. cbn.
      split; [apply Hact|]. rewrite lookup_delete_ne by congruence. split; [apply Hback|].
      rewrite lookup_delete_eq. split; [done|]. split; [|done].
      by apply (isolated_delete vctx vt s s1 n).
Qed.
End Sessions.

Lemma session_commands_spec_witness :
  let w := demo_world demo_store demo_router in
  exists vctx, let s' := w_store (handle_cmd_session_new "bob" "ctx1" None "feature" "id1" w).2 in
    get_active_session_name vctx "ab" s' = "feature" /\
    get_backend_session vctx "ab" "feature" s' = Some "id1".
Proof.
  intros w.
  destruct (session_commands_spec w (demo_message "x" JNull) "ctx1" "ab" "feature" "id1")
    as (vctx & (H1 & H2 & _) & _); [done|apply demo_arrives|done|done|].
  exists vctx. split; [exact H1|exact H2].
Defined.

(** A store in which session [work] of [bob]'s conversation is active on backend [ab]. *)
Definition demo_working : Store :=
  set_active_session_name 100 "vctx_1" "ab" "work"
    (set_backend_session 100 "vctx_1" "ab" "work" "id1"
       (put_ctx "vctx_1" "ctx1" "peer:bob" (Store_new Sqlite 60))).

(** The guard of [/session delete] fails open: while the read of the active session fails,
    the active session is deleted. *)
Lemma session_delete_fails_open :
  exists w : World InMemoryQueue unit,
    get_active_session_name "vctx_1" "ab" (w_store w) = "work" /\
    get_backend_session "vctx_1" "ab" "work" (w_store w) = Some "id1" /\
    get_backend_session "vctx_1" "ab" "work"
      (w_store (handle_cmd_session_delete "bob" "ctx1" None "work" w).2) = None.
Proof.
  exists (with_env {| faults := [Executes; Fails "locked"]; send_replies := []; uuids := ["1"; "2"]; random_bytes := [];
                      now_secs := 100; now_millis := 100000; now_nanos := 0; local_stamp := "";
                      local_stamp_ms := ""; upsert_arbiter := false |}
                  (demo_world demo_working demo_router)).
  repeat split; vm_compute; reflexivity.
Qed.
