(* ===== verification/BotApi.v ===== *)
(** * The bot API ([src/src/server/routes/bot.rs], [src/src/mcp/waiter.rs])

    The handlers backends call: [getupdates], [sendmessage], [sendtyping],
    [getconfig] and [getuploadurl], over the hub state of [Hub]. A response is a
    status code and a body. SHA-256, JSON rendering and the answers of the upstream
    client to calls other than [sendmessage] are parameters. *)
From S2P Require Import Prelude StrLemmas Types Queue Router Footer VToken Registry Acl Store PollTracker Hub Resolve Commands.
Import Str OutboundLabel.
Local Open Scope hub_scope.

Definition UNKNOWN_VTOKEN_MSG : string :=
  "Unknown or revoked virtual token; register via POST /hub/register or ilink-hub-bridge --force-register".

(** [retry_after_secs] of a [Duration] in nanoseconds. *)
Definition retry_after_secs (ns : Z) : Z :=
  let ms := wrap_u64 (ns / 1000000) in Z.max ((ms + 999) / 1000) 1.

(** ** A2A waiters *)

(** [A2aWaiter::register]. *)
Definition waiter_register (id : string) (ws : Waiters) : Waiters := <[id := None]> ws.

(** [A2aWaiter::resolve]: the first reply to a pending call is delivered. *)
Definition waiter_resolve (id reply : string) (ws : Waiters) : bool * Waiters :=
  match ws !! id with
  | Some None => (true, <[id := Some reply]> ws)
  | _ => (false, ws)
  end.

(** [A2aWaiter::cancel]. *)
Definition waiter_cancel (id : string) (ws : Waiters) : Waiters := delete id ws.

Section BotApi.
Context {Q L : Type} `{MessageQueue Q} `{RateLimiter L}.
Context (sha256 : string -> list N) (json_to_string : json -> string).

Definition check_outbound_rate_limit (vt : string) : hub Q L (option Z) := fun w =>
  let '(r, l) := rl_check (w_limiter w) (now_nanos (w_env w)) vt in (r, with_limiter l w).

Definition rate_limited (ns : Z) : string :=
  "rate limit exceeded; retry after " +:+ show_u64 (retry_after_secs ns) +:+ "s".

(** ** getupdates *)

Definition updates_error (code : Z) (msg : string) : GetUpdatesResponse :=
  {| gur_ret := Some code; gur_errcode := None; gur_errmsg := Some msg; gur_msgs := None;
     gur_get_updates_buf := None |}.

(** What the surroundings decide about one long-poll. [pw_wait] is how the wait ends:
    [None] when the shutdown flag is already set, so that it does not begin, else whether
    a message ended it (and not the timeout or a shutdown during it). [pw_ns] is how long
    the handler takes. *)
Record PollWait := { pw_wait : option bool; pw_ns : Z }.

(** [wait_notify_or_shutdown], with [wait_notify] on the queue as it leaves it. *)
Definition wait_notify_or_shutdown (vt : string) (p : PollWait) : hub Q L bool :=
  match pw_wait p with
  | None => ret false
  | Some notified =>
      let* r := (fun w => let '(r, q) := mq_wait_notify (w_queue w) vt notified in
                          (r, with_queue q w)) in
      ret match r with Ok b => b | Err _ => false end
  end.

(** The part of [getupdates] between admission and the drop of the guard. *)
Definition serve_poll (vt : string) (req : GetUpdatesRequest) (p : PollWait)
    : hub Q L (Z * GetUpdatesResponse) :=
  let* info := reads (fun w => get_by_vtoken (w_registry w) vt) in
  match info with
  | None => ret (401%Z, updates_error 401 UNKNOWN_VTOKEN_MSG)
  | Some info =>
      changes (fun w => with_last_seen (<[vt := now_secs (w_env w)]> (w_last_seen w)) w) ;;
      (if online info then ret tt
       else changes (fun w => with_registry (mark_online (w_registry w) vt) w)) ;;
      let* _ := wait_notify_or_shutdown vt p in
      let* r := (fun w => let '(r, q) := mq_poll (w_queue w) vt (ack_watermark req) in
                          (r, with_queue q w)) in
      let b := match r with Ok b => b | Err _ => PollBatch_default end in
      ret (200%Z,
           {| gur_ret := Some 0%Z; gur_errcode := None; gur_errmsg := None;
              gur_get_updates_buf := Some (show_u64 (cursor b));
              gur_msgs := match msgs b with [] => None | l => Some l end |})
  end.

(** The rest of [getupdates] holding guard [g], with [n] polls counted for the token. *)
Definition guarded (vt g : string) (n : Z) (req : GetUpdatesRequest) (p : PollWait)
    : hub Q L (Z * GetUpdatesResponse) :=
  let* r :=
    (if (Z.of_nat MAX_CONCURRENT_POLLS_PER_VTOKEN <? n)%Z
     then ret (429%Z, updates_error 429 "too many concurrent polls for this vtoken")
     else serve_poll vt req p) in
  changes (fun w => with_tracker (drop_guard (w_tracker w) g) w) ;;
  ret r.

(** [getupdates] but for the latency. *)
Definition answer_poll (authorization : option string) (req : GetUpdatesRequest) (p : PollWait)
    : hub Q L (Z * GetUpdatesResponse) :=
  match extract_vtoken sha256 authorization with
  | None => ret (401%Z, updates_error 401 "Missing Authorization header")
  | Some vt =>
      let* o := (fun w => let '(o, t) := enter (w_tracker w) vt in (o, with_tracker t w)) in
      match o with
      | HubLimitReached total cap =>
          ret (503%Z, updates_error 503
            ("Hub is at capacity (" +:+ show_u64 total +:+ "/" +:+ show_u64 cap +:+
             " concurrent long-polls). Retry later."))
      | Poisoned g => guarded vt g 0 req p
      | EOk n g => guarded vt g n req p
      end
  end.

(** The guard created first records the latency on every path out of the handler. *)
Definition getupdates (authorization : option string) (req : GetUpdatesRequest) (p : PollWait)
    : hub Q L (Z * GetUpdatesResponse) :=
  let* r := answer_poll authorization req p in
  changes (fun w => with_metrics (observe_getupdates (pw_ns p) (w_metrics w)) w) ;;
  ret r.

(** ** sendmessage *)

(** Persisting what the backend reports in [ilink_hub_ext]. *)
Definition persist_ext (vctx vt session : string) (ext : HubExt) : hub Q L unit :=
  let* now := reads (fun w => now_secs (w_env w)) in
  match ext_cli_session_id ext with
  | Some sid =>
      let t := trim sid in
      if is_empty t then ret tt
      else let* _ := db_timeout (exec (set_backend_session now vctx vt session t)) in ret tt
  | None => ret tt
  end ;;
  match ext_usage ext with
  | Some usage =>
      let* _ := db_timeout
        (exec (set_backend_session_usage now vctx vt session (json_to_string usage))) in ret tt
  | None => ret tt
  end.

Definition resolve_waiter (id : string) (reply : option string) : hub Q L unit :=
  match reply with
  | Some t =>
      if negb (is_empty id) && negb (is_empty t)
      then changes (fun w => with_waiters (waiter_resolve id t (w_waiters w)).2 w)
      else ret tt
  | None => ret tt
  end.

(** The message as it goes upstream: real context, recipient, ids; no metadata. *)
Definition outbound (rc peer uuid : string) (millis n : Z) (m : WeixinMessage) : WeixinMessage :=
  let m := set_context m (Some rc) None in
  let m := match to_user_id m with
           | None => if is_empty peer then m else set_to_user m (Some peer)
           | Some _ => m
           end in
  ensure_outbound uuid millis n m.

(** [ensure_outbound] draws a UUID and steps the message counter only for a missing
    [client_id] and [message_id]. *)
Definition make_outbound (rc peer : string) (m : WeixinMessage) : hub Q L WeixinMessage :=
  let* u := (if match client_id m with Some s => is_empty s | None => true end
             then new_uuid else ret "") in
  fun w => (outbound rc peer u (now_millis (w_env w)) (w_msg_counter w) m,
            match message_id m with
            | None => with_msg_counter (w_msg_counter w + 1) w
            | Some _ => w
            end).

Definition label_message (vt : string) (session : string) (m : WeixinMessage)
    : hub Q L WeixinMessage :=
  reads (fun w =>
    if should_append_outbound_origin_label (length (online_clients (w_registry w)))
         (outbound_origin_label (w_admin w))
    then match get_by_vtoken (w_registry w) vt with
         | Some i => apply_persona_and_footer_to_first_text_item m (persona_name i)
                       (persona_emoji i) (name i) (label i) (Some session)
         | None => m
         end
    else m).

Definition is_partial (m : WeixinMessage) : bool :=
  match message_state m with Some s => negb (s =? message_state_FINISH)%Z | None => false end.

Definition record_reply (vctx vt session peer : string) (m : WeixinMessage) : hub Q L unit :=
  if is_partial m then ret tt else
  match text m with
  | Some content =>
      spawn {| t_vctx := vctx; t_vtoken := vt; t_session := session; t_peer := peer;
               t_role := "assistant"; t_content := content; t_msg_id := message_id m |}
  | None => ret tt
  end.

(** The session a reply belongs to: the one the backend echoes, else the active one. *)
Definition reply_session (m : WeixinMessage) (db_session : string) : string :=
  unwrap_or (e ← ilink_hub_ext m; s ← ext_session_name e;
             if is_empty (trim s) then None else Some (trim s)) db_session.

(** Handling of an authorised message: the response at once when nothing goes upstream,
    else the message to send. *)
Definition prepare (vctx vt rc peer db_session : string) (m : WeixinMessage)
    : hub Q L (SendMessageResponse + WeixinMessage) :=
  let session := reply_session m db_session in
  match ilink_hub_ext m with
  | Some ext => persist_ext vctx vt session ext
  | None => ret tt
  end ;;
  match (e ← ilink_hub_ext m; ext_a2a_call_id e) with
  | Some id => resolve_waiter id (text m) ;; ret (inl SendMessageResponse_ok)
  | None =>
      let* m := make_outbound rc peer m in
      let empty := match text m with Some t => is_empty (trim t) | None => true end in
      if empty && negb (has_media_content m) then ret (inl SendMessageResponse_default)
      else
        let* m := label_message vt session m in
        record_reply vctx vt session peer m ;;
        ret (inr m)
  end.

Definition sendmessage (authorization : option string) (req : SendMessageRequest)
    : hub Q L (Z * SendMessageResponse) :=
  count SendTotal ;;
  match extract_vtoken sha256 authorization with
  | None => count SendError ;; ret (200%Z, SendMessageResponse_err 401 "Missing Authorization header")
  | Some vt =>
      let* info := reads (fun w => get_by_vtoken (w_registry w) vt) in
      match info with
      | None => count SendError ;; ret (200%Z, SendMessageResponse_err 401 UNKNOWN_VTOKEN_MSG)
      | Some _ =>
          let* limited := check_outbound_rate_limit vt in
          match limited with
          | Some ns => count SendError ;; ret (429%Z, SendMessageResponse_err 429 (rate_limited ns))
          | None =>
              match (m ← req_msg req; ofilter (fun c => negb (is_empty c)) (context_token m)),
                    req_msg req with
              | Some vctx, Some m =>
                  let* now := reads (fun w => now_secs (w_env w)) in
                  let* r := db_timeout (query (resolve_send_context now vctx vt)) in
                  match r with
                  | Some (Ok (Some (rc, peer, db_session))) =>
                      let* p := prepare vctx vt rc peer db_session m in
                      match p with
                      | inl resp => ret (200%Z, resp)
                      | inr m =>
                          let* r := send_message
                            {| req_msg := Some m;
                               req_base_info := Some (unwrap_or (req_base_info req) BaseInfo_default) |} in
                          ret (200%Z, match r with
                                      | Ok resp => resp
                                      | Err e => SendMessageResponse_err 500 ("upstream error: " +:+ e)
                                      end)
                      end
                  | Some (Ok None) =>
                      ret (200%Z, SendMessageResponse_err 403
                        "Unknown context_token or not authorized for this context")
                  | _ => ret (200%Z, SendMessageResponse_err 500 "context_token resolution error")
                  end
              | _, _ => ret (200%Z, SendMessageResponse_err 400 "Missing msg.context_token")
              end
          end
      end
  end.
(** ** sendtyping, getconfig, getuploadurl *)

(** The checks the three handlers start with: the caller's token, or the status code,
    [ret] and [errmsg] of the refusal. *)
Definition admit_caller (authorization : option string)
    : hub Q L (result string (Z * Z * string)) :=
  match extract_vtoken sha256 authorization with
  | None => ret (Err (200%Z, 401%Z, "Missing Authorization"))
  | Some vt =>
      let* info := reads (fun w => get_by_vtoken (w_registry w) vt) in
      match info with
      | None => ret (Err (200%Z, 401%Z, UNKNOWN_VTOKEN_MSG))
      | Some _ =>
          let* limited := check_outbound_rate_limit vt in
          ret (match limited with
               | Some ns => Err (429%Z, 429%Z, rate_limited ns)
               | None => Ok vt
               end)
      end
  end.

(** The body is [ret] and, on a refusal, [errmsg]; [answer] is the upstream client. *)
Definition sendtyping (answer : SendTypingRequest -> result unit string)
    (authorization : option string) (req : SendTypingRequest)
    : hub Q L (Z * (Z * option string)) :=
  let* a := admit_caller authorization in
  ret (match a with
       | Err (st, code, msg) => (st, (code, Some msg))
       | Ok _ => (200%Z, match answer req with
                         | Ok _ => (0%Z, None)
                         | Err e => (500%Z, Some ("upstream error: " +:+ e))
                         end)
       end).

Definition config_error (code : Z) (msg : string) : GetConfigResponse :=
  {| gcr_ret := Some code; gcr_errmsg := Some msg; gcr_typing_ticket := None |}.

(** The context to forward, or the error to answer: a virtual context of the hub is
    translated for its owner and refused to others; any other token is left alone. *)
Definition config_context (vt : string) (token : option string)
    : hub Q L (result (option string) GetConfigResponse) :=
  match token with
  | None => ret (Ok None)
  | Some t =>
      let* r := db (query (resolve_context_token t)) in
      match r with
      | Ok (Some real) =>
          let* now := reads (fun w => now_secs (w_env w)) in
          let* o := db (query (vtoken_owns_vctx now t vt)) in
          ret (match o with
               | Ok true => Ok (Some real)
               | Ok false => Err (config_error 403 "context_token not authorized for this client")
               | Err _ => Err (config_error 500 "context ownership check error")
               end)
      | Ok None => ret (Ok (Some t))
      | Err _ => ret (Err (config_error 500 "context_token resolution error"))
      end
  end.

Definition getconfig (answer : GetConfigRequest -> result GetConfigResponse string)
    (authorization : option string) (req : GetConfigRequest) : hub Q L (Z * GetConfigResponse) :=
  let* a := admit_caller authorization in
  match a with
  | Err (st, code, msg) => ret (st, config_error code msg)
  | Ok vt =>
      let* c := config_context vt (gc_context_token req) in
      match c with
      | Err resp => ret (200%Z, resp)
      | Ok ctx =>
          ret (200%Z,
            match answer {| gc_ilink_user_id := gc_ilink_user_id req; gc_context_token := ctx;
                            gc_base_info :=
                              Some (unwrap_or (gc_base_info req) BaseInfo_default) |} with
            | Ok resp => resp
            | Err e => config_error 500 ("upstream error: " +:+ e)
            end)
      end
  end.

Definition upload_error (code : Z) (msg : string) : GetUploadUrlResponse :=
  {| gup_ret := Some code; gup_errmsg := Some msg; upload_param := None;
     thumb_upload_param := None; upload_full_url := None |}.

Definition getuploadurl (answer : GetUploadUrlRequest -> result GetUploadUrlResponse string)
    (authorization : option string) (req : GetUploadUrlRequest)
    : hub Q L (Z * GetUploadUrlResponse) :=
  let* a := admit_caller authorization in
  ret (match a with
       | Err (st, code, msg) => (st, upload_error code msg)
       | Ok _ => (200%Z, match answer req with
                         | Ok resp => resp
                         | Err e => upload_error 500 ("upstream error: " +:+ e)
                         end)
       end).
End BotApi.
