(* ===== verification/BotProps.v ===== *)
(** * Properties of the bot API

    Who may send upstream and what is sent, the loop from an answer over the history
    to a quote of it, and what a long-poll serves. *)
From S2P Require Import Prelude StrLemmas Types Queue Router Footer VToken Registry Acl Store StoreProps PollTracker Hub Resolve Commands Dispatch HubLemmas DispatchProps BotApi.
Import Str OutboundLabel.
Local Open Scope hub_scope.

(** ** The message that goes upstream *)

Lemma map_first_text_context f m : context_token (map_first_text f m) = context_token m.
Proof. unfold map_first_text. repeat (case_match; try done). Qed.

Lemma map_first_text_ext f m : ilink_hub_ext (map_first_text f m) = ilink_hub_ext m.
Proof. unfold map_first_text. repeat (case_match; try done). Qed.

Lemma map_first_text_id f m : message_id (map_first_text f m) = message_id m.
Proof. unfold map_first_text. repeat (case_match; try done). Qed.

Lemma map_first_text_state f m : message_state (map_first_text f m) = message_state m.
Proof. unfold map_first_text. repeat (case_match; try done). Qed.

Lemma map_first_text_text f m t :
  text m = Some t -> exists t', text (map_first_text f m) = Some t'.
Proof.
  unfold map_first_text, text. destruct (item_list m) as [[|i l]|] eqn:E; cbn [mbind option_bind].
  - done.
  - destruct (text_item i) as [[[x|]]|] eqn:Ei; cbn [find_map mbind option_bind or_else];
      rewrite ?E; cbn [mbind option_bind find_map]; rewrite ?Ei; cbn; eauto.
  - done.
Qed.

(** A message translated for the upstream: real context, no hub metadata, an id. *)
Record translated (rc : string) (m : WeixinMessage) : Prop := {
  tr_context : context_token m = Some rc;
  tr_ext : ilink_hub_ext m = None;
  tr_id : is_Some (message_id m);
}.

Lemma outbound_translated rc peer u ms n m : translated rc (outbound rc peer u ms n m).
Proof.
  unfold outbound. split; cbn; repeat (case_match; cbn); try done; destruct (message_id m); by eexists.
Qed.

Lemma map_first_text_translated rc f m : translated rc m -> translated rc (map_first_text f m).
Proof.
  intros [H1 H2 H3]. split; by rewrite ?map_first_text_context, ?map_first_text_ext, ?map_first_text_id.
Qed.

Section Send.
Context {Q L : Type} `{MessageQueue Q} `{RateLimiter L}.
Context (sha256 : string -> list N) (json_to_string : json -> string).
Implicit Types (w : World Q L) (m : WeixinMessage).

Lemma label_message_run vt session m w :
  exists f, label_message vt session m w = (map_first_text f m, w) \/
            label_message vt session m w = (m, w).
Proof.
  unfold label_message, reads. case_match; [|by exists id; right].
  destruct (get_by_vtoken (w_registry w) vt) as [i|]; [|by exists id; right].
  eexists. left. reflexivity.
Qed.

(** Components [sendmessage] never touches before it hands the message over. *)
Class Quiet {X} (f : World Q L -> X) : Prop := {
  quiet_aside :: Aside f;
  quiet_tasks : forall x w, f (with_tasks x w) = f w;
  quiet_counter : forall x w, f (with_msg_counter x w) = f w;
  quiet_waiters : forall x w, f (with_waiters x w) = f w;
  quiet_metrics : forall x w, f (with_metrics x w) = f w;
  quiet_limiter : forall x w, f (with_limiter x w) = f w;
}.

#[global] Instance quiet_outbox : Quiet w_outbox. Proof. by split; try apply _. Qed.
#[global] Instance quiet_queue : Quiet w_queue. Proof. by split; try apply _. Qed.
#[global] Instance quiet_router : Quiet w_router. Proof. by split; try apply _. Qed.
#[global] Instance quiet_registry : Quiet w_registry. Proof. by split; try apply _. Qed.

Lemma keeps_persist_ext {X} (f : World Q L -> X) `{!Quiet f} vctx vt s e :
  keeps f (persist_ext json_to_string vctx vt s e).
Proof. unfold persist_ext. keeps. Qed.

Lemma keeps_resolve_waiter {X} (f : World Q L -> X) `{!Quiet f} id r :
  keeps f (resolve_waiter id r).
Proof.
  unfold resolve_waiter. destruct r as [t|]; [|keeps]. destruct (_ && _); [|keeps].
  apply keeps_changes. intros. apply quiet_waiters.
Qed.

Lemma keeps_make_outbound {X} (f : World Q L -> X) `{!Quiet f} rc peer m :
  keeps f (make_outbound rc peer m).
Proof.
  unfold make_outbound. apply keeps_bind; [keeps|]. intros u w. cbn.
  destruct (message_id m); [done|apply quiet_counter].
Qed.

Lemma keeps_record_reply {X} (f : World Q L -> X) `{!Quiet f} vctx vt s p m :
  keeps f (record_reply vctx vt s p m).
Proof.
  unfold record_reply. destruct (is_partial m); [keeps|]. destruct (text m); [|keeps].
  apply keeps_changes. intros. apply quiet_tasks.
Qed.

Lemma keeps_prepare {X} (f : World Q L -> X) `{!Quiet f} vctx vt rc peer s m :
  keeps f (prepare json_to_string vctx vt rc peer s m).
Proof.
  unfold prepare, label_message. cbv zeta. apply keeps_bind.
  { destruct (ilink_hub_ext m); [by apply keeps_persist_ext|keeps]. }
  intros _. destruct (e ← ilink_hub_ext m; ext_a2a_call_id e) as [id|].
  { apply keeps_bind; [by apply keeps_resolve_waiter|keeps]. }
  apply keeps_bind; [by apply keeps_make_outbound|]. intros m1. destruct (_ && _); [keeps|].
  apply keeps_bind; [keeps|]. intros m2. apply keeps_bind; [by apply keeps_record_reply|keeps].
Qed.

(** What [prepare] hands over is translated. *)
Lemma prepare_translated vctx vt rc peer s m m' w :
  (prepare json_to_string vctx vt rc peer s m w).1 = inr m' -> translated rc m'.
Proof.
  unfold prepare. cbv zeta. rewrite bind_run. set (w1 := snd _).
  destruct (e ← ilink_hub_ext m; ext_a2a_call_id e) as [id|]; [by rewrite bind_run|].
  rewrite bind_run. set (o := make_outbound rc peer m w1).
  assert (Ho : translated rc o.1).
  { unfold o, make_outbound. rewrite bind_run. cbn. apply outbound_translated. }
  destruct (_ && _); [done|]. rewrite !bind_run. cbn [ret fst snd]. intros [= <-].
  destruct (label_message_run vt (reply_session m s) o.1 o.2) as (f & [E|E]);
    apply (f_equal fst) in E; cbn in E; rewrite E; [|done]. by apply map_first_text_translated.
Qed.

Lemma send_message_outbox r w : w_outbox (send_message r w).2 = w_outbox w ++ [r].
Proof. unfold send_message. cbn. by destruct (send_replies _). Qed.

Lemma keeps_send {X} (f : World Q L -> X) `{!Quiet f} r :
  (forall x w, f (with_outbox x w) = f w) -> keeps f (send_message r).
Proof.
  intros Hf w. unfold send_message. cbn. destruct (send_replies _); cbn; [apply Hf|].
  rewrite (aside_env (f := f)). apply Hf.
Qed.

(** (C2) Only an owner sends, and only translated messages: whatever the request, the
    state and the database faults, [sendmessage] hands at most one message to the
    upstream; it does so only for a registered token that the rate limiter admits and
    that owns the virtual context named in the request; the message then carries the
    real context behind it, an id and no hub metadata. Queues, routes and the registry
    do not change. *)
Theorem sendmessage_authorized (w : World Q L) (authorization : option string)
    (req : SendMessageRequest) :
  let w' := (sendmessage sha256 json_to_string authorization req w).2 in
  (w_queue w' = w_queue w /\ w_router w' = w_router w /\ w_registry w' = w_registry w) /\
  (w_outbox w' = w_outbox w \/
   exists vt vctx rc m sent base,
     extract_vtoken sha256 authorization = Some vt /\
     is_Some (get_by_vtoken (w_registry w) vt) /\
     (rl_check (w_limiter w) (now_nanos (w_env w)) vt).1 = None /\
     req_msg req = Some m /\ context_token m = Some vctx /\
     vtoken_owns_vctx (now_secs (w_env w)) vctx vt (w_store w) = true /\
     resolve_context_token vctx (w_store w) = Some rc /\
     translated rc sent /\
     w_outbox w' = w_outbox w ++ [{| req_msg := Some sent; req_base_info := Some base |}]).
Proof.
  intros w'. subst w'. unfold sendmessage. run_change.
  set (w1 := with_metrics _ w).
  destruct (extract_vtoken sha256 authorization) as [vt|] eqn:Hvt; [|by split; [|left]].
  run_read. change (w_registry w1) with (w_registry w).
  destruct (get_by_vtoken (w_registry w) vt) as [info|] eqn:Hreg; [|by split; [|left]].
  rewrite bind_run.
  destruct (rl_check (w_limiter w) (now_nanos (w_env w)) vt) as [lim l] eqn:Hrl.
  assert (Hl : check_outbound_rate_limit vt w1 = (lim, with_limiter l w1)).
  { unfold check_outbound_rate_limit. cbn. by rewrite Hrl. }
  rewrite Hl. cbn [fst snd].
  destruct lim as [ns|]; [by split; [|left]|]. set (w2 := with_limiter l w1).
  destruct (req_msg req) as [m|] eqn:Hm; [|by split; [|left]]. cbn [mbind option_bind].
  destruct (ofilter _ (context_token m)) as [vctx|] eqn:Hc; [|by split; [|left]].
  apply ofilter_Some in Hc as [Hc _].
  run_read. rewrite bind_run.
  set (d := db_timeout _ w2).
  assert (Hd : forall {X} (f : World Q L -> X) `{!Quiet f}, f d.2 = f w).
  { intros X f Hf. unfold d. rewrite keeps_db_timeout by apply _. unfold w2, w1.
    by rewrite quiet_limiter, quiet_metrics. }
  destruct d.1 as [[[[[rc peer] ses]|]|e]|] eqn:E; try (by split; [|left]; rewrite ?Hd).
  apply query_answer in E. change (w_store w2) with (w_store w) in E.
  change (w_env w2) with (w_env w) in E.
  destruct (resolve_send_context_owned (now_secs (w_env w)) vctx vt (w_store w)) as [Hown _].
  rewrite bind_run. set (p := prepare json_to_string _ _ _ _ _ _ _).
  assert (Hp : forall {X} (f : World Q L -> X) `{!Quiet f}, f p.2 = f w).
  { intros X f Hf. unfold p. rewrite keeps_prepare by apply _. by apply Hd. }
  destruct p.1 as [resp|m'] eqn:Ep; [by split; [|left]; rewrite ?Hp|].
  rewrite bind_run. cbn [ret fst snd]. split.
  { by rewrite !keeps_send, ?Hp by (done || apply _). }
  right. rewrite send_message_outbox, (Hp _ w_outbox _).
  destruct Hown as [Ho _]; [by rewrite <- E|].
  unfold resolve_send_context in E. unfold resolve_context_token.
  destruct (context_token_map (w_store w) !! vctx) as [c|] eqn:Ec; [|done].
  destruct (_ || _); [|done]. injection E as -> -> ->.
  exists vt, vctx, (real_ctx c), m, m'. eexists.
  apply prepare_translated in Ep.
  repeat split; try done; try apply Ep; by rewrite ?Hrl, ?Ec.
Qed.
(** ** Without faults *)

Lemma persist_ext_healthy vctx vt ses e w :
  healthy w ->
  exists s, persist_ext json_to_string vctx vt ses e w = (tt, with_store s w) /\
            messages s = messages (w_store w).
Proof.
  intros Hh. unfold persist_ext. run_read.
  assert (Hid : with_store (w_store w) w = w) by (by destruct w).
  destruct (ext_cli_session_id e) as [sid|]; [destruct (is_empty (trim sid))|];
    rewrite bind_run; cbn [ret fst snd].
  1,3: destruct (ext_usage e) as [u|]; [|by exists (w_store w); rewrite Hid];
    rewrite bind_run, db_timeout_healthy by done; by eexists.
  rewrite bind_run, db_timeout_healthy by done. cbn [ret fst snd].
  destruct (ext_usage e) as [u|]; [|by eexists].
  rewrite bind_run, db_timeout_healthy by done. by eexists.
Qed.

Lemma make_outbound_run rc peer m w :
  exists u e n, make_outbound rc peer m w
    = (outbound rc peer u (now_millis (w_env w)) (w_msg_counter w) m,
       with_msg_counter n (with_env e w)) /\ faults e = faults (w_env w) /\ now_secs e = now_secs (w_env w).
Proof.
  unfold make_outbound. rewrite bind_run.
  assert (He : with_env (w_env w) w = w) by (by destruct w).
  assert (Hu : exists u e, (if match client_id m with Some s => is_empty s | None => true end
                            then new_uuid else ret "") w = (u, with_env e w) /\
                           faults e = faults (w_env w) /\ now_secs e = now_secs (w_env w) /\
                           now_millis e = now_millis (w_env w)).
  { destruct (match client_id m with Some s => is_empty s | None => true end).
    - unfold new_uuid. destruct (uuids (w_env w)) as [|u us]; [exists "", (w_env w)|eexists u, _];
        [by rewrite He|by repeat split].
    - exists "", (w_env w). by rewrite He. }
  destruct Hu as (u & e & -> & Hf & Hs & Hms). cbn [fst snd w_env with_env update]. rewrite Hms.
  exists u, e. destruct (message_id m) eqn:Em.
  - exists (w_msg_counter w). split; [|done]. by destruct w.
  - exists (w_msg_counter w + 1)%Z. by split.
Qed.
(** The history row of an answer. *)
Definition answer_task (vctx vt ses peer content : string) (m : WeixinMessage) : HistoryTask :=
  {| t_vctx := vctx; t_vtoken := vt; t_session := ses; t_peer := peer; t_role := "assistant";
     t_content := content; t_msg_id := message_id m |}.

Lemma prepare_healthy vctx vt rc peer db_ses m t w :
  healthy w -> (e ← ilink_hub_ext m; ext_a2a_call_id e) = None ->
  text m = Some t -> is_empty (trim t) = false -> is_partial m = false ->
  exists m' content s e n,
    prepare json_to_string vctx vt rc peer db_ses m w
    = (inr m', with_tasks (w_tasks w ++ [answer_task vctx vt (reply_session m db_ses) peer content m'])
                 (with_msg_counter n (with_env e (with_store s w)))) /\
    text m' = Some content /\ translated rc m' /\ messages s = messages (w_store w) /\
    faults e = [] /\ now_secs e = now_secs (w_env w).
Proof.
  intros Hh Ha Ht Hne Hp. unfold prepare. cbv zeta. rewrite bind_run.
  assert (He : exists s, match ilink_hub_ext m with
               | Some ext => persist_ext json_to_string vctx vt (reply_session m db_ses) ext
               | None => ret tt end w = (tt, with_store s w) /\ messages s = messages (w_store w)).
  { destruct (ilink_hub_ext m); [by apply persist_ext_healthy|]. exists (w_store w). by destruct w. }
  destruct He as (s & -> & Hs). cbn [fst snd]. rewrite Ha, bind_run.
  destruct (make_outbound_run rc peer m (with_store s w)) as (u & e & n & -> & Hf & Hnow).
  cbn [fst snd]. set (m0 := outbound _ _ _ _ _ _).
  assert (Hi : item_list m0 = item_list m) by (unfold m0, outbound; by repeat case_match).
  assert (Ht0 : text m0 = Some t) by (unfold text; by rewrite Hi).
  assert (Hp0 : is_partial m0 = false).
  { assert (message_state m0 = message_state m <|> Some message_state_FINISH) as Hst
      by (unfold m0, outbound; by repeat case_match).
    revert Hp. unfold is_partial. rewrite Hst. by destruct (message_state m). }
  rewrite Ht0, Hne. cbn [andb]. rewrite bind_run. set (w1 := with_msg_counter n _).
  pose proof (outbound_translated rc peer u (now_millis (w_env w)) (w_msg_counter w) m) as Htr.
  change (translated rc m0) in Htr.
  assert (Hl : exists m', label_message vt (reply_session m db_ses) m0 w1 = (m', w1) /\
               translated rc m' /\ is_partial m' = false /\ is_Some (text m')).
  { destruct (label_message_run vt (reply_session m db_ses) m0 w1) as (f & [-> | ->]);
      [|by exists m0; rewrite Ht0].
    exists (map_first_text f m0). split; [done|]. split; [by apply map_first_text_translated|].
    unfold is_partial in *. rewrite map_first_text_state. split; [done|].
    destruct (map_first_text_text f m0 t Ht0) as [t' ->]. by eexists. }
  destruct Hl as (m' & -> & Htr' & Hp' & [content Hc]). cbn [fst snd]. rewrite bind_run.
  unfold record_reply. rewrite Hp', Hc. exists m', content, s, e, n.
  repeat split; try done; [apply Htr'|apply Htr'|apply Htr'|]. by rewrite Hf.
Qed.
(** The head of [sendmessage] for an admitted owner. *)
Lemma sendmessage_admitted w authorization req vt m vctx rc peer db_ses :
  healthy w -> extract_vtoken sha256 authorization = Some vt ->
  is_Some (get_by_vtoken (w_registry w) vt) ->
  (rl_check (w_limiter w) (now_nanos (w_env w)) vt).1 = None ->
  req_msg req = Some m -> context_token m = Some vctx -> vctx <> "" ->
  resolve_send_context (now_secs (w_env w)) vctx vt (w_store w) = Some (rc, peer, db_ses) ->
  exists mt l, let w2 := with_limiter l (with_metrics mt w) in
    let p := prepare json_to_string vctx vt rc peer db_ses m w2 in
    (sendmessage sha256 json_to_string authorization req w).2 =
    match p.1 with
    | inl _ => p.2
    | inr m' => (send_message {| req_msg := Some m';
                   req_base_info := Some (unwrap_or (req_base_info req) BaseInfo_default) |} p.2).2
    end.
Proof.
  intros Hh Hvt [info Hreg] Hrl Hm Hc Hne Hres.
  exists (bump SendTotal (w_metrics w)), (rl_check (w_limiter w) (now_nanos (w_env w)) vt).2.
  intros w2 p. unfold sendmessage. run_change. rewrite Hvt.
  rewrite bind_run. cbn [reads fst snd w_registry with_metrics update]. rewrite Hreg, bind_run.
  assert (Hl : check_outbound_rate_limit vt (with_metrics (bump SendTotal (w_metrics w)) w) = (None, w2)).
  { unfold check_outbound_rate_limit, w2. cbn.
    destruct (rl_check (w_limiter w) (now_nanos (w_env w)) vt). cbn in *. by subst. }
  rewrite Hl. cbn [fst snd]. rewrite Hm.
  cbn [mbind option_bind]. rewrite Hc. destruct vctx as [|a r]; [done|]. cbn [ofilter is_empty negb].
  run_read. rewrite bind_run.
  rewrite (db_timeout_healthy _ w2 Hh). cbn [query fst snd].
  change (w_store w2) with (w_store w). change (w_env w2) with (w_env w). rewrite Hres.
  rewrite bind_run. assert (He : with_store (w_store w) w2 = w2) by (unfold w2; by destruct w).
  rewrite He. fold p. destruct p as [[r'|m'] w3]; cbn [fst snd]; [done|]. by rewrite bind_run.
Qed.

Lemma find_new_message id vt ses vctx peer content now s :
  (forall r, r ∈ messages s -> m_ilink_msg_id r <> Some id) ->
  find_assistant_message_by_msg_id peer id
    (save_message_with_msg_id now vctx (Some vt) ses peer "assistant" content (Some id) s)
  = Some (vt, Some ses).
Proof.
  intros Hu. unfold find_assistant_message_by_msg_id, assistant_rows, save_message_with_msg_id. cbn.
  rewrite List.filter_app. cbn. rewrite !String.eqb_refl. cbn.
  assert (Hf : forall l, (forall r, r ∈ l -> m_ilink_msg_id r <> Some id) -> forall x,
            bool_decide (m_ilink_msg_id x = Some id) = true ->
            List.find (fun r => bool_decide (m_ilink_msg_id r = Some id)) (l ++ [x]) = Some x).
  { induction l as [|y l IH]; intros Hl x Hx; cbn; [by rewrite Hx|].
    rewrite bool_decide_false by (apply Hl; left). apply IH; [|done]. intros r Hr. apply Hl. by right. }
  rewrite Hf; [done| |by apply bool_decide_true].
  intros r Hr. apply Hu. apply list_elem_of_In. apply list_elem_of_In, filter_In in Hr. apply Hr.
Qed.

End Send.

Section Poll.
Context {Q L : Type} `{MessageQueueLaws Q}.
Context (sha256 : string -> list N).
Implicit Types (w : World Q L).

(** The status of a poll, from the state before it. *)
Definition poll_status (w : World Q L) (authorization : option string) : Z :=
  match extract_vtoken sha256 authorization with
  | None => 401
  | Some vt =>
      if (hub_cap (w_tracker w) <=? total (w_tracker w))%Z then 503
      else if negb (poisoned (w_tracker w)) &&
              (Z.of_nat MAX_CONCURRENT_POLLS_PER_VTOKEN <=? default 0 (counts (w_tracker w) !! vt))%Z
      then 429
      else match get_by_vtoken (w_registry w) vt with Some _ => 200 | None => 401 end
  end.

(** The queue when the wait of a long-poll is over. *)
Definition waited w (vt : string) (p : PollWait) : Q :=
  match pw_wait p with Some notified => (mq_wait_notify (w_queue w) vt notified).2 | None => w_queue w end.

(** What a served poll of [vt] has returned and changed. The poll of the queue retires what
    the request acknowledges; the answer carries exactly what is then pending, in order,
    and no list when nothing is. *)
Record served w w' (vt : string) (req : GetUpdatesRequest) (p : PollWait) (r : GetUpdatesResponse) : Prop := {
  sv_online : online <$> get_by_vtoken (w_registry w') vt = Some true;
  sv_seen : w_last_seen w' !! vt = Some (now_secs (w_env w));
  sv_queue : w_queue w' = (mq_poll (waited w vt p) vt (ack_watermark req)).2;
  sv_batch : match (mq_poll (waited w vt p) vt (ack_watermark req)).1 with
             | Ok b => gur_msgs r = match mq_pending (w_queue w') vt with [] => None | l => Some l end /\
                       gur_get_updates_buf r = Some (show_u64 (cursor b)) /\
                       mq_pending (w_queue w') vt `suffix_of` mq_pending (w_queue w) vt /\
                       (ack_watermark req = None ->
                        mq_pending (w_queue w') vt = mq_pending (w_queue w) vt)
             | Err _ => gur_msgs r = None /\ gur_get_updates_buf r = Some "0"
             end;
  sv_other : forall v, v <> vt -> mq_pending (w_queue w') v = mq_pending (w_queue w) v;
}.

Lemma waited_pending w vt p v : mq_pending (waited w vt p) v = mq_pending (w_queue w) v.
Proof. unfold waited. destruct (pw_wait p); [apply mq_wait_pending|done]. Qed.

Lemma wait_run vt p w : (wait_notify_or_shutdown vt p w).2 = with_queue (waited w vt p) w.
Proof.
  unfold wait_notify_or_shutdown, waited. destruct (pw_wait p) as [n|]; [|by destruct w].
  rewrite bind_run. by destruct (mq_wait_notify (w_queue w) vt n) as [r q].
Qed.

Lemma serve_poll_spec vt req p w :
  let r := serve_poll vt req p w in
  w_tracker r.2 = w_tracker w /\ w_metrics r.2 = w_metrics w /\
  match get_by_vtoken (w_registry w) vt with
  | Some _ => r.1.1 = 200%Z /\ served w r.2 vt req p r.1.2
  | None => r.1.1 = 401%Z /\ r.2 = w
  end.
Proof.
  unfold serve_poll. run_read.
  destruct (get_by_vtoken (w_registry w) vt) as [i|] eqn:Hr; [|done].
  rewrite bind_run. cbn [changes fst snd]. rewrite bind_run.
  set (w1 := with_last_seen _ w). set (w2 := ((if online i then ret tt else changes _) w1).2).
  assert (Hw2 : exists rg, w2 = with_registry rg w1 /\ online <$> get_by_vtoken rg vt = Some true).
  { unfold w2. destruct (online i) eqn:Ho.
    - exists (w_registry w). split; [reflexivity|]. rewrite Hr. cbn. by rewrite Ho.
    - eexists. split; [reflexivity|]. unfold get_by_vtoken in *. cbn. by rewrite lookup_alter_eq, Hr. }
  clearbody w2. destruct Hw2 as (rg & -> & Hon). rewrite bind_run, wait_run.
  change (waited (with_registry rg w1) vt p) with (waited w vt p). rewrite bind_run.
  change (w_queue (with_queue (waited w vt p) _)) with (waited w vt p).
  pose proof (waited_pending w vt p) as Hwait.
  destruct (mq_poll (waited w vt p) vt (ack_watermark req)) as [r q2] eqn:Hp. cbn [fst snd ret].
  split; [done|]. split; [done|]. split; [done|].
  split; cbn [w_registry w_last_seen w_queue with_queue with_registry update gur_msgs gur_get_updates_buf];
    rewrite ?Hp; cbn [fst snd]; [done| |done| |].
  - apply lookup_insert_eq.
  - destruct r as [b|e]; [|done]. destruct (mq_poll_reads _ _ _ _ _ Hp) as [Hb Hs].
    rewrite Hwait in Hs. rewrite Hb. split; [done|]. split; [done|]. split; [done|]. intros Ha.
    rewrite Ha in Hp. rewrite (mq_poll_no_ack _ _ _ _ Hp). apply Hwait.
  - intros v Hv. rewrite (mq_poll_other _ _ _ _ _ v Hp Hv). apply Hwait.
Qed.

Lemma guarded_spec vt g n req p w :
  let r := guarded vt g n req p w in
  w_tracker r.2 = drop_guard (w_tracker w) g /\ w_metrics r.2 = w_metrics w /\
  r.1.1 = (if Z.of_nat MAX_CONCURRENT_POLLS_PER_VTOKEN <? n then 429
           else match get_by_vtoken (w_registry w) vt with Some _ => 200 | None => 401 end)%Z /\
  (r.1.1 <> 200%Z -> w_queue r.2 = w_queue w /\ w_registry r.2 = w_registry w) /\
  (r.1.1 = 200%Z -> served w r.2 vt req p r.1.2).
Proof.
  unfold guarded. rewrite !bind_run. cbn [changes ret fst snd].
  destruct (Z.of_nat MAX_CONCURRENT_POLLS_PER_VTOKEN <? n)%Z; [done|].
  pose proof (serve_poll_spec vt req p w) as (Ht & Hm & Hs).
  destruct (serve_poll vt req p w) as [[c resp] w']. cbn in *. rewrite Ht.
  destruct (get_by_vtoken (w_registry w) vt); destruct Hs as [-> Hs].
  - split; [done|]. split; [done|]. split; [done|]. split; [done|]. intros _. by destruct Hs.
  - subst w'. by split.
Qed.

(** What [getupdates] does but for the latency. *)
Definition poll_post (authorization : option string) (req : GetUpdatesRequest) (p : PollWait) w
    (r : (Z * GetUpdatesResponse) * World Q L) : Prop :=
  r.1.1 = poll_status w authorization /\
  w_tracker r.2 = w_tracker w /\
  (r.1.1 <> 200%Z -> w_queue r.2 = w_queue w /\ w_registry r.2 = w_registry w) /\
  (r.1.1 = 200%Z -> forall vt, extract_vtoken sha256 authorization = Some vt ->
                    served w r.2 vt req p r.1.2).

Lemma answer_poll_spec authorization req p w :
  tracker_ok (w_tracker w) ->
  let r := answer_poll sha256 authorization req p w in
  poll_post authorization req p w r /\ w_metrics r.2 = w_metrics w.
Proof.
  intros Hok. unfold answer_poll, poll_post, poll_status.
  destruct (extract_vtoken sha256 authorization) as [vt|]; [|done].
  rewrite bind_run. destruct (enter (w_tracker w) vt) as [o t] eqn:E. cbn [fst snd].
  pose proof (enter_drop _ _ _ _ Hok E) as Hdrop. unfold enter in E.
  destruct (hub_cap (w_tracker w) <=? total (w_tracker w))%Z.
  { injection E as <- <-. cbn in Hdrop |- *. by rewrite Hdrop. }
  assert (Hv : forall X Y vt', served (with_tracker t w) X vt req p Y -> Some vt = Some vt' ->
                               served w X vt' req p Y).
  { by intros X Y ? [] [= <-]. }
  assert (Hg : forall n, guard o = Some vt -> let r := guarded vt vt n req p (with_tracker t w) in
    w_tracker r.2 = w_tracker w /\ w_metrics r.2 = w_metrics w /\
    r.1.1 = (if Z.of_nat MAX_CONCURRENT_POLLS_PER_VTOKEN <? n then 429
             else match get_by_vtoken (w_registry w) vt with Some _ => 200 | None => 401 end)%Z /\
    (r.1.1 <> 200%Z -> w_queue r.2 = w_queue w /\ w_registry r.2 = w_registry w) /\
    (r.1.1 = 200%Z -> forall vt', Some vt = Some vt' -> served w r.2 vt' req p r.1.2)).
  { intros n Hgo. rewrite Hgo in Hdrop.
    destruct (guarded_spec vt vt n req p (with_tracker t w)) as (H1 & Hm & H2 & H3 & H4).
    cbn in H1. rewrite Hdrop in H1. split; [done|]. split; [done|]. split; [done|]. split; [done|].
    intros Hc vt'. by apply Hv, H4. }
  unfold enter_locked in E. cbn in E. destruct (poisoned (w_tracker w)); injection E as <- _.
  - destruct (Hg 0%Z eq_refl) as (H1 & Hm & H2 & H3 & H4). by split_and!.
  - set (c := default 0%Z _) in *. destruct (Hg (c + 1)%Z eq_refl) as (H1 & Hm & H2 & H3 & H4).
    split; [|done]. split; [|by split]. cbn [negb andb] in *. rewrite H2.
    destruct (Z.ltb_spec (Z.of_nat MAX_CONCURRENT_POLLS_PER_VTOKEN) (c + 1)),
      (Z.leb_spec (Z.of_nat MAX_CONCURRENT_POLLS_PER_VTOKEN) c); try done; lia.
Qed.

(** (C16) Long-polls: the answer of [getupdates] is decided by the state it finds (no
    credential 401, hub at its cap 503, token at its cap 429, unknown token 401,
    otherwise 200); when it has returned, its slot in the poll tracker is released and
    its latency is recorded; a refused poll changes neither queue nor registry; a served
    one marks the backend as online and seen, retires what the request acknowledges,
    returns exactly what is then queued and unacknowledged for it, which without an
    acknowledgement is all that was queued (no list when nothing is, or when the queue
    itself reports an error), and touches no other backend's messages. *)
Theorem getupdates_spec (w : World Q L) (authorization : option string)
    (req : GetUpdatesRequest) (p : PollWait) (Hok : tracker_ok (w_tracker w)) :
  let r := getupdates sha256 authorization req p w in
  r.1.1 = poll_status w authorization /\
  w_tracker r.2 = w_tracker w /\
  w_metrics r.2 = observe_getupdates (pw_ns p) (w_metrics w) /\
  (r.1.1 <> 200%Z -> w_queue r.2 = w_queue w /\ w_registry r.2 = w_registry w) /\
  (r.1.1 = 200%Z -> forall vt, extract_vtoken sha256 authorization = Some vt ->
                    served w r.2 vt req p r.1.2).
Proof.
  destruct (answer_poll_spec authorization req p w Hok) as [(H1 & H2 & H3 & H4) Hm].
  unfold getupdates. rewrite !bind_run. cbn [changes ret fst snd].
  destruct (answer_poll sha256 authorization req p w) as [[c resp] w']. cbn in *.
  split; [done|]. split; [done|]. split; [by rewrite Hm|]. split; [done|].
  intros Hc vt Hvt. by destruct (H4 Hc vt Hvt).
Qed.
End Poll.

(** ** A concrete hub *)

(** A limiter that admits everything. *)
Definition unlimited : RateLimiter unit := fun l _ _ => (None, l).
#[local] Existing Instance unlimited.

Definition demo_bearer : option string := Some "Bearer vhub_0123456789abcdef0123456789abcdef".

(** A store in which backend [ab] holds a grant for the context of [bob]. *)
Definition demo_granted : Store :=
  set_active_session_name 100 "vctx_1" "ab" "default"
    (put_ctx "vctx_1" "ctx1" "peer:bob" (Store_new Sqlite 60)).

Definition demo_answer : SendMessageRequest :=
  {| req_msg := Some (set_context (demo_message "hi" JNull) (Some "vctx_1") None);
     req_base_info := None |}.


Definition demo_poll : GetUpdatesRequest :=
  {| get_updates_buf := ""; last_ack_id := None; gu_base_info := None; gu_timeout := None |}.

Definition demo_wait : PollWait := {| pw_wait := Some true; pw_ns := 3000000 |}.

Lemma getupdates_spec_witness :
  let w := demo_world demo_store demo_router in
  let w1 := (dispatch_message 5 (demo_message "hello" JNull) w).2 in
  let r := getupdates demo_sha demo_bearer demo_poll demo_wait w1 in
  r.1.1 = 200%Z /\ w_tracker r.2 = w_tracker w1 /\ served w1 r.2 "ab" demo_poll demo_wait r.1.2 /\
  length (default [] (gur_msgs r.1.2)) = 1.
Proof.
  intros w w1 r. assert (Hs : r.1.1 = 200%Z) by (vm_compute; reflexivity).
  destruct (getupdates_spec demo_sha w1 demo_bearer demo_poll demo_wait) as (_ & H2 & _ & _ & H4).
  - assert (Ht : w_tracker w1 = w_tracker w) by (vm_compute; reflexivity).
    rewrite Ht. split; [by split|]. intros k c. cbn. by rewrite lookup_empty.
  - split; [exact Hs|]. split; [exact H2|]. split; [by apply H4|]. vm_compute. reflexivity.
Defined.
