(* ===== verification/A2A.v ===== *)
(** * Agent-to-agent calls ([src/src/mcp/tools.rs], [router.rs], [protocol.rs])

    The MCP endpoint: an agent lists the agents it may call, and calls one. A call
    grants the target the conversation of the caller for as long as it is pending,
    pushes a synthetic message into the target's queue, and waits until [sendmessage]
    resolves its waiter. While it waits, other handlers run: [call_agent] is the part
    before the wait, what the others do ([during]), and the part after it, which reads
    the outcome from the waiter. *)
From S2P Require Import Prelude StrLemmas Types Queue Router Footer VToken Registry Acl Store PollTracker Hub Resolve Commands BotApi.
Import Str OutboundLabel.
Local Open Scope hub_scope.

(** A double quote. *)
Definition dquote : string := String (Ascii.ascii_of_nat 34) "".

(** ** JSON-RPC ([protocol.rs]) *)

Record JsonRpcRequest := {
  jq_jsonrpc : string;
  jq_id : option json;
  jq_method : string;
  jq_params : json;
}.

Record JsonRpcError := {
  je_code : Z;
  je_message : string;
}.

Record JsonRpcResponse := {
  jr_jsonrpc : string;
  jr_id : option json;
  jr_result : option json;
  jr_error : option JsonRpcError;
}.

Definition JsonRpcResponse_ok (id : option json) (result : json) : JsonRpcResponse :=
  {| jr_jsonrpc := "2.0"; jr_id := id; jr_result := Some result; jr_error := None |}.

Definition JsonRpcResponse_err (id : option json) (code : Z) (msg : string) : JsonRpcResponse :=
  {| jr_jsonrpc := "2.0"; jr_id := id; jr_result := None;
     jr_error := Some {| je_code := code; je_message := msg |} |}.

Record ToolDef := {
  td_name : string;
  td_description : string;
  td_input_schema : json;
}.

Definition list_agents_def : ToolDef :=
  {| td_name := "list_agents";
     td_description := "List all registered Agent backends and their online status.";
     td_input_schema := JObj [("properties", JObj []); ("required", JArr []); ("type", JStr "object")] |}.

Definition property (type : json) (description : string) : json :=
  JObj [("description", JStr description); ("type", type)].

Definition call_agent_def : ToolDef :=
  {| td_name := "call_agent";
     td_description :=
       "Send a message to another Agent backend and wait for its reply." +:+ nl +:+
       "The Hub will display the call and the reply to the WeChat user." +:+ nl +:+
       "Pass `session` to continue a previous conversation with the same Agent; " +:+
       "omit it (or pass null) to start a fresh session.";
     td_input_schema := JObj [
       ("properties", JObj [
          ("message", property (JStr "string") "The message to send to the target Agent.");
          ("name", property (JStr "string") "Registered name of the target Agent backend.");
          ("session", property (JArr [JStr "string"; JStr "null"])
                        "Session name to resume; null/omitted starts a new session.")]);
       ("required", JArr [JStr "name"; JStr "message"]);
       ("type", JStr "object")] |}.

Definition tool_json (t : ToolDef) : json :=
  JObj [("description", JStr (td_description t)); ("inputSchema", td_input_schema t);
        ("name", JStr (td_name t))].

Definition server_info (version : string) : json :=
  JObj [("capabilities", JObj [("tools", JObj [])]);
        ("protocolVersion", JStr "2024-11-05");
        ("serverInfo", JObj [("name", JStr "ilink-hub"); ("version", JStr version)])].

(** ** Tools ([tools.rs]) *)

Definition CALL_AGENT_TIMEOUT : Z := 120.
Definition MAX_A2A_DEPTH : Z := 5.

Record CallAgentParams := {
  target_name : string;
  ca_message : string;
  ca_session : option string;
}.

Record CallAgentContext := {
  caller_vtoken : string;
  ca_vctx : string;
  ca_real_ctx : string;
  ca_peer_user_id : string;
  ca_depth : Z;
}.

Definition text_content (t : string) : json :=
  JArr [JObj [("text", JStr t); ("type", JStr "text")]].

Definition error_content (msg : string) : json :=
  JObj [("content", text_content msg); ("isError", JBool true)].

Definition persona_handle (backend_name : string) (pn pe : option string) : string :=
  match pe, pn with
  | Some e, Some n => e +:+ " " +:+ n
  | None, Some n => n
  | _, None => backend_name
  end.

Definition build_display_text (t sender_name : string) (pn pe : option string) : string :=
  persona_handle sender_name pn pe +:+ nl +:+ t.

Definition build_synthetic_message (vctx peer t : string) (ext : option HubExt) : WeixinMessage :=
  {| seq := None; message_id := None; from_user_id := Some peer; to_user_id := None;
     client_id := None; create_time_ms := None; update_time_ms := None; session_id := None;
     group_id := None; message_type := Some 1%Z; message_state := None;
     item_list := Some [{| item_type := Some 1%Z; text_item := Some {| text_item_text := Some t |};
                           voice_item := None; image_item := None; file_item := None;
                           video_item := None; item_extra := JNull |}];
     context_token := Some vctx; ilink_hub_ext := ext |}.

Definition opt_str (o : option string) : json :=
  match o with Some s => JStr s | None => JNull end.

(** One entry of [list_agents]. *)
Definition agent_entry (c : ClientInfo) : json :=
  JObj ((match description c with Some d => [("description", JStr d)] | None => [] end) ++
        [("label", opt_str (label c)); ("name", JStr (name c)); ("online", JBool (online c));
         ("persona", JObj [("emoji", opt_str (persona_emoji c)); ("name", opt_str (persona_name c))])]).

(** What a pending call remembers while it waits. *)
Record PendingCall := {
  pc_call_id : string;
  pc_grant_key : string;
  pc_reply_session : string;
  pc_target : ClientInfo;
  pc_caller_name : string;
  pc_caller_persona : option string * option string;
  pc_prev_active : option (string * Z);
  pc_pre_sessions : option (list string);
}.

Section A2A.
Context {Q L : Type} `{MessageQueue Q} `{RateLimiter L}.
Context (sha256 : string -> list N) (json_to_string_pretty : json -> string) (version : string).

Definition agents_content (agents : list json) : json :=
  JObj [("content", text_content (json_to_string_pretty (JArr agents)))].

Definition list_agents (caller : string) : hub Q L json :=
  reads (fun w =>
    match get_by_vtoken (w_registry w) caller with
    | None => agents_content []
    | Some c => agents_content (agent_entry <$>
        sorted_clients (w_registry w) (visible_targets_for_agent (w_acl w) (name c)))
    end).

Definition build_hub_ext_for_a2a (vctx vt session call_id : string) (depth : Z)
    : hub Q L (option HubExt) :=
  let* ext := build_hub_ext_for_vctx vctx vt (Some session) in
  ret ((fun e => {| ext_session_id := ext_session_id e; ext_session_name := ext_session_name e;
                    ext_cli_session_id := ext_cli_session_id e; ext_a2a_call_id := Some call_id;
                    ext_a2a_depth := Some depth; ext_usage := ext_usage e |}) <$> ext).

(** The upstream's answer is only logged. *)
Definition push_wechat_message (rc to t sender : string) (persona : option string * option string)
    : hub Q L unit :=
  let* req := reply_request rc (build_display_text t sender persona.1 persona.2) to in
  let* _ := send_message req in
  ret tt.

(** The third step of [release_a2a_grant]: drop the sessions the snapshot does not hold. *)
Definition reclaim_sessions (vctx vt : string) (pre : list string) (rows : list (string * string))
    : hub Q L unit :=
  for_each rows (fun row =>
    if existsb (fun n => (n =? row.1)%string) pre then ret tt
    else let* _ := db (delete_backend_session vctx vt row.1) in ret tt).

Definition release_a2a_grant (vctx vt grant_key : string) (prev_active : option (string * Z))
    (pre_sessions : option (list string)) : hub Q L unit :=
  let* _ := db (delete_active_session_if_name vctx vt grant_key) in
  let* r := db (query (get_active_session_row vctx vt)) in
  match r, prev_active with
  | Ok None, Some (n, depth) =>
      let* now := reads (fun w => now_secs (w_env w)) in
      let* _ := db (exec (set_active_session_with_depth now vctx vt n depth)) in
      ret tt
  | _, _ => ret tt
  end ;;
  match pre_sessions with
  | None => ret tt
  | Some pre =>
      let* r := db (query (list_backend_sessions vctx vt)) in
      match r with
      | Ok rows => reclaim_sessions vctx vt pre rows
      | Err _ => ret tt
      end
  end.

(** [call_agent] up to the point where it waits. *)
Definition call_agent_begin (ctx : CallAgentContext) (params : CallAgentParams)
    : hub Q L (json + PendingCall) :=
  let* target := reads (fun w => get_by_alias (w_registry w) (target_name params)) in
  match target with
  | None => ret (inl (error_content
      ("Agent '" +:+ target_name params +:+ "' not found or not registered.")))
  | Some target =>
      let vt := Registry.vtoken target in
      let* caller := reads (fun w => get_by_vtoken (w_registry w) (caller_vtoken ctx)) in
      let '(caller_name, caller_persona) :=
        match caller with
        | Some c => (name c, (persona_name c, persona_emoji c))
        | None => ("unknown", (None, None))
        end in
      let* acl := reads w_acl in
      if negb (allows_a2a acl caller_name (name target)) then
        ret (inl (error_content
          ("403: agent '" +:+ name target +:+ "' is not authorized for A2A calls from '"
           +:+ caller_name +:+ "'")))
      else
        let* call_id := new_uuid in
        changes (fun w => with_waiters (waiter_register call_id (w_waiters w)) w) ;;
        let grant_key := "a2a-" +:+ call_id in
        let reply_session := unwrap_or (ca_session params) grant_key in
        let* prev := db (query (get_active_session_row (ca_vctx ctx) vt)) in
        let prev_active := match prev with Ok r => r | Err _ => None end in
        let* pre := db (query (list_backend_sessions (ca_vctx ctx) vt)) in
        let pre_sessions := match pre with Ok rows => Some rows.*1 | Err _ => None end in
        let depth := Z.min u8_max (ca_depth ctx + 1) in
        let* now := reads (fun w => now_secs (w_env w)) in
        let* _ := db (exec (set_active_session_with_depth now (ca_vctx ctx) vt grant_key depth)) in
        let* ext := build_hub_ext_for_a2a (ca_vctx ctx) vt reply_session call_id depth in
        push_to_queue vt (build_synthetic_message (ca_vctx ctx) (ca_peer_user_id ctx)
                            (ca_message params) ext) ;;
        let handle := persona_handle (name target) (persona_name target) (persona_emoji target) in
        push_wechat_message (ca_real_ctx ctx) (ca_peer_user_id ctx)
          ("@" +:+ handle +:+ nl +:+ ca_message params) caller_name caller_persona ;;
        ret (inr {| pc_call_id := call_id; pc_grant_key := grant_key;
                    pc_reply_session := reply_session; pc_target := target;
                    pc_caller_name := caller_name; pc_caller_persona := caller_persona;
                    pc_prev_active := prev_active; pc_pre_sessions := pre_sessions |})
  end.

(** [call_agent] from the end of the wait: a reply, a sender that is gone, or nothing
    within the time limit. *)
Definition call_agent_end (ctx : CallAgentContext) (p : PendingCall) : hub Q L json :=
  let vt := Registry.vtoken (pc_target p) in
  let release := release_a2a_grant (ca_vctx ctx) vt (pc_grant_key p) (pc_prev_active p)
                   (pc_pre_sessions p) in
  let* outcome := reads (fun w => w_waiters w !! pc_call_id p) in
  changes (fun w => with_waiters (waiter_cancel (pc_call_id p) (w_waiters w)) w) ;;
  match outcome with
  | Some (Some reply) =>
      release ;;
      let handle := persona_handle (pc_caller_name p) (pc_caller_persona p).1 (pc_caller_persona p).2 in
      push_wechat_message (ca_real_ctx ctx) (ca_peer_user_id ctx) ("@" +:+ handle +:+ nl +:+ reply)
        (name (pc_target p)) (persona_name (pc_target p), persona_emoji (pc_target p)) ;;
      ret (JObj [("content", text_content reply); ("session", JStr (pc_reply_session p))])
  | None =>
      release ;;
      ret (error_content ("Agent '" +:+ name (pc_target p) +:+ "' disconnected before replying."))
  | Some None =>
      release ;;
      ret (error_content ("Agent '" +:+ name (pc_target p) +:+ "' did not reply within "
                          +:+ show_u64 CALL_AGENT_TIMEOUT +:+ " seconds."))
  end.

Definition call_agent (during : hub Q L unit) (ctx : CallAgentContext) (params : CallAgentParams)
    : hub Q L json :=
  let* r := call_agent_begin ctx params in
  match r with
  | inl e => ret e
  | inr p => during ;; call_agent_end ctx p
  end.

(** ** The endpoint ([router.rs]) *)

Definition handle_tools_call (during : hub Q L unit) (caller : string) (params : json)
    : hub Q L (result json string) :=
  match json_get "name" params ≫= as_str with
  | None => ret (Err "Missing 'name' field in tools/call params")
  | Some tool =>
      let arguments := unwrap_or (json_get "arguments" params) (JObj []) in
      if (tool =? "list_agents")%string then let* r := list_agents caller in ret (Ok r)
      else if (tool =? "call_agent")%string then
        let* limited := check_outbound_rate_limit caller in
        match limited with
        | Some ns => ret (Err (rate_limited ns))
        | None =>
            match json_get "name" arguments ≫= as_str, json_get "message" arguments ≫= as_str with
            | None, _ => ret (Err "Missing 'name' in call_agent arguments")
            | _, None => ret (Err "Missing 'message' in call_agent arguments")
            | Some target, Some message =>
                let session := json_get "session" arguments ≫= as_str in
                let* now := reads (fun w => now_secs (w_env w)) in
                let* r := db (query (get_active_ctx_for_vtoken now caller)) in
                match r with
                | Err e => ret (Err ("DB error resolving caller context: " +:+ e))
                | Ok None => ret (Err ("No active conversation found for caller; " +:+
                    "the Hub must have delivered at least one message to this Agent first."))
                | Ok (Some info) =>
                    if (MAX_A2A_DEPTH <=? i_a2a_depth info)%Z then
                      ret (Err ("A2A call rejected: maximum call depth (" +:+ show_u64 MAX_A2A_DEPTH
                        +:+ ") reached. This prevents runaway recursive agent loops."))
                    else
                      let* r := call_agent during
                        {| caller_vtoken := caller; ca_vctx := i_vctx info; ca_real_ctx := i_real_ctx info;
                           ca_peer_user_id := i_peer_user_id info; ca_depth := i_a2a_depth info |}
                        {| target_name := target; ca_message := message; ca_session := session |} in
                      ret (Ok r)
                end
            end
        end
      else ret (Err ("Unknown tool: " +:+ tool))
  end.

(** [POST /mcp]: HTTP status and body. *)
Definition handle_mcp (during : hub Q L unit) (authorization : option string) (req : JsonRpcRequest)
    : hub Q L (Z * JsonRpcResponse) :=
  let id := jq_id req in
  if negb (jq_jsonrpc req =? "2.0")%string then
    ret (400%Z, JsonRpcResponse_err id (-32600)
      ("Invalid Request: jsonrpc must be " +:+ dquote +:+ "2.0" +:+ dquote))
  else if (jq_method req =? "initialize")%string then
    ret (200%Z, JsonRpcResponse_ok id (server_info version))
  else if (jq_method req =? "notifications/initialized")%string then
    ret (200%Z, JsonRpcResponse_ok id (JObj []))
  else
    match extract_vtoken sha256 authorization with
    | None => ret (401%Z, JsonRpcResponse_err id (-32001) "Missing or invalid Authorization header")
    | Some caller =>
        let* info := reads (fun w => get_by_vtoken (w_registry w) caller) in
        match info with
        | None => ret (401%Z, JsonRpcResponse_err id (-32001) UNKNOWN_VTOKEN_MSG)
        | Some _ =>
            if (jq_method req =? "tools/list")%string then
              ret (200%Z, JsonRpcResponse_ok id
                (JObj [("tools", JArr [tool_json list_agents_def; tool_json call_agent_def])]))
            else if (jq_method req =? "tools/call")%string then
              let* r := handle_tools_call during caller (jq_params req) in
              ret (200%Z, match r with
                          | Ok v => JsonRpcResponse_ok id v
                          | Err msg => JsonRpcResponse_err id (-32602) msg
                          end)
            else ret (200%Z, JsonRpcResponse_err id (-32601) ("Method not found: " +:+ jq_method req))
        end
    end.
End A2A.
