(* ===== verification/A2AProps.v ===== *)
(** * Properties of agent-to-agent calls

    Who may call whom and how deep, and that a call leaves the target with exactly the
    authority it had before, whatever backends send while it is pending. *)
From S2P Require Import Prelude StrLemmas Types Queue Router Footer VToken Registry Acl Store StoreProps PollTracker Hub Resolve Commands Dispatch HubLemmas DispatchProps BotApi BotProps A2A.
Import Str OutboundLabel.
Local Open Scope hub_scope.

Create HintDb effect.

Section Effects.
Context {Q L : Type} `{MessageQueue Q} `{RateLimiter L}.
Implicit Types w : World Q L.

(** What running handlers may do to grants: rows of [active_sessions] stay, backend
    sessions are only added, and no database fault appears. *)
Record evolves w w' : Prop := {
  ev_healthy : healthy w -> healthy w';
  ev_active : active_sessions (w_store w') = active_sessions (w_store w);
  ev_sessions : forall k, is_Some (backend_sessions (w_store w) !! k) ->
                is_Some (backend_sessions (w_store w') !! k);
}.

#[global] Instance evolves_preorder : PreOrder evolves.
Proof.
  split.
  - intros w. by split.
  - intros w1 w2 w3 [A1 A2 A3] [B1 B2 B3]. split; [auto|congruence|auto].
Qed.

Definition effect {A} (m : hub Q L A) : Prop := forall w, evolves w (m w).2.

Lemma effect_ret {A} (x : A) : effect (ret x).
Proof. done. Qed.

Lemma effect_reads {A} (f : World Q L -> A) : effect (reads f).
Proof. done. Qed.

Lemma effect_bind {A B} (m : hub Q L A) (k : A -> hub Q L B) :
  effect m -> (forall x, effect (k x)) -> effect (bind m k).
Proof. intros Hm Hk w. rewrite bind_run. etransitivity; [apply Hm|apply Hk]. Qed.

Lemma effect_for_each {A} (l : list A) (f : A -> hub Q L unit) :
  (forall x, effect (f x)) -> effect (for_each l f).
Proof. intros Hf. induction l as [|x l IH]; [apply effect_ret|]. by apply effect_bind. Qed.

(** A change that leaves store and environment alone. *)
Lemma effect_changes (g : World Q L -> World Q L) :
  (forall w, w_store (g w) = w_store w /\ w_env (g w) = w_env w) -> effect (changes g).
Proof.
  intros Hg w. cbn. destruct (Hg w) as [Hs He].
  split; [unfold healthy; by rewrite He|by rewrite Hs|by rewrite Hs].
Qed.

Lemma effect_uuid : effect (@new_uuid Q L).
Proof. intros w. unfold new_uuid. by destruct (uuids (w_env w)). Qed.

Lemma effect_fault : effect (@next_fault Q L).
Proof.
  intros w. unfold next_fault. destruct (faults (w_env w)) eqn:E; [done|]. split; [|done..].
  intros Hh. unfold healthy in Hh. congruence.
Qed.

(** A statement that keeps grants and only adds backend sessions. *)
Definition additive {A} (f : Store -> A * Store) : Prop := forall s,
  active_sessions (f s).2 = active_sessions s /\
  forall k, is_Some (backend_sessions s !! k) -> is_Some (backend_sessions (f s).2 !! k).

Lemma effect_db_timeout {A} (f : Store -> A * Store) : additive f -> effect (@db_timeout Q L A f).
Proof.
  intros Hf. apply effect_bind; [apply effect_fault|]. intros [| |] w; cbn; [|done|done].
  destruct (Hf (w_store w)) as [H1 H2]. destruct (f (w_store w)). by split.
Qed.

Lemma effect_db {A} (f : Store -> A * Store) : additive f -> effect (@db Q L A f).
Proof.
  intros Hf. apply effect_bind; [apply effect_fault|]. intros [| |] w; cbn; [|done|done].
  destruct (Hf (w_store w)) as [H1 H2]. destruct (f (w_store w)). by split.
Qed.

Lemma additive_query {A} (f : Store -> A) : additive (query f).
Proof. by intros s. Qed.

Lemma additive_session now vctx vt n id : additive (exec (set_backend_session now vctx vt n id)).
Proof.
  intros s. split; [done|]. intros k Hk. cbn. rewrite lookup_insert. by case_decide; [eexists|].
Qed.

Lemma additive_usage now vctx vt n u : additive (exec (set_backend_session_usage now vctx vt n u)).
Proof.
  intros s. split; [done|]. intros k Hk. cbn. rewrite lookup_insert. by case_decide; [eexists|].
Qed.

Lemma effect_send r : effect (@send_message Q L r).
Proof. intros w. unfold send_message. cbn. by destruct (send_replies _). Qed.

Lemma effect_reply ctx t to : effect (@reply_request Q L ctx t to).
Proof. apply effect_bind; [apply effect_uuid|]. by intros u w. Qed.

Lemma effect_rate vt : effect (@check_outbound_rate_limit Q L _ vt).
Proof. intros w. unfold check_outbound_rate_limit. by destruct (rl_check _ _ _). Qed.

Lemma effect_push vt m : effect (@push_to_queue Q L _ vt m).
Proof.
  apply effect_bind; [intros w; by destruct (mq_push _ _ _)|].
  intros [[]|]; cbn; [apply effect_bind; [|intros _]|..]; by apply effect_changes.
Qed.
End Effects.

#[export] Hint Resolve effect_ret effect_reads effect_bind effect_for_each effect_uuid
  effect_db_timeout effect_db additive_query additive_session additive_usage effect_send
  effect_reply effect_rate effect_push : effect.
#[export] Hint Extern 2 (effect (changes _)) => by apply effect_changes : effect.
#[export] Hint Extern 2 (effect (count _)) => by apply effect_changes : effect.
#[export] Hint Extern 2 (effect (spawn _)) => by apply effect_changes : effect.
#[export] Hint Extern 4 (effect (match ?x with _ => _ end)) => destruct x : effect.
#[export] Hint Extern 4 (effect (if ?x then _ else _)) => destruct x : effect.
Ltac effects := intros; cbv zeta; eauto 30 with effect.

Section Sends.
Context {Q L : Type} `{MessageQueue Q} `{RateLimiter L}.
Context (sha256 : string -> list N) (json_to_string : json -> string).
Implicit Types w : World Q L.

Lemma effect_persist vctx vt s e : effect (@persist_ext Q L json_to_string vctx vt s e).
Proof. unfold persist_ext. effects. Qed.

Lemma effect_waiter id r : effect (@resolve_waiter Q L id r).
Proof. unfold resolve_waiter. effects. Qed.

Lemma effect_outbound rc peer m : effect (@make_outbound Q L rc peer m).
Proof.
  unfold make_outbound. apply effect_bind; [effects|]. intros u w. cbn.
  by destruct (message_id m).
Qed.

Lemma effect_label vt s m : effect (@label_message Q L vt s m).
Proof. unfold label_message. effects. Qed.

Lemma effect_record vctx vt s p m : effect (@record_reply Q L vctx vt s p m).
Proof.
  unfold record_reply. destruct (is_partial m); [effects|]. destruct (text m); [|effects].
  by apply effect_changes.
Qed.

#[local] Hint Resolve effect_persist effect_waiter effect_outbound effect_label effect_record : effect.

Lemma effect_prepare vctx vt rc peer s m :
  effect (@prepare Q L json_to_string vctx vt rc peer s m).
Proof. unfold prepare. effects. Qed.

#[local] Hint Resolve effect_prepare : effect.

Lemma effect_sendmessage auth req : effect (@sendmessage Q L _ sha256 json_to_string auth req).
Proof. unfold sendmessage. effects. Qed.
End Sends.

(** ** Release *)

Lemma elem_of_list_sessions vctx vt n s :
  n ∈ (list_backend_sessions vctx vt s).*1 <-> is_Some (backend_sessions s !! (vctx, vt, n)).
Proof.
  unfold list_backend_sessions. rewrite merge_sort_Permutation, list_elem_of_fmap. split.
  - intros ([m id] & -> & Hm). apply list_elem_of_omap in Hm as ([[[c v] k] b] & Hin & Hb).
    apply elem_of_map_to_list in Hin. cbn in *.
    destruct (String.eqb_spec c vctx) as [->|]; [|done]. destruct (String.eqb_spec v vt) as [->|]; [|done].
    cbn in Hb. injection Hb as <- <-. by eexists.
  - intros [b Hb]. exists (n, backend_session_id b). split; [done|]. apply list_elem_of_omap.
    exists ((vctx, vt, n), b). rewrite elem_of_map_to_list. split; [done|]. cbn.
    by rewrite !String.eqb_refl.
Qed.

Lemma existsb_elem n (l : list string) : existsb (fun m => (m =? n)%string) l = bool_decide (n ∈ l).
Proof.
  apply eq_iff_eq_true. rewrite existsb_exists, bool_decide_eq_true, list_elem_of_In. split.
  - intros (x & Hx & ->%String.eqb_eq). done.
  - intros Hn. exists n. by rewrite String.eqb_refl.
Qed.

Section Release.
Context {Q L : Type} `{MessageQueue Q}.
Implicit Types w : World Q L.

(** Sessions of the pair that are listed and not in the snapshot disappear. *)
Lemma reclaim_run vctx vt pre rows w :
  healthy w -> exists s, reclaim_sessions vctx vt pre rows w = (tt, with_store s w) /\
    active_sessions s = active_sessions (w_store w) /\
    (forall n, n ∈ pre \/ n ∉ rows.*1 ->
       backend_sessions s !! (vctx, vt, n) = backend_sessions (w_store w) !! (vctx, vt, n)) /\
    (forall n, n ∉ pre -> n ∈ rows.*1 -> backend_sessions s !! (vctx, vt, n) = None).
Proof.
  revert w. induction rows as [|[r i] rows IH]; intros w Hh; unfold reclaim_sessions; cbn [for_each].
  { exists (w_store w). rewrite with_store_id. split; [done|]. split; [done|]. split; [done|].
    intros n _ []%elem_of_nil. }
  rewrite bind_run, existsb_elem. cbn [fst]. case_bool_decide as Hr; cbn [fst snd ret].
  - destruct (IH w Hh) as (s & E & Ha & H1 & H2). exists s. split; [exact E|]. split; [done|].
    cbn. setoid_rewrite not_elem_of_cons. setoid_rewrite elem_of_cons. split.
    + intros n Hn. apply H1. naive_solver.
    + intros n Hn [->|Hin]; [done|auto].
  - rewrite bind_run, db_healthy by done. cbn [fst snd ret].
    destruct (IH (with_store (delete_backend_session vctx vt r (w_store w)).2 w) Hh)
      as (s & E & Ha & H1 & H2). exists s. split; [exact E|]. split; [done|].
    cbn in *. setoid_rewrite not_elem_of_cons. setoid_rewrite elem_of_cons. split.
    + intros n Hn. rewrite H1 by naive_solver. rewrite lookup_delete_ne; naive_solver.
    + intros n Hn Hin. destruct (decide (n ∈ rows.*1)) as [Hi|Hi]; [auto|].
      rewrite H1 by auto. destruct Hin as [->|]; [|done]. apply lookup_delete_eq.
Qed.

(** The second step of the release, on a pair without a row. *)
Lemma restore_run vctx vt prev w :
  healthy w -> (forall n d, prev = Some (n, d) -> depth_u8 d = d) ->
  get_active_session_row vctx vt (w_store w) = None ->
  exists s, match prev with
            | Some (n, d) =>
                let* now := reads (fun w => now_secs (w_env w)) in
                let* _ := db (exec (set_active_session_with_depth now vctx vt n d)) in
                ret tt
            | None => ret tt
            end w = (tt, with_store s w) /\
    get_active_session_row vctx vt s = prev /\ backend_sessions s = backend_sessions (w_store w) /\
    forall k, k <> (vctx, vt) -> active_sessions s !! k = active_sessions (w_store w) !! k.
Proof.
  intros Hh Hd Hn. destruct prev as [[n d]|]; [|exists (w_store w); by rewrite with_store_id].
  run_read. rewrite bind_run, db_healthy by done. cbn [exec ret fst snd]. eexists.
  split; [reflexivity|]. split; [|split; [done|]].
  - unfold get_active_session_row. cbn. rewrite lookup_insert_eq. cbn. by rewrite (Hd n d).
  - intros k Hk'. cbn. by rewrite lookup_insert_ne.
Qed.

(** With a working database, releasing a grant that is still in place restores the
    active session that was there before and drops what the call added. *)
Lemma release_run vctx vt key prev pre w :
  healthy w -> a_session <$> active_sessions (w_store w) !! (vctx, vt) = Some key ->
  (forall n d, prev = Some (n, d) -> depth_u8 d = d) ->
  (forall n, n ∈ pre -> is_Some (backend_sessions (w_store w) !! (vctx, vt, n))) ->
  exists s, release_a2a_grant vctx vt key prev (Some pre) w = (tt, with_store s w) /\
    get_active_session_row vctx vt s = prev /\
    (forall k, k <> (vctx, vt) -> active_sessions s !! k = active_sessions (w_store w) !! k) /\
    (forall n, is_Some (backend_sessions s !! (vctx, vt, n)) <-> n ∈ pre).
Proof.
  intros Hh Hk Hd Hp. unfold release_a2a_grant. rewrite bind_run, db_healthy by done. cbn [fst snd].
  set (s1 := (delete_active_session_if_name vctx vt key (w_store w)).2).
  assert (Ha1 : active_sessions s1 = delete (vctx, vt) (active_sessions (w_store w))).
  { unfold s1, delete_active_session_if_name. apply fmap_Some in Hk as (a & -> & ->).
    by rewrite String.eqb_refl. }
  assert (Hb1 : backend_sessions s1 = backend_sessions (w_store w)).
  { unfold s1, delete_active_session_if_name. destruct (active_sessions _ !! _); [|done].
    by destruct (_ =? _)%string. }
  rewrite bind_run, db_healthy by done. cbn [query fst snd]. rewrite with_store_id.
  change (w_store (with_store s1 w)) with s1.
  assert (Hrow : get_active_session_row vctx vt s1 = None)
    by (unfold get_active_session_row; by rewrite Ha1, lookup_delete_eq).
  rewrite Hrow, bind_run.
  destruct (restore_run vctx vt prev (with_store s1 w) Hh Hd) as (s2 & Hr & Hr2 & Hb2 & Ha2).
  { exact Hrow. }
  change (w_store (with_store s1 w)) with s1 in Hb2, Ha2.
  change (with_store s2 (with_store s1 w)) with (with_store s2 w) in Hr. rewrite Hr.
  cbn [fst snd].
  rewrite bind_run, db_healthy by done. cbn [query fst snd]. rewrite with_store_id.
  change (w_store (with_store s2 w)) with s2.
  destruct (reclaim_run vctx vt pre (list_backend_sessions vctx vt s2) (with_store s2 w) Hh)
    as (s3 & -> & Ha3 & H1 & H2). exists s3. cbn in Ha3.
  split; [done|]. split; [unfold get_active_session_row; by rewrite Ha3|]. split.
  - intros k Hne. rewrite Ha3, Ha2 by done. by rewrite Ha1, lookup_delete_ne.
  - intros n. destruct (decide (n ∈ pre)) as [Hn|Hn].
    + rewrite H1 by auto. cbn. rewrite Hb2, Hb1. split; [done|auto].
    + split; [|done]. destruct (decide (n ∈ (list_backend_sessions vctx vt s2).*1)) as [Hi|Hi].
      * rewrite H2 by done. by intros [].
      * rewrite H1 by auto. cbn. intros Hs. by rewrite elem_of_list_sessions in Hi.
Qed.
End Release.

Section Calls.
Context {Q L : Type} `{MessageQueue Q} `{RateLimiter L}.
Context (sha256 : string -> list N) (json_to_string json_to_string_pretty : json -> string).
Implicit Types w : World Q L.

Lemma effect_ext vctx vt session id d : effect (@build_hub_ext_for_a2a Q L vctx vt session id d).
Proof. unfold build_hub_ext_for_a2a, build_hub_ext_for_vctx. effects. Qed.

Lemma effect_wechat rc to t sender persona : effect (@push_wechat_message Q L rc to t sender persona).
Proof. unfold push_wechat_message. effects. Qed.

#[local] Hint Resolve effect_ext effect_wechat : effect.

(** A call that is begun: its grant is in place and its snapshots are true. *)
Record begun (ctx : CallAgentContext) (p : PendingCall) w w' : Prop := {
  bg_healthy : healthy w';
  bg_prev : pc_prev_active p
            = get_active_session_row (ca_vctx ctx) (Registry.vtoken (pc_target p)) (w_store w);
  bg_pre : pc_pre_sessions p
           = Some (list_backend_sessions (ca_vctx ctx) (Registry.vtoken (pc_target p)) (w_store w)).*1;
  bg_grant : a_session <$> active_sessions (w_store w') !! (ca_vctx ctx, Registry.vtoken (pc_target p))
             = Some (pc_grant_key p);
  bg_active : forall k, k <> (ca_vctx ctx, Registry.vtoken (pc_target p)) ->
              active_sessions (w_store w') !! k = active_sessions (w_store w) !! k;
  bg_sessions : forall k, is_Some (backend_sessions (w_store w) !! k) ->
                is_Some (backend_sessions (w_store w') !! k);
}.

Lemma begin_run ctx params w :
  healthy w -> let r := call_agent_begin ctx params w in
  match r.1 with
  | inl _ => r.2 = w
  | inr p => get_by_alias (w_registry w) (target_name params) = Some (pc_target p) /\ begun ctx p w r.2
  end.
Proof.
  intros Hh. cbv zeta. unfold call_agent_begin. run_read.
  destruct (get_by_alias _ _) as [target|] eqn:Ht; [|done]. cbv zeta. run_read.
  destruct (match get_by_vtoken _ _ with Some _ => _ | None => _ end) as [cn cp].
  run_read. destruct (negb _); [done|]. rewrite bind_run. set (u := new_uuid w).
  assert (Hu : w_store u.2 = w_store w /\ healthy u.2).
  { unfold u, new_uuid. by destruct (uuids (w_env w)). }
  destruct Hu as [Hs Hh1]. run_change. set (w1 := with_waiters _ u.2).
  rewrite bind_run, db_healthy by done. cbn [query fst snd]. rewrite with_store_id.
  rewrite bind_run, db_healthy by done. cbn [query fst snd]. rewrite with_store_id.
  run_read. rewrite bind_run, db_healthy by done. cbn [exec fst snd].
  change (w_store w1) with (w_store u.2). rewrite Hs. set (w2 := with_store _ w1).
  rewrite bind_run. set (x := build_hub_ext_for_a2a _ _ _ _ _ w2).
  rewrite bind_run. set (y := push_to_queue _ _ x.2). rewrite bind_run. set (z := push_wechat_message _ _ _ _ _ y.2).
  assert (He : evolves w2 z.2).
  { transitivity x.2; [apply effect_ext|]. transitivity y.2; [apply effect_push|apply effect_wechat]. }
  cbn [ret fst snd]. split; [done|]. destruct He as [E1 E2 E3]. split; cbn [pc_prev_active pc_pre_sessions pc_target pc_grant_key]; try done.
  - by apply E1.
  - rewrite E2. cbn. by rewrite lookup_insert_eq.
  - intros k Hk. rewrite E2. cbn. by rewrite lookup_insert_ne.
Qed.

Lemma wechat_store rc to t sender persona w :
  w_store (push_wechat_message rc to t sender persona w).2 = w_store w.
Proof.
  unfold push_wechat_message, reply_request. rewrite !bind_run. unfold new_uuid, send_message. cbn.
  destruct (uuids (w_env w)); cbn; by destruct (send_replies _).
Qed.

Lemma row_depth vctx vt s n d : get_active_session_row vctx vt s = Some (n, d) -> depth_u8 d = d.
Proof.
  intros Hr. apply fmap_Some in Hr as (a & _ & [= -> ->]). unfold depth_u8, u8_max. lia.
Qed.

(** The end of a call in terms of the store before it. *)
Record restored (vctx vt : string) (s s' : Store) : Prop := {
  rs_row : get_active_session_row vctx vt s' = get_active_session_row vctx vt s;
  rs_active : forall k, k <> (vctx, vt) -> active_sessions s' !! k = active_sessions s !! k;
  rs_sessions : forall n, is_Some (backend_sessions s' !! (vctx, vt, n)) <->
                is_Some (backend_sessions s !! (vctx, vt, n));
}.

Lemma end_run ctx p w w1 w2 :
  begun ctx p w w1 -> evolves w1 w2 ->
  restored (ca_vctx ctx) (Registry.vtoken (pc_target p)) (w_store w) (w_store (call_agent_end ctx p w2).2).
Proof.
  intros [Hh1 Hprev Hpre Hg Ha Hs] [E1 E2 E3]. set (vctx := ca_vctx ctx) in *.
  set (vt := Registry.vtoken (pc_target p)) in *. specialize (E1 Hh1).
  unfold call_agent_end. cbv zeta. run_read. run_change. set (w3 := with_waiters _ w2).
  destruct (release_run vctx vt (pc_grant_key p) (pc_prev_active p)
              (list_backend_sessions vctx vt (w_store w)).*1 w3) as (s & Hr & R1 & R2 & R3).
  - exact E1.
  - change (w_store w3) with (w_store w2). by rewrite E2.
  - rewrite Hprev. by apply row_depth.
  - intros n Hn%elem_of_list_sessions. apply E3, Hs, Hn.
  - rewrite <- Hpre in Hr. fold vctx vt.
    assert (Hfin : restored vctx vt (w_store w) s).
    { split; [by rewrite R1|intros k Hk; rewrite R2 by done; change (w_store w3) with (w_store w2);
        rewrite E2; by apply Ha|intros n; by rewrite R3, elem_of_list_sessions]. }
    destruct (w_waiters w2 !! pc_call_id p) as [[r|]|]; rewrite bind_run, Hr; cbn [fst snd]; [|exact Hfin..].
    rewrite bind_run. cbn [ret fst snd]. by rewrite wechat_store.
Qed.

Lemma restored_owner vctx vt s s' now :
  restored vctx vt s s' -> active_sessions s !! (vctx, vt) = None ->
  vtoken_owns_vctx now vctx vt s' = vtoken_owns_vctx now vctx vt s.
Proof.
  intros [H1 _ H3] Hn. unfold vtoken_owns_vctx, live_grant.
  assert (Hn' : active_sessions s' !! (vctx, vt) = None).
  { unfold get_active_session_row in H1. rewrite Hn in H1. by apply fmap_None in H1. }
  rewrite Hn, Hn'. f_equal. apply eq_iff_eq_true. rewrite !has_backend_session_spec. by setoid_rewrite H3.
Qed.

(** (C10) The authority of an agent call is temporary: with a working database, whatever
    backends send while the call is pending (a reply, other messages, nothing), when it
    is over the target has the active session in the caller's conversation that it had
    before and no backend session more or less there; grants of every other pair are as
    they were. A target without a grant before owns the conversation afterwards only if
    it did before. *)
Theorem a2a_authority_is_temporary (w : World Q L) (sends : list (option string * SendMessageRequest))
    (ctx : CallAgentContext) (params : CallAgentParams) (c : ClientInfo)
    (Hh : healthy w) (Hc : get_by_alias (w_registry w) (target_name params) = Some c) :
  let during := for_each sends (fun p => sendmessage sha256 json_to_string p.1 p.2 ;; ret tt) in
  let s := w_store w in
  let s' := w_store (call_agent during ctx params w).2 in
  let vctx := ca_vctx ctx in let vt := Registry.vtoken c in
  get_active_session_row vctx vt s' = get_active_session_row vctx vt s /\
  (forall k, k <> (vctx, vt) -> active_sessions s' !! k = active_sessions s !! k) /\
  (forall n, is_Some (backend_sessions s' !! (vctx, vt, n)) <->
             is_Some (backend_sessions s !! (vctx, vt, n))) /\
  (active_sessions s !! (vctx, vt) = None ->
     forall now, vtoken_owns_vctx now vctx vt s' = vtoken_owns_vctx now vctx vt s).
Proof.
  intros during s s' vctx vt.
  assert (Hr : restored vctx vt s s').
  { unfold s', call_agent. rewrite bind_run. pose proof (begin_run ctx params w Hh) as Hb. cbv zeta in Hb.
    destruct (call_agent_begin ctx params w) as [[e|p] w1]; cbn [fst snd] in *; [by subst w1; split|].
    destruct Hb as [Hp Hb]. rewrite Hc in Hp. injection Hp as Hp. unfold vt. rewrite Hp. rewrite bind_run.
    apply (end_run ctx p w w1); [done|]. apply effect_for_each. intros x.
    apply effect_bind; [apply effect_sendmessage|apply effect_ret]. }
  split; [apply Hr|]. split; [apply Hr|]. split; [apply Hr|]. intros Hn now. by apply restored_owner.
Qed.
End Calls.

(** ** Who may call *)

Section Gate.
Context {Q L : Type} `{MessageQueue Q} `{RateLimiter L}.
Context (json_to_string_pretty : json -> string).
Implicit Types w : World Q L.

Definition caller_name w (caller : string) : string :=
  match get_by_vtoken (w_registry w) caller with Some c => name c | None => "unknown" end.

(** A query changes at most the supply of faults, and answers from the store. *)
Lemma query_run {A} (f : Store -> A) w :
  (exists e, (db (query f) w).2 = with_env e w) /\
  forall x, (db (query f) w).1 = Ok x -> x = f (w_store w).
Proof.
  unfold db. rewrite bind_run. unfold next_fault.
  destruct (faults (w_env w)) as [|[| |] fs]; cbn; (split; [|congruence]).
  - exists (w_env w). by destruct w.
  - by eexists.
  - by eexists.
  - by eexists.
Qed.

Lemma ext_for_a2a_spec vctx vt session id d w :
  exists e, (build_hub_ext_for_a2a vctx vt session id d w).1 = Some e /\
    ext_a2a_depth e = Some d /\ ext_a2a_call_id e = Some id.
Proof.
  unfold build_hub_ext_for_a2a, build_hub_ext_for_vctx. rewrite bind_run. cbn [ret fst].
  destruct (ofilter _ _) as [n|]; rewrite bind_run; cbn [ret fst snd].
  - by eexists.
  - destruct (match (db_timeout _ w).1 with Some (Ok q) => q | _ => _ end). by eexists.
Qed.

Lemma keeps_ext vctx vt session id d : keeps w_queue (@build_hub_ext_for_a2a Q L vctx vt session id d).
Proof. unfold build_hub_ext_for_a2a, build_hub_ext_for_vctx. keeps. Qed.

Lemma wechat_queue rc to t sender persona w :
  w_queue (push_wechat_message rc to t sender persona w).2 = w_queue w.
Proof.
  unfold push_wechat_message, reply_request. rewrite !bind_run. unfold new_uuid, send_message. cbn.
  destruct (uuids (w_env w)); cbn; by destruct (send_replies _).
Qed.

Lemma push_queue vt m w : w_queue (push_to_queue vt m w).2 = (mq_push (w_queue w) vt m).2.
Proof.
  unfold push_to_queue. rewrite bind_run. destruct (mq_push (w_queue w) vt m) as [r q]. cbn.
  by destruct r as [[]|].
Qed.

(** A call that begins was allowed, and put a message of the next depth into the queue
    of its target. *)
Lemma begin_gate ctx params w :
  let r := call_agent_begin ctx params w in
  match r.1 with
  | inl _ => r.2 = w
  | inr p =>
      get_by_alias (w_registry w) (target_name params) = Some (pc_target p) /\
      allows_a2a (w_acl w) (caller_name w (caller_vtoken ctx)) (name (pc_target p)) = true /\
      exists ext, ext_a2a_depth ext = Some (Z.min u8_max (ca_depth ctx + 1)) /\
        ext_a2a_call_id ext = Some (pc_call_id p) /\
        w_queue r.2 = (mq_push (w_queue w) (Registry.vtoken (pc_target p))
          (build_synthetic_message (ca_vctx ctx) (ca_peer_user_id ctx) (ca_message params) (Some ext))).2
  end.
Proof.
  cbv zeta. unfold call_agent_begin. run_read.
  destruct (get_by_alias _ _) as [target|] eqn:Ht; [|done]. cbv zeta. run_read.
  destruct (match get_by_vtoken _ _ with Some _ => _ | None => _ end) as [cn cp] eqn:Ecn.
  assert (Hcn : caller_name w (caller_vtoken ctx) = cn).
  { unfold caller_name. destruct (get_by_vtoken _ _); by injection Ecn. }
  run_read. destruct (allows_a2a _ _ _) eqn:Hal; cbn [negb]; [|done].
  rewrite bind_run. set (u := new_uuid w). run_change. rewrite bind_run. set (d1 := db _ _).
  rewrite bind_run. set (d2 := db _ _). run_read. rewrite bind_run. set (d3 := db _ d2.2).
  assert (Hq : w_queue d3.2 = w_queue w).
  { unfold d3, d2, d1. rewrite !keeps_db by apply _. apply (keeps_uuid w_queue). }
  rewrite bind_run. set (x := build_hub_ext_for_a2a _ _ _ _ _ d3.2).
  rewrite bind_run. set (y := push_to_queue _ _ x.2). rewrite bind_run. cbn [ret fst snd pc_target].
  split; [done|]. split; [by rewrite Hcn|].
  destruct (ext_for_a2a_spec (ca_vctx ctx) (Registry.vtoken target)
              (unwrap_or (ca_session params) ("a2a-" +:+ u.1)) u.1 (Z.min u8_max (ca_depth ctx + 1)) d3.2)
    as (e & He & Hd & Hi). fold x in He. exists e. split; [done|]. split; [done|].
  rewrite wechat_queue. unfold y. rewrite push_queue, He. unfold x. by rewrite keeps_ext, Hq.
Qed.

(** (C11) Agent calls are gated: whatever the request, the state and the database
    faults, and whatever other handlers do meanwhile, a tool call either leaves queues,
    store, waiters, upstream, routes and registry alone, or it is a call that the rate
    limiter admitted, of a caller with a live grant in the conversation it calls from,
    at a depth below the limit, to a registered target the allowlist opens to it; the
    message then put into the target's queue carries a depth greater by one. *)
Theorem a2a_calls_are_gated (w : World Q L) (during : hub Q L unit) (caller : string) (params : json) :
  let w' := (handle_tools_call json_to_string_pretty during caller params w).2 in
  (w_queue w' = w_queue w /\ w_store w' = w_store w /\ w_waiters w' = w_waiters w /\
   w_outbox w' = w_outbox w /\ w_router w' = w_router w /\ w_registry w' = w_registry w) \/
  exists info target message ext ctx p w1,
    (rl_check (w_limiter w) (now_nanos (w_env w)) caller).1 = None /\
    get_active_ctx_for_vtoken (now_secs (w_env w)) caller (w_store w) = Some info /\
    (i_a2a_depth info < MAX_A2A_DEPTH)%Z /\
    get_by_alias (w_registry w) target = Some (pc_target p) /\
    allows_a2a (w_acl w) (caller_name w caller) (name (pc_target p)) = true /\
    ext_a2a_depth ext = Some (i_a2a_depth info + 1)%Z /\ ext_a2a_call_id ext = Some (pc_call_id p) /\
    w_queue w1 = (mq_push (w_queue w) (Registry.vtoken (pc_target p))
      (build_synthetic_message (i_vctx info) (i_peer_user_id info) message (Some ext))).2 /\
    w' = ((during ;; call_agent_end ctx p) w1).2.
Proof.
  intros w'. subst w'. unfold handle_tools_call.
  destruct (json_get "name" params ≫= as_str) as [tool|]; [|by left]. cbv zeta.
  destruct (tool =? "list_agents")%string; [by left|]. destruct (tool =? "call_agent")%string; [|by left].
  rewrite bind_run. unfold check_outbound_rate_limit.
  destruct (rl_check (w_limiter w) (now_nanos (w_env w)) caller) as [lim l] eqn:Hrl. cbn [fst snd].
  set (w1 := with_limiter l w). destruct lim as [ns|]; [by left|].
  destruct (json_get "name" _ ≫= as_str) as [target|]; [|by left].
  destruct (json_get "message" _ ≫= as_str) as [message|]; [|by left]. run_read. rewrite bind_run.
  destruct (query_run (get_active_ctx_for_vtoken (now_secs (w_env w1)) caller) w1) as [[e He] Hans].
  destruct (db _ w1) as [r w2]. cbn [fst snd] in *. subst w2.
  destruct r as [[info|]|]; [|by left..]. specialize (Hans _ eq_refl).
  destruct (Z.leb_spec MAX_A2A_DEPTH (i_a2a_depth info)); [by left|].
  rewrite bind_run. cbn [ret snd]. unfold call_agent. rewrite bind_run.
  match goal with |- context [call_agent_begin ?c ?q ?x] => set (ctx := c); set (ps := q); set (w2 := x) end.
  pose proof (begin_gate ctx ps w2) as Hb. cbv zeta in Hb.
  destruct (call_agent_begin ctx ps w2) as [[j|p] w3]; cbn [fst snd] in *; [subst w3; by left|].
  destruct Hb as (Ht & Hal & ext & Hd & Hi & Hq). right.
  exists info, target, message, ext, ctx, p, w3. rewrite Z.min_r in Hd.
  - done.
  - unfold u8_max, ctx, MAX_A2A_DEPTH in *. cbn. lia.
Qed.
End Gate.

(** ** A concrete call *)

(** Two backends, [mac] (token hash [06]) and [pc] ([ab]); [mac] may call [pc] and was
    handed the conversation of [bob] by dispatch. *)
Definition a2a_registry : ClientRegistry :=
  (register_confirmed 0 (register_confirmed 0 ClientRegistry_new "mac" None None "06").2
     "pc" None None "ab").2.

Definition a2a_store : Store :=
  set_active_session_with_depth 100 "vctx_1" "06" "default" 0
    (put_ctx "vctx_1" "ctx1" "peer:bob" (Store_new Sqlite 60)).

Definition a2a_world (s : Store) : World InMemoryQueue unit :=
  let w := demo_world s (Router_new None) in
  {| w_registry := a2a_registry; w_router := w_router w; w_queue := w_queue w; w_store := s;
     w_metrics := w_metrics w; w_acl := parse "mac->pc"; w_admin := w_admin w;
     w_tracker := w_tracker w; w_limiter := tt; w_last_seen := ∅; w_waiters := ∅; w_outbox := [];
     w_tasks := []; w_msg_counter := 0; w_web := w_web w; w_env := w_env w |}.

Definition a2a_ctx : CallAgentContext :=
  {| caller_vtoken := "06"; ca_vctx := "vctx_1"; ca_real_ctx := "ctx1";
     ca_peer_user_id := "peer:bob"; ca_depth := 0 |}.

Definition a2a_params : CallAgentParams :=
  {| target_name := "pc"; ca_message := "please"; ca_session := None |}.

(** The answer of [pc] to the call with id [1]; it reports a session of its own. *)
Definition a2a_answer : SendMessageRequest :=
  {| req_msg := Some (set_context (demo_message "done" JNull) (Some "vctx_1")
       (Some {| ext_session_id := None; ext_session_name := Some "mine";
                ext_cli_session_id := Some "s1"; ext_a2a_call_id := Some "1";
                ext_a2a_depth := None; ext_usage := None |}));
     req_base_info := None |}.

#[local] Existing Instance unlimited.

Definition a2a_answering (w : World InMemoryQueue unit) : unit * World InMemoryQueue unit :=
  for_each [(demo_bearer, a2a_answer)]
    (fun p => sendmessage demo_sha (fun _ => "") p.1 p.2 ;; ret tt) w.

(** [pc] may answer while the call is pending, [mac] gets the answer, and afterwards
    [pc] owns the conversation as little as before. *)
Lemma a2a_authority_is_temporary_witness :
  let r := call_agent a2a_answering a2a_ctx a2a_params (a2a_world a2a_store) in
  r.1 = JObj [("content", text_content "done"); ("session", JStr "a2a-1")] /\
  vtoken_owns_vctx 100 "vctx_1" "ab" (w_store r.2) = false.
Proof.
  split; [vm_compute; reflexivity|].
  destruct (a2a_authority_is_temporary demo_sha (fun _ => "") (a2a_world a2a_store)
              [(demo_bearer, a2a_answer)] a2a_ctx a2a_params
              (with_hashed_vtoken 0 "pc" None None "ab")) as (_ & _ & _ & Ho);
    [reflexivity|vm_compute; reflexivity|].
  etransitivity; [exact (Ho eq_refl 100%Z)|vm_compute; reflexivity].
Defined.

(** A grant of the target that had expired is live again after a call. *)
Lemma a2a_renews_expired_grant :
  let s := set_active_session_with_depth 0 "vctx_1" "ab" "old" 0 a2a_store in
  let s' := w_store (call_agent (ret tt) a2a_ctx a2a_params (a2a_world s)).2 in
  vtoken_owns_vctx 100 "vctx_1" "ab" s = false /\ vtoken_owns_vctx 100 "vctx_1" "ab" s' = true.
Proof. split; vm_compute; reflexivity. Qed.
