(* ===== verification/Admin.v ===== *)
(** * Client administration ([src/src/server/pairing.rs], [routes/bot.rs], [runtime/serve.rs])

    Registering, confirming, renaming, revoking and removing backends: the operations
    that change registry, router, queue and store together, and the loader that
    rebuilds registry and router from the store when the process starts. *)
From S2P Require Import Prelude StrLemmas Types Queue Router Footer VToken Registry Acl Pairing Store PollTracker Hub Commands BotApi.
Import Str.
Local Open Scope hub_scope.

Record RegisterClientOutcome := {
  plaintext : string;
  hashed : string;
  is_new : bool;
}.

Inductive UnregisterClientError := UnknownClient | StillOnline | UnregisterStore (e : string).

Record RevokeClientOutcome := {
  rv_name : string;
  rv_plaintext : string;
  rv_hashed : string;
}.

Inductive RevokeClientError := RevokeUnknown | RevokeStore (e : string).

Inductive AdminUpdateError := UpdateUnknown | UpdateNameTaken | InvalidName | UpdateStore (e : string).

Record RegisterRequest := {
  rr_name : string;
  rr_label : option string;
  rr_description : option string;
  rr_persona_name : option string;
  rr_persona_emoji : option string;
}.

Record RegisterResponse := {
  rs_ret : Z;
  rs_vtoken : string;
  rs_base_url : string;
  rs_errmsg : option string;
}.

Definition MAX_CLIENT_NAME_LEN : nat := 64.

Section Admin.
Context {Q L : Type} `{MessageQueue Q}.
Context (sha256 : string -> list N).

(** A write that can violate a unique index: [None] is the database's error. *)
Definition write (f : Store -> option Store) : hub Q L (result unit string) :=
  let* r := db (fun s => match f s with Some s' => (Ok tt, s') | None => (Err "UNIQUE constraint failed", s) end) in
  ret (match r with Ok x => x | Err e => Err e end).

Definition on_registry {A} (f : ClientRegistry -> A * ClientRegistry) : hub Q L A := fun w =>
  let '(x, r) := f (w_registry w) in (x, with_registry r w).

Definition forget_last_seen (vt : string) : hub Q L unit :=
  changes (fun w => with_last_seen (delete vt (w_last_seen w)) w).

Definition drop_queue (vt : string) : hub Q L unit :=
  changes (fun w => with_queue (mq_remove_client (w_queue w) vt).2 w).

Definition register_client_in_hub (n : string) (l d : option string) : hub Q L RegisterClientOutcome :=
  let* uuid := new_uuid in
  let* now := reads (fun w => now_secs (w_env w)) in
  let* r := on_registry (fun reg => register sha256 uuid now reg n l d) in
  let '(plain, h, new) := r in
  let* count := reads (fun w => length (all_clients (w_registry w))) in
  (if new && (count =? 1)%nat then
     changes (fun w => with_router (set_default (w_router w) h) w) ;;
     db (exec (store_set_route HUB_DEFAULT_SENTINEL h)) ;;
     ret tt
   else ret tt) ;;
  write (upsert_client now h n l) ;;
  ret {| plaintext := plain; hashed := h; is_new := new |}.

Definition register_confirmed_client_in_hub (n : string) (l d : option string) (plain : string)
    : hub Q L (result RegisterClientOutcome PairingError) :=
  let h := hash_vtoken sha256 plain in
  let* now := reads (fun w => now_secs (w_env w)) in
  let* r := on_registry (fun reg => register_confirmed now reg n l d h) in
  match r with
  | Err _ => ret (Err NameCollision)
  | Ok _ =>
      let* count := reads (fun w => length (all_clients (w_registry w))) in
      (if (count =? 1)%nat
       then changes (fun w => with_router (set_default (w_router w) h) w) else ret tt) ;;
      write (upsert_client now h n l) ;;
      ret (Ok {| plaintext := plain; hashed := h; is_new := true |})
  end.

Definition unregister_client_in_hub (n : string) (force : bool)
    : hub Q L (result unit UnregisterClientError) :=
  let* c := reads (fun w => get_by_name (w_registry w) n) in
  match c with
  | None => ret (Err UnknownClient)
  | Some c =>
      if online c && negb force then ret (Err StillOnline) else
      let vt := Registry.vtoken c in
      let* removed := on_registry (fun reg => remove reg n) in
      if negb removed then ret (Err UnknownClient) else
      changes (fun w => with_router (remove_routes_for_vtoken (w_router w) vt
                                       (pick_default_after_remove (w_registry w) vt)) w) ;;
      forget_last_seen vt ;;
      drop_queue vt ;;
      let* r := db (exec (clear_routes_for_vtoken vt)) in
      match r with
      | Err e => ret (Err (UnregisterStore e))
      | Ok _ =>
          let* r := db (delete_client_by_name n) in
          ret (match r with Ok _ => Ok tt | Err e => Err (UnregisterStore e) end)
      end
  end.

Definition revoke_client_in_hub (n : string)
    : hub Q L (result RevokeClientOutcome RevokeClientError) :=
  let* c := reads (fun w => get_by_name (w_registry w) n) in
  match c with
  | None => ret (Err RevokeUnknown)
  | Some c =>
      let old := Registry.vtoken c in
      let* uuid := new_uuid in
      let* r := on_registry (fun reg => rotate_vtoken sha256 uuid reg n) in
      match r with
      | None => ret (Err RevokeUnknown)
      | Some (plain, new) =>
          let* nd := reads (fun w => pick_default_after_remove (w_registry w) old) in
          forget_last_seen old ;;
          drop_queue old ;;
          changes (fun w => with_router (remove_routes_for_vtoken (w_router w) old nd) w) ;;
          let* r := db (exec (revoke_authorizations_for_vtoken old)) in
          match r with
          | Err e => ret (Err (RevokeStore e))
          | Ok _ =>
              let* now := reads (fun w => now_secs (w_env w)) in
              let* r := write (upsert_client now new n (label c)) in
              ret (match r with
                   | Ok _ => Ok {| rv_name := n; rv_plaintext := plain; rv_hashed := new |}
                   | Err e => Err (RevokeStore e)
                   end)
          end
      end
  end.

Definition update_client_in_hub (old_name new_name : string) (l pn pe : option string)
    : hub Q L (result string AdminUpdateError) :=
  let new_name := trim new_name in
  if is_empty new_name then ret (Err InvalidName) else
  let* r := on_registry (fun reg =>
    match update_client reg old_name new_name l with
    | (Ok vt, reg) => (Ok vt, set_persona reg vt pn pe)
    | (Err e, reg) => (Err e, reg)
    end) in
  match r with
  | Err Registry.NotFound => ret (Err UpdateUnknown)
  | Err NameTaken => ret (Err UpdateNameTaken)
  | Ok vt =>
      let* r := write (update_client_by_vtoken vt new_name l) in
      match r with
      | Err e => ret (Err (UpdateStore e))
      | Ok _ =>
          let* r := db (exec (update_client_persona vt pn pe)) in
          ret (match r with Ok _ => Ok vt | Err e => Err (UpdateStore e) end)
      end
  end.

Definition rollback_speculative_register (n vt : string) : hub Q L unit :=
  let* c := reads (fun w => get_by_name (w_registry w) n) in
  match c with
  | Some c =>
      if negb (Registry.vtoken c =? vt)%string then ret tt else
      let* removed := on_registry (fun reg => remove reg n) in
      if negb removed then ret tt else
      changes (fun w => with_router (remove_routes_for_vtoken (w_router w) vt
                                       (pick_default_after_remove (w_registry w) vt)) w) ;;
      forget_last_seen vt ;;
      drop_queue vt ;;
      db (exec (clear_routes_for_vtoken vt)) ;;
      db (delete_client_by_name n) ;;
      ret tt
  | None => ret tt
  end.

(** ** Start-up *)

Definition ROBOT : string := "🤖".

(** One row of the loop that fills the registry. *)
Definition load_row (now : Z) (reg : ClientRegistry) (c : ClientRow) : ClientRegistry :=
  let reg := (register_with_vtoken sha256 "" now reg (c_name c) (c_label c) None (Some (c_vtoken c))).2 in
  let '(pn, pe) :=
    match c_persona_name c, c_persona_emoji c with
    | None, None => (Some (c_name c), Some ROBOT)
    | pn, pe => (pn, pe)
    end in
  set_description (set_persona reg (c_vtoken c) pn pe) (c_vtoken c) (c_description c).

Definition missing_persona (rows : list ClientRow) : list (string * string) :=
  omap (fun c => match c_persona_name c, c_persona_emoji c with
                 | None, None => Some (c_vtoken c, c_name c)
                 | _, _ => None
                 end) rows.

(** The routes of known backends; the row of the default backend is skipped. *)
Definition load_route (known : list string) (rt : Router) (p : string * string) : Router :=
  let '(u, vt) := p in
  if (u =? HUB_DEFAULT_SENTINEL)%string then rt
  else if bool_decide (vt ∈ known) then set_route rt u vt else rt.

(** The default backend: the persisted one, else the first client by name; it is written
    back. *)
Definition restore_default (first : option string) : hub Q L unit :=
  let* d := db (query (store_get_route HUB_DEFAULT_SENTINEL)) in
  match match d with Ok (Some v) => Some v | _ => first end with
  | Some v =>
      changes (fun w => with_router (set_default (w_router w) v) w) ;;
      db (exec (store_set_route HUB_DEFAULT_SENTINEL v)) ;;
      ret tt
  | None => ret tt
  end.

(** The two parts of [load_clients_from_db]. *)
Definition load_clients : hub Q L unit :=
  let* r := db (query list_clients) in
  match r with
  | Err _ => ret tt
  | Ok rows =>
      changes (fun w => with_registry (foldl (load_row (now_secs (w_env w))) (w_registry w) rows) w) ;;
      for_each (missing_persona rows) (fun p =>
        db (exec (update_client_persona p.1 (Some p.2) (Some ROBOT))) ;; ret tt) ;;
      restore_default (c_vtoken <$> head rows)
  end.

Definition load_routes : hub Q L unit :=
  let* r := db (query list_routes) in
  match r with
  | Err _ => ret tt
  | Ok routes =>
      let* known := reads (fun w => Registry.vtoken <$> all_clients (w_registry w)) in
      changes (fun w => with_router (foldl (load_route known) (w_router w) routes) w)
  end.

Definition load_clients_from_db : hub Q L unit := load_clients ;; load_routes.

(** ** Registration over HTTP *)

Definition register_error (code : Z) (msg : string) : RegisterResponse :=
  {| rs_ret := code; rs_vtoken := ""; rs_base_url := ""; rs_errmsg := Some msg |}.

(** [POST /hub/register], behind the admin check. *)
Definition register_handler (req : RegisterRequest) : hub Q L (Z * RegisterResponse) :=
  let n := trim (rr_name req) in
  if is_empty n || (MAX_CLIENT_NAME_LEN <? len n)%nat then
    ret (400%Z, register_error 400 "name must be 1–64 characters")
  else if match rr_label req with Some l => (MAX_CLIENT_NAME_LEN <? len l)%nat | None => false end then
    ret (400%Z, register_error 400 "label must be at most 64 characters")
  else
    let* o := register_client_in_hub (rr_name req) (rr_label req) (rr_description req) in
    if is_empty (plaintext o) then
      ret (409%Z, register_error 409 ("client name '" +:+ rr_name req +:+
        "' is already registered; use --force-register to replace it"))
    else
      (if bool_decide (is_Some (rr_persona_name req)) || bool_decide (is_Some (rr_persona_emoji req)) then
         changes (fun w => with_registry (set_persona (w_registry w) (hashed o) (rr_persona_name req)
                                            (rr_persona_emoji req)) w) ;;
         db (exec (update_client_persona (hashed o) (rr_persona_name req) (rr_persona_emoji req))) ;;
         ret tt
       else ret tt) ;;
      match ofilter (fun d => negb (is_empty d)) (rr_description req) with
      | Some d =>
          changes (fun w => with_registry (set_description (w_registry w) (hashed o) (Some d)) w) ;;
          db (exec (update_client_description (hashed o) (Some d))) ;;
          ret tt
      | None => ret tt
      end ;;
      ret (200%Z, {| rs_ret := 0; rs_vtoken := plaintext o; rs_base_url := ""; rs_errmsg := None |}).
End Admin.
