(* ===== verification/PairHttp.v ===== *)
(** * Pairing over HTTP ([src/src/server/pairing.rs])

    The endpoints a new backend and the owner's phone use: creating a pairing code,
    polling its status, the confirmation page, and the confirmation that registers the
    backend. The environment's variables, the device identifier, the URL parser and the
    page template are parameters. *)
From Stdlib Require Import Ascii.
From S2P Require Import Prelude StrLemmas Pairing Limiters RelayBase Types Queue Router Footer VToken Registry Acl Store PollTracker Hub Commands BotApi Admin.
Import Str.
Local Open Scope hub_scope.

(** ** HTML escaping *)

Definition html_escape_char (ch : string) : string :=
  if (ch =? "&")%string then "&amp;"
  else if (ch =? "<")%string then "&lt;"
  else if (ch =? ">")%string then "&gt;"
  else if (ch =? String "034"%char "")%string then "&quot;"
  else if (ch =? "'")%string then "&#39;"
  else ch.

Definition html_escape (s : string) : string := concat (map html_escape_char (chars s)).

(** ** Requests and responses *)

Record PairConfirmRequest := {
  pc_name : string;
  pc_label : option string;
}.

(** The two shapes of the JSON object [pair_confirm] answers with. *)
Inductive PairConfirmBody :=
| Confirmed_body (name vtoken : string)
| Error_body (error : string).

(** The peer of a connection: its address as text, and whether it is a loopback address. *)
Record PeerIp := {
  ip_text : string;
  ip_is_loopback : bool;
}.

(** What [url::Url] answers about a parsed URL. *)
Record Url := {
  u_scheme : string;
  u_host : option string;
  u_port : option Z;
  u_port_or_default : option Z;
}.

Inductive OriginCheckError := Missing | NotAllowed.

Definition QR_STATUS_LONG_POLL : Z := secs 25.

Definition MAX_NAME_LEN : nat := 64.

(** A header value that is present and readable as text. *)
Definition HeaderMap := string -> option string.

Section PairHttp.
Context {Q L : Type} `{MessageQueue Q}.
Context (sha256 : string -> list N).
(** Environment variables, the device identifier, the URL parser, the page template. *)
Context (var : string -> option string) (device_id : string) (parse_url : string -> option Url)
        (template : string).

Definition pair_public_url : string := resolve_pair_public_url var device_id.

Definition client_base_url : string :=
  unwrap_or (ofilter (fun s => negb (is_empty s))
               ((fun s => trim_end_matches "/"%char (trim s)) <$> var "HUB_CLIENT_URL"))
            "http://127.0.0.1:8765".

(** *** Origin check *)

Definition origin_matches_device_base (origin : string) : bool :=
  let base := pair_public_url in
  match parse_url origin, parse_url base with
  | Some o, Some b =>
      if negb (u_scheme o =? u_scheme b)%string then false else
      if negb (bool_decide (u_host o = u_host b)) then false else
      bool_decide (u_port_or_default o = u_port_or_default b)
  | _, _ => (trim_end_matches "/"%char origin =? trim_end_matches "/"%char base)%string
  end.

Definition check_origin_or_referer (origin_header referer_header : option string)
    : result unit OriginCheckError :=
  match origin_header <|> referer_header with
  | None => Err Missing
  | Some value =>
      let origin_to_check :=
        if contains "://" value then value else
        match parse_url value with
        | Some parsed =>
            u_scheme parsed +:+ "://" +:+ unwrap_or (u_host parsed) "" +:+
            match u_port parsed with Some port => ":" +:+ show_u64 port | None => "" end
        | None => value
        end in
      if origin_matches_device_base origin_to_check then Ok tt else Err NotAllowed
  end.

(** *** State *)

Definition with_pairing (x : PairingRegistry) (v : Web) : Web :=
  {| web_pairing := x; web_confirm := web_confirm v; web_qr := web_qr v; web_tickets := web_tickets v;
     web_ilink_status := web_ilink_status v; web_relogin := web_relogin v;
     web_last_ready := web_last_ready v; web_relay_secret := web_relay_secret v |}.
Definition with_confirm (x : gmap (string * string) Z) (v : Web) : Web :=
  {| web_pairing := web_pairing v; web_confirm := x; web_qr := web_qr v; web_tickets := web_tickets v;
     web_ilink_status := web_ilink_status v; web_relogin := web_relogin v;
     web_last_ready := web_last_ready v; web_relay_secret := web_relay_secret v |}.
Definition with_qr (x : gmap string (list Z)) (v : Web) : Web :=
  {| web_pairing := web_pairing v; web_confirm := web_confirm v; web_qr := x; web_tickets := web_tickets v;
     web_ilink_status := web_ilink_status v; web_relogin := web_relogin v;
     web_last_ready := web_last_ready v; web_relay_secret := web_relay_secret v |}.

(** A critical section of the pairing registry; it reads the monotonic clock. *)
Definition on_pairing {A} (f : Z -> PairingRegistry -> A * PairingRegistry) : hub Q L A := fun w =>
  let '(x, r) := f (now_nanos (w_env w)) (web_pairing (w_web w)) in
  (x, with_web (with_pairing r (w_web w)) w).

Definition admit_confirm (code ip : string) : hub Q L bool := fun w =>
  let '(b, m) := PairConfirm.confirm_check_and_record (now_nanos (w_env w)) (code, ip) (web_confirm (w_web w)) in
  (b, with_web (with_confirm m (w_web w)) w).

Definition admit_qr (ip : string) : hub Q L bool := fun w =>
  let '(b, m) := QrCreate.qr_check_and_record (now_nanos (w_env w)) ip (web_qr (w_web w)) in
  (b, with_web (with_qr m (w_web w)) w).

(** *** Creating a code *)

Definition qr_error (msg : string) : GetQrcodeResponse :=
  {| gq_ret := -1; gq_qrcode := None; gq_img_content := None; gq_errmsg := Some msg |}.

Definition build_pairing_qr_response (code : string) : GetQrcodeResponse :=
  {| gq_ret := 0; gq_qrcode := Some code;
     gq_img_content := Some (pair_qr_url var pair_public_url code); gq_errmsg := None |}.

Definition create_pairing_qr : hub Q L GetQrcodeResponse :=
  let* uuid := new_uuid in
  let* r := on_pairing (fun now => create now uuid) in
  ret (match r with
       | Ok code => build_pairing_qr_response code
       | Err TooManySessions => qr_error "too many active pairing sessions; retry shortly"
       | Err _ => qr_error "failed to create pairing session"
       end).

(** [ip]: the address of the caller, ["unknown"] when the server does not know it. *)
Definition ClientIp (connect_info : option PeerIp) : string :=
  match connect_info with Some p => ip_text p | None => "unknown" end.

Definition get_bot_qrcode (ip : string) : hub Q L (Z * GetQrcodeResponse) :=
  let* admitted := admit_qr ip in
  if negb admitted then ret (429%Z, qr_error "too many pairing QR requests; retry shortly")
  else let* r := create_pairing_qr in ret (200%Z, r).

(** The body's token list is only logged. *)
Definition get_bot_qrcode_post (ip : string) (local_token_list : list string)
    : hub Q L (Z * GetQrcodeResponse) :=
  let* admitted := admit_qr ip in
  if negb admitted then ret (429%Z, qr_error "too many pairing QR requests; retry shortly")
  else let* r := create_pairing_qr in ret (200%Z, r).

(** *** Polling the status *)

Definition qrcode_status_json (qrcode : string) : hub Q L QrcodeStatusResponse :=
  let* claimed := on_pairing (fun now r => claim_confirmed_vtoken now r qrcode) in
  let* now := reads (fun w => now_nanos (w_env w)) in
  ret (match claimed with
       | None =>
           {| qs_ret := -1; qs_status := Some "expired"; qs_bot_token := None; qs_baseurl := None;
              qs_ilink_bot_id := None; qs_ilink_user_id := None;
              qs_errmsg := Some "pairing session not found" |}
       | Some (session, bot_token) =>
           let status := status_str now session in
           {| qs_ret := 0; qs_status := Some status; qs_bot_token := bot_token;
              qs_baseurl := if (status =? "confirmed")%string then Some client_base_url else None;
              qs_ilink_bot_id := Some "ilink-hub@hub.local"; qs_ilink_user_id := Some "hub-client";
              qs_errmsg := None |}
       end).

Definition set_nanos (t : Z) (e : Env) : Env :=
  {| faults := faults e; send_replies := send_replies e; uuids := uuids e;
     random_bytes := random_bytes e; now_secs := now_secs e; now_millis := now_millis e;
     now_nanos := t; local_stamp := local_stamp e; local_stamp_ms := local_stamp_ms e;
     upsert_arbiter := upsert_arbiter e |}.

(** The loop of [get_qrcode_status]. Each entry of [wakes] is what the rest of the
    system does until a notification wakes the loop; when there is none left, the timer
    of the deadline does. *)
Fixpoint status_loop (deadline : Z) (qrcode : string) (wakes : list (hub Q L unit))
    : hub Q L QrcodeStatusResponse :=
  let* resp := qrcode_status_json qrcode in
  let* now := reads (fun w => now_nanos (w_env w)) in
  let terminal := negb (bool_decide (qs_status resp = Some "wait")) in
  if terminal || (deadline <=? now)%Z then ret resp else
  match wakes with
  | wake :: wakes => wake ;; status_loop deadline qrcode wakes
  | [] =>
      changes (fun w => with_env (set_nanos deadline (w_env w)) w) ;;
      qrcode_status_json qrcode
  end.

Definition get_qrcode_status (qrcode : string) (wakes : list (hub Q L unit))
    : hub Q L QrcodeStatusResponse :=
  let* now := reads (fun w => now_nanos (w_env w)) in
  status_loop (now + QR_STATUS_LONG_POLL) qrcode wakes.

(** *** The page *)

Definition pair_page (code : string) : hub Q L (Z * string) :=
  let* found := reads (fun w => bool_decide (is_Some (Pairing.get (web_pairing (w_web w)) code))) in
  (if found then let* rng := draw in on_pairing (fun now r => mark_scanned now rng r code) ;; ret tt
   else ret tt) ;;
  let* session := reads (fun w => Pairing.get (web_pairing (w_web w)) code) in
  let* now := reads (fun w => now_nanos (w_env w)) in
  ret (match session with
       | None => (404%Z, "<h1>配对码无效或已过期</h1><p>请回到客户端重新获取二维码。</p>")
       | Some session =>
           if (status_str now session =? "expired")%string
           then (410%Z, "<h1>配对码已过期</h1><p>请回到客户端重新获取二维码。</p>")
           else if (status_str now session =? "confirmed")%string
           then let name := html_escape (unwrap_or (client_name session) "client") in
                (200%Z, "<h1>已配对</h1><p>客户端 <strong>" +:+ name +:+ "</strong> 已成功接入。</p>")
           else match csrf session with
                | None => (500%Z, "<h1>内部错误</h1><p>无法生成配对凭证，请重试。</p>")
                | Some t => (200%Z, replace "__PAIR_CSRF__" t (replace "__PAIR_CODE__" code template))
                end
       end).

(** *** Confirmation *)

Definition pairing_error (e : PairingError) : Z * PairConfirmBody :=
  match e with
  | Pairing.NotFound => (404%Z, Error_body "pairing session not found")
  | Expired_ => (410%Z, Error_body "pairing session expired")
  | AlreadyConfirmed => (409%Z, Error_body "pairing already confirmed")
  | NotScanned => (412%Z, Error_body "pairing code not yet scanned")
  | CsrfMismatch => (403%Z, Error_body "csrf token mismatch")
  | TooManySessions => (503%Z, Error_body "too many active pairing sessions")
  | NameCollision => (409%Z, Error_body "client name already registered")
  end.

(** The address the limiter uses: that of the peer, or the one the relay forwards. *)
Definition effective_ip (secret : string) (headers : HeaderMap) (peer : PeerIp) : string :=
  let relay_secret_ok :=
    match headers "x-ilink-relay-secret" with Some v => (v =? secret)%string | None => false end in
  if ip_is_loopback peer && relay_secret_ok then
    unwrap_or (ofilter (fun s => negb (is_empty s))
                 (trim <$> (headers "x-forwarded-for" ≫= fun s => head (split "," s))))
              (ip_text peer)
  else ip_text peer.

(** Checks on the body: the trimmed name and label, or the error response. *)
Definition check_names (req : PairConfirmRequest) : result (string * option string) string :=
  let name := trim (pc_name req) in
  if is_empty name then Err "name is required" else
  if (MAX_NAME_LEN <? len name)%nat then Err "name must be at most 64 characters" else
  let label := ofilter (fun l => negb (is_empty l)) (trim <$> pc_label req) in
  if match label with Some l => (MAX_NAME_LEN <? len l)%nat | None => false end
  then Err "label must be at most 64 characters"
  else Ok (name, label).

(** From the confirmation of the session on. *)
Definition commit_pairing (code name : string) (label : option string) (csrf_header : string)
    : hub Q L (Z * PairConfirmBody) :=
  let* uuid := new_uuid in
  let plain := "vhub_" +:+ uuid in
  let* r := on_pairing (fun now r => confirm now r code name label plain csrf_header) in
  match r with
  | Err e => ret (pairing_error e)
  | Ok _ =>
      let* r := register_confirmed_client_in_hub sha256 name label None plain in
      match r with
      | Ok _ => ret (200%Z, Confirmed_body name plain)
      | Err e =>
          on_pairing (fun _ r => (tt, remove_confirmed r code)) ;;
          ret (match e with
               | NameCollision => (409%Z, Error_body "client name already registered")
               | _ => (500%Z, Error_body "failed to register client")
               end)
      end
  end.

Definition pair_confirm (code : string) (headers : HeaderMap) (peer : PeerIp)
    (req : PairConfirmRequest) : hub Q L (Z * PairConfirmBody) :=
  match check_names req with
  | Err msg => ret (400%Z, Error_body msg)
  | Ok (name, label) =>
      let* secret := reads (fun w => web_relay_secret (w_web w)) in
      let* admitted := admit_confirm code (effective_ip secret headers peer) in
      if negb admitted then ret (429%Z, Error_body "too many confirm attempts for this pairing code") else
      match check_origin_or_referer (headers "origin") (headers "referer") with
      | Err Missing => ret (403%Z, Error_body "origin header required")
      | Err NotAllowed => ret (403%Z, Error_body "origin not allowed")
      | Ok _ =>
          match ofilter (fun v => negb (is_empty v)) (headers "x-pair-csrf") with
          | None => ret (403%Z, Error_body "missing or invalid CSRF token")
          | Some csrf_header =>
              let* pre := on_pairing (fun now r => pre_check_confirm now r code csrf_header) in
              match pre with
              | Err e => ret (pairing_error e)
              | Ok _ => commit_pairing code name label csrf_header
              end
          end
      end
  end.
End PairHttp.
