(* ===== verification/PairProps.v ===== *)
(** * Properties of pairing over HTTP

    A confirmation that answers 200 hands out a credential that works, one that answers
    anything else changes nothing a backend or a user can see, and escaped names are inert
    in the page. *)
From Stdlib Require Import Ascii.
From S2P Require Import Prelude StrLemmas Pairing Limiters RelayBase Types Queue Router Footer VToken Registry Acl Store StoreProps PollTracker Hub Resolve Commands Dispatch HubLemmas DispatchProps BotApi Admin PairHttp.
Import Str.
Local Open Scope hub_scope.

(** ** Escaping *)

(** The reader of a page turns entities back into characters; [skip] counts the bytes of
    an entity still to be passed over. *)
Fixpoint unescape_go (skip : nat) (s : string) : string :=
  match s with
  | EmptyString => ""
  | String a s' =>
      match skip with
      | S k => unescape_go k s'
      | 0 =>
          if starts_with "&amp;" s then String "&" (unescape_go 4 s')
          else if starts_with "&lt;" s then String "<" (unescape_go 3 s')
          else if starts_with "&gt;" s then String ">" (unescape_go 3 s')
          else if starts_with "&quot;" s then String "034"%char (unescape_go 5 s')
          else if starts_with "&#39;" s then String "'" (unescape_go 4 s')
          else String a (unescape_go 0 s')
      end
  end.

Definition html_unescape (s : string) : string := unescape_go 0 s.

(** Bytes that delimit markup or attributes. *)
Definition is_markup (a : ascii) : bool :=
  (a =? "<")%char || (a =? ">")%char || (a =? "034")%char || (a =? "'")%char.

(** The escape of a character is one of five entities, or the character itself, in which
    no special byte occurs. *)
Definition is_special (a : ascii) : bool := (a =? "&")%char || is_markup a.

Lemma escape_char_cases c : utf8_char c = true ->
  (c, html_escape_char c) ∈ [("&", "&amp;"); ("<", "&lt;"); (">", "&gt;");
                             (String "034"%char "", "&quot;"); ("'", "&#39;")] \/
  html_escape_char c = c /\ all_bytes (fun a => negb (is_special a)) c = true.
Proof.
  intros Hc. unfold html_escape_char.
  repeat (match goal with |- context [if (c =? ?x)%string then _ else _] =>
            destruct (String.eqb_spec c x); [left; subst; set_solver|] end).
  right. split; [done|]. destruct c as [|a [|b c]]; [done| |].
  - cbn. rewrite andb_true_r. unfold is_special, is_markup.
    repeat match goal with |- context [(a =? ?x)%char] => destruct (Ascii.eqb_spec a x); [by subst|] end. done.
  - revert Hc. unfold utf8_char. apply all_bytes_impl. intros x Hx. unfold is_special, is_markup.
    repeat match goal with |- context [(x =? ?y)%char] => destruct (Ascii.eqb_spec x y); [by subst|] end. done.
Qed.

Lemma unescape_plain c t : all_bytes (fun a => negb (is_special a)) c = true ->
  unescape_go 0 (c +:+ t) = c +:+ unescape_go 0 t.
Proof.
  induction c as [|a c IH]; [done|]. cbn [all_bytes]. intros [Ha Hc]%andb_true_iff.
  rewrite !append_cons. cbn [unescape_go].
  assert (Hs : forall p, starts_with (String "&" p) (String a (c +:+ t)) = false).
  { intros p. destruct (starts_with _ _) eqn:E; [|done]. apply starts_with_spec in E as [r E].
    rewrite append_cons in E. by simplify_eq. }
  by rewrite !Hs, IH.
Qed.

(** Escaping is safe and loses nothing: the result holds no byte that delimits markup,
    and a reader recovers the text from it. *)
Theorem html_escape_roundtrip (s : string) (Hs : utf8 s = true) :
  all_bytes (fun a => negb (is_markup a)) (html_escape s) = true /\
  html_unescape (html_escape s) = s.
Proof.
  rewrite <- (concat_chars s) at 3. unfold html_unescape, html_escape. revert Hs. unfold utf8.
  induction (chars s) as [|c l IH]; [done|]. cbn [forallb map]. intros [Hc [IH1 IH2]%IH]%andb_true_iff.
  change (concat (?x :: ?y)) with (x +:+ concat y). rewrite all_bytes_app, IH1, andb_true_r.
  revert IH2. generalize (concat (map html_escape_char l)) (concat l). intros t u IH2.
  destruct (escape_char_cases c Hc) as [Hin|[-> Hplain]].
  - rewrite !elem_of_cons, elem_of_nil in Hin.
    destruct Hin as [[= -> ->]|[[= -> ->]|[[= -> ->]|[[= -> ->]|[[= -> ->]|[]]]]]];
      (split; [done|]); cbn; by rewrite <- IH2.
  - rewrite unescape_plain by done; rewrite IH2. split; [|done]. revert Hplain. apply all_bytes_impl.
    intros a. unfold is_special. destruct (is_markup a); [by rewrite orb_true_r|done].
Qed.

(** ** Confirmation *)

Section Confirmation.
Context {Q L : Type} `{MessageQueue Q}.
Context (sha256 : string -> list N) (var : string -> option string) (device_id : string)
        (parse_url : string -> option Url).
Implicit Types w : World Q L.

#[local] Instance aside_web : Aside (Q := Q) (L := L) w_web. Proof. done. Qed.

Lemma on_pairing_run {A} (f : Z -> PairingRegistry -> A * PairingRegistry) w :
  on_pairing f w =
    ((f (now_nanos (w_env w)) (web_pairing (w_web w))).1,
     with_web (with_pairing (f (now_nanos (w_env w)) (web_pairing (w_web w))).2 (w_web w)) w).
Proof. unfold on_pairing. by destruct (f _ _). Qed.

(** What a write leaves in the store, whatever the database answers. *)
Lemma write_effect f w :
  w_store (write f w).2 = w_store w \/ f (w_store w) = Some (w_store (write f w).2).
Proof.
  unfold write, db. rewrite !bind_run. unfold next_fault.
  destruct (faults (w_env w)) as [|[| |] fs]; cbn; try (by left); destruct (f (w_store w)); cbn; auto.
Qed.

(** The backend [n] has joined with the token hash [h]: it is added to the registry and
    written to the client table (unless the database refuses); it becomes the default
    when it is the only one; nothing else of the hub changes. *)
Definition joined (n : string) (l d : option string) (h : string) w w' : Prop :=
  (exists now, w_registry w' = insert_client n h (with_hashed_vtoken now n l d h) (w_registry w) /\
     (w_store w' = w_store w \/ upsert_client now h n l (w_store w) = Some (w_store w'))) /\
  w_router w' = (if (length (all_clients (w_registry w')) =? 1)%nat then set_default (w_router w) h
                 else w_router w) /\
  w_queue w' = w_queue w /\ w_last_seen w' = w_last_seen w /\ w_outbox w' = w_outbox w /\
  w_tasks w' = w_tasks w /\ w_metrics w' = w_metrics w.

#[local] Instance aside_rest : Aside (Q := Q) (L := L)
  (fun w => (w_web w, w_registry w, w_router w, w_queue w, w_last_seen w, w_outbox w, w_tasks w, w_metrics w)).
Proof. done. Qed.

(** Registering a confirmed backend: it fails exactly on a taken name. *)
Lemma register_confirmed_spec n l d plain w :
  let r := register_confirmed_client_in_hub sha256 n l d plain w in
  w_web r.2 = w_web w /\
  match by_name (w_registry w) !! n with
  | Some _ => r = (Err NameCollision, with_registry (w_registry w) w)
  | None => is_ok r.1 = true /\ joined n l d (hash_vtoken sha256 plain) w r.2
  end.
Proof.
  unfold register_confirmed_client_in_hub, on_registry, register_confirmed.
  rewrite !bind_run. cbn [reads fst snd].
  destruct (by_name (w_registry w) !! n) eqn:E; cbn [fst snd]; [by split|].
  rewrite bind_run. cbn [reads fst snd].
  set (w1 := with_registry _ w). set (b := (length (all_clients (w_registry w1)) =? 1)%nat).
  rewrite bind_run. match goal with |- context [snd ((if b then ?x else ?y) w1)] => set (w2 := snd ((if b then x else y) w1)) end.
  rewrite bind_run. cbn [ret fst snd is_ok].
  set (h := hash_vtoken sha256 plain). set (f := upsert_client (now_secs (w_env w)) h n l).
  pose proof (keeps_bind (fun w => (w_web w, w_registry w, w_router w, w_queue w, w_last_seen w, w_outbox w, w_tasks w, w_metrics w))
    _ _ (keeps_db _ _) (fun r => keeps_ret _ _) w2 : _ (write f w2).2 = _) as Hk.
  pose proof (write_effect f w2) as Hst.
  assert (E2 : w_web w2 = w_web w /\ w_registry w2 = w_registry w1 /\ w_store w2 = w_store w /\
    w_router w2 = (if b then set_default (w_router w) h else w_router w) /\
    (w_queue w2, w_last_seen w2, w_outbox w2, w_tasks w2, w_metrics w2)
    = (w_queue w, w_last_seen w, w_outbox w, w_tasks w, w_metrics w)) by (unfold w2; by destruct b).
  destruct E2 as (E1 & E2 & E3 & E4 & E5). injection E5 as F1 F2 F3 F4 F5. cbv beta in Hk.
  injection Hk as K1 K2 K3 K4 K5 K6 K7 K8. rewrite E3 in Hst.
  split; [by rewrite K1|]. split; [done|]. unfold joined. rewrite K2, K3, K4, K5, K6, K7, K8, E2, E4.
  split; [by exists (now_secs (w_env w))|]. done.
Qed.


Lemma claim_within now r c s t tok :
  confirmed_sessions r !! c = Some (s, t) -> Pairing.vtoken s = Some tok ->
  (elapsed now t < VTOKEN_CLAIM_WINDOW)%Z ->
  claim_confirmed_vtoken now r c = (Some (s, Some tok), purge_expired now r).
Proof.
  intros Hin Hv Ht. unfold claim_confirmed_vtoken. cbv zeta.
  rewrite (purge_keeps now r c s t Hin), Hv by (unfold VTOKEN_CLAIM_WINDOW, CONFIRMED_TTL, secs in *; lia).
  apply Z.ltb_lt in Ht. by rewrite Ht.
Qed.

(** What the handlers other than a successful confirmation leave alone. *)
Definition same_hub w w' : Prop :=
  w_registry w' = w_registry w /\ w_router w' = w_router w /\ w_queue w' = w_queue w /\
  w_store w' = w_store w /\ w_last_seen w' = w_last_seen w /\ w_outbox w' = w_outbox w /\
  w_tasks w' = w_tasks w /\ w_metrics w' = w_metrics w.

Definition confirmed_of w := confirmed_sessions (web_pairing (w_web w)).

Lemma purge_confirmed now r : confirmed_sessions (purge_expired now r) ⊆ confirmed_sessions r.
Proof. apply map_filter_subseteq. Qed.

Lemma confirm_Err_confirmed now r c n l vt hd e r' :
  confirm now r c n l vt hd = (Err e, r') -> confirmed_sessions r' ⊆ confirmed_sessions r.
Proof.
  unfold confirm. cbv zeta. pose proof (purge_confirmed now r) as Hp. intros E.
  repeat (case_match; simplify_eq); done.
Qed.

Lemma uuid_frame w : same_hub w (new_uuid w).2 /\ w_web (new_uuid w).2 = w_web w /\
  now_nanos (w_env (new_uuid w).2) = now_nanos (w_env w).
Proof. unfold new_uuid. by destruct (uuids (w_env w)). Qed.

(** The last part of the handler, on both outcomes. *)
Lemma commit_spec code name label hd w :
  let r := commit_pairing sha256 code name label hd w in
  let plain := "vhub_" +:+ (new_uuid w).1 in
  let c := confirm (now_nanos (w_env w)) (web_pairing (w_web w)) code name label plain hd in
  (r.1.1 <> 200%Z /\ same_hub w r.2 /\ confirmed_of r.2 ⊆ confirmed_of w) \/
  (r.1 = (200%Z, Confirmed_body name plain) /\ c.1 = Ok tt /\ web_pairing (w_web r.2) = c.2 /\
   by_name (w_registry w) !! name = None /\ joined name label None (hash_vtoken sha256 plain) w r.2).
Proof.
  cbv zeta. unfold commit_pairing. rewrite bind_run.
  destruct (uuid_frame w) as (Hs & Hw & Hn). set (w1 := (new_uuid w).2) in *.
  set (plain := "vhub_" +:+ (new_uuid w).1).
  rewrite bind_run, on_pairing_run. cbn [fst snd]. rewrite Hn, Hw.
  destruct (confirm _ _ code name label plain hd) as [[[]|e] r'] eqn:Ec; cbn [fst snd].
  2: { left. split; [by destruct e|]. split; [exact Hs|]. unfold confirmed_of. cbn.
       by apply confirm_Err_confirmed in Ec. }
  set (w2 := with_web _ w1). rewrite bind_run.
  pose proof (register_confirmed_spec name label None plain w2) as [Hweb Hr].
  assert (Hreg : w_registry w2 = w_registry w) by apply Hs. rewrite Hreg in Hr.
  destruct (by_name (w_registry w) !! name) eqn:En.
  - rewrite Hr. cbn. left. split; [done|]. split; [split; [done|apply Hs]|]. unfold confirmed_of. cbn.
    apply confirm_Ok in Ec as (_ & ? & _ & _ & _ & _ & ->). cbn.
    rewrite delete_insert_eq. etransitivity; [apply delete_subseteq|apply purge_confirmed].
  - right. destruct Hr as [Hok Hr]. destruct (register_confirmed_client_in_hub _ _ _ _ _ w2) as [[o|e] w3];
      [|done]. cbn in *. rewrite Hweb. split; [done|]. split; [done|]. split; [done|]. split; [done|].
    destruct Hs as (S1 & S2 & S3 & S4 & S5 & S6 & S7 & S8). unfold joined in *. cbn in Hr.
    by rewrite S1, S2, S3, S4, S5, S6, S7, S8 in Hr.
Qed.

(** Every path through the handler. *)
Lemma pair_confirm_spec code headers peer req w :
  let r := pair_confirm sha256 var device_id parse_url code headers peer req w in
  (r.1.1 <> 200%Z /\ same_hub w r.2 /\ confirmed_of r.2 ⊆ confirmed_of w) \/
  exists name label hd rp c,
    let plain := "vhub_" +:+ (new_uuid w).1 in
    check_names req = Ok (name, label) /\ headers "x-pair-csrf" = Some hd /\
    check_origin_or_referer var device_id parse_url (headers "origin") (headers "referer") = Ok tt /\
    rp = purge_expired (now_nanos (w_env w)) (web_pairing (w_web w)) /\
    c = confirm (now_nanos (w_env w)) rp code name label plain hd /\
    r.1 = (200%Z, Confirmed_body name plain) /\ c.1 = Ok tt /\ web_pairing (w_web r.2) = c.2 /\
    by_name (w_registry w) !! name = None /\ joined name label None (hash_vtoken sha256 plain) w r.2.
Proof.
  cbv zeta. unfold pair_confirm. destruct (check_names req) as [[name label]|] eqn:En; [|by left].
  rewrite bind_run. cbn [reads fst snd]. unfold admit_confirm. rewrite bind_run.
  destruct (PairConfirm.confirm_check_and_record _ _ _) as [[] m]; cbn [fst snd negb]; [|by left].
  destruct (check_origin_or_referer _ _ _ _ _) as [[]|[]] eqn:Eo; [|by left..].
  destruct (headers "x-pair-csrf") as [hd|] eqn:Eh; cbn [ofilter]; [|by left].
  destruct (is_empty hd); cbn [negb]; [by left|].
  rewrite bind_run, on_pairing_run. unfold pre_check_confirm. cbv zeta. cbn [fst snd].
  set (rp := purge_expired _ _). change (web_pairing _) with (web_pairing (w_web w)) in rp.
  match goal with |- context [match ?x with Ok _ => _ | Err e => ret (pairing_error e) end] =>
    destruct x as [[]|e] eqn:Ep end.
  2: { left. split; [by destruct e|]. split; [done|]. apply purge_confirmed. }
  set (w1 := with_web _ _).
  destruct (commit_spec code name label hd w1) as [(H1 & H2 & H3)|(H1 & H2 & H3 & H4 & H5)].
  - left. split; [done|]. split; [exact H2|]. etransitivity; [exact H3|apply purge_confirmed].
  - right. exists name, label, hd, rp.
    assert (Hu : (new_uuid w1).1 = (new_uuid w).1) by (unfold new_uuid; cbn; by destruct (uuids (w_env w))).
    rewrite Hu in *. eexists. split; [done|]. split; [done|]. split; [done|]. split; [done|]. split; [reflexivity|].
    rewrite H1. split; [done|]. by split; [exact H2|].
Qed.

(** The answer to a poll for the code. *)
Definition confirmed_answer (vt : string) : QrcodeStatusResponse :=
  {| qs_ret := 0; qs_status := Some "confirmed"; qs_bot_token := Some vt;
     qs_baseurl := Some (client_base_url var); qs_ilink_bot_id := Some "ilink-hub@hub.local";
     qs_ilink_user_id := Some "hub-client"; qs_errmsg := None |}.

(** (C20) Pairing works end to end: a confirmation answers 200 only for a code that was scanned
    and has not expired, with the CSRF token of its page, from the device's own origin and
    under a name that was free; afterwards the returned token authenticates requests as
    that name, the backend that polls the code within the claim window gets exactly that
    token, and confirming the code again is refused. *)
Theorem pairing_hands_out_credential (w w' : World Q L) (code : string) (headers : HeaderMap)
    (peer : PeerIp) (req : PairConfirmRequest) (n vt : string) (u : string) (us : list string)
    (Huuid : uuids (w_env w) = u :: us) (Hlen : len u = 32%nat) (Hhex : all_bytes lower_hex u = true)
    (Hok : pair_confirm sha256 var device_id parse_url code headers peer req w
           = ((200%Z, Confirmed_body n vt), w')) :
  (exists s, sessions (web_pairing (w_web w)) !! code = Some s /\ status s = Scanned /\
     is_expired (now_nanos (w_env w)) s = false /\ headers "x-pair-csrf" = csrf s /\
     check_origin_or_referer var device_id parse_url (headers "origin") (headers "referer") = Ok tt /\
     by_name (w_registry w) !! n = None) /\
  (exists h info, extract_vtoken sha256 (Some ("Bearer " +:+ vt)) = Some h /\
     get_by_vtoken (w_registry w') h = Some info /\ Registry.name info = n) /\
  (forall t, (elapsed t (now_nanos (w_env w)) < VTOKEN_CLAIM_WINDOW)%Z ->
     (qrcode_status_json var code (with_env (set_nanos t (w_env w')) w')).1 = confirmed_answer vt /\
     forall n' l' vt' hd', (confirm t (web_pairing (w_web w')) code n' l' vt' hd').1 = Err AlreadyConfirmed).
Proof.
  pose proof (pair_confirm_spec code headers peer req w) as Hspec. cbv zeta in Hspec. rewrite Hok in Hspec.
  destruct Hspec as [[? _]|(nm & lb & hd & rp & c & Hn & Hh & Ho & Hrp & Hc & Heq & Hc1 & Hw & Hfree & (nowr & Hreg & _) & _)];
    [done|]. cbn [fst snd] in *. injection Heq as -> ->.
  unfold new_uuid in *. rewrite Huuid in *. cbn [fst] in *.
  destruct c as [x r']. cbn in Hc1. subst x. symmetry in Hc.
  apply confirm_Ok in Hc as (_ & s & Hs & Hx & Hst & Hm & Hr').
  apply map_lookup_filter_Some in Hs as [Hs _]. subst rp. apply map_lookup_filter_Some in Hs as [Hs _].
  unfold csrf_matches in Hm. destruct (csrf s) as [tok|] eqn:Ecs; [|done].
  apply constant_time_eq_spec in Hm. subst tok. split; [|split].
  - exists s. by rewrite Ecs.
  - exists (hash_vtoken sha256 ("vhub_" +:+ u)), (with_hashed_vtoken nowr nm lb None (hash_vtoken sha256 ("vhub_" +:+ u))).
    split; [|split; [|done]].
    + unfold extract_vtoken, bearer. cbn [mbind option_bind]. rewrite strip_prefix_app. cbn [ofilter].
      unfold is_valid_vtoken. by rewrite strip_prefix_app, Hlen, Hhex.
    + rewrite Hreg. unfold get_by_vtoken, insert_client. cbn. apply lookup_insert_eq.
  - intros t Ht.
    assert (Hin : confirmed_sessions (web_pairing (w_web w')) !! code =
              Some (confirmed_session nm lb ("vhub_" +:+ u) s, now_nanos (w_env w))).
    { rewrite Hw, Hr'. apply lookup_insert_eq. }
    assert (Hlt : (elapsed t (now_nanos (w_env w)) < CONFIRMED_TTL)%Z).
    { unfold VTOKEN_CLAIM_WINDOW, CONFIRMED_TTL, secs in *. lia. }
    split; [|intros; by eapply confirm_again].
    unfold qrcode_status_json. rewrite bind_run, on_pairing_run.
    unfold with_env at 1 2 3 4, update, set_nanos at 1 2 3. cbn [w_env w_web now_nanos].
    by rewrite (claim_within _ _ _ _ _ _ Hin eq_refl Ht).
Qed.

(** (C35) A refused confirmation is invisible: on every other answer, the registry, routes,
    queues, store and history are as before, and no code became confirmed. *)
Theorem refused_pairing_changes_nothing (w : World Q L) (code : string) (headers : HeaderMap)
    (peer : PeerIp) (req : PairConfirmRequest) :
  let r := pair_confirm sha256 var device_id parse_url code headers peer req w in
  r.1.1 = 200%Z \/ (same_hub w r.2 /\ confirmed_of r.2 ⊆ confirmed_of w).
Proof.
  cbv zeta. destruct (pair_confirm_spec code headers peer req w)
    as [(_ & H1 & H2)|(? & ? & ? & ? & ? & _ & _ & _ & _ & _ & -> & _)]; [by right|by left].
Qed.
End Confirmation.

(** ** A concrete pairing *)

Definition pair_uuid : string := "0123456789abcdef0123456789abcdef".
Definition pair_origin : string := "https://ilinkhub.ai/pair/device-1".

(** A backend asked for a code and the phone opened its page. *)
Definition pair_world : World InMemoryQueue unit :=
  let w := demo_world demo_store demo_router in
  let w := with_env (set_random [repeat 171%N 16] (set_uuids ["u"; pair_uuid] (w_env w))) w in
  ((get_bot_qrcode (fun _ => None) "device-1" "10.0.0.2" ;; pair_page "" "pair_u") w).2.

Definition pair_headers : HeaderMap := fun h =>
  if (h =? "origin")%string then Some pair_origin
  else if (h =? "x-pair-csrf")%string then Some (generate_csrf (repeat 171%N 16)) else None.

Definition pair_peer : PeerIp := {| ip_text := "10.0.0.3"; ip_is_loopback := false |}.
Definition pair_request : PairConfirmRequest := {| pc_name := " laptop "; pc_label := None |}.

Lemma pairing_hands_out_credential_witness :
  let r := pair_confirm demo_sha (fun _ => None) "device-1" (fun _ => None) "pair_u" pair_headers pair_peer
             pair_request pair_world in
  r.1 = (200%Z, Confirmed_body "laptop" ("vhub_" +:+ pair_uuid)) /\
  exists h info, extract_vtoken demo_sha (Some ("Bearer " +:+ "vhub_" +:+ pair_uuid)) = Some h /\
    get_by_vtoken (w_registry r.2) h = Some info /\ Registry.name info = "laptop".
Proof.
  intros r. assert (Hr : r.1 = (200%Z, Confirmed_body "laptop" ("vhub_" +:+ pair_uuid))) by (vm_compute; reflexivity).
  split; [exact Hr|].
  refine (proj1 (proj2 (pairing_hands_out_credential demo_sha (fun _ => None) "device-1" (fun _ => None)
    pair_world r.2 "pair_u" pair_headers pair_peer pair_request "laptop" ("vhub_" +:+ pair_uuid) pair_uuid []
    eq_refl eq_refl eq_refl _))).
  rewrite <- Hr. apply surjective_pairing.
Defined.

Lemma html_escape_roundtrip_witness :
  html_unescape (html_escape "<b>&'é") = "<b>&'é" /\ html_escape "<b>" = "&lt;b&gt;".
Proof. split; [apply (html_escape_roundtrip "<b>&'é"); reflexivity|reflexivity]. Defined.
