(* ===== verification/MetricsProps.v ===== *)
(** * Properties of the metrics endpoint

    A scrape is never rejected for a duplicate series or a broken label, and what it shows
    is what the hub counted. *)
From S2P Require Import Prelude StrLemmas Types Queue VToken PollTracker Registry Store Hub RateLimit PairHttp PairProps MetricsHttp.
From Stdlib Require Import Ascii.
Import Str.
Local Open Scope hub_scope.

(** ** Labels *)

(** A reader of the exposition format. *)
Fixpoint label_unescape (s : string) : string :=
  match s with
  | EmptyString => ""
  | String a s' =>
      if (a =? "\")%char then
        match s' with
        | String b s'' => String (if (b =? "n")%char then "010"%char else b) (label_unescape s'')
        | EmptyString => String a ""
        end
      else String a (label_unescape s')
  end.

Lemma unescape_append c t : all_bytes (fun a => negb (a =? "\")%char) c = true ->
  label_unescape (c +:+ t) = c +:+ label_unescape t.
Proof.
  induction c as [|a c IH]; [done|]. cbn [all_bytes]. intros [Ha Hc]%andb_true_iff. apply negb_true_iff in Ha.
  rewrite !append_cons. cbn [label_unescape]. by rewrite Ha, IH.
Qed.

(** Bytes that end a label value or a line. *)
Definition breaks (a : ascii) : bool := (a =? "034")%char || (a =? "010")%char.

(** The escape of a character, and how a reader continues after it. *)
Lemma escape_label_char_spec c t : utf8_char c = true ->
  label_unescape (escape_label_char c +:+ t) = c +:+ label_unescape t /\
  all_bytes (fun a => negb (a =? "010")%char) (escape_label_char c) = true.
Proof.
  intros Hc. unfold escape_label_char.
  destruct (String.eqb_spec c backslash) as [->|E1]; [done|].
  destruct (String.eqb_spec c quote) as [->|E2]; [done|].
  destruct (String.eqb_spec c nl) as [->|E3]; [done|].
  assert (Hb : all_bytes (fun a => negb (a =? "\")%char && negb (a =? "010")%char) c = true).
  { destruct c as [|a [|b c]]; [done| |].
    - cbn. rewrite andb_true_r. destruct (Ascii.eqb_spec a "\"); [by subst|].
      destruct (Ascii.eqb_spec a "010"); [by subst|done].
    - revert Hc. unfold utf8_char. apply all_bytes_impl. intros x Hx.
      destruct (Ascii.eqb_spec x "\"); [by subst|]. destruct (Ascii.eqb_spec x "010"); [by subst|done]. }
  split; [apply unescape_append|]; (eapply all_bytes_impl; [|exact Hb]); intros a [? ?]%andb_true_iff; done.
Qed.

Lemma label_roundtrip v : utf8 v = true ->
  label_unescape (escape_label_value v) = v /\
  all_bytes (fun a => negb (a =? "010")%char) (escape_label_value v) = true.
Proof.
  unfold utf8, escape_label_value. rewrite <-(concat_chars v) at 3. induction (chars v) as [|c l IH]; [done|].
  cbn [forallb map]. intros [Hc [I1 I2]%IH]%andb_true_iff.
  change (concat (?x :: ?y)) with (x +:+ concat y).
  destruct (escape_label_char_spec c (concat (map escape_label_char l)) Hc) as [E1 E2].
  rewrite E1, I1, all_bytes_app, E2, I2. done.
Qed.

(** ** One series per client *)

Lemma named_limits_NoDup l names : NoDup (named_limits l names).*1.
Proof.
  unfold named_limits. apply (sublist_NoDup _ (snapshot l).*1).
  - unfold snapshot. destruct (RateLimit.poisoned l); [constructor|].
    rewrite <-list_fmap_compose. apply NoDup_fst_map_to_list.
  - induction (snapshot l) as [|p s IH]; cbn; [constructor|]. destruct (bool_decide _); by constructor.
Qed.

(** No scrape is rejected for the rate-limit families: for a well-formed registry, two
    buckets never carry the same client label, so no series is duplicated, and no label
    breaks its line; a reader of the label gets the client's name. *)
Theorem rate_limit_series_distinct (r : ClientRegistry) (l : VtokenRateLimiter)
    (Hr : registry_wf r) (Hutf : forall v i, by_vtoken r !! v = Some i -> utf8 (name i) = true) :
  let names := client_names r in
  NoDup (map (fun p => escape_label_value (client_name names p.1)) (named_limits l names)) /\
  Forall (fun p => exists i, by_vtoken r !! p.1 = Some i /\ label_unescape (escape_label_value (client_name names p.1)) = name i /\
            all_bytes (fun a => negb (a =? "010")%char) (escape_label_value (client_name names p.1)) = true)
    (named_limits l names).
Proof.
  intros names.
  assert (Hnamed : forall p, p ∈ named_limits l names -> exists i, by_vtoken r !! p.1 = Some i /\ client_name names p.1 = name i).
  { intros p. unfold named_limits. rewrite list_elem_of_In, filter_In. intros [_ [n Hn]%bool_decide_eq_true].
    unfold client_name. rewrite Hn. unfold names, client_names in Hn. apply lookup_fmap_Some in Hn as (i & <- & Hi).
    by exists i. }
  split.
  - rewrite <-(map_map fst (fun vt => escape_label_value (client_name names vt))).
    apply NoDup_fmap_2_strong; [|apply named_limits_NoDup].
    intros x y (p & -> & Hp)%list_elem_of_fmap (q & -> & Hq)%list_elem_of_fmap E.
    destruct (Hnamed p Hp) as (i & Hi & Ni). destruct (Hnamed q Hq) as (j & Hj & Nj). rewrite Ni, Nj in E.
    apply (f_equal label_unescape) in E.
    rewrite (proj1 (label_roundtrip _ (Hutf _ _ Hi))), (proj1 (label_roundtrip _ (Hutf _ _ Hj))) in E.
    destruct (wf_vtoken _ Hr _ _ Hi) as [_ B1]. destruct (wf_vtoken _ Hr _ _ Hj) as [_ B2]. congruence.
  - apply Forall_forall. intros p Hp. destruct (Hnamed p Hp) as (i & Hi & ->). exists i.
    split; [done|]. apply label_roundtrip. by eapply Hutf.
Qed.

(** ** Sums *)

Definition values_of (names : gmap string string) (c : string) (entries : list (string * Z)) : list Z :=
  map snd (List.filter (fun p => (client_name names p.1 =? c)%string) entries).

Definition sum (l : list Z) : Z := foldr Z.add 0%Z l.

Lemma collapse_from entries names (m : gmap string Z) c :
  Forall (fun p : string * Z => 0 <= p.2)%Z entries -> (forall x n, m !! x = Some n -> 0 <= n <= u64_max)%Z ->
  foldl (fun (m : gmap string Z) p => let c := client_name names p.1 in
           <[c := sat_add (unwrap_or (m !! c) 0%Z) p.2]> m) m entries !! c
  = match m !! c, values_of names c entries with
    | None, [] => None
    | o, l => Some (Z.min u64_max (unwrap_or o 0 + sum l))%Z
    end.
Proof.
  intros Hpos. revert m. induction Hpos as [|[vt n] entries Hn Hpos IH]; intros m Hm.
  - cbn. destruct (m !! c) as [v|] eqn:E; [|done]. cbn. f_equal. specialize (Hm _ _ E). lia.
  - cbn [foldl]. rewrite IH.
    + unfold values_of. cbn [List.filter fst]. destruct (String.eqb_spec (client_name names vt) c) as [->|E].
      * rewrite lookup_insert_eq. cbn [map snd sum foldr unwrap_or]. unfold sat_add. cbn in Hn.
        assert (Hs : (0 <= sum (map snd (List.filter (fun p => (client_name names p.1 =? c)%string) entries)))%Z).
        { clear -Hpos. unfold sum in *. induction Hpos as [|p l Hp _ I]; [done|]. cbn. case_match; cbn in *; lia. }
        unfold sum in *. destruct (m !! c) as [v|] eqn:Ev; cbn.
        -- specialize (Hm _ _ Ev). f_equal. lia.
        -- f_equal. lia.
      * by rewrite lookup_insert_ne.
    + intros x v. rewrite lookup_insert_Some. cbn in Hn. intros [[<- <-]|[_ Hx]]; [|by apply (Hm _ _ Hx)].
      unfold sat_add, u64_max. destruct (m !! _) as [v|] eqn:Ev; cbn; [specialize (Hm _ _ Ev)|]; lia.
Qed.

(** The series of a client is the sum over its tokens; the tokens of clients that are gone
    make one series, which is the sum of theirs. *)
Lemma collapse_exact entries names c :
  Forall (fun p : string * Z => 0 <= p.2)%Z entries ->
  collapse_by_client entries names !! c
  = match values_of names c entries with [] => None | l => Some (Z.min u64_max (sum l)) end.
Proof.
  intros H. unfold collapse_by_client. rewrite collapse_from; [|done|by intros x n; rewrite lookup_empty].
  rewrite lookup_empty. by destruct (values_of names c entries).
Qed.

(** ** Histograms *)

Lemma cumulate_last acc l : (0 <= acc <= u64_max)%Z -> Forall (fun n => 0 <= n)%Z l ->
  default acc (last (cumulate acc l)) = Z.min u64_max (acc + sum l).
Proof.
  intros Ha Hl. revert acc Ha. unfold sum. induction Hl as [|n l Hn Hl IH]; intros acc Ha; cbn; [lia|].
  assert (Hs : (0 <= foldr Z.add 0 l)%Z) by (clear -Hl; induction Hl; cbn; lia).
  assert (Hr : (0 <= sat_add acc n <= u64_max)%Z) by (unfold sat_add; lia).
  specialize (IH _ Hr). unfold sat_add in *.
  destruct (cumulate (Z.min u64_max (acc + n)) l) as [|x m] eqn:E; cbn in *; [lia|].
  destruct (last (x :: m)) as [y|] eqn:El; cbn in *; [lia|]. by apply last_None in El.
Qed.

(** The running totals never decrease. *)
Lemma cumulate_sorted acc l : (acc <= u64_max)%Z -> Forall (fun n => 0 <= n)%Z l -> Sorted Z.le (cumulate acc l).
Proof.
  intros Ha Hl. revert acc Ha. induction Hl as [|n l Hn Hl IH]; intros acc Ha; cbn; [constructor|].
  constructor; [apply IH; unfold sat_add; lia|]. destruct Hl as [|m l Hm Hl]; constructor. unfold sat_add. lia.
Qed.

Lemma bucket_from_range bounds i ms : (i <= bucket_from i bounds ms <= i + length bounds)%nat.
Proof. revert i. induction bounds as [|b bs IH]; intros i; cbn; [lia|]. case_match; [lia|]. specialize (IH (S i)). lia. Qed.

Lemma sum_alter l i : (i < length l)%nat -> Forall (fun n => 0 <= n)%Z l -> (sum l < u64_max)%Z ->
  sum (alter (fun n => wrap_u64 (n + 1)) i l) = (sum l + 1)%Z /\ Forall (fun n => 0 <= n)%Z (alter (fun n => wrap_u64 (n + 1)) i l).
Proof.
  revert i. induction l as [|n l IH]; intros i Hi Hl Hs; [cbn in Hi; lia|]. apply Forall_cons in Hl as [Hn Hl].
  unfold sum in *. assert (H0 : (0 <= foldr Z.add 0 l)%Z) by (clear -Hl; induction Hl; cbn; lia). cbn in Hs.
  destruct i as [|i]; cbn.
  - rewrite wrap_u64_small by (unfold u64_max in *; lia). split; [lia|]. constructor; [lia|done].
  - cbn in Hi. destruct (IH i ltac:(lia) Hl ltac:(lia)) as [-> H2]. split; [lia|by constructor].
Qed.

(** A histogram is rendered consistently: after any number of observations that the
    counters can hold, the printed bucket counts never decrease, and the last one, for
    [+Inf], is the printed number of observations. *)
Theorem histogram_consistent (obs : list Z) (Hn : (Z.of_nat (length obs) <= u64_max)%Z) :
  let h := foldl observe LatencyHistogram_new obs in
  Sorted Z.le (cumulate 0 (h_buckets h)) /\ last (cumulate 0 (h_buckets h)) = Some (h_count h) /\
  h_count h = Z.of_nat (length obs) /\ length (cumulate 0 (h_buckets h)) = length bucket_bounds.
Proof.
  intros h.
  assert (Hinv : length (h_buckets h) = HISTOGRAM_BUCKET_COUNT /\ Forall (fun n => 0 <= n)%Z (h_buckets h) /\
                 sum (h_buckets h) = Z.of_nat (length obs) /\ h_count h = Z.of_nat (length obs)).
  { unfold h. clear h. induction obs as [|x obs IH] using rev_ind; [by repeat constructor|].
    rewrite length_app in *. cbn [length] in *. rewrite foldl_app. cbn [foldl].
    destruct IH as (L & F & S & C); [lia|]. set (h := foldl observe LatencyHistogram_new obs) in *. unfold observe. cbn [h_buckets h_count].
    destruct (sum_alter (h_buckets h) (bucket_from 0 HISTOGRAM_BUCKETS_MS (wrap_u64 (x / 1000000)))) as [E1 E2].
    - rewrite L. pose proof (bucket_from_range HISTOGRAM_BUCKETS_MS 0 (wrap_u64 (x / 1000000))) as B.
      unfold HISTOGRAM_BUCKET_COUNT. lia.
    - done.
    - lia.
    - rewrite length_alter, E1, C, S. rewrite (wrap_u64_small (Z.of_nat (length obs) + 1)) by (unfold u64_max in *; lia). repeat split; [done|done|lia|lia]. }
  destruct Hinv as (L & F & S & C). split; [by apply cumulate_sorted|].
  pose proof (cumulate_last 0 (h_buckets h) ltac:(done) F) as Hlast. rewrite S in Hlast.
  assert (Hlen : forall acc l, length (cumulate acc l) = length l)
    by (intros acc l; revert acc; induction l; intros; cbn; congruence).
  split; [|split; [done|by rewrite Hlen, L]]. rewrite C.
  destruct (last (cumulate 0 (h_buckets h))) as [y|] eqn:El.
  - cbn in Hlast. f_equal. unfold u64_max in *. lia.
  - apply last_None in El. apply (f_equal length) in El. rewrite Hlen, L in El. done.
Qed.

(** ** Instances *)

Lemma histogram_consistent_witness :
  last (cumulate 0 (h_buckets (foldl observe LatencyHistogram_new [2000000; 90000000000]%Z))) = Some 2%Z.
Proof.
  destruct (histogram_consistent [2000000; 90000000000]%Z ltac:(vm_compute; discriminate)) as (_ & H & E & _).
  rewrite H, E. reflexivity.
Defined.

Definition sample_registry : ClientRegistry :=
  (register (fun _ => repeat 0%N 32) "uuid" 0 ClientRegistry_new "bot" None None).2.

Definition sample_limiter : VtokenRateLimiter :=
  {| RateLimit.buckets := <[hash_vtoken (fun _ => repeat 0%N 32) "x" := {| b_tokens := f_of 3; b_last := 0; b_rejected := 0 |}]> ∅;
     RateLimit.poisoned := false; rate_per_sec := f_of 1; burst := f_of 5; rl_capacity := 8 |}.

Lemma sample_registry_clients v i : by_vtoken sample_registry !! v = Some i -> utf8 (name i) = true.
Proof.
  intros Hi. assert (Hall : forallb (fun p => utf8 (name p.2)) (map_to_list (by_vtoken sample_registry)) = true)
    by (vm_compute; reflexivity).
  rewrite forallb_forall in Hall. generalize dependent (by_vtoken sample_registry). intros m Hi Hall.
  apply elem_of_map_to_list, list_elem_of_In in Hi. exact (Hall _ Hi).
Qed.

Lemma rate_limit_series_distinct_witness :
  let names := client_names sample_registry in
  length (named_limits sample_limiter names) = 1%nat /\
  NoDup (map (fun p => escape_label_value (client_name names p.1)) (named_limits sample_limiter names)).
Proof.
  split; [vm_compute; reflexivity|].
  apply (rate_limit_series_distinct sample_registry sample_limiter).
  - apply register_wf; [reflexivity|apply new_wf].
  - apply sample_registry_clients.
Defined.
