(* ===== verification/MetricsGather.v ===== *)
(** * The metrics of [src/metrics.rs]

    A second export of the counters, through the Prometheus client library: families with
    labelled samples, filled from the state and handed to the library's encoder, which is an
    argument. Where it agrees with the page of the metrics route, and where it does not. *)
From S2P Require Import Prelude StrLemmas Types Queue VToken PollTracker Registry Store Hub RateLimit MetricsHttp MetricsProps.
From Stdlib Require Import Ascii.
Import Str.
Local Open Scope hub_scope.

(** A family of the library: counters are [u64], gauges [i64]. A sample is found by the
    values of the family's labels. *)
Record Family := {
  fm_name : string;
  fm_help : string;
  fm_counter : bool;
  fm_labels : list string;
  fm_samples : gmap (list string) Z;
}.

Definition with_samples (s : gmap (list string) Z) (f : Family) : Family :=
  {| fm_name := fm_name f; fm_help := fm_help f; fm_counter := fm_counter f; fm_labels := fm_labels f; fm_samples := s |}.

(** [IntCounterVec::new] and [IntGaugeVec::new] have no sample at first, [IntCounter::new]
    and [IntGauge::new] one. *)
Definition vec (counter : bool) (name help : string) (labels : list string) : Family :=
  {| fm_name := name; fm_help := help; fm_counter := counter; fm_labels := labels; fm_samples := ∅ |}.
Definition single (counter : bool) (name help : string) : Family :=
  {| fm_name := name; fm_help := help; fm_counter := counter; fm_labels := []; fm_samples := {[ [] := 0%Z ]} |}.

(** [with_label_values(..).inc_by(n)], an atomic addition, and [set]. *)
Definition inc_by (values : list string) (n : Z) (f : Family) : Family :=
  with_samples (<[values := wrap_u64 (unwrap_or (fm_samples f !! values) 0%Z + n)]> (fm_samples f)) f.
Definition set_to (values : list string) (n : Z) (f : Family) : Family :=
  with_samples (<[values := as_i64 n]> (fm_samples f)) f.

(** Counters of the state that nothing else here tracks. *)
Record Extra := { x_dispatcher_lagged : Z; x_faf_forward : Z; x_faf_broadcast : Z }.

Section Gather.
Context {Q L : Type} (w : World Q L) (hub_name : string) (sizes : result (gmap string nat) HubError) (g : Gauges) (x : Extra).

Let m := w_metrics w.
Let names := client_names (w_registry w).

Definition queue_family : Family :=
  foldl (fun f (p : string * nat) => set_to [client_name names p.1] (Z.of_nat p.2) f)
    (vec false "ilink_hub_queue_size" "Current pending message count per client" ["client"])
    (map_to_list (match sizes with Ok s => s | Err _ => ∅ end)).

Definition rejected_family : Family :=
  foldl (fun f (p : string * Z) => inc_by [client_name names p.1] p.2 f)
    (vec true "ilink_hub_messages_rejected_total"
       "Messages rejected by per-client backpressure (queue full; oldest retained)" ["client"])
    (map_to_list (messages_rejected_by_client m)).

(** The families in the order of their registration. *)
Definition families : list Family :=
  [ set_to [hub_name] (Z.of_nat (length (online_clients (w_registry w))))
      (vec false "ilink_hub_clients_online" "Number of online clients" ["hub"]);
    set_to [] (web_ilink_status (w_web w))
      (single false "ilink_hub_ilink_status"
         "iLink upstream connection status (0=unknown 1=connected 2=needs_login 3=logging_in)");
    queue_family;
    inc_by [hub_name] (Z.of_nat (length (all_clients (w_registry w))))
      (vec true "ilink_hub_clients_total" "Total registered clients" ["hub"]);
    inc_by [hub_name; "all"] (messages_dispatched m)
      (vec true "ilink_hub_messages_dispatched_total" "Messages dispatched" ["hub"; "cmd"]);
    inc_by [] (messages_dropped m)
      (single true "ilink_hub_messages_dropped_total"
         "Hub-level messages lost (per-client backpressure rejections + queue push errors); per-client attribution in ilink_hub_messages_rejected_total");
    rejected_family;
    inc_by [] (upstream_user_messages m)
      (single true "ilink_hub_upstream_user_messages_total"
         "User-side messages received from upstream (excl. bot echo copies)");
    inc_by [] (g_polls_ok g) (single true "ilink_hub_upstream_polls_ok_total" "Successful upstream polls");
    inc_by [] (g_polls_err g) (single true "ilink_hub_upstream_polls_err_total" "Failed upstream polls");
    inc_by [] (sendmessage_total m)
      (single true "ilink_hub_sendmessage_total" "Total sendmessage calls from backend clients");
    inc_by [] (sendmessage_errors m)
      (single true "ilink_hub_sendmessage_errors_total"
         "sendmessage calls rejected (unknown token, missing context, etc.)");
    inc_by [] (x_dispatcher_lagged x)
      (single true "ilink_hub_dispatcher_lagged_total"
         "Number of messages missed because the dispatcher lagged behind the broadcast channel");
    inc_by [] (g_relogins g)
      (single true "ilink_hub_relogin_attempts_total" "Number of QR re-login attempts (manual or automatic)");
    inc_by ["broadcast"] (x_faf_broadcast x) (inc_by ["forward_to"] (x_faf_forward x)
      (vec true "ilink_hub_persist_fire_and_forget_failures_total"
         "Fire-and-forget persist_context_token(s)_batch failures on the dispatch path; non-zero rate means context-token mappings were dropped on the floor"
         ["path"]));
    inc_by [] (quote_resolve_miss_total m)
      (single true "ilink_hub_quote_resolve_miss_total"
         "Quote-reply messages where all three DB fallback layers (timestamp, content-prefix, footer) missed; non-zero rate indicates silent routing fallback to base routing") ].

(** [Registry::register] refuses a name that is there; every name of the list is new. *)
Definition register_all (l : list Family) : option (list Family) :=
  if decide (NoDup (fm_name <$> l)) then Some l else None.

Definition gather_metrics (encode : list Family -> result string string) : result string string :=
  match register_all families with Some l => encode l | None => Err "Duplicate metrics collector registration attempted" end.

(** ** Agreement with the metrics route *)

Lemma foldl_name {A} (h : Family -> A -> Family) f l :
  (forall f a, fm_name (h f a) = fm_name f) -> fm_name (foldl h f l) = fm_name f.
Proof. intros Hh. revert f. induction l as [|a l IH]; intros f; cbn; [done|]. by rewrite IH, Hh. Qed.

(** The names do not depend on the state, and no two are the same. *)
Lemma families_registered : register_all families = Some families.
Proof.
  unfold register_all. rewrite decide_True; [done|]. unfold families. cbn [fmap list_fmap fm_name with_samples set_to inc_by vec single].
  unfold queue_family, rejected_family. rewrite !foldl_name by done. cbn [fm_name vec].
  apply (bool_decide_unpack _). vm_compute. exact I.
Qed.
End Gather.

(** Two ways to add up labelled values that meet no bound. *)
Lemma inc_by_collapse names entries f (acc : gmap string Z) :
  (forall c, fm_samples f !! [c] = acc !! c) ->
  Forall (fun p : string * Z => 0 <= p.2)%Z entries ->
  (forall c, 0 <= unwrap_or (acc !! c) 0 /\ unwrap_or (acc !! c) 0 + sum (snd <$> entries) <= u64_max)%Z ->
  forall c, fm_samples (foldl (fun f (p : string * Z) => inc_by [client_name names p.1] p.2 f) f entries) !! [c]
    = foldl (fun (m : gmap string Z) p => let c := client_name names p.1 in
               <[c := sat_add (unwrap_or (m !! c) 0%Z) p.2]> m) acc entries !! c.
Proof.
  intros Hf Hpos. revert f acc Hf. induction Hpos as [|[vt n] l Hn Hl IH]; intros f acc Hf Hb; [done|]. cbn [foldl].
  assert (Hsum : (0 <= sum (snd <$> l))%Z) by (clear -Hl; unfold sum; induction Hl; cbn in *; lia).
  set (k := client_name names vt). cbn [fst snd]. cbn in Hn. fold k.
  assert (E : wrap_u64 (unwrap_or (fm_samples f !! [k]) 0%Z + n) = sat_add (unwrap_or (acc !! k) 0%Z) n).
  { rewrite Hf. destruct (Hb k) as [B1 B2]. unfold sum in *. cbn in B2. unfold sat_add.
    rewrite wrap_u64_small; [|unfold u64_max in *; lia]. unfold u64_max in *. lia. }
  apply IH.
  - intros c. unfold inc_by. cbn. rewrite E. destruct (decide (k = c)) as [<-|Hne]; [by rewrite !lookup_insert_eq|].
    rewrite !lookup_insert_ne by congruence. apply Hf.
  - intros c. destruct (decide (k = c)) as [<-|Hne].
    + rewrite lookup_insert_eq. cbn [unwrap_or]. destruct (Hb k) as [B1 B2]. unfold sat_add, sum in *. cbn in B2. unfold u64_max in *. lia.
    + rewrite lookup_insert_ne by done. destruct (Hb c) as [B1 B2]. unfold sum in *. cbn in B2. lia.
Qed.

(** Overwriting agrees with adding up when every label comes once. *)
Lemma set_to_collapse names (entries : list (string * nat)) f (acc : gmap string Z) :
  (forall c, fm_samples f !! [c] = acc !! c) ->
  NoDup (client_name names <$> entries.*1) ->
  Forall (fun p => acc !! client_name names p.1 = None /\ (Z.of_nat p.2 <= i64_max)%Z) entries ->
  forall c, fm_samples (foldl (fun f (p : string * nat) => set_to [client_name names p.1] (Z.of_nat p.2) f) f entries) !! [c]
    = foldl (fun (m : gmap string Z) p => let c := client_name names p.1 in
               <[c := sat_add (unwrap_or (m !! c) 0%Z) p.2]> m) acc (prod_map id Z.of_nat <$> entries) !! c.
Proof.
  revert f acc. induction entries as [|[vt n] l IH]; intros f acc Hf Hnd Hfree; [done|].
  cbn in Hnd. apply NoDup_cons in Hnd as [Hnin Hnd]. apply Forall_cons in Hfree as [[Hk Hn] Hfree]. cbn [fst snd] in *.
  change (prod_map id Z.of_nat <$> (vt, n) :: l) with ((vt, Z.of_nat n) :: (prod_map id Z.of_nat <$> l)). cbn [foldl fst snd].
  rewrite Hk. cbn [unwrap_or].
  assert (E : as_i64 (Z.of_nat n) = sat_add 0 (Z.of_nat n)).
  { rewrite as_i64_small by lia. unfold sat_add, i64_max, u64_max in *. lia. }
  apply IH; [|done|].
  - intros c. unfold set_to. cbn. rewrite E. destruct (decide (client_name names vt = c)) as [<-|Hne].
    + by rewrite !lookup_insert_eq.
    + rewrite !lookup_insert_ne by congruence. apply Hf.
  - rewrite Forall_forall in Hfree |- *. intros p Hp. destruct (Hfree p Hp) as [H1 H2]. split; [|done].
    rewrite lookup_insert_ne; [done|]. intros Heq. apply Hnin. rewrite Heq. apply list_elem_of_fmap. exists p.1. split; [done|].
    apply list_elem_of_fmap. by exists p.
Qed.

(** The two exports agree: the registration of the families never fails; the rejections per
    client are those of the metrics route as long as they can be counted; and so are the
    queue sizes when every queue belongs to a registered backend. *)
Theorem exports_agree {Q L} (w : World Q L) (hub_name : string) (sizes : gmap string nat) (g : Gauges) (x : Extra)
    (encode : list Family -> result string string)
    (Hr : registry_wf (w_registry w))
    (Hsizes : map_Forall (fun vt n => is_Some (by_vtoken (w_registry w) !! vt) /\ (Z.of_nat n <= i64_max)%Z) sizes)
    (Hrej : map_Forall (fun _ n => 0 <= n)%Z (messages_rejected_by_client (w_metrics w)))
    (Hsum : (sum (snd <$> map_to_list (messages_rejected_by_client (w_metrics w))) <= u64_max)%Z) :
  let names := client_names (w_registry w) in
  gather_metrics w hub_name (Ok sizes) g x encode = encode (families w hub_name (Ok sizes) g x) /\
  (forall c, fm_samples (rejected_family w) !! [c]
     = collapse_by_client (map_to_list (messages_rejected_by_client (w_metrics w))) names !! c) /\
  (forall c, fm_samples (queue_family w (Ok sizes)) !! [c]
     = collapse_by_client (prod_map id Z.of_nat <$> map_to_list sizes) names !! c).
Proof.
  intros names.
  assert (Hn : forall vt i, by_vtoken (w_registry w) !! vt = Some i -> client_name names vt = name i).
  { intros vt i Hi. unfold client_name, names, client_names. by rewrite lookup_fmap, Hi. }
  split; [unfold gather_metrics; by rewrite families_registered|]. split.
  - intros c. unfold rejected_family, collapse_by_client. apply inc_by_collapse; [done| |].
    + apply Forall_forall. intros [vt n] Hin%elem_of_map_to_list. by apply (Hrej vt n).
    + intros c'. rewrite lookup_empty. cbn [unwrap_or]. lia.
  - intros c. unfold queue_family, collapse_by_client. apply set_to_collapse; [done| |].
    + apply NoDup_fmap_2_strong; [|apply NoDup_fst_map_to_list].
      intros a b (p & -> & Hp)%list_elem_of_fmap (q & -> & Hq)%list_elem_of_fmap E.
      destruct p as [vp np], q as [vq nq]. cbn in *. apply elem_of_map_to_list in Hp, Hq.
      destruct (Hsizes vp np Hp) as [[i Hi] _]. destruct (Hsizes vq nq Hq) as [[j Hj] _].
      unfold fst in E. rewrite (Hn _ _ Hi), (Hn _ _ Hj) in E.
      destruct (wf_vtoken _ Hr _ _ Hi) as [_ B1]. destruct (wf_vtoken _ Hr _ _ Hj) as [_ B2]. congruence.
    + apply Forall_forall. intros [vt n] Hin%elem_of_map_to_list. rewrite lookup_empty. split; [done|]. by apply (Hsizes vt n).
Qed.

(** For queues of backends that are gone the two differ: both go by the label [unknown],
    the route shows the sum, this export the size of the last one. *)
Lemma unknown_queues_overwrite {Q L} (w : World Q L) (Hw : w_registry w = ClientRegistry_new) :
  let sizes : gmap string nat := {[ "a" := 3%nat; "b" := 4%nat ]} in
  fm_samples (queue_family w (Ok sizes)) !! ["unknown"] <> Some 7%Z /\
  collapse_by_client (prod_map id Z.of_nat <$> map_to_list sizes) (client_names (w_registry w)) !! "unknown" = Some 7%Z.
Proof. intros sizes. unfold queue_family. rewrite Hw. split; vm_compute; congruence. Qed.
