(* ===== verification/RelayProps.v ===== *)
(** * Pairing through the relay

    The composition of a phone's confirmation with the relay server, the relay client and
    the hub: which address the hub's limiter sees. *)
From Stdlib Require Import Ascii.
From S2P Require Import Prelude StrLemmas Pairing Limiters RelayBase RelayServer RelayClient PairHttp.
Import Str.
Local Open Scope hub_scope.

(** The header map the hub's server builds: names compare without case, and [get] answers
    the first value. *)
Definition hub_headers (hs : list (string * string)) : HeaderMap := fun name =>
  snd <$> List.find (fun p : string * string => eq_ignore_ascii_case p.1 name) hs.

Definition loopback : PeerIp := {| ip_text := "127.0.0.1"; ip_is_loopback := true |}.

(** Header names arrive in lower case. *)
Definition lower_names (hs : list (string * option string)) : Prop :=
  Forall (fun p => to_ascii_lowercase p.1 = p.1) hs.

Lemma header_map_app a b : header_map (a ++ b) =
  foldl (fun m p => match p.2 with Some v => <[p.1 := v]> m | None => m end) (header_map a) b.
Proof. unfold header_map. by rewrite foldl_app. Qed.

Lemma header_map_elem hs n v : header_map hs !! n = Some v -> (n, Some v) ∈ hs.
Proof.
  induction hs as [|[n' [v'|]] hs IH] using rev_ind; [done|..]; rewrite header_map_app; cbn;
    rewrite elem_of_app; [|by auto].
  rewrite lookup_insert. case_decide; [intros [= <-]; subst; right; by left|]. auto.
Qed.

Lemma find_app_none {A} (f : A -> bool) l l' : List.find f l = None -> List.find f (l ++ l') = List.find f l'.
Proof. induction l as [|x l IH]; [done|]. cbn. by destruct (f x). Qed.

Lemma find_app_some {A} (f : A -> bool) l l' x : List.find f l = Some x -> List.find f (l ++ l') = Some x.
Proof. induction l as [|y l IH]; [done|]. cbn. by destruct (f y). Qed.

(** Looking a name up among the forwarded headers. *)
Lemma forwarded_lookup (m : gmap string string) (n : string) :
  (forall k v, m !! k = Some v -> to_ascii_lowercase k = k) -> to_ascii_lowercase n = n ->
  is_blocked_forward_header n = false ->
  snd <$> List.find (fun p : string * string => eq_ignore_ascii_case p.1 n)
            (List.filter (fun p : string * string => negb (is_blocked_forward_header p.1)) (map_to_list m)) = m !! n.
Proof.
  intros Hlow Hn Hb.
  assert (Hiff : forall k v, m !! k = Some v -> eq_ignore_ascii_case k n = true <-> k = n).
  { intros k v Hk. unfold eq_ignore_ascii_case. by rewrite (Hlow k v Hk), Hn, String.eqb_eq. }
  set (l := List.filter _ (map_to_list m)).
  destruct (List.find _ l) as [[k v]|] eqn:E; cbn.
  - apply find_some in E as [Hin He]. apply filter_In in Hin as [Hin _].
    apply list_elem_of_In, elem_of_map_to_list in Hin. cbn in He. apply (Hiff k v Hin) in He. by subst.
  - destruct (m !! n) as [v|] eqn:Em; [|done]. exfalso.
    assert (Hin : In (n, v) l).
    { apply filter_In. split; [by apply list_elem_of_In, elem_of_map_to_list|]. cbn. by rewrite Hb. }
    apply (find_none _ _ E) in Hin. cbn in Hin. unfold eq_ignore_ascii_case in Hin. by rewrite String.eqb_refl in Hin.
Qed.

(** The request that a queued message becomes at the hub. *)
Definition hub_view (to_uppercase : string -> string) (hub_base secret : string) (m : RelayMessage)
    : option HttpRequest :=
  match m with
  | Request _ method path headers body => ok (build_request to_uppercase hub_base secret method path headers body)
  | _ => None
  end.

Section EndToEnd.
Context (to_uppercase : string -> string) (hub_base secret : string).
Hypothesis to_uppercase_post : to_uppercase "POST" = "POST".

(** The phone's address reaches the limiter: a confirmation sent through the relay is
    counted by the hub under the address the relay saw, and whatever the phone put into
    its forwarding header is replaced; provided the phone sends no header with the name of
    the relay's secret. *)
Theorem phone_address_reaches_hub (now : Z) (ip id d code body : string) (headers : list (string * option string))
    (s s' : Relay)
    (Hip : ip <> "" /\ trim ip = ip /\ no_byte "," ip = true) (Hlow : lower_names headers)
    (Hsecret : forall v, ("x-ilink-relay-secret", v) ∉ headers)
    (Hsent : relay_pair_confirm now ip id d code headers body s = (Ok tt, s')) :
  exists c k req q, conns s' !! c = Some k /\ last (c_queue k) = Some req /\
    hub_view to_uppercase hub_base secret req = Some q /\
    q_url q = hub_base +:+ "/hub/pair/" +:+ code +:+ "/confirm" /\
    effective_ip secret (hub_headers (q_headers q)) loopback = ip.
Proof.
  revert Hsent. unfold relay_pair_confirm, check_pair_rate.
  destruct (FixedWindow.allow _ _ _ _ _) as [[] lim]; [|done]. unfold start_forward. cbn [hubs set_limiters conns].
  destruct (hubs s !! d) as [c|]; [|done]. destruct (conns s !! c) as [k|] eqn:Ek; [|done].
  destruct (_ <? _)%nat; [|done]. intros [= <-].
  set (hm := header_map _).
  exists c, (set_queue (c_queue k ++ [Request id "POST" ("/hub/pair/" +:+ code +:+ "/confirm") hm (Some body)]) k), (Request id "POST" ("/hub/pair/" +:+ code +:+ "/confirm") hm (Some body)).
  eexists. split; [cbn; by rewrite lookup_alter_eq, Ek|]. split; [cbn; by rewrite last_snoc|].
  split; [cbn; unfold build_request; by rewrite to_uppercase_post|]. split; [done|].
  assert (Hhm : hm !! "x-forwarded-for" = Some ip).
  { unfold hm, insert_header. rewrite header_map_app. cbn. by rewrite lookup_insert_eq. }
  assert (Hin : forall n v, hm !! n = Some v -> n = "x-forwarded-for" \/ (n, Some v) ∈ headers).
  { intros n v Hv. apply header_map_elem in Hv. unfold insert_header in Hv.
    apply elem_of_app in Hv as [Hv|[= -> _]%list_elem_of_singleton]; [|by left].
    right. by apply list_elem_of_In, filter_In in Hv as [?%list_elem_of_In _]. }
  assert (Hl : forall n v, hm !! n = Some v -> to_ascii_lowercase n = n).
  { intros n v Hv. destruct (Hin n v Hv) as [->|Hh]; [done|]. unfold lower_names in Hlow. rewrite Forall_forall in Hlow.
    exact (Hlow _ Hh). }
  assert (Hns : hm !! "x-ilink-relay-secret" = None).
  { destruct (hm !! "x-ilink-relay-secret") eqn:E; [|done]. destruct (Hin _ _ E) as [|Hh]; [done|]. by eapply Hsecret in Hh. }
  pose proof (forwarded_lookup hm "x-forwarded-for" Hl eq_refl eq_refl) as F1. rewrite Hhm in F1.
  pose proof (forwarded_lookup hm "x-ilink-relay-secret" Hl eq_refl eq_refl) as F2. rewrite Hns in F2.
  unfold effective_ip, hub_headers. cbn [q_headers ip_is_loopback loopback andb].
  apply fmap_None in F2. rewrite (find_app_none _ _ _ F2).
  assert (Hs : List.find (fun p : string * string => eq_ignore_ascii_case p.1 "x-ilink-relay-secret")
                 [("x-ilink-relay-secret", secret)] = Some ("x-ilink-relay-secret", secret)) by reflexivity.
  rewrite Hs. cbn [fmap option_fmap option_map snd]. rewrite String.eqb_refl.
  apply fmap_Some in F1 as (p & F1 & ->). erewrite find_app_some by exact F1.
  cbn [option_map snd mbind option_bind].
  destruct Hip as (Hne & Htr & Hc).
  assert (Hsp : split "," p.2 = [p.2]) by exact (split_none "," "" "" p.2 Hc).
  change (snd <$> Some p) with (Some p.2). cbn [mbind option_bind]. rewrite Hsp. change (trim <$> head [p.2]) with (Some (trim p.2)). rewrite Htr. by destruct (p.2).
Qed.

(** Without that proviso it does not hold: the client forwards a header with the name of
    its secret and appends its own behind it, and the hub reads the first. The attempts of
    all such phones are counted under the loopback address. *)
Theorem spoofed_secret_hides_address (path body v : string) (hm : gmap string string)
    (Hlow : forall n x, hm !! n = Some x -> to_ascii_lowercase n = n)
    (Hspoof : hm !! "x-ilink-relay-secret" = Some v) (Hwrong : v <> secret) :
  exists q, build_request to_uppercase hub_base secret "POST" path hm (Some body) = Ok q /\
    effective_ip secret (hub_headers (q_headers q)) loopback = "127.0.0.1".
Proof.
  unfold build_request. rewrite to_uppercase_post. eexists. split; [reflexivity|].
  pose proof (forwarded_lookup hm "x-ilink-relay-secret" Hlow eq_refl eq_refl) as F. rewrite Hspoof in F.
  apply fmap_Some in F as (p & F & ->).
  unfold effective_ip, hub_headers. cbn [q_headers]. erewrite find_app_some by exact F.
  change (snd <$> Some p) with (Some p.2). cbv iota. apply String.eqb_neq in Hwrong. rewrite Hwrong.
  by rewrite andb_false_r.
Qed.
End EndToEnd.
