(* ===== verification/AdminApi.v ===== *)
(** * Administration over HTTP and the health checker ([src/src/server/routes/admin.rs],
      [src/src/hub/health.rs])

    The handlers of the admin surface, behind the [AdminGuard] extractor: listing,
    renaming, revoking and deleting backends, their sessions and history, the login status,
    the re-login signal and the ticketed event stream. And the periodic check that marks
    silent backends offline. The text form of a row's time is a parameter. *)
From S2P Require Import Prelude StrLemmas Pairing Limiters Types Queue Router Footer VToken Registry Acl Store PollTracker Hub Commands BotApi Admin PairHttp.
Import Str.
Local Open Scope hub_scope.

(** [ilink_status::as_str]. *)
Definition status_as_str (code : Z) : string :=
  if (code =? UNKNOWN)%Z then "unknown"
  else if (code =? CONNECTED)%Z then "connected"
  else if (code =? NEEDS_LOGIN)%Z then "needs_login"
  else if (code =? LOGGING_IN)%Z then "logging_in"
  else "unknown".

Definition jopt (o : option string) : json := match o with Some s => JStr s | None => JNull end.
Definition jint (n : Z) : json := JNum (NInt n).

(** Body of the three mutations; absent fields are not serialised. *)
Record AdminClientMutationResponse := {
  am_ret : Z;
  am_errmsg : option string;
  am_name : option string;
}.

Record AdminRevokeClientResponse := {
  ar_ret : Z;
  ar_errmsg : option string;
  ar_name : option string;
  ar_vtoken : option string;
}.

Record AdminUpdateClientRequest := {
  au_name : string;
  au_label : option string;
  au_persona_name : option string;
  au_persona_emoji : option string;
}.

Definition mutation_error (code : Z) (msg : string) : Z * AdminClientMutationResponse :=
  (code, {| am_ret := code; am_errmsg := Some msg; am_name := None |}).

Definition revoke_error (code : Z) (msg : string) : Z * AdminRevokeClientResponse :=
  (code, {| ar_ret := code; ar_errmsg := Some msg; ar_name := None; ar_vtoken := None |}).

Definition unauthorized_body : json :=
  JObj [("error", JStr "Unauthorized"); ("ret", jint 401); ("errmsg", JStr "Unauthorized")].

(** First eight characters of a token, marked as cut. *)
Definition redact_listed (vt : string) : string :=
  if (8 <? length (chars vt))%nat then take_chars 8 vt +:+ "…" else "…".

Definition client_json (c : ClientInfo) : json :=
  JObj [("name", JStr (Registry.name c)); ("label", jopt (Registry.label c)); ("online", JBool (online c));
        ("vtoken", JStr (redact_listed (Registry.vtoken c)));
        ("persona_name", jopt (persona_name c)); ("persona_emoji", jopt (persona_emoji c))].

Section AdminApi.
Context {Q L : Type} `{MessageQueue Q}.
Context (sha256 : string -> list N) (timestamp : Z -> string).

(** A handler behind [AdminGuard]: a request without the admin credential gets a 401 and
    the handler does not run. *)
Definition guarded {A} (authorization : option string) (m : hub Q L A) : hub Q L (result A (Z * json)) :=
  let* admin := reads w_admin in
  if check_admin_auth admin authorization then let* x := m in ret (Ok x)
  else ret (Err (401%Z, unauthorized_body)).

Definition admin_clients : hub Q L (Z * json) :=
  let* cs := reads (fun w => all_clients (w_registry w)) in
  ret (200%Z, JObj [("clients", JArr (client_json <$> cs))]).

Definition admin_delete_client (name : string) (force : bool)
    : hub Q L (Z * AdminClientMutationResponse) :=
  let name := trim name in
  if is_empty name then ret (mutation_error 400 "Client name is required") else
  let* r := unregister_client_in_hub name force in
  ret (match r with
       | Ok _ => (200%Z, {| am_ret := 0; am_errmsg := None; am_name := Some name |})
       | Err UnknownClient => mutation_error 404 ("Client `" +:+ name +:+ "` not found")
       | Err StillOnline =>
           mutation_error 409 ("Client `" +:+ name +:+ "` is still online; stop the backend process first")
       | Err (UnregisterStore _) => mutation_error 500 "Failed to delete client"
       end).

Definition admin_revoke_client (name : string) : hub Q L (Z * AdminRevokeClientResponse) :=
  let name := trim name in
  if is_empty name then ret (revoke_error 400 "Client name is required") else
  let* r := revoke_client_in_hub sha256 name in
  ret (match r with
       | Ok o => (200%Z, {| ar_ret := 0; ar_errmsg := None; ar_name := Some (rv_name o);
                            ar_vtoken := Some (rv_plaintext o) |})
       | Err RevokeUnknown => revoke_error 404 ("Client `" +:+ name +:+ "` not found")
       | Err (RevokeStore _) => revoke_error 500 "Failed to revoke client"
       end).

Definition admin_update_client (old_name : string) (req : AdminUpdateClientRequest)
    : hub Q L (Z * AdminClientMutationResponse) :=
  let old_name := trim old_name in
  if is_empty old_name then ret (mutation_error 400 "Client name is required") else
  let* r := update_client_in_hub old_name (au_name req) (au_label req) (au_persona_name req)
              (au_persona_emoji req) in
  ret (match r with
       | Ok _ => (200%Z, {| am_ret := 0; am_errmsg := None; am_name := Some (trim (au_name req)) |})
       | Err UpdateUnknown => mutation_error 404 ("Client `" +:+ old_name +:+ "` not found")
       | Err UpdateNameTaken =>
           mutation_error 409 ("Client name `" +:+ trim (au_name req) +:+ "` is already taken")
       | Err InvalidName => mutation_error 400 "Client name cannot be empty"
       | Err (UpdateStore _) => mutation_error 500 "Failed to update client"
       end).

(** *** Login status and stream *)

Definition admin_ilink_status : hub Q L (Z * (string * Z)) :=
  let* code := reads (fun w => web_ilink_status (w_web w)) in
  ret (200%Z, (status_as_str code, code)).

Definition with_relogin (n : nat) (v : Web) : Web :=
  {| web_pairing := web_pairing v; web_confirm := web_confirm v; web_qr := web_qr v;
     web_tickets := web_tickets v; web_ilink_status := web_ilink_status v; web_relogin := n;
     web_last_ready := web_last_ready v; web_relay_secret := web_relay_secret v |}.
Definition with_tickets (x : gmap string Z) (v : Web) : Web :=
  {| web_pairing := web_pairing v; web_confirm := web_confirm v; web_qr := web_qr v;
     web_tickets := x; web_ilink_status := web_ilink_status v; web_relogin := web_relogin v;
     web_last_ready := web_last_ready v; web_relay_secret := web_relay_secret v |}.

Definition admin_ilink_relogin : hub Q L (Z * json) :=
  changes (fun w => with_web (with_relogin (S (web_relogin (w_web w))) (w_web w)) w) ;;
  ret (200%Z, JObj [("ok", JBool true)]).

Definition admin_ilink_qr_stream_ticket : hub Q L (Z * json) :=
  let* bytes := draw in
  fun w =>
    let '(ticket, m) := Tickets.issue (now_nanos (w_env w)) bytes (web_tickets (w_web w)) in
    ((200%Z, JObj [("ticket", JStr ticket); ("expires_in_secs", jint 30)]),
     with_web (with_tickets m (w_web w)) w).

(** The stream opens with the cached event, if any, and goes on with the events sent from
    then on; an unauthorised caller gets a 401. *)
Definition admin_ilink_qr_stream (authorization ticket : option string)
    : hub Q L (result (option QrLoginUiEvent) Z) := fun w =>
  let '(authed, w) :=
    if check_admin_auth (w_admin w) authorization then (true, w) else
    match ticket with
    | Some t =>
        let '(b, m) := Tickets.consume (now_nanos (w_env w)) t (web_tickets (w_web w)) in
        (b, with_web (with_tickets m (w_web w)) w)
    | None => (false, w)
    end in
  if negb authed then (Err 401%Z, w) else (Ok (web_last_ready (w_web w)), w).

(** *** Sessions and history *)

Definition not_found : Z * json := (404%Z, JObj [("ret", jint 404); ("errmsg", JStr "Client not found")]).

Definition session_json (e : SessionStatusEntry) : json :=
  JObj [("name", JStr (e_session e)); ("last_user_content", jopt (last_user_content e));
        ("waiting_for_reply", JBool (waiting_for_reply e));
        ("user_msg_created_at", jopt (timestamp <$> user_msg_created_at e))].

Definition admin_client_sessions (name : string) : hub Q L (Z * json) :=
  let* c := reads (fun w => get_by_name (w_registry w) (trim name)) in
  match c with
  | None => ret not_found
  | Some c =>
      let vt := Registry.vtoken c in
      let* r := db (query (get_all_session_entries_per_vtoken [vt])) in
      ret (match r with
           | Ok m => (200%Z, JObj [("ret", jint 0);
                                   ("sessions", JArr (session_json <$> default [] (m !! vt)))])
           | Err _ => (500%Z, JObj [("ret", jint 500); ("errmsg", JStr "Failed to list sessions")])
           end)
  end.

Definition message_json (m : MessageRow) : json :=
  JObj [("id", jint (Z.of_nat (m_id m))); ("role", JStr (m_role m)); ("content", JStr (m_content m));
        ("created_at", JStr (timestamp (m_created m))); ("peer_user_id", JStr (m_peer m))].

Definition admin_client_session_history (name session_name : string) (limit : option Z)
    : hub Q L (Z * json) :=
  let* c := reads (fun w => get_by_name (w_registry w) (trim name)) in
  match c with
  | None => ret not_found
  | Some c =>
      let limit := unwrap_or limit 100%Z in
      let* r := db (query (list_messages_for_session (Registry.vtoken c) session_name limit)) in
      ret (match r with
           | Ok rows => (200%Z, JObj [("ret", jint 0); ("messages", JArr (message_json <$> rows))])
           | Err _ => (500%Z, JObj [("ret", jint 500); ("errmsg", JStr "Failed to fetch history")])
           end)
  end.

(** ** Health checker *)

Definition OFFLINE_THRESHOLD_SECS : Z := 90.

(** One pass: backends not seen for the threshold are marked offline. *)
Definition health_check : hub Q L unit := fun w =>
  let threshold := sat_sub (now_secs (w_env w)) OFFLINE_THRESHOLD_SECS in
  let stale := (filter (fun p : string * Z => (p.2 < threshold)%Z) (map_to_list (w_last_seen w))).*1 in
  (tt, match stale with [] => w | _ => with_registry (foldl mark_offline (w_registry w) stale) w end).

(** What wakes the checker's loop: a change of the shutdown flag, or the timer; between
    two wakes the rest of the hub runs. *)
Inductive HealthEvent := ShutdownChanged (b : bool) | Timer (others : hub Q L unit).

Fixpoint health_checker (events : list HealthEvent) : hub Q L unit :=
  match events with
  | [] => ret tt
  | ShutdownChanged true :: _ => ret tt
  | ShutdownChanged false :: events => health_checker events
  | Timer others :: events => others ;; health_check ;; health_checker events
  end.
End AdminApi.

(** ** Properties *)

Lemma mark_offline_lookup r v k :
  by_vtoken (mark_offline r v) !! k
  = (if (v =? k)%string then set_online false else id) <$> by_vtoken r !! k.
Proof.
  unfold mark_offline, alter_client. cbn. destruct (String.eqb_spec v k) as [->|E].
  - by rewrite lookup_alter_eq.
  - rewrite lookup_alter_ne by done. by rewrite option_fmap_id.
Qed.

Lemma mark_all_offline r l k :
  by_vtoken (foldl mark_offline r l) !! k
  = (if bool_decide (k ∈ l) then set_online false else id) <$> by_vtoken r !! k.
Proof.
  revert r. induction l as [|v l IH]; intros r; cbn [foldl].
  - rewrite bool_decide_false by (apply not_elem_of_nil). by rewrite option_fmap_id.
  - rewrite IH, mark_offline_lookup. destruct (by_vtoken r !! k) as [c|]; [|done]. cbn. f_equal.
    destruct (String.eqb_spec v k) as [->|E].
    + rewrite (bool_decide_true (k ∈ k :: l)) by (by left). by case_bool_decide.
    + rewrite (bool_decide_ext (k ∈ v :: l) (k ∈ l)); [done|]. rewrite elem_of_cons. naive_solver.
Qed.

Section Health.
Context {Q L : Type}.
Implicit Types w : World Q L.

(** The health checker, exactly: a pass changes one thing, the online flag of the
    backends whose last poll is more than 90 seconds old; they become offline, and every
    other backend keeps its entry. *)
Theorem health_check_exact w v :
  let r := (health_check w).2 in
  get_by_vtoken (w_registry r) v =
    (fun c => match w_last_seen w !! v with
              | Some t => if (t <? sat_sub (now_secs (w_env w)) OFFLINE_THRESHOLD_SECS)%Z
                          then set_online false c else c
              | None => c
              end) <$> get_by_vtoken (w_registry w) v.
Proof.
  cbv zeta. unfold health_check. set (stale := fst <$> _). cbn [snd].
  assert (Hr : by_vtoken (w_registry (match stale with [] => w | _ => with_registry (foldl mark_offline (w_registry w) stale) w end)) !! v
               = by_vtoken (foldl mark_offline (w_registry w) stale) !! v) by (by destruct stale).
  unfold get_by_vtoken. rewrite Hr, mark_all_offline. destruct (by_vtoken (w_registry w) !! v) as [c|]; [|done].
  cbn. f_equal.
  assert (Hin : v ∈ stale <-> exists t, w_last_seen w !! v = Some t /\
            (t < sat_sub (now_secs (w_env w)) OFFLINE_THRESHOLD_SECS)%Z).
  { unfold stale. rewrite list_elem_of_fmap. split.
    - intros ([k t] & -> & [Hlt Hm%elem_of_map_to_list]%list_elem_of_filter). by exists t.
    - intros (t & Hm & Hlt). exists (v, t). split; [done|]. apply list_elem_of_filter.
      split; [done|]. by apply elem_of_map_to_list. }
  case_bool_decide as Hb; rewrite Hin in Hb.
  - destruct Hb as (t & -> & Hlt). apply Z.ltb_lt in Hlt. by rewrite Hlt.
  - destruct (w_last_seen w !! v) as [t|]; [|done]. destruct (Z.ltb_spec t (sat_sub (now_secs (w_env w)) OFFLINE_THRESHOLD_SECS)); [|done].
    destruct Hb. by exists t.
Qed.
End Health.

(** ** The ticketed stream *)
Section Stream.
Context {Q L : Type}.
Implicit Types w : World Q L.

Lemma stream_by_ticket w k : check_admin_auth (w_admin w) None = false ->
  let c := Tickets.consume (now_nanos (w_env w)) k (web_tickets (w_web w)) in
  admin_ilink_qr_stream None (Some k) w =
    (if c.1 then Ok (web_last_ready (w_web w)) else Err 401%Z, with_web (with_tickets c.2 (w_web w)) w).
Proof.
  intros Ha. unfold admin_ilink_qr_stream. rewrite Ha. by destruct (Tickets.consume _ k _) as [[] m].
Qed.

(** A ticket opens the stream once: a caller without the admin credential who presents a
    fresh ticket within 30 seconds gets the stream, and presenting it again, at any time,
    is refused; the admin token itself is not needed in the URL. *)
Theorem stream_ticket_once (w : World Q L) (bytes : list N) (rest : list (list N)) (t t' : Z)
    (Hdraw : random_bytes (w_env w) = bytes :: rest) (Hlen : length bytes = 16%nat)
    (Hauth : check_admin_auth (w_admin w) None = false)
    (Ht : (now_nanos (w_env w) <= t < now_nanos (w_env w) + Tickets.TICKET_TTL)%Z) :
  let w1 := (admin_ilink_qr_stream_ticket w).2 in
  let ticket := hex_lower bytes in
  let at_ (t : Z) w := with_env (set_nanos t (w_env w)) w in
  let open1 := admin_ilink_qr_stream None (Some ticket) (at_ t w1) in
  open1.1 = Ok (web_last_ready (w_web w)) /\
  (admin_ilink_qr_stream None (Some ticket) (at_ t' open1.2)).1 = Err 401%Z.
Proof.
  assert (Hne : is_empty (hex_lower bytes) = false).
  { pose proof (hex_lower_len bytes) as Hl. destruct (hex_lower bytes); [cbn in Hl; lia|done]. }
  cbv zeta. unfold admin_ilink_qr_stream_ticket, draw, bind. rewrite Hdraw. cbn [fst snd].
  rewrite !stream_by_ticket by done. cbn. unfold Tickets.consume. rewrite Hne, lookup_insert_eq.
  rewrite (proj2 (Z.ltb_lt t _)) by lia. cbn. split; [done|]. by rewrite lookup_delete_eq.
Qed.
End Stream.
