(* ===== verification/AdminProps.v ===== *)
(** * Properties of client administration

    How revocation runs, and what it means from end to end: for the registry, the
    routes, the queue, the grants, and for later requests with the old token. *)
From S2P Require Import Prelude StrLemmas Types Queue Router Footer VToken Registry Acl Pairing Store StoreProps PollTracker Hub Resolve Commands Dispatch HubLemmas DispatchProps CommandProps BotApi BotProps Admin.
Import Str.
Local Open Scope hub_scope.

Section Revocation.
Context {Q L : Type} `{MessageQueueLaws Q} `{RateLimiter L}.
Context (sha256 : string -> list N) (json_to_string : json -> string).
Implicit Types w : World Q L.

(** A token that is not registered gets nothing from the bot API. *)
Lemma sendmessage_unknown w authorization req vt :
  extract_vtoken sha256 authorization = Some vt -> get_by_vtoken (w_registry w) vt = None ->
  w_outbox (sendmessage sha256 json_to_string authorization req w).2 = w_outbox w.
Proof.
  intros Hvt Hr. unfold sendmessage. rewrite bind_run, Hvt. cbn [count changes fst snd].
  rewrite bind_run. cbn [reads fst snd w_registry with_metrics update]. by rewrite Hr.
Qed.

Lemma getupdates_unknown w authorization req b vt :
  extract_vtoken sha256 authorization = Some vt -> get_by_vtoken (w_registry w) vt = None ->
  (getupdates sha256 authorization req b w).1.1 <> 200%Z.
Proof.
  intros Hvt Hr. unfold getupdates. rewrite !bind_run. cbn [changes ret fst snd].
  unfold answer_poll. rewrite Hvt, bind_run. destruct (enter (w_tracker w) vt) as [o t]. cbn [fst snd].
  assert (Hg : forall g n, (guarded vt g n req b (with_tracker t w)).1.1 <> 200%Z).
  { intros g n. destruct (guarded_spec vt g n req b (with_tracker t w)) as (_ & _ & -> & _).
    change (w_registry (with_tracker t w)) with (w_registry w). rewrite Hr. by destruct (_ <? _)%Z. }
  by destruct o.
Qed.

Lemma write_healthy f w :
  healthy w -> write f w = (match f (w_store w) with Some _ => Ok tt | None => Err "UNIQUE constraint failed" end,
                            match f (w_store w) with Some s => with_store s w | None => w end).
Proof.
  intros Hh. unfold write. rewrite bind_run, db_healthy by done. cbn.
  destruct (f (w_store w)); [done|]. cbn. by rewrite with_store_id.
Qed.
(** The hash of a freshly minted token is known nowhere yet. *)
Record fresh_token w (h : string) : Prop := {
  ft_memory : by_vtoken (w_registry w) !! h = None;
  ft_database : Forall (fun c => c_vtoken c <> h) (clients_t (w_store w));
}.

Lemma upsert_fresh now vt n l s :
  Forall (fun c => c_vtoken c <> vt) (clients_t s) ->
  exists s', upsert_client now vt n l s = Some s' /\ active_sessions s' = active_sessions s /\
    backend_sessions s' = backend_sessions s /\ context_token_map s' = context_token_map s.
Proof.
  intros Hf. unfold upsert_client.
  destruct (existsb _ _) eqn:E.
  { rewrite existsb_exists in E. destruct E as (c & Hin & Hc).
    rewrite andb_true_iff, String.eqb_eq in Hc. destruct Hc as [Hc _].
    rewrite Forall_forall in Hf. by destruct (Hf c); [apply list_elem_of_In|]. }
  destruct (List.find _ _); by eexists.
Qed.

(** The whole run of [revoke_client_in_hub] without faults. *)
Lemma revoke_run w n c u us :
  healthy w -> registry_wf (w_registry w) -> get_by_name (w_registry w) n = Some c ->
  uuids (w_env w) = u :: us -> let new := hash_vtoken sha256 (mint u) in fresh_token w new ->
  let old := Registry.vtoken c in
  let reg := (rotate_vtoken sha256 u (w_registry w) n).2 in
  exists s', let r := revoke_client_in_hub sha256 n w in
    r.1 = Ok {| rv_name := n; rv_plaintext := mint u; rv_hashed := new |} /\
    upsert_client (now_secs (w_env w)) new n (label c)
      (revoke_authorizations_for_vtoken old (w_store w)) = Some s' /\
    w_store r.2 = s' /\ w_registry r.2 = reg /\
    w_router r.2 = remove_routes_for_vtoken (w_router w) old (pick_default_after_remove reg old) /\
    w_queue r.2 = (mq_remove_client (w_queue w) old).2 /\
    by_vtoken reg = <[new := rotated new c]>
      (delete old (by_vtoken (w_registry w))) /\
    healthy r.2.
Proof.
  intros Hh [Hw1 Hw2] Hc Hu new [Hf1 Hf2] old reg.
  destruct (upsert_fresh (now_secs (w_env w)) new n (label c)
              (revoke_authorizations_for_vtoken old (w_store w)) Hf2) as (s' & Hs' & _).
  unfold get_by_name in Hc. destruct (by_name (w_registry w) !! n) as [v|] eqn:En; [|done].
  cbn in Hc. assert (Hold : v = old) by (destruct (Hw2 _ _ Hc) as [Hv _]; by symmetry). subst v.
  assert (Hrot : rotate_vtoken sha256 u (w_registry w) n = (Some (mint u, new), reg)).
  { unfold reg, rotate_vtoken. rewrite En, Hc. done. }
  set (w1 := with_env (set_uuids us (w_env w)) w).
  assert (Hon : on_registry (fun r => rotate_vtoken sha256 u r n) w1 = (Some (mint u, new), with_registry reg w1)).
  { unfold on_registry. change (w_registry w1) with (w_registry w). by rewrite Hrot. }
  set (w2 := with_router (remove_routes_for_vtoken (w_router w) old (pick_default_after_remove reg old))
               (with_queue (mq_remove_client (w_queue w) old).2
                  (with_last_seen (delete old (w_last_seen w)) (with_registry reg w1)))).
  assert (He : revoke_client_in_hub sha256 n w
               = (Ok {| rv_name := n; rv_plaintext := mint u; rv_hashed := new |}, with_store s' w2)).
  { unfold revoke_client_in_hub. run_read.
    unfold get_by_name. rewrite En. cbn [mbind option_bind]. rewrite Hc, bind_run.
    unfold new_uuid. rewrite Hu. cbn [fst snd]. fold w1 old. rewrite bind_run, Hon. cbn [fst snd].
    rewrite !bind_run. cbn [reads fst snd forget_last_seen drop_queue changes].
    change (w_registry (with_registry reg w1)) with reg.
    change (with_router _ _) with w2. rewrite db_healthy by exact Hh. cbn [fst snd exec reads].
    rewrite ?bind_run. cbn [reads fst snd]. rewrite write_healthy by exact Hh.
    change (w_store (with_store ?x _)) with x. change (now_secs (w_env (with_store _ w2))) with (now_secs (w_env w)).
    change (w_store w2) with (w_store w). by rewrite Hs'. }
  exists s'. cbv zeta. rewrite He. repeat split; try done. unfold reg, rotate_vtoken. by rewrite En, Hc.
Qed.

(** (C4) Revocation from end to end: with a working database, revoking a registered
    backend mints a new token for it and cuts the old one off everywhere: whoever holds
    it can no longer poll or send, no route leads to it, its queue is gone and it owns no
    conversation, and no message that arrives then is put into its queue, unless that
    message quotes an earlier answer of the old token ([quote_reaches_revoked_token]
    shows the exception); the backend is registered under the new token, and the
    entries, queues and conversations of every other token are as before. *)
Theorem revocation_cuts_off (w : World Q L) (n u : string) (us : list string) (c : ClientInfo)
    (Hh : healthy w) (Hwf : registry_wf (w_registry w)) (Hc : get_by_name (w_registry w) n = Some c)
    (Hu : uuids (w_env w) = u :: us) (Hfresh : fresh_token w (hash_vtoken sha256 (mint u))) :
  let old := Registry.vtoken c in let new := hash_vtoken sha256 (mint u) in
  let r := revoke_client_in_hub sha256 n w in let w' := r.2 in
  r.1 = Ok {| rv_name := n; rv_plaintext := mint u; rv_hashed := new |} /\
  (forall auth, extract_vtoken sha256 auth = Some old ->
     (forall req b, (getupdates sha256 auth req b w').1.1 <> 200%Z) /\
     (forall req, w_outbox (sendmessage sha256 json_to_string auth req w').2 = w_outbox w')) /\
  (forall ts m so, route ts (w_router w') m <> ForwardTo old so) /\
  (forall ns m, (forall n l s, (resolve_quote m w').1 <> Some (QuoteRoute.Client old n l s)) ->
     mq_pending (w_queue (dispatch_message ns m w').2) old = []) /\
  mq_pending (w_queue w') old = [] /\
  (forall now vctx, vtoken_owns_vctx now vctx old (w_store w') = false) /\
  get_by_vtoken (w_registry w') new = Some (rotated new c) /\
  (forall v, v <> old -> v <> new ->
     get_by_vtoken (w_registry w') v = get_by_vtoken (w_registry w) v /\
     mq_pending (w_queue w') v = mq_pending (w_queue w) v /\
     forall now vctx, vtoken_owns_vctx now vctx v (w_store w') = vtoken_owns_vctx now vctx v (w_store w)).
Proof.
  intros old new r w'. destruct (revoke_run w n c u us Hh Hwf Hc Hu Hfresh)
    as (s' & R1 & R2 & R3 & R4 & R5 & R6 & R7 & R8). fold r w' old new in R1, R2, R3, R4, R5, R6, R7, R8.
  assert (Hne : new <> old).
  { intros E. destruct Hfresh as [Hf _]. fold new in Hf. rewrite E in Hf. unfold get_by_name in Hc.
    destruct (by_name (w_registry w) !! n) as [v|] eqn:En; [|done]. cbn in Hc.
    apply (wf_vtoken _ Hwf) in Hc as Hv. destruct Hv as [Hv _]. unfold old in Hf. congruence. }
  assert (Hold : get_by_vtoken (w_registry w') old = None).
  { unfold get_by_vtoken. rewrite R4, R7, lookup_insert_ne by done. apply lookup_delete_eq. }
  assert (Hown : forall now vctx v, vtoken_owns_vctx now vctx v (w_store w')
            = vtoken_owns_vctx now vctx v (revoke_authorizations_for_vtoken old (w_store w))).
  { intros now vctx v. rewrite R3. destruct Hfresh as [_ Hf].
    destruct (upsert_fresh (now_secs (w_env w)) new n (label c)
                (revoke_authorizations_for_vtoken old (w_store w)) Hf) as (s2 & Hs2 & Ha & Hb & _).
    rewrite R2 in Hs2. injection Hs2 as <-. unfold vtoken_owns_vctx.
    destruct (owns_ext now vctx v s' (revoke_authorizations_for_vtoken old (w_store w))) as [-> ->];
      [by rewrite Ha|by intros; rewrite Hb|done]. }
  assert (Hroute : forall ts m so, route ts (w_router w') m <> ForwardTo old so).
  { intros ts m so. rewrite R5. apply route_avoids_removed, pick_default_other. }
  assert (Hempty : mq_pending (w_queue w') old = []) by (rewrite R6, mq_remove_pending; by case_decide).
  assert (Hwf' : registry_wf (w_registry w')).
  { rewrite R4. apply rotate_wf; [|done]. apply Hfresh. }
  split; [done|]. split; [|split; [|split; [|split; [|split; [|split]]]]].
  - intros auth Ha. split; intros; [by eapply getupdates_unknown|by eapply sendmessage_unknown].
  - exact Hroute.
  - intros ns m Hq. rewrite (dispatch_spares old ns m w' R8); [done|by split|exact Hq|].
    intros so. apply Hroute.
  - exact Hempty.
  - intros now vctx. rewrite Hown, revoke_owns. by case_decide.
  - unfold get_by_vtoken. by rewrite R4, R7, lookup_insert_eq.
  - intros v Hvo Hvn. split; [|split].
    + unfold get_by_vtoken. by rewrite R4, R7, lookup_insert_ne, lookup_delete_ne.
    + rewrite R6, mq_remove_pending. by case_decide.
    + intros now vctx. rewrite Hown, revoke_owns. by case_decide.
Qed.
End Revocation.

(** ** A concrete hub *)

(** A digest that tells plaintexts apart. *)
Definition demo_digest (s : string) : list N := [N.of_nat (String.length s)].

Definition admin_world : World InMemoryQueue unit :=
  with_store (store_set_route "bob" "06" (Store_new Sqlite 60))
    (with_router (set_route (Router_new (Some "06")) "bob" "06")
       (with_registry (register demo_digest "u" 0 ClientRegistry_new "mac" None None).2
          (demo_world demo_store (Router_new None)))).

Lemma revocation_cuts_off_witness :
  let w := with_env (set_uuids ["uv"] (w_env admin_world)) admin_world in
  let r := revoke_client_in_hub demo_digest "mac" w in
  r.1 = Ok {| rv_name := "mac"; rv_plaintext := "vhub_uv"; rv_hashed := "07" |} /\
  mq_pending (w_queue r.2) "06" = [] /\ online <$> get_by_vtoken (w_registry r.2) "07" = Some false.
Proof.
  intros w r.
  destruct (@revocation_cuts_off InMemoryQueue unit _ _ unlimited demo_digest (fun _ => "") w "mac" "uv" []
              (with_hashed_vtoken 0 "mac" None None "06"))
    as (H1 & _ & _ & _ & H2 & _ & H3 & _); [done| |reflexivity|reflexivity| |].
  - apply register_wf; [reflexivity|apply new_wf].
  - split; [reflexivity|]. constructor.
  - split; [exact H1|]. split; [exact H2|]. exact (f_equal (fmap online) H3).
Defined.

(** The exception: [bob] quotes an answer that [mac] gave under the token it had before the
    revocation. The message goes to the queue of that token, which nobody can poll, and
    the token is granted the conversation again; [mac], which is back online under its
    new token, gets nothing. *)
Lemma quote_reaches_revoked_token :
  let w := with_env (set_uuids ["uv"; "1"; "2"] (w_env admin_world)) admin_world in
  let w0 := with_store (save_message_with_msg_id 90 "vctx_0" (Some "06") "s1" "peer:bob" "assistant" "hi"
                          (Some 42%Z) (w_store w)) w in
  let w1 := (revoke_client_in_hub demo_digest "mac" w0).2 in
  let w2 := with_router (set_route (w_router w1) "bob" "07")
              (with_registry (mark_online (w_registry w1) "07") w1) in
  let w' := (dispatch_message 5 (demo_message "and then?" demo_quote) w2).2 in
  get_by_vtoken (w_registry w') "06" = None /\
  text <$> mq_pending (w_queue w') "06" = [Some "and then?"] /\
  mq_pending (w_queue w') "07" = [] /\
  vtoken_owns_vctx 100 "vctx_2" "06" (w_store w') = true.
Proof. split_and!; vm_compute; reflexivity. Qed.
