(* ===== verification/Restart.v ===== *)
(** * Memory and database in step

    The registry and the routing table live in memory and are written through to the
    database. [mirrors] states that the two agree; every administrative operation keeps
    it, and loading the database into an empty hub establishes it again. *)
From S2P Require Import Prelude StrLemmas Types Queue Router Footer VToken Registry Acl Pairing Store StoreProps PollTracker Hub Resolve Commands Dispatch HubLemmas DispatchProps CommandProps BotApi BotProps Admin AdminProps.
Import Str.
Local Open Scope hub_scope.

(** Name and token of each row of [clients]. *)
Definition ids (s : Store) : list (string * string) :=
  (fun c => (c_name c, c_vtoken c)) <$> clients_t s.

(** The unique indices on both columns. *)
Definition ids_unique (s : Store) : Prop := NoDup (ids s).*1 /\ NoDup (ids s).*2.

Lemma ids_lookup s n v v' : NoDup (ids s).*1 -> (n, v) ∈ ids s -> (n, v') ∈ ids s -> v = v'.
Proof.
  intros Hn H1 H2. apply (elem_of_list_to_map_1 _ _ _ Hn) in H1, H2. congruence.
Qed.

Lemma ids_update_row vt f s :
  (forall c, c_name (f c) = c_name c /\ c_vtoken (f c) = c_vtoken c) -> ids (update_row vt f s) = ids s.
Proof.
  intros Hf. unfold ids, update_row. cbn. rewrite <- list_fmap_compose. apply list_fmap_ext.
  intros i c _. cbn. destruct (_ =? _)%string; [|done]. by destruct (Hf c) as [-> ->].
Qed.

Lemma elem_of_ids s n v : (n, v) ∈ ids s <-> exists c, c ∈ clients_t s /\ c_name c = n /\ c_vtoken c = v.
Proof.
  unfold ids. rewrite list_elem_of_fmap. split.
  - intros (c & [= -> ->] & Hc). by exists c.
  - intros (c & Hc & <- & <-). by exists c.
Qed.

Section Mirror.
Context {Q L : Type}.
Implicit Types w : World Q L.

(** Memory and database agree on the names and tokens of the clients (labels, descriptions
    and personas are not compared) and on the routes of users; routes lead to registered
    clients; and a default backend in the database is the one in memory. The converse,
    that a default in memory is in the database, is [default_persisted]. *)
Record mirrors w : Prop := {
  mi_wf : registry_wf (w_registry w);
  mi_unique : ids_unique (w_store w);
  mi_clients : forall n v, by_name (w_registry w) !! n = Some v <-> (n, v) ∈ ids (w_store w);
  mi_routes : routes_synced w;
  mi_known : forall u v, active_routes (w_router w) !! u = Some v ->
             is_Some (by_vtoken (w_registry w) !! v);
  mi_default : forall v, routing_state (w_store w) !! HUB_DEFAULT_SENTINEL = Some v ->
               default_client (w_router w) = Some v /\ is_Some (by_vtoken (w_registry w) !! v);
}.

(** The default backend a restart reads is the one in memory. *)
Definition default_persisted w : Prop :=
  routing_state (w_store w) !! HUB_DEFAULT_SENTINEL = default_client (w_router w).

Lemma registered_iff r v : registry_wf r -> is_Some (by_vtoken r !! v) <-> exists n, by_name r !! n = Some v.
Proof.
  intros [H1 H2]. split.
  - intros [i Hi]. exists (name i). by apply H2.
  - intros [n Hn]. destruct (H1 _ _ Hn) as (i & -> & _). by eexists.
Qed.

(** ** Loading *)

Lemma load_row_spec sha256 now r c :
  registry_wf r -> by_name r !! c_name c = None -> by_vtoken r !! c_vtoken c = None ->
  registry_wf (load_row sha256 now r c) /\
  by_name (load_row sha256 now r c) = <[c_name c := c_vtoken c]> (by_name r).
Proof.
  intros Hwf Hn Hv. unfold load_row, register_with_vtoken. rewrite Hn. cbn [fst snd].
  set (r1 := insert_client _ _ _ r).
  assert (H1 : registry_wf r1) by (by apply insert_wf).
  set (p := match c_persona_name c, c_persona_emoji c with None, None => _ | _, _ => _ end).
  destruct p as [pn pe]. split; [|done].
  unfold set_description, set_persona, update_metadata. by repeat apply alter_wf.
Qed.

Lemma load_rows_spec sha256 now rows r :
  registry_wf r -> NoDup (c_name <$> rows) -> NoDup (c_vtoken <$> rows) ->
  (forall c, c ∈ rows -> by_name r !! c_name c = None /\ by_vtoken r !! c_vtoken c = None) ->
  let r' := foldl (load_row sha256 now) r rows in
  registry_wf r' /\
  forall n v, by_name r' !! n = Some v <->
    by_name r !! n = Some v \/ exists c, c ∈ rows /\ c_name c = n /\ c_vtoken c = v.
Proof.
  revert r. induction rows as [|c rows IH]; intros r Hwf Hn Hv Hf; cbn.
  { split; [done|]. intros n v. split; [by left|]. intros [?|(c & Hc & _)]; [done|].
    by apply elem_of_nil in Hc. }
  apply NoDup_cons in Hn as [Hnc Hn], Hv as [Hvc Hv].
  destruct (Hf c) as [Hfn Hfv]; [by left|].
  destruct (load_row_spec sha256 now r c Hwf Hfn Hfv) as [Hwf1 Hb].
  destruct (IH (load_row sha256 now r c)) as [Hwf2 Hi]; [done..| |].
  - intros d Hd. destruct (Hf d) as [Hdn Hdv]; [by right|].
    assert (Hne : c_name c <> c_name d) by (intros E; apply Hnc; rewrite E; by apply list_elem_of_fmap_2).
    assert (Hvne : c_vtoken c <> c_vtoken d) by (intros E; apply Hvc; rewrite E; by apply list_elem_of_fmap_2).
    split; [by rewrite Hb, lookup_insert_ne|]. apply eq_None_not_Some.
    rewrite registered_iff by done. intros [m Hm]. rewrite Hb, lookup_insert in Hm. case_decide; [congruence|].
    destruct (proj2 (registered_iff r (c_vtoken d) Hwf)) as [i Hi']; [by exists m|congruence].
  - split; [done|]. intros n v. rewrite Hi, Hb, lookup_insert. setoid_rewrite elem_of_cons.
    case_decide as E; [subst n|]; naive_solver congruence.
Qed.
Lemma load_routes_default known l rt : default_client (foldl (load_route known) rt l) = default_client rt.
Proof.
  revert rt. induction l as [|[u v] l IH]; intros rt; [done|]. cbn. rewrite IH.
  destruct (_ =? _)%string; [done|]. by case_bool_decide.
Qed.

(** What is read from a list of routes to known tokens. *)
Lemma load_routes_spec known l rt :
  NoDup l.*1 -> (forall u v, (u, v) ∈ l -> u <> HUB_DEFAULT_SENTINEL -> v ∈ known) ->
  forall u v, active_routes (foldl (load_route known) rt l) !! u = Some v <->
    (u <> HUB_DEFAULT_SENTINEL /\ (u, v) ∈ l) \/
    (active_routes rt !! u = Some v /\ (u = HUB_DEFAULT_SENTINEL \/ u ∉ l.*1)).
Proof.
  revert rt. induction l as [|[a b] l IH]; intros rt Hd Hk u v; cbn [foldl].
  { cbn. split; [intros; right; split; [done|right; apply not_elem_of_nil]|].
    intros [[_ []%elem_of_nil]|[? _]]; done. }
  cbn in Hd. apply NoDup_cons in Hd as [Ha Hd].
  rewrite IH; [|done|intros x y Hxy; apply Hk; by right]. cbn [fmap list_fmap fst].
  rewrite elem_of_cons, not_elem_of_cons. unfold load_route at 1.
  assert (Hl : (a, v) ∈ l -> a ∈ l.*1) by (intros Hin; apply list_elem_of_fmap; by exists (a, v)).
  destruct (String.eqb_spec a HUB_DEFAULT_SENTINEL) as [->|Hne].
  { destruct (decide (u = HUB_DEFAULT_SENTINEL)) as [->|Hu]; intuition congruence. }
  rewrite bool_decide_true by (apply (Hk a b); [by left|done]). cbn.
  rewrite lookup_insert. case_decide as E; [subst u|]; intuition congruence.
Qed.

(** A process that just started on the database of [w]. *)
Definition restarted w : World Q L :=
  with_registry ClientRegistry_new (with_router (Router_new None) w).

Lemma back_fill_run (l : list (string * string)) w :
  healthy w -> exists s, for_each l (fun p =>
    db (exec (update_client_persona p.1 (Some p.2) (Some ROBOT))) ;; ret tt) w = (tt, with_store s w) /\
    ids s = ids (w_store w) /\ routing_state s = routing_state (w_store w).
Proof.
  revert w. induction l as [|p l IH]; intros w Hh; cbn [for_each].
  { exists (w_store w). by rewrite with_store_id. }
  rewrite !bind_run, db_healthy by done. cbn [fst snd exec ret].
  destruct (IH (with_store (update_client_persona p.1 (Some p.2) (Some ROBOT) (w_store w)) w))
    as (s & -> & Hs & Hr); [done|].
  exists s. split; [done|]. split; [|done]. rewrite Hs. by apply ids_update_row.
Qed.

Lemma list_clients_ids s : Permutation ((fun c => (c_name c, c_vtoken c)) <$> list_clients s) (ids s).
Proof.
  unfold list_clients, ids. rewrite <- list_fmap_compose.
  transitivity ((fun c => (c_name c, c_vtoken c)) <$> merge_sort row_le (clients_t s)).
  - by apply reflexive_eq, list_fmap_ext.
  - by rewrite merge_sort_Permutation.
Qed.

Lemma list_clients_names s : Permutation (c_name <$> list_clients s) (ids s).*1.
Proof. rewrite <- list_clients_ids, <- list_fmap_compose. done. Qed.

Lemma list_clients_tokens s : Permutation (c_vtoken <$> list_clients s) (ids s).*2.
Proof. rewrite <- list_clients_ids, <- list_fmap_compose. done. Qed.

Lemma elem_of_list_clients s n v :
  (exists c, c ∈ list_clients s /\ c_name c = n /\ c_vtoken c = v) <-> (n, v) ∈ ids s.
Proof.
  rewrite <- list_clients_ids, list_elem_of_fmap. split.
  - intros (c & Hc & <- & <-). by exists c.
  - intros (c & [= -> ->] & Hc). by exists c.
Qed.

(** The registry that start-up builds from a database. *)
Lemma loaded_registry sha256 now s :
  ids_unique s ->
  let r := foldl (load_row sha256 now) ClientRegistry_new (list_clients s) in
  registry_wf r /\ forall n v, by_name r !! n = Some v <-> (n, v) ∈ ids s.
Proof.
  intros [Hn Hv] r. destruct (load_rows_spec sha256 now (list_clients s) ClientRegistry_new) as [Hwf Hb].
  - apply new_wf.
  - by rewrite list_clients_names.
  - by rewrite list_clients_tokens.
  - done.
  - split; [done|]. intros n v. unfold r. rewrite Hb, elem_of_list_clients. cbn.
    rewrite lookup_empty. naive_solver.
Qed.

Lemma elem_of_clients_iff r i : i ∈ all_clients r <-> exists k, by_vtoken r !! k = Some i.
Proof.
  rewrite elem_of_all_clients. unfold clients. rewrite list_elem_of_fmap. split.
  - intros ([k j] & -> & Hk%elem_of_map_to_list). by exists k.
  - intros [k Hk]. exists (k, i). by rewrite elem_of_map_to_list.
Qed.

Lemma elem_of_known r v :
  registry_wf r -> v ∈ (Registry.vtoken <$> all_clients r) <-> is_Some (by_vtoken r !! v).
Proof.
  intros Hwf. rewrite list_elem_of_fmap. split.
  - intros (i & -> & Hi). apply elem_of_clients_iff in Hi as [k Hk].
    destruct (wf_vtoken _ Hwf _ _ Hk) as [-> _]. by eexists.
  - intros [i Hi]. exists i. destruct (wf_vtoken _ Hwf _ _ Hi) as [Hv _]. split; [done|].
    apply elem_of_clients_iff. by eexists.
Qed.

Lemma restore_default_run first w :
  healthy w -> let d := store_get_route HUB_DEFAULT_SENTINEL (w_store w) <|> first in
  restore_default first w
  = (tt, match d with
         | Some v => with_store (store_set_route HUB_DEFAULT_SENTINEL v (w_store w))
                       (with_router (set_default (w_router w) v) w)
         | None => w
         end).
Proof.
  intros Hh. cbv zeta. unfold restore_default. rewrite bind_run, db_healthy by done. cbn [query fst snd].
  rewrite with_store_id.
  assert (Hd : match store_get_route HUB_DEFAULT_SENTINEL (w_store w) with Some v => Some v | None => first end
               = store_get_route HUB_DEFAULT_SENTINEL (w_store w) <|> first)
    by (by destruct (store_get_route _ _)).
  rewrite Hd. destruct (_ <|> first) as [v|]; [|done].
  run_changes. by rewrite db_healthy by done.
Qed.

Lemma load_routes_run w :
  healthy w -> load_routes w
  = (tt, with_router (foldl (load_route (Registry.vtoken <$> all_clients (w_registry w))) (w_router w)
                        (list_routes (w_store w))) w).
Proof.
  intros Hh. unfold load_routes. rewrite bind_run, db_healthy by done. cbn [query fst snd].
  by rewrite with_store_id, bind_run.
Qed.

(** The whole run of the loader without faults. *)
Lemma load_run sha256 w :
  healthy w -> let rows := list_clients (w_store w) in
  let reg := foldl (load_row sha256 (now_secs (w_env w))) ClientRegistry_new rows in
  let d := store_get_route HUB_DEFAULT_SENTINEL (w_store w) <|> (c_vtoken <$> head rows) in
  let routes := match d with
                | Some v => <[HUB_DEFAULT_SENTINEL := v]> (routing_state (w_store w))
                | None => routing_state (w_store w)
                end in
  let w' := (load_clients_from_db sha256 (restarted w)).2 in
  w_registry w' = reg /\ ids (w_store w') = ids (w_store w) /\ routing_state (w_store w') = routes /\
  w_router w' = foldl (load_route (Registry.vtoken <$> all_clients reg))
                  {| active_routes := ∅; default_client := d |} (map_to_list routes).
Proof.
  intros Hh rows reg d routes. cbv zeta. unfold load_clients_from_db. rewrite bind_run.
  assert (Hl : exists s1, load_clients sha256 (restarted w)
            = restore_default (c_vtoken <$> head rows) (with_store s1 (with_registry reg (restarted w))) /\
            ids s1 = ids (w_store w) /\ routing_state s1 = routing_state (w_store w)).
  { unfold load_clients. rewrite bind_run, db_healthy by exact Hh. cbn [query fst snd].
    rewrite with_store_id. change (w_store (restarted w)) with (w_store w). fold rows.
    run_changes.
    destruct (back_fill_run (missing_persona rows) (with_registry reg (restarted w)) Hh)
      as (s1 & Hb & Hi & Hr). exists s1. split; [|done].
    by change (with_registry _ (restarted w)) with (with_registry reg (restarted w)); rewrite Hb. }
  destruct Hl as (s1 & -> & Hi & Hr). rewrite restore_default_run by exact Hh.
  change (w_store (with_store s1 _)) with s1.
  assert (Hd : store_get_route HUB_DEFAULT_SENTINEL s1 <|> (c_vtoken <$> head rows) = d)
    by (unfold d, store_get_route; by rewrite Hr).
  rewrite Hd. cbn [fst snd]. unfold routes.
  destruct d as [v|]; rewrite load_routes_run by exact Hh; cbn; unfold list_routes; cbn; rewrite Hr;
    repeat split; done.
Qed.

Lemma mirrors_registered w v : mirrors w -> is_Some (by_vtoken (w_registry w) !! v) <-> exists n, (n, v) ∈ ids (w_store w).
Proof.
  intros Hm. rewrite registered_iff by apply Hm. by setoid_rewrite (mi_clients w Hm).
Qed.

(** ** Writing through *)

(** Replacing the token of a name in a list with unique names. *)
Definition repoint (n vt : string) (p : string * string) : string * string :=
  if (p.1 =? n)%string then (n, vt) else p.

Lemma elem_of_repoint n vt (l : list (string * string)) m v :
  n ∈ l.*1 -> (m, v) ∈ (repoint n vt <$> l) <-> (m = n /\ v = vt) \/ (m <> n /\ (m, v) ∈ l).
Proof.
  intros Hn. rewrite list_elem_of_fmap. split.
  - intros ([a b] & E & Hab). unfold repoint in E. cbn in E.
    destruct (String.eqb_spec a n); injection E as -> ->; [by left|by right].
  - intros [[-> ->]|[Hne Hin]].
    + apply list_elem_of_fmap in Hn as ([a b] & -> & Hab). exists (a, b). unfold repoint. cbn.
      by rewrite String.eqb_refl.
    + exists (m, v). unfold repoint. cbn. by rewrite (proj2 (String.eqb_neq m n) Hne).
Qed.

Lemma repoint_names n vt (l : list (string * string)) : (repoint n vt <$> l).*1 = l.*1.
Proof.
  rewrite <- list_fmap_compose. apply list_fmap_ext. intros i [a b] _. unfold repoint. cbn.
  by destruct (String.eqb_spec a n).
Qed.

Lemma repoint_tokens n vt (l : list (string * string)) :
  NoDup l.*1 -> NoDup l.*2 -> (forall m, (m, vt) ∈ l -> m = n) -> NoDup (repoint n vt <$> l).*2.
Proof.
  induction l as [|[a b] l IH]; cbn; [done|]. rewrite !NoDup_cons. intros [Ha H1] [Hb H2] Hvt.
  assert (Hl : forall x, x ∈ (repoint n vt <$> l).*2 -> x = vt /\ n ∈ l.*1 \/ exists m, (m, x) ∈ l).
  { intros x Hx. apply list_elem_of_fmap in Hx as ([m y] & -> & Hx). cbn.
    apply list_elem_of_fmap in Hx as ([c d] & E & Hcd). unfold repoint in E. cbn in E.
    destruct (String.eqb_spec c n) as [->|]; injection E as -> ->; [left|right; by exists c].
    split; [done|]. apply list_elem_of_fmap. by exists (n, d). }
  split; [|apply IH; [done|done|intros m Hm; apply Hvt; by right]].
  unfold repoint at 1. cbn. destruct (String.eqb_spec a n) as [->|Hne]; cbn; intros Hx%Hl.
  - destruct Hx as [[_ Hx]|[m Hm]]; [done|]. assert (m = n) as -> by (apply Hvt; by right).
    apply Ha. apply list_elem_of_fmap. by exists (n, vt).
  - destruct Hx as [[-> Hx]|[m Hm]]; [apply Hne, Hvt; by left|].
    apply Hb. apply list_elem_of_fmap. by exists (m, b).
Qed.

(** What [upsert_client] does to names, tokens and routes. *)
Lemma upsert_spec now vt n l s :
  ids_unique s -> (forall m, (m, vt) ∈ ids s -> m = n) ->
  (forall u o, (n, o) ∈ ids s -> o <> vt -> routing_state s !! u <> Some o) ->
  exists s', upsert_client now vt n l s = Some s' /\ routing_state s' = routing_state s /\
    ids_unique s' /\
    forall m v, (m, v) ∈ ids s' <-> (m = n /\ v = vt) \/ (m <> n /\ (m, v) ∈ ids s).
Proof.
  intros [Hn Hv] Hvt Hroute. unfold upsert_client.
  destruct (existsb _ _) eqn:E.
  { apply existsb_exists in E as (c & Hc & E). rewrite andb_true_iff, String.eqb_eq, negb_true_iff, String.eqb_neq in E.
    destruct E as [E1 E2]. destruct E2. apply Hvt. apply elem_of_ids. exists c. by rewrite list_elem_of_In. }
  destruct (List.find _ _) as [c|] eqn:Ef; cbn [fmap option_fmap option_map]; (eexists; split; [reflexivity|]).
  - apply List.find_some in Ef as [Hc Ec%String.eqb_eq].
    assert (Hin : (n, c_vtoken c) ∈ ids s) by (apply elem_of_ids; exists c; by rewrite list_elem_of_In).
    match goal with |- context [set_clients_t ?x ?y] => set (s' := set_clients_t x y) end.
    assert (Hi : ids s' = repoint n vt <$> ids s).
    { unfold s', ids. cbn. rewrite <- !list_fmap_compose. apply list_fmap_ext. intros i x _. cbn.
      unfold repoint. cbn. destruct (String.eqb_spec (c_name x) n); [|done]. cbn. congruence. }
    assert (Hmem : n ∈ (ids s).*1) by (apply list_elem_of_fmap; by exists (n, c_vtoken c)).
    split; [|split].
    + cbn. apply map_eq. intros u. rewrite lookup_fmap. destruct (routing_state s !! u) as [x|] eqn:Ex; [|done].
      cbn. destruct (String.eqb_spec x (c_vtoken c)) as [->|]; [|done].
      destruct (decide (c_vtoken c = vt)) as [->|Hne]; [done|]. by destruct (Hroute u (c_vtoken c)).
    + unfold ids_unique. rewrite Hi, repoint_names. split; [done|]. by apply repoint_tokens.
    + intros m v. rewrite Hi. by apply elem_of_repoint.
  - assert (Hmem : n ∉ (ids s).*1).
    { intros Hx. apply list_elem_of_fmap in Hx as ([a b] & -> & Hx). apply elem_of_ids in Hx as (c & Hc & <- & _).
      rewrite list_elem_of_In in Hc. apply (List.find_none _ _ Ef) in Hc. by rewrite String.eqb_refl in Hc. }
    assert (Htok : vt ∉ (ids s).*2).
    { intros Hx. apply list_elem_of_fmap in Hx as ([a b] & -> & Hx). cbn in *. assert (a = n) as -> by auto.
      apply Hmem. apply list_elem_of_fmap. by exists (n, b). }
    split; [done|]. match goal with |- context [set_clients_t ?x ?y] => set (s' := set_clients_t x y) end.
    assert (Hi : ids s' = ids s ++ [(n, vt)]) by (unfold s', ids; cbn; by rewrite fmap_app).
    unfold ids_unique. rewrite Hi, !fmap_app. cbn. split.
    + split; apply NoDup_app; (split; [done|]); (split; [|apply NoDup_singleton]);
        intros x Hx ->%list_elem_of_singleton; done.
    + intros m v. rewrite elem_of_app, list_elem_of_singleton. split.
      * intros [Hx|[= -> ->]]; [right|by left]. split; [|done]. intros ->. apply Hmem.
        apply list_elem_of_fmap. by exists (n, v).
      * intros [[-> ->]|[_ Hx]]; [by right|by left].
Qed.

(** Adding (or refreshing) the client [n] with token [h]. *)
Lemma mirrors_add w w' n h :
  mirrors w -> registry_wf (w_registry w') -> ids_unique (w_store w') ->
  (forall m v, by_name (w_registry w') !! m = Some v <->
     (m = n /\ v = h) \/ (m <> n /\ by_name (w_registry w) !! m = Some v)) ->
  (forall m v, (m, v) ∈ ids (w_store w') <->
     (m = n /\ v = h) \/ (m <> n /\ (m, v) ∈ ids (w_store w))) ->
  (forall v, by_name (w_registry w) !! n = Some v -> v = h) ->
  active_routes (w_router w') = active_routes (w_router w) ->
  (forall u, u <> HUB_DEFAULT_SENTINEL ->
     routing_state (w_store w') !! u = routing_state (w_store w) !! u) ->
  (forall v, routing_state (w_store w') !! HUB_DEFAULT_SENTINEL = Some v ->
     default_client (w_router w') = Some v /\
     (v = h \/ routing_state (w_store w) !! HUB_DEFAULT_SENTINEL = Some v)) ->
  mirrors w'.
Proof.
  intros [Hwf Hun Hcl Hro Hkn Hde] Hwf' Hun' Hnames Hids Hold Hact Hst Hdef.
  assert (Hgrow : forall v, is_Some (by_vtoken (w_registry w) !! v) -> is_Some (by_vtoken (w_registry w') !! v)).
  { intros v. rewrite !registered_iff by done. intros [m Hm]. destruct (decide (m = n)) as [->|Hne].
    - exists n. apply Hnames. left. by rewrite (Hold v).
    - exists m. apply Hnames. by right. }
  split; try done.
  - intros m v. rewrite Hnames, Hids. by rewrite Hcl.
  - intros u Hu. by rewrite Hact, Hst, Hro.
  - intros u v. rewrite Hact. eauto.
  - intros v Hv. destruct (Hdef v Hv) as [Hd [->|Hv']]; split; try done.
    + apply registered_iff; [done|]. exists n. apply Hnames. by left.
    + apply Hgrow. by apply Hde.
Qed.
End Mirror.

Section Administration.
Context {Q L : Type} `{MessageQueue Q}.
Context (sha256 : string -> list N).
Implicit Types w : World Q L.

Lemma register_run w n l d u us :
  healthy w -> uuids (w_env w) = u :: us ->
  let p := register sha256 u (now_secs (w_env w)) (w_registry w) n l d in
  let h := p.1.1.2 in
  let w1 := with_registry p.2 (with_env (set_uuids us (w_env w)) w) in
  let w2 := if p.1.2 && (length (all_clients p.2) =? 1)%nat
            then with_store (store_set_route HUB_DEFAULT_SENTINEL h (w_store w))
                   (with_router (set_default (w_router w) h) w1)
            else w1 in
  (register_client_in_hub sha256 n l d w).2
  = match upsert_client (now_secs (w_env w)) h n l (w_store w2) with
    | Some s => with_store s w2
    | None => w2
    end.
Proof.
  intros Hh Hu p h w1 w2. unfold register_client_in_hub. rewrite bind_run. unfold new_uuid. rewrite Hu.
  cbn [fst snd]. run_read. rewrite bind_run.
  assert (Hon : on_registry (fun reg => register sha256 u (now_secs (w_env w)) reg n l d)
                  (with_env (set_uuids us (w_env w)) w) = (p.1, w1)).
  { unfold on_registry. cbn. unfold w1, p. by destruct (register _ _ _ _ _ _ _). }
  change (now_secs (w_env (with_env _ w))) with (now_secs (w_env w)). rewrite Hon. cbn [fst snd].
  unfold w2, h. destruct p as [[[plain h'] new] reg]. cbn [fst snd]. run_read.
  change (all_clients (w_registry w1)) with (all_clients reg). rewrite bind_run.
  destruct (new && _).
  - run_changes. rewrite db_healthy by exact Hh. cbn [exec ret fst snd].
    rewrite write_healthy by exact Hh. done.
  - cbn [ret fst snd]. rewrite bind_run, write_healthy by exact Hh. done.
Qed.

(** Names after a registration. *)
Lemma register_names u now r n l d :
  let p := register sha256 u now r n l d in
  (forall m v, by_name p.2 !! m = Some v <->
     (m = n /\ v = p.1.1.2) \/ (m <> n /\ by_name r !! m = Some v)) /\
  (forall v, by_name r !! n = Some v -> v = p.1.1.2).
Proof.
  unfold register. destruct (by_name r !! n) as [h|] eqn:E; cbn.
  - split; [|congruence]. intros m v. destruct (decide (m = n)) as [->|]; naive_solver congruence.
  - split; [|congruence]. intros m v. rewrite lookup_insert. case_decide; naive_solver congruence.
Qed.

Lemma fresh_ids w h m : fresh_token w h -> (m, h) ∉ ids (w_store w).
Proof.
  intros [_ Hf] Hin. apply elem_of_ids in Hin as (c & Hc & _ & Hv).
  rewrite Forall_forall in Hf. by apply (Hf c).
Qed.

Lemma register_mirrors w n l d u us :
  healthy w -> mirrors w -> uuids (w_env w) = u :: us ->
  fresh_token w (hash_vtoken sha256 (mint u)) ->
  let w' := (register_client_in_hub sha256 n l d w).2 in
  mirrors w' /\ (default_persisted w -> default_persisted w').
Proof.
  intros Hh Hm Hu Hf. cbv zeta. rewrite (register_run w n l d u us Hh Hu).
  set (p := register sha256 u (now_secs (w_env w)) (w_registry w) n l d). set (h := p.1.1.2).
  destruct (register_names u (now_secs (w_env w)) (w_registry w) n l d) as [Hn Ho]. fold p h in Hn, Ho.
  assert (Hwf : registry_wf p.2) by (apply register_wf; [apply Hf|apply Hm]).
  set (first := p.1.2 && _).
  set (w1 := with_registry p.2 _).
  set (w2 := if first then _ else w1).
  assert (Hi : ids (w_store w2) = ids (w_store w)) by (unfold w2; by destruct first).
  assert (Hh' : forall m, (m, h) ∈ ids (w_store w) -> m = n).
  { intros m Hin. apply (mi_clients w Hm) in Hin. unfold h, p, register in Hin.
    destruct (by_name (w_registry w) !! n) as [h0|] eqn:En; cbn in Hin.
    - destruct (wf_name _ (mi_wf w Hm) _ _ Hin) as (i & Hi1 & <-).
      destruct (wf_name _ (mi_wf w Hm) _ _ En) as (j & Hj1 & <-). congruence.
    - apply (mi_clients w Hm) in Hin. by apply fresh_ids in Hin. }
  destruct (upsert_spec (now_secs (w_env w)) h n l (w_store w2)) as (s' & -> & Hr & Hun & Hids).
  { unfold ids_unique. rewrite Hi. apply Hm. }
  { by rewrite Hi. }
  { intros x o. rewrite Hi, <- (mi_clients w Hm). intros Hno Hne. by destruct Hne; apply Ho. }
  rewrite Hi in Hids. split; [|unfold default_persisted; cbn; rewrite Hr; unfold w2; destruct first;
    [cbn; by rewrite lookup_insert_eq|done]].
  apply (mirrors_add w _ n h); try done.
  - unfold w2. by destruct first.
  - unfold w2. by destruct first.
  - unfold w2. by destruct first.
  - intros x Hx. cbn. rewrite Hr. unfold w2. destruct first; [|done]. cbn. by rewrite lookup_insert_ne.
  - intros v. cbn. rewrite Hr. unfold w2. destruct first; cbn.
    + rewrite lookup_insert_eq. intros [= <-]. split; [done|by left].
    + intros Hv. split; [by apply (mi_default w Hm)|by right].
Qed.

Lemma length_all_clients r : length (all_clients r) = size (by_vtoken r).
Proof.
  unfold all_clients, all_clients_in, allowed_in.
  assert (Hf : forall l : list ClientInfo, List.filter (fun _ => true) l = l)
    by (induction l; cbn; congruence).
  rewrite Hf. unfold clients. by rewrite length_fmap, length_map_to_list.
Qed.

Lemma confirmed_mirrors w n l d plain :
  healthy w -> mirrors w -> fresh_token w (hash_vtoken sha256 plain) ->
  let w' := (register_confirmed_client_in_hub sha256 n l d plain w).2 in
  mirrors w' /\ (by_vtoken (w_registry w) <> ∅ -> default_persisted w -> default_persisted w').
Proof.
  intros Hh Hm Hf. cbv zeta. unfold register_confirmed_client_in_hub. cbv zeta. set (h := hash_vtoken sha256 plain).
  run_read. rewrite bind_run. unfold on_registry, register_confirmed.
  destruct (by_name (w_registry w) !! n) as [v|] eqn:En; cbn [fst snd]; [by destruct w; split|].
  set (reg := insert_client n h _ (w_registry w)). set (w1 := with_registry reg w).
  assert (Hwf : registry_wf reg) by (apply insert_wf; [done|apply Hf|done|done|apply Hm]).
  run_read. rewrite bind_run.
  set (first := (_ =? 1)%nat).
  set (w2 := ((if first then changes _ else ret tt) w1).2).
  assert (Hs : w_store w2 = w_store w) by (unfold w2; by destruct first).
  assert (Hh2 : healthy w2) by (unfold w2; by destruct first).
  rewrite bind_run, write_healthy by done. cbn [ret fst snd]. rewrite Hs.
  destruct (upsert_spec (now_secs (w_env w)) h n l (w_store w)) as (s' & -> & Hr & Hun & Hids).
  { apply Hm. }
  { intros m Hin. by apply fresh_ids in Hin. }
  { intros x o. rewrite <- (mi_clients w Hm). congruence. }
  assert (Hfirst : first = true -> by_vtoken (w_registry w) = ∅).
  { unfold first. intros E%Nat.eqb_eq. rewrite length_all_clients in E. cbn in E.
    rewrite map_size_insert_None in E by apply Hf. apply map_size_empty_inv. lia. }
  split; [|intros Hne; unfold default_persisted; cbn; rewrite Hr; unfold w2; destruct first;
    [by destruct Hne; apply Hfirst|done]].
  apply (mirrors_add w _ n h); try done.
  - unfold w2. by destruct first.
  - assert (Hb : by_name (w_registry w2) = <[n := h]> (by_name (w_registry w))) by (unfold w2; by destruct first).
    cbn. rewrite Hb. intros m v. rewrite lookup_insert. case_decide; naive_solver congruence.
  - intros v. congruence.
  - unfold w2. by destruct first.
  - intros x Hx. cbn. by rewrite Hr.
  - intros v. cbn. rewrite Hr. intros Hv. split; [|by right]. destruct (mi_default w Hm v Hv) as [Hd [i Hi]].
    unfold w2. destruct first eqn:E; [|done]. exfalso. by rewrite (Hfirst eq_refl), lookup_empty in Hi.
Qed.

(** Losing the client [n] with token [old], and its routes. *)
Lemma removed_routes w old :
  routes_synced w -> forall u, u <> HUB_DEFAULT_SENTINEL -> forall nd,
  active_routes (remove_routes_for_vtoken (w_router w) old nd) !! u
  = routing_state (clear_routes_for_vtoken old (w_store w)) !! u.
Proof.
  intros Hs u Hu nd. apply option_eq. intros v. rewrite remove_routes_lookup, Hs by done. cbn.
  rewrite map_lookup_filter_Some. destruct (routing_state (w_store w) !! u) as [x|]; cbn; [|naive_solver].
  case_bool_decide; naive_solver.
Qed.

Lemma cleared_route old (s : Store) u v :
  routing_state (clear_routes_for_vtoken old s) !! u = Some v <-> routing_state s !! u = Some v /\ v <> old.
Proof. cbn. by rewrite map_lookup_filter_Some. Qed.

Lemma removed_known w old nd u v :
  active_routes (remove_routes_for_vtoken (w_router w) old nd) !! u = Some v ->
  active_routes (w_router w) !! u = Some v /\ v <> old.
Proof.
  rewrite remove_routes_lookup. destruct (active_routes (w_router w) !! u) as [x|]; [|done]. cbn.
  case_bool_decide; [|done]. by intros [= <-].
Qed.

Lemma delete_ids n s : ids (delete_client_by_name n s).2 = List.filter (fun p => negb (p.1 =? n)%string) (ids s).
Proof.
  unfold ids, delete_client_by_name. cbn. induction (clients_t s) as [|c l IH]; [done|]. cbn.
  destruct (negb _); cbn; by rewrite IH.
Qed.

Lemma delete_unique n s : ids_unique s -> ids_unique (delete_client_by_name n s).2.
Proof. intros [H1 H2]. unfold ids_unique. rewrite delete_ids. split; by apply NoDup_filter_map. Qed.

Lemma elem_of_delete_ids n s m v :
  (m, v) ∈ ids (delete_client_by_name n s).2 <-> m <> n /\ (m, v) ∈ ids s.
Proof.
  rewrite delete_ids, list_elem_of_In, filter_In, <- list_elem_of_In. cbn.
  rewrite negb_true_iff, String.eqb_neq. tauto.
Qed.

(** Both sides lose the routes of [old]. *)
Lemma mirrors_without w w' n old nd :
  mirrors w -> registry_wf (w_registry w') -> ids_unique (w_store w') ->
  (forall m v, by_name (w_registry w') !! m = Some v <-> (m, v) ∈ ids (w_store w')) ->
  (forall v, v <> old -> is_Some (by_vtoken (w_registry w) !! v) -> is_Some (by_vtoken (w_registry w') !! v)) ->
  w_router w' = remove_routes_for_vtoken (w_router w) old nd ->
  routing_state (w_store w') = routing_state (clear_routes_for_vtoken old (w_store w)) ->
  by_name (w_registry w) !! n = Some old ->
  mirrors w' /\
  (default_client (w_router w) <> Some old -> default_persisted w -> default_persisted w').
Proof.
  intros Hm Hwf Hun Hcl Hkn Hrt Hst Hn. split; [|].
  2: { unfold default_persisted. rewrite Hrt, Hst. intros Hd Hp. cbn [remove_routes_for_vtoken default_client].
       rewrite decide_False by done. rewrite <- Hp. apply option_eq. intros v. rewrite cleared_route.
       split; [by intros [? _]|]. intros Hv. split; [done|]. intros ->. by destruct Hd; rewrite <- Hp. }
  split; try done.
  - intros u Hu. rewrite Hrt, Hst. apply removed_routes; [apply Hm|done].
  - intros u v. rewrite Hrt. intros [Hv Hne]%removed_known. apply Hkn; [done|]. by apply (mi_known w Hm u).
  - intros v. rewrite Hst, cleared_route. intros [Hv Hne].
    destruct (mi_default w Hm v Hv) as [Hd Hk]. split; [|by apply Hkn].
    rewrite Hrt. cbn. rewrite decide_False; [done|]. rewrite Hd. congruence.
Qed.

Lemma unregister_mirrors w n force :
  healthy w -> mirrors w ->
  let w' := (unregister_client_in_hub n force w).2 in
  mirrors w' /\
  (default_client (w_router w) <> by_name (w_registry w) !! n -> default_persisted w -> default_persisted w').
Proof.
  intros Hh Hm. cbv zeta. unfold unregister_client_in_hub. run_read.
  destruct (get_by_name (w_registry w) n) as [c|] eqn:Hc; [|done].
  destruct (online c && negb force); [done|]. cbv zeta. rewrite bind_run.
  unfold get_by_name in Hc. destruct (by_name (w_registry w) !! n) as [v|] eqn:En; [|done]. cbn in Hc.
  assert (Hv : Registry.vtoken c = v) by (by destruct (wf_vtoken _ (mi_wf w Hm) _ _ Hc)). rewrite Hv.
  unfold on_registry, remove. rewrite En. cbn [fst snd negb].
  rewrite !bind_run. cbn [changes forget_last_seen drop_queue fst snd].
  rewrite db_healthy by exact Hh. cbn [exec fst snd]. rewrite bind_run, db_healthy by exact Hh. cbn [ret fst snd].
  match goal with |- mirrors (with_store _ (with_store _ ?x)) /\ _ => set (w1 := x) end.
  change (w_store w1) with (w_store w). change (w_store (with_store ?x w1)) with x.
  set (s1 := clear_routes_for_vtoken v (w_store w)).
  eapply (mirrors_without w _ n v); try done.
  - cbn. pose proof (remove_wf n (w_registry w) (mi_wf w Hm)) as Hw. unfold remove in Hw.
    rewrite En in Hw. exact Hw.
  - apply (delete_unique n s1). apply Hm.
  - intros m x. cbn [w_store with_store update]. rewrite elem_of_delete_ids.
    change (ids s1) with (ids (w_store w)). rewrite <- (mi_clients w Hm). cbn.
    rewrite lookup_delete_Some. naive_solver.
  - intros x Hne. cbn. by rewrite lookup_delete_ne.
Qed.

Lemma revoke_mirrors w n c u us :
  healthy w -> mirrors w -> get_by_name (w_registry w) n = Some c -> uuids (w_env w) = u :: us ->
  fresh_token w (hash_vtoken sha256 (mint u)) ->
  let w' := (revoke_client_in_hub sha256 n w).2 in
  mirrors w' /\
  (default_client (w_router w) <> by_name (w_registry w) !! n -> default_persisted w -> default_persisted w').
Proof.
  intros Hh Hm Hc Hu Hf. destruct (revoke_run sha256 w n c u us Hh (mi_wf w Hm) Hc Hu Hf)
    as (s' & _ & H2 & H3 & H4 & H5 & _ & H7 & _).
  set (w' := (revoke_client_in_hub sha256 n w).2) in *. set (new := hash_vtoken sha256 (mint u)) in *.
  set (old := Registry.vtoken c) in *. set (s1 := revoke_authorizations_for_vtoken old (w_store w)) in *.
  assert (Hn : by_name (w_registry w) !! n = Some old).
  { unfold get_by_name in Hc. destruct (by_name (w_registry w) !! n) as [v|]; [|done]. cbn in Hc.
    destruct (wf_vtoken _ (mi_wf w Hm) _ _ Hc) as [Hv _]. by rewrite <- Hv. }
  assert (Hb : by_name (w_registry w') = <[n := new]> (by_name (w_registry w))).
  { rewrite H4. unfold rotate_vtoken. rewrite Hn. unfold get_by_name in Hc. rewrite Hn in Hc. cbn in Hc.
    by rewrite Hc. }
  change (ids (w_store w)) with (ids s1) in *.
  destruct (upsert_spec (now_secs (w_env w)) new n (label c) s1) as (s2 & E & Hr & Hun & Hids).
  { apply Hm. }
  { intros m Hin. by apply (fresh_ids w) in Hin. }
  { intros x o Hin _. assert (o = old) as ->.
    { apply (mi_clients w Hm) in Hin. congruence. }
    intros Hx. apply cleared_route in Hx as [_ Hx]. done. }
  rewrite H2 in E. injection E as <-. rewrite <- H3 in Hr, Hun, Hids.
  cbv zeta. rewrite Hn. apply (mirrors_without w w' n old (pick_default_after_remove (w_registry w') old)); try done.
  - rewrite H4. apply rotate_wf; [apply Hf|apply Hm].
  - intros m v. rewrite Hids, Hb, lookup_insert. change (ids s1) with (ids (w_store w)).
    rewrite <- (mi_clients w Hm). case_decide; naive_solver congruence.
  - intros v Hv. rewrite H4, H7. intros [i Hi]. destruct (decide (new = v)) as [->|Hne].
    + rewrite lookup_insert_eq. by eexists.
    + rewrite lookup_insert_ne, lookup_delete_ne by done. by eexists.
  - by rewrite H5, H4.
Qed.

(** (C8) Administration keeps memory and database in step: with a working database,
    registering a backend (over the admin API or by confirming a pairing), removing one
    and revoking its token each preserve the agreement of the registry's names and
    tokens and of the routing table with the tables that a restart reads, and that a
    default backend in the database is the one in memory. That the default in memory is
    also in the database is preserved by registering; by pairing, unless the paired
    backend is the first one; and by removing or revoking a backend that is not the
    default. In the cases excepted the new default is kept in memory only
    ([confirmed_default_is_lost], [removed_default_is_lost]). *)
Theorem administration_keeps_mirror (w : World Q L) (n u : string) (us : list string)
    (l d : option string) (force : bool)
    (Hh : healthy w) (Hm : mirrors w) (Hu : uuids (w_env w) = u :: us)
    (Hf : fresh_token w (hash_vtoken sha256 (mint u))) :
  let registered := (register_client_in_hub sha256 n l d w).2 in
  let confirmed := (register_confirmed_client_in_hub sha256 n l d (mint u) w).2 in
  let unregistered := (unregister_client_in_hub n force w).2 in
  let revoked := (revoke_client_in_hub sha256 n w).2 in
  mirrors registered /\ mirrors confirmed /\ mirrors unregistered /\ mirrors revoked /\
  (default_persisted w ->
     default_persisted registered /\
     (by_vtoken (w_registry w) <> ∅ -> default_persisted confirmed) /\
     (default_client (w_router w) <> by_name (w_registry w) !! n ->
        default_persisted unregistered /\ default_persisted revoked)).
Proof.
  intros registered confirmed unregistered revoked.
  destruct (register_mirrors w n l d u us) as [H1 D1]; [done..|].
  destruct (confirmed_mirrors w n l d (mint u)) as [H2 D2]; [done..|].
  destruct (unregister_mirrors w n force) as [H3 D3]; [done..|].
  assert (H4 : mirrors revoked /\ (default_client (w_router w) <> by_name (w_registry w) !! n ->
                                   default_persisted w -> default_persisted revoked)).
  { destruct (get_by_name (w_registry w) n) as [c|] eqn:Hc; [by eapply revoke_mirrors|].
    unfold revoked, revoke_client_in_hub. run_read. by rewrite Hc. }
  destruct H4 as [H4 D4]. split_and!; try done. intros Hd. split_and!; auto.
Qed.
End Administration.

Section Loading.
Context {Q L Q' L' : Type}.
Implicit Types w : World Q L.

(** Loading the database of [w] into a fresh process [w0]. *)
Lemma load_agrees (sha256 : string -> list N) (w0 : World Q' L') (w : World Q L) :
  mirrors w -> healthy w0 -> w_registry w0 = ClientRegistry_new -> w_router w0 = Router_new None ->
  w_store w0 = w_store w ->
  let w' := (load_clients_from_db sha256 w0).2 in
  mirrors w' /\
  (forall n, by_name (w_registry w') !! n = by_name (w_registry w) !! n) /\
  (forall u, u <> HUB_DEFAULT_SENTINEL ->
     active_routes (w_router w') !! u = active_routes (w_router w) !! u) /\
  (is_Some (store_get_route HUB_DEFAULT_SENTINEL (w_store w)) ->
     default_client (w_router w') = default_client (w_router w)).
Proof.
  intros Hm Hh Hg Ht Hw w'. assert (Hfresh : restarted w0 = w0).
  { destruct w0. cbn in Hg, Ht. by subst. }
  destruct (load_run sha256 w0 Hh) as (Hreg & Hids & Hst & Hrt).
  rewrite Hfresh in Hreg, Hids, Hst, Hrt. rewrite Hw in Hreg, Hids, Hst, Hrt. fold w' in Hreg, Hids, Hst, Hrt.
  destruct (loaded_registry sha256 (now_secs (w_env w0)) (w_store w) (mi_unique w Hm)) as [Hwf Hb].
  rewrite <- Hreg in Hwf, Hb, Hrt.
  set (d := store_get_route HUB_DEFAULT_SENTINEL (w_store w) <|> _) in *.
  assert (Hknown : forall v, is_Some (by_vtoken (w_registry w') !! v) <-> is_Some (by_vtoken (w_registry w) !! v)).
  { intros v. rewrite (mirrors_registered w) by done. rewrite registered_iff by done. by setoid_rewrite Hb. }
  assert (Hd : forall v, d = Some v -> is_Some (by_vtoken (w_registry w) !! v)).
  { intros v. unfold d, store_get_route. destruct (routing_state (w_store w) !! _) as [x|] eqn:E; cbn.
    - intros [= <-]. by apply (mi_default w Hm).
    - intros Hv. apply fmap_Some in Hv as (c & Hc & ->). apply (mirrors_registered w); [done|].
      exists (c_name c). apply elem_of_list_clients. exists c. split; [|done]. by apply head_Some_elem_of. }
  assert (Hroutes : forall u, u <> HUB_DEFAULT_SENTINEL ->
            routing_state (w_store w') !! u = routing_state (w_store w) !! u).
  { intros u Hu. rewrite Hst. destruct d; [by rewrite lookup_insert_ne|done]. }
  assert (Hact : forall u v, active_routes (w_router w') !! u = Some v <->
            u <> HUB_DEFAULT_SENTINEL /\ routing_state (w_store w') !! u = Some v).
  { intros u v. rewrite Hrt, <- Hst, load_routes_spec.
    - cbn. rewrite lookup_empty, elem_of_map_to_list. naive_solver.
    - apply NoDup_fst_map_to_list.
    - intros x y Hxy Hx. apply elem_of_map_to_list in Hxy. apply elem_of_known; [done|].
      apply Hknown, (mi_known w Hm x). rewrite (mi_routes w Hm) by done. by rewrite <- Hroutes. }
  assert (Hsame : forall u, u <> HUB_DEFAULT_SENTINEL ->
            active_routes (w_router w') !! u = active_routes (w_router w) !! u).
  { intros u Hu. rewrite (mi_routes w Hm) by done. rewrite <- Hroutes by done.
    apply option_eq. intros v. rewrite Hact. naive_solver. }
  assert (Hdef : default_client (w_router w') = d) by (by rewrite Hrt, load_routes_default).
  split; [split|split; [|split]]; try done.
  - unfold ids_unique. rewrite Hids. apply Hm.
  - intros n v. rewrite Hids. apply Hb.
  - intros u Hu. rewrite Hsame by done. rewrite (mi_routes w Hm) by done. by rewrite Hroutes.
  - intros u v Hv. apply Hknown. apply Hact in Hv as [Hu Hv]. rewrite Hroutes in Hv by done.
    apply (mi_known w Hm u). by rewrite (mi_routes w Hm).
  - intros v. rewrite Hst, Hdef, Hknown. destruct d as [x|] eqn:E.
    + rewrite lookup_insert_eq. intros [= <-]. split; [done|]. by apply Hd.
    + intros Hv. unfold d, store_get_route in E. by rewrite Hv in E.
  - intros n. apply option_eq. intros v. rewrite Hb. by rewrite (mi_clients w Hm).
  - unfold store_get_route. intros [v Hv]. rewrite Hdef. unfold d, store_get_route. rewrite Hv. cbn.
    symmetry. by apply (mi_default w Hm).
Qed.

End Loading.

Section Restart.
Context {Q L : Type}.

(** (C7) A restart restores the hub: when memory and database agree and the database
    works, a fresh process that loads the database ends with the same names and tokens,
    the same route for every user and, if a default backend was persisted, the same
    default; memory and database agree again. *)
Theorem restart_restores (sha256 : string -> list N) (w : World Q L) (Hm : mirrors w) (Hh : healthy w) :
  let w' := (load_clients_from_db sha256 (restarted w)).2 in
  mirrors w' /\
  (forall n, by_name (w_registry w') !! n = by_name (w_registry w) !! n) /\
  (forall u, u <> HUB_DEFAULT_SENTINEL ->
     active_routes (w_router w') !! u = active_routes (w_router w) !! u) /\
  (is_Some (store_get_route HUB_DEFAULT_SENTINEL (w_store w)) ->
     default_client (w_router w') = default_client (w_router w)).
Proof. intros w'. by apply load_agrees. Qed.
End Restart.

(** ** A concrete hub *)

(** A hub that just came up on an empty database. *)
Definition empty_hub : World InMemoryQueue unit :=
  with_registry ClientRegistry_new (demo_world demo_store (Router_new None)).

(** The same hub with the backend [mac] (token hash [06]), its default. *)
Definition mac_hub : World InMemoryQueue unit :=
  (register_client_in_hub demo_digest "mac" None None empty_hub).2.

Lemma empty_mirrors : mirrors empty_hub.
Proof.
  split.
  - apply new_wf.
  - split; constructor.
  - intros n v. split; [done|]. intros []%elem_of_nil.
  - done.
  - done.
  - done.
Qed.

Lemma empty_fresh u : fresh_token empty_hub (hash_vtoken demo_digest (mint u)).
Proof. split; [done|constructor]. Qed.

Lemma mac_mirrors : mirrors mac_hub.
Proof.
  apply (register_mirrors demo_digest empty_hub "mac" None None "1" ["2"; "3"; "4"]).
  - reflexivity.
  - apply empty_mirrors.
  - reflexivity.
  - apply empty_fresh.
Qed.

Lemma administration_keeps_mirror_witness :
  let w := with_env (set_uuids ["uv"] (w_env mac_hub)) mac_hub in
  let w' := (register_confirmed_client_in_hub demo_digest "mini" None None "vhub_uv" w).2 in
  mirrors w' /\ default_persisted w' /\ default_client (w_router w') = Some "06" /\
  by_name (w_registry w') !! "mini" = Some "07".
Proof.
  intros w w'.
  destruct (administration_keeps_mirror demo_digest w "mini" "uv" [] None None false) as (_ & H & _ & _ & D).
  - done.
  - destruct mac_mirrors. by split.
  - reflexivity.
  - split; [reflexivity|]. repeat constructor; done.
  - destruct (D eq_refl) as (_ & D2 & _). split_and!; [exact H|apply D2|reflexivity|reflexivity].
    vm_compute. discriminate.
Defined.

Lemma restart_restores_witness :
  let w' := (load_clients_from_db demo_digest (restarted mac_hub)).2 in
  by_name (w_registry w') !! "mac" = Some "06" /\ default_client (w_router w') = Some "06".
Proof.
  intros w'. destruct (restart_restores demo_digest mac_hub mac_mirrors eq_refl) as (_ & H1 & _ & H2).
  split; [exact (H1 "mac")|]. apply H2. vm_compute. by eexists.
Defined.

(** ** Where memory and database part *)

(** The default backend of a pairing is not persisted: after pairing [zed] and then
    [abc], the default is [zed]'s token until the hub restarts and [abc]'s afterwards. *)
Lemma confirmed_default_is_lost :
  let w1 := (register_confirmed_client_in_hub demo_digest "zed" None None "vhub_1" empty_hub).2 in
  let w2 := (register_confirmed_client_in_hub demo_digest "abc" None None "vhub_22" w1).2 in
  default_client (w_router w2) = Some (hash_vtoken demo_digest "vhub_1") /\
  default_client (w_router (load_clients_from_db demo_digest (restarted w2)).2)
  = Some (hash_vtoken demo_digest "vhub_22").
Proof. split; vm_compute; reflexivity. Qed.

(** Nor is the default that takes the place of a removed one: when [mac], the default, is
    removed, [zed], which is online, becomes the default until the hub restarts and [abc],
    the first by name, afterwards. *)
Lemma removed_default_is_lost :
  let w1 := (register_confirmed_client_in_hub demo_digest "abc" None None "vhub_22" mac_hub).2 in
  let w2 := (register_confirmed_client_in_hub demo_digest "zed" None None "vhub_333" w1).2 in
  let w3 := with_registry (mark_online (w_registry w2) (hash_vtoken demo_digest "vhub_333")) w2 in
  let w4 := (unregister_client_in_hub "mac" true w3).2 in
  default_persisted w3 /\
  default_client (w_router w4) = Some (hash_vtoken demo_digest "vhub_333") /\
  routing_state (w_store w4) !! HUB_DEFAULT_SENTINEL = None /\
  default_client (w_router (load_clients_from_db demo_digest (restarted w4)).2)
  = Some (hash_vtoken demo_digest "vhub_22").
Proof. split_and!; vm_compute; reflexivity. Qed.

(** An update without persona keeps the persona in memory and erases it in the database. *)
Lemma update_erases_stored_persona :
  let w1 := (register_handler demo_digest
               {| rr_name := "mac"; rr_label := None; rr_description := None;
                  rr_persona_name := Some "Mac"; rr_persona_emoji := None |} empty_hub).2 in
  let w2 := (update_client_in_hub "mac" "mac" None None None w1).2 in
  (get_by_name (w_registry w2) "mac" ≫= persona_name) = Some "Mac" /\
  (get_client_by_name "mac" (w_store w1) ≫= c_persona_name) = Some "Mac" /\
  (get_client_by_name "mac" (w_store w2) ≫= c_persona_name) = None.
Proof. repeat split; vm_compute; reflexivity. Qed.

(** The length check trims the name, the registration does not. *)
Lemma registers_untrimmed_name :
  let r := register_handler demo_digest
             {| rr_name := " mac "; rr_label := None; rr_description := None;
                rr_persona_name := None; rr_persona_emoji := None |} empty_hub in
  r.1.1 = 200%Z /\ by_name (w_registry r.2) !! "mac" = None /\
  is_Some (by_name (w_registry r.2) !! " mac ").
Proof. repeat split; vm_compute; [reflexivity..|]. by eexists. Qed.
