(* ===== verification/Serve.v ===== *)
(** * Startup ([run_serve] of [src/runtime/serve.rs], [HubState::new] of [src/hub/state.rs])

    The order of the startup steps, from the environment to the running hub: which checks
    come before which effects, what a failed start leaves behind, and that a hub started on
    the database of an earlier one resumes its clients and routes. *)
From S2P Require Import Prelude StrLemmas Types Queue Router VToken Registry Acl Pairing PollTracker Store RelayBase Crypto Hub Login Upstream RateLimit Runtime RuntimeProps HubLemmas DispatchProps Admin AdminProps Restart.
From Stdlib Require Import Ascii SpecFloat.
Import Str.
Local Open Scope hub_scope.

Inductive StartError :=
| BadConfig (e : ConfigError)
| BindFailed (e : string)
| RefusedInsecure
| BadMasterKey (e : string)
| Panicked
| NoIdentity (e : DeviceError)
| StartFailed (e : string).

(** [HubState::new]: an empty hub on a database; [env] is what the rest of the run
    supplies to the handlers. *)
Definition HubState_new (env : Env) (var : string -> option string) (store : Store) (queue : InMemoryQueue)
    (relay_secret : string) (admin : AdminConfig) : World InMemoryQueue VtokenRateLimiter :=
  {| w_registry := ClientRegistry_new; w_router := Router_new None; w_queue := queue; w_store := store;
     w_metrics := Metrics_new; w_acl := Acl.from_env (var "ILINK_AGENT_ALLOWLIST"); w_admin := admin;
     w_tracker := set_hub_cap MAX_HUB_POLLS_DEFAULT PollTracker_default; w_limiter := VtokenRateLimiter_default;
     w_last_seen := ∅; w_waiters := ∅; w_outbox := []; w_tasks := []; w_msg_counter := 0;
     w_web := Web_new relay_secret; w_env := env |}.

(** The poll cap, unless it is the default, and the rate limits. *)
Definition apply_limits (cfg : RuntimeConfig) (w : World InMemoryQueue VtokenRateLimiter)
    : World InMemoryQueue VtokenRateLimiter :=
  let w := if (max_hub_polls cfg =? MAX_HUB_POLLS_DEFAULT)%Z then w
           else with_tracker (set_hub_cap (max_hub_polls cfg) (w_tracker w)) w in
  with_limiter (set_limits (bot_rate_limit_per_sec cfg) (bot_rate_limit_burst cfg) (w_limiter w)) w.

Definition sweeper_runs (r : RetentionConfig) : bool :=
  enabled r && ((0 <? messages_ttl_secs r)%Z || (0 <? active_sessions_ttl_secs r)%Z).

(** The options of the command line, the environment, and the outcomes of the calls that
    leave the process: binding the socket, opening the database (its migrations included),
    reading and writing the credentials, the QR login, building the HTTP client, the files
    of the data directory and the random values drawn for them. *)
Record Boot := {
  bo_var : string -> option string;
  bo_addr : string;
  bo_token : option string;
  bo_base_url : option string;
  bo_database_url : string;
  bo_ui : bool;
  bo_bind : option string;
  bo_connect : option string;
  bo_load : option string;
  bo_login : LoginScript;
  bo_save : SaveScript;
  bo_http : option string;
  bo_secret_bytes : list N;
  bo_readable : bool;
  bo_writable : bool;
  bo_identity : SaveFault;
  bo_uuid : string;
  bo_signing_key : string;
  bo_env : Env;
}.

(** What outlives the process: the tables, the row of credentials, the locks, the files of
    the relay secret and of the device identity; and whether the embedder was told the
    listen address. *)
Record Host := {
  ho_store : Store;
  ho_row : option (string * string);
  ho_held : gset Lock;
  ho_secret : option string;
  ho_device : DeviceFiles;
  ho_listening : bool;
}.

(** The hub that runs, and the tasks started with it. *)
Record Started := {
  st_config : RuntimeConfig;
  st_world : World InMemoryQueue VtokenRateLimiter;
  st_token : string;
  st_base : string;
  st_guard : option Lock;
  st_sweeper : bool;
  st_renewal : Renewal;
  st_relay : option (string * string * string);
}.

Section Serve.
Context {Key : Type}.
Context (sha256 : string -> list N).
Context (b64_encode : list N -> string) (b64_decode : string -> option (list N)).
Context (b64url_encode : list N -> string) (b64url_decode : string -> option (list N)).
Context (seal : Key -> list N -> list N -> option (list N)) (open : Key -> list N -> list N -> option (list N)).
Context (key_of_bytes : list N -> Key).
Context (canonicalize : string -> option string) (pg_database : string -> option string).
Context (parse_f64 : string -> option f64).
Context (identity_from_json : string -> option DeviceIdentity) (identity_to_json : DeviceIdentity -> string).

(** The hub's state from its parts: created, tuned, and loaded from the database. *)
Definition build_hub (b : Boot) (cfg : RuntimeConfig) (queue : InMemoryQueue) (relay_secret : string) (store : Store)
    : World InMemoryQueue VtokenRateLimiter :=
  (load_clients_from_db sha256
     (apply_limits cfg (HubState_new (bo_env b) (bo_var b) store queue relay_secret (rc_admin cfg)))).2.

(** The device identity, the last step that can fail, and the tasks. *)
Definition launch (b : Boot) (cfg : RuntimeConfig) (g : option Lock) (token base : string)
    (w : World InMemoryQueue VtokenRateLimiter) (files : DeviceFiles) : result Started StartError * DeviceFiles :=
  let '(identity, files) :=
    load_or_create identity_from_json identity_to_json (bo_uuid b) (bo_signing_key b) (bo_readable b) (bo_identity b)
      files in
  (match identity with
   | Err e => Err (NoIdentity e)
   | Ok id =>
       Ok {| st_config := cfg; st_world := w; st_token := token; st_base := base; st_guard := g;
             st_sweeper := sweeper_runs (rc_retention cfg);
             st_renewal := {| rn_base_url := bo_base_url b <|> Some base; rn_desktop := bo_ui b;
                              rn_stream := true; rn_status := true |};
             st_relay := if relay_enabled (bo_var b)
                         then Some (di_device_id id, "http://" +:+ hub_loopback_addr (bo_addr b),
                                    relay_ws_url (bo_var b))
                         else None |}
   end, files).

(** From the resolved token to the running hub. *)
Definition assemble (b : Boot) (cfg : RuntimeConfig) (g : option Lock) (token base : string) (h : Host)
    : result Started StartError * Host :=
  match bo_http b with
  | Some e => (Err (StartFailed e), h)
  | None =>
      match build_queue_backend (bo_var b) with
      | Err e => (Err (BadConfig e), h)
      | Ok queue =>
          let '(relay_secret, secret) :=
            load_or_create_relay_secret b64url_encode b64url_decode (ho_secret h) (bo_secret_bytes b) (bo_writable b) in
          let w := build_hub b cfg queue relay_secret (ho_store h) in
          let '(out, files) := launch b cfg g token base w (ho_device h) in
          (out, {| ho_store := w_store w; ho_row := ho_row h; ho_held := ho_held h; ho_secret := secret;
                   ho_device := files; ho_listening := ho_listening h |})
      end
  end.

Definition with_row (row : option (string * string)) (held : gset Lock) (h : Host) : Host :=
  {| ho_store := ho_store h; ho_row := row; ho_held := held; ho_secret := ho_secret h;
     ho_device := ho_device h; ho_listening := ho_listening h |}.

(** From the opened database: the guard, the token, the rest. The lock of a process that
    ends is released. *)
Definition start_on_database (b : Boot) (cfg : RuntimeConfig) (kind : DatabaseKind) (key : Key) (h : Host)
    : result Started StartError * Host :=
  match acquire_instance_guard canonicalize pg_database kind (bo_database_url b) (ho_held h) with
  | (Err e, _) => (Err (StartFailed e), h)
  | (Ok g, held) =>
      let '(resolved, c) :=
        resolve_token b64_encode b64_decode seal open (bo_token b) (bo_base_url b) (bo_ui b) (bo_load b)
          (bo_login b) (bo_save b) {| cr_key := Some key; cr_row := ho_row h |} in
      let h := with_row (cr_row c) held h in
      let '(out, h) :=
        match resolved with
        | Err e => (Err (StartFailed e), h)
        | Ok (token, base) => assemble b cfg g token base h
        end in
      (out, if is_ok out then h else with_row (ho_row h) (release_guard g held) h)
  end.

Definition set_listening (h : Host) : Host :=
  {| ho_store := ho_store h; ho_row := ho_row h; ho_held := ho_held h; ho_secret := ho_secret h;
     ho_device := ho_device h; ho_listening := true |}.

Definition run_serve (b : Boot) (h : Host) : result Started StartError * Host :=
  match runtime_from_env (bo_var b) parse_f64 with
  | Err e => (Err (BadConfig e), h)
  | Ok (cfg, _) =>
      match bo_bind b with
      | Some e => (Err (BindFailed e), h)
      | None =>
          let h := set_listening h in
          match warn_if_insecure (rc_admin cfg) (bo_addr b) with
          | Err _ => (Err RefusedInsecure, h)
          | Ok _ =>
              match load_or_derive_master_key b64_decode (bo_var b "ILINK_HUB_MASTER_KEY") with
              | None => (Err Panicked, h)
              | Some (Err e) => (Err (BadMasterKey e), h)
              | Some (Ok bytes) =>
                  match from_url (bo_database_url b), bo_connect b with
                  | Some kind, None => start_on_database b cfg kind (key_of_bytes bytes) h
                  | Some _, Some e => (Err (StartFailed e), h)
                  | None, _ => (Err (StartFailed "unsupported database"), h)
                  end
              end
          end
      end
  end.
End Serve.

(** ** What a start does *)
Section ServeProps.
Context {Key : Type}.
Context (sha256 : string -> list N).
Context (b64_encode : list N -> string) (b64_decode : string -> option (list N)).
Context (b64url_encode : list N -> string) (b64url_decode : string -> option (list N)).
Context (seal : Key -> list N -> list N -> option (list N)) (open : Key -> list N -> list N -> option (list N)).
Context (key_of_bytes : list N -> Key).
Context (canonicalize : string -> option string) (pg_database : string -> option string).
Context (parse_f64 : string -> option f64).
Context (from_json : string -> option DeviceIdentity) (to_json : DeviceIdentity -> string).

Notation serve := (run_serve sha256 b64_encode b64_decode b64url_encode b64url_decode seal open key_of_bytes
                     canonicalize pg_database parse_f64 from_json to_json).
Notation start := (start_on_database sha256 b64_encode b64_decode b64url_encode b64url_decode seal open
                     canonicalize pg_database from_json to_json).

(** What loading the database leaves alone. *)
Definition settings (w : World InMemoryQueue VtokenRateLimiter) :=
  (w_tracker w, w_limiter w, w_queue w, w_admin w, w_acl w, w_web w).

#[local] Instance aside_settings : Aside settings.
Proof. done. Qed.

Lemma keeps_load : keeps settings (load_clients_from_db sha256).
Proof. unfold load_clients_from_db, load_clients, load_routes, restore_default. keeps. Qed.

Lemma apply_limits_settings cfg w :
  settings (apply_limits cfg w) =
  (if (max_hub_polls cfg =? MAX_HUB_POLLS_DEFAULT)%Z then w_tracker w else set_hub_cap (max_hub_polls cfg) (w_tracker w),
   set_limits (bot_rate_limit_per_sec cfg) (bot_rate_limit_burst cfg) (w_limiter w),
   w_queue w, w_admin w, w_acl w, w_web w).
Proof. unfold apply_limits. by destruct (_ =? _)%Z. Qed.

(** The queue limit an operator gets for the value of [ILINK_MAX_QUEUE_SIZE]: a number is
    clamped to 10..10000, and anything else stands for the default. *)
Definition queue_limit_of (v : option string) : Z :=
  match v ≫= parse_u64 with
  | Some n => Z.max 10 (Z.min 10000 n)
  | None => Z.of_nat DEFAULT_MAX_QUEUE_SIZE
  end.

Lemma resolve_max_queue_size_spec var :
  resolve_max_queue_size var = queue_limit_of (var "ILINK_MAX_QUEUE_SIZE").
Proof.
  unfold resolve_max_queue_size, queue_limit_of, MIN_MAX_QUEUE_SIZE, MAX_MAX_QUEUE_SIZE.
  destruct (var "ILINK_MAX_QUEUE_SIZE") as [v|]; [|done]. cbn [mbind option_bind].
  destruct (is_empty v) eqn:Ev; [by apply is_empty_spec in Ev as ->|].
  destruct (parse_u64 v) as [n|]; [|done].
  destruct (Z.ltb_spec n 10), (Z.ltb_spec 10000 n); lia.
Qed.

(** The hub that runs is tuned as configured. *)
Record tuned (b : Boot) (cfg : RuntimeConfig) (w : World InMemoryQueue VtokenRateLimiter) : Prop := {
  tu_cap : hub_cap (w_tracker w) = max_hub_polls cfg;
  tu_rate : rate_per_sec (w_limiter w) = bot_rate_limit_per_sec cfg;
  tu_burst : burst (w_limiter w) = bot_rate_limit_burst cfg;
  tu_queue : w_queue w = with_limit (Z.to_nat (queue_limit_of (bo_var b "ILINK_MAX_QUEUE_SIZE")));
  tu_admin : w_admin w = rc_admin cfg;
  tu_acl : w_acl w = Acl.from_env (bo_var b "ILINK_AGENT_ALLOWLIST");
}.

Lemma build_hub_tuned b cfg queue secret store :
  config_ok cfg -> build_queue_backend (bo_var b) = Ok queue ->
  tuned b cfg (build_hub sha256 b cfg queue secret store).
Proof.
  intros Hc Hq.
  pose proof (keeps_load (apply_limits cfg (HubState_new (bo_env b) (bo_var b) store queue secret (rc_admin cfg)))) as E.
  fold (build_hub sha256 b cfg queue secret store) in E. rewrite apply_limits_settings in E.
  injection E as Et El Eq Ea Ec _. split; try done.
  - rewrite Et. by destruct (Z.eqb_spec (max_hub_polls cfg) MAX_HUB_POLLS_DEFAULT) as [->|].
  - rewrite El. apply (co_rate _ Hc).
  - rewrite El. apply (co_burst _ Hc).
  - rewrite Eq. unfold build_queue_backend in Hq. destruct (_ || _); [|done]. injection Hq as <-.
    by rewrite resolve_max_queue_size_spec.
Qed.

Definition resumes {Q L} (w : World Q L) (w' : World InMemoryQueue VtokenRateLimiter) : Prop :=
  mirrors w' /\
  (forall n, by_name (w_registry w') !! n = by_name (w_registry w) !! n) /\
  (forall u, u <> HUB_DEFAULT_SENTINEL -> active_routes (w_router w') !! u = active_routes (w_router w) !! u) /\
  (is_Some (store_get_route HUB_DEFAULT_SENTINEL (w_store w)) ->
     default_client (w_router w') = default_client (w_router w)).

Lemma build_hub_resumes {Q L} (w : World Q L) b cfg queue secret :
  mirrors w -> faults (bo_env b) = [] -> resumes w (build_hub sha256 b cfg queue secret (w_store w)).
Proof.
  intros Hm Hf. unfold build_hub, apply_limits. by destruct (_ =? _)%Z; apply load_agrees.
Qed.

Lemma acquired_release kind url held g held' :
  acquire_instance_guard canonicalize pg_database kind url held = (Ok g, held') ->
  release_guard g held' = held /\ (forall l, g = Some l -> l ∈ held' /\ l ∉ held).
Proof.
  unfold acquire_instance_guard. destruct (lock_of _ _ kind url) as [[l|]|]; try done.
  - case_bool_decide; [done|]. intros [= <- <-]. split; [cbn; set_solver|]. intros ? [= <-]. set_solver.
  - by intros [= <- <-].
Qed.

(** What a started hub is, given the host it was started on and the host it leaves. *)
Record started (b : Boot) (h : Host) (st : Started) (h' : Host) : Prop := {
  sd_tuned : tuned b (st_config st) (st_world st);
  sd_lock : forall l, st_guard st = Some l -> l ∈ ho_held h' /\ l ∉ ho_held h;
  sd_store : ho_store h' = w_store (st_world st);
  sd_resumes : forall Q L (w : World Q L),
    mirrors w -> ho_store h = w_store w -> faults (bo_env b) = [] -> resumes w (st_world st);
}.

Lemma assemble_started b cfg g token base h out h' :
  config_ok cfg -> assemble sha256 b64url_encode b64url_decode from_json to_json b cfg g token base h = (out, h') ->
  match out with
  | Err _ => True
  | Ok st => st_config st = cfg /\ st_guard st = g /\ ho_held h' = ho_held h /\ tuned b cfg (st_world st) /\
             ho_store h' = w_store (st_world st) /\
             exists q s, st_world st = build_hub sha256 b cfg q s (ho_store h)
  end.
Proof.
  intros Hc. unfold assemble. destruct (bo_http b); [by intros [= <- <-]|].
  destruct (build_queue_backend (bo_var b)) as [q|] eqn:Eq; [|by intros [= <- <-]].
  destruct (load_or_create_relay_secret _ _ _ _ _) as [rs s'].
  unfold launch. destruct (load_or_create _ _ _ _ _ _ _) as [[id|e] fs]; intros [= <- <-]; [|done].
  cbn. split_and!; try done; [by apply build_hub_tuned|by exists q, rs].
Qed.

Lemma start_spec b cfg kind key h out h' : config_ok cfg -> start b cfg kind key h = (out, h') ->
  match out with
  | Err _ => ho_held h' = ho_held h
  | Ok st => st_config st = cfg /\ started b h st h'
  end.
Proof.
  intros Hc. unfold start_on_database.
  destruct (acquire_instance_guard _ _ kind _ (ho_held h)) as [[g|e] held] eqn:Eg.
  2: by intros [= <- <-].
  destruct (acquired_release _ _ _ _ _ Eg) as [Hr Hl].
  destruct (resolve_token _ _ _ _ _ _ _ _ _ _ _) as [[[t bs]|e] c]; [|by intros [= <- <-]].
  destruct (assemble _ _ _ _ _ b cfg g t bs _) as [[st|e] h1] eqn:Ea; intros [= <- <-]; [|done].
  apply (assemble_started _ _ _ _ _ _ _ _ Hc) in Ea as (Hs & Hg & Hh & Ht & Hst & q & s & Hw).
  split; [done|]. split; [by rewrite Hs|by rewrite Hg, Hh|done|].
  intros Q L w Hm Hst' Hf. rewrite Hw. cbn. rewrite Hst'. by apply build_hub_resumes.
Qed.

End ServeProps.

(** ** Instances *)

(** A start on an empty host. *)
Definition sample_boot (base : option string) : Boot :=
  {| bo_var := fun name => if (name =? "ILINK_HUB_MASTER_KEY")%string then Some (hex_lower (repeat 1%N 32))
                           else if (name =? "ILINK_MAX_QUEUE_SIZE")%string then Some "5" else None;
     bo_addr := "127.0.0.1:8765"; bo_token := Some "bot:1"; bo_base_url := base;
     bo_database_url := "sqlite:hub.db"; bo_ui := false; bo_bind := None; bo_connect := None; bo_load := None;
     bo_login := silent_login; bo_save := sample_save; bo_http := None; bo_secret_bytes := repeat 7%N 24;
     bo_readable := true; bo_writable := true; bo_identity := Saves; bo_uuid := "0123456789abcdef"; bo_signing_key := "key";
     bo_env := w_env empty_hub |}.

Definition host_of (s : Store) : Host :=
  {| ho_store := s; ho_row := None; ho_held := ∅; ho_secret := None;
     ho_device := {| f_identity := None; f_legacy := None |}; ho_listening := false |}.

Definition read_identity (s : string) : option DeviceIdentity :=
  Some {| di_device_id := s; di_signing_key_b64 := "key" |}.

Notation sample_serve :=
  (run_serve demo_digest hex_lower Sample.hex_decode Sample.url_encode Sample.url_decode Sample.zero_tag Sample.cut_tag
     (fun _ => tt) (fun p => Some ("/data/" +:+ p)) (fun _ => None) (fun _ => None) read_identity di_device_id).


(** The client polls the server the database names, a renewal logs in at the server of the
    command line, and stores the new token under that server: with credentials stored
    earlier for another server, the token obtained there is used here. *)
Lemma renewal_at_another_server :
  let h' := (sample_serve (sample_boot (Some "https://one")) (host_of demo_store)).2 in
  match (sample_serve (sample_boot (Some "https://two")) (with_row (ho_row h') ∅ h')).1 with
  | Ok st => st_base st = "https://one" /\ rn_base_url (st_renewal st) = Some "https://two"
  | Err _ => False
  end.
Proof. vm_compute. split; reflexivity. Qed.
