(* ===== verification/Server.v ===== *)
(** * The HTTP server ([src/server/mod.rs])

    The route table, its limits and its cross-origin policy, and the application a request
    meets: path and method select a handler, its extractors run in order, the handler
    answers. JSON and query decoders, percent decoding, header validation and the answers
    of the upstream are arguments. *)
From S2P Require Import Prelude StrLemmas RelayBase Types Queue Router Footer VToken Registry Acl Pairing Store PollTracker Hub RateLimit MetricsHttp HubLemmas Commands BotApi A2A Admin PairHttp PairProps AdminApi AdminProps MetricsProps Limiters.
From Stdlib Require Import Ascii.
Import Str.
Local Open Scope hub_scope.

(** ** Waiting for a shutdown ([src/server/routes/wait.rs], [src/runtime/serve.rs]) *)
Module Wait.

(** What a watcher of the shutdown flag sees: a new value, or the end of its sender. *)
Inductive FlagEvent := Flag (b : bool) | SenderGone.

(** [wait_shutdown_signal], on the events that arrive; whether it has returned. *)
Fixpoint wait_shutdown_signal (flag : bool) (events : list FlagEvent) : bool :=
  if flag then true else
  match events with
  | [] => false
  | SenderGone :: _ => true
  | Flag b :: events => wait_shutdown_signal b events
  end.

(** [events]: those before the queue answers. The shutdown is asked first. *)
Definition wait_notify_or_shutdown (flag : bool) (events : list FlagEvent) (answer : result bool HubError) : bool :=
  if flag then false else
  if wait_shutdown_signal flag events then false
  else match answer with Ok notified => notified | Err _ => false end.

(** The wait returns exactly when the flag was up once or its sender went away; and then a
    long-poll does not report a message. *)
Lemma wait_returns flag events :
  wait_shutdown_signal flag events = true <-> flag = true \/ Flag true ∈ events \/ SenderGone ∈ events.
Proof.
  revert flag. induction events as [|e events IH]; intros [|]; cbn; [naive_solver|set_solver|naive_solver|].
  destruct e as [b|]; [|set_solver]. rewrite IH. destruct b; set_solver.
Qed.

Lemma shutdown_ends_wait flag events answer :
  wait_notify_or_shutdown flag events answer = true <->
  answer = Ok true /\ flag = false /\ Flag true ∉ events /\ SenderGone ∉ events.
Proof.
  unfold wait_notify_or_shutdown. destruct flag; [naive_solver|].
  destruct (wait_shutdown_signal false events) eqn:E.
  - apply wait_returns in E. naive_solver.
  - assert (Hn : ~ (Flag true ∈ events \/ SenderGone ∈ events)).
    { intros Hin. rewrite (proj2 (wait_returns false events)) in E; [done|by right]. }
    destruct answer as [[]|]; naive_solver.
Qed.
End Wait.

(** ** Cross-origin policy *)
Module Cors.

(** What the layer in front of the bot API lets browsers do. *)
Inductive CorsLayer := Permissive | Listed (origins : list string) | NoOrigin.

(** The entry that is refused, as the error message quotes it. *)
Inductive OriginError := NoScheme (o : string) | NotAHeader (o : string).

Section Cors.
(** [HeaderValue::from_str]. *)
Context (header_value : string -> option string).

Definition parse_origin (o : string) : result string OriginError :=
  if negb (starts_with "http://" o || starts_with "https://" o) then Err (NoScheme o) else
  match header_value o with Some v => Ok v | None => Err (NotAHeader o) end.

(** [collect] into a [Result]: the first error wins. *)
Fixpoint collect {A E} (l : list (result A E)) : result (list A) E :=
  match l with
  | [] => Ok []
  | x :: l => try a := x in try r := collect l in Ok (a :: r)
  end.

Definition entries (s : string) : list string := List.filter (fun o => negb (is_empty o)) (trim <$> split "," s).

Definition parse_origins (s : string) : result (list string) OriginError := collect (parse_origin <$> entries s).

(** [var]: the value of [ILINK_CORS_ORIGINS]. *)
Definition build_cors_layer (var : option string) : result CorsLayer OriginError :=
  match ofilter (fun v => negb (is_empty (trim v))) var with
  | None => Ok Permissive
  | Some s => try origins := parse_origins s in Ok (Listed origins)
  end.

(** The layer [build_router] installs. *)
Definition bot_cors (var : option string) : CorsLayer :=
  match build_cors_layer var with Ok l => l | Err _ => NoOrigin end.

(** The value of [access-control-allow-origin] for a request from [origin]. *)
Definition allow_origin (l : CorsLayer) (origin : string) : option string :=
  match l with
  | Permissive => Some "*"
  | Listed origins => if bool_decide (origin ∈ origins) then Some origin else None
  | NoOrigin => None
  end.

Lemma collect_Ok {A E} (l : list (result A E)) r : collect l = Ok r -> l = Ok <$> r.
Proof.
  revert r. induction l as [|x l IH]; intros r; cbn; [by intros [= <-]|].
  intros (a & -> & (k & Hk & [= <-])%result_bind_Ok)%result_bind_Ok. by rewrite (IH k).
Qed.

(** A configured policy fails closed: once the variable holds anything, the layer is never
    the permissive one; an origin is let through only if every entry of the list has a
    scheme and is a header value, and the origin is one of them; one bad entry refuses
    all. *)
Theorem cors_fails_closed (v origin : string) (Hv : is_empty (trim v) = false)
    (Hheader : forall o h, header_value o = Some h -> h = o) :
  bot_cors (Some v) <> Permissive /\
  (allow_origin (bot_cors (Some v)) origin <> None ->
   allow_origin (bot_cors (Some v)) origin = Some origin /\ origin ∈ entries v /\
   Forall (fun o => parse_origin o = Ok o) (entries v)).
Proof.
  unfold bot_cors, build_cors_layer. cbn [ofilter]. rewrite Hv. cbn [negb].
  destruct (parse_origins v) as [l|e] eqn:E; cbn [result_bind]; [|done]. split; [done|].
  cbn [allow_origin]. case_bool_decide as Hin; [|done]. intros _.
  assert (Hl : l = entries v /\ Forall (fun o => parse_origin o = Ok o) (entries v)).
  { apply collect_Ok in E. clear Hin. revert l E. generalize (entries v) as es.
    induction es as [|o es IH]; intros [|x l] E; try done. cbn in E. injection E as E1 E2.
    destruct (IH l E2) as [-> HF].
    assert (x = o) as ->.
    { unfold parse_origin in E1. destruct (negb _); [done|]. destruct (header_value o) as [h|] eqn:Eh; [|done].
      injection E1 as ->. by apply Hheader. }
    split; [done|]. by constructor. }
  destruct Hl as [-> HF]. done.
Qed.
End Cors.

Lemma cors_fails_closed_witness :
  allow_origin (bot_cors Some (Some " https://a.example , http://b ")) "http://b" = Some "http://b" /\
  allow_origin (bot_cors Some (Some "https://a.example,b")) "https://a.example" = None.
Proof.
  split; [|reflexivity].
  destruct (cors_fails_closed Some " https://a.example , http://b " "http://b" eq_refl) as (_ & H).
  - congruence.
  - destruct H as (-> & _); [vm_compute; discriminate|reflexivity].
Defined.
End Cors.

(** ** Routes *)
Module Routes.

Inductive Method := GET | HEAD | POST | PUT | PATCH | DELETE | OPTIONS | OtherMethod (m : string).

#[export] Instance Method_eq_dec : EqDecision Method.
Proof. solve_decision. Defined.

(** The handlers of the table. *)
Inductive Endpoint :=
| EQrcode | EQrcodePost | EQrcodeStatus | EGetUpdates | ESendMessage | ESendTyping | EGetConfig | EGetUploadUrl
| ERegister | EClients | EUpdateClient | EDeleteClient | ERevokeClient | EClientSessions | EHistory
| EAdminUi | EPairPage | EPairConfirm | EIlinkStatus | ERelogin | EStreamTicket | EStream | EMetrics | EHealth
| EMcp.

#[export] Instance Endpoint_eq_dec : EqDecision Endpoint.
Proof. solve_decision. Defined.

Definition Route : Type := string * list (Method * Endpoint).

Definition bot_api : list Route :=
  [ ("/ilink/bot/get_bot_qrcode", [(GET, EQrcode); (POST, EQrcodePost)]);
    ("/ilink/bot/get_qrcode_status", [(GET, EQrcodeStatus)]);
    ("/ilink/bot/getupdates", [(POST, EGetUpdates)]);
    ("/ilink/bot/sendmessage", [(POST, ESendMessage)]);
    ("/ilink/bot/sendtyping", [(POST, ESendTyping)]);
    ("/ilink/bot/getconfig", [(POST, EGetConfig)]);
    ("/ilink/bot/getuploadurl", [(POST, EGetUploadUrl)]) ].

Definition admin_api : list Route :=
  [ ("/hub/register", [(POST, ERegister)]);
    ("/hub/clients", [(GET, EClients)]);
    ("/hub/clients/{name}", [(PATCH, EUpdateClient); (DELETE, EDeleteClient)]);
    ("/hub/clients/{name}/revoke", [(POST, ERevokeClient)]);
    ("/hub/clients/{name}/sessions", [(GET, EClientSessions)]);
    ("/hub/clients/{name}/sessions/{session}/history", [(GET, EHistory)]);
    ("/hub/ui", [(GET, EAdminUi)]);
    ("/hub/pair/{code}", [(GET, EPairPage)]);
    ("/hub/pair/{code}/confirm", [(POST, EPairConfirm)]);
    ("/hub/ilink/status", [(GET, EIlinkStatus)]);
    ("/hub/ilink/relogin", [(POST, ERelogin)]);
    ("/hub/ilink/qr-stream-ticket", [(POST, EStreamTicket)]);
    ("/hub/ilink/qr-stream", [(GET, EStream)]);
    ("/metrics", [(GET, EMetrics)]);
    ("/health", [(GET, EHealth)]) ].

Definition mcp_api : list Route := [ ("/mcp", [(POST, EMcp)]) ].

Definition routes : list Route := bot_api ++ admin_api ++ mcp_api.

(** A segment in braces takes one segment that is not empty. *)
Definition is_param (seg : string) : bool := starts_with "{" seg.

Fixpoint match_segments (pattern path : list string) : option (list string) :=
  match pattern, path with
  | [], [] => Some []
  | p :: pattern, s :: path =>
      if is_param p then
        if is_empty s then None else cons s <$> match_segments pattern path
      else if (p =? s)%string then match_segments pattern path else None
  | _, _ => None
  end.

Definition match_path (pattern path : string) : option (list string) :=
  match_segments (split "/" pattern) (split "/" path).

Inductive Routed := NotFound | MethodNotAllowed | Found (e : Endpoint) (params : list string).

(** A [GET] handler answers [HEAD] too. *)
Definition method_of (m : Method) (ms : list (Method * Endpoint)) : option Endpoint :=
  let find m := snd <$> List.find (fun p => bool_decide (p.1 = m)) ms in
  match find m with
  | Some e => Some e
  | None => if bool_decide (m = HEAD) then find GET else None
  end.

Definition route_in (table : list Route) (m : Method) (path : string) : Routed :=
  match List.find (fun r => bool_decide (is_Some (match_path r.1 path))) table with
  | None => NotFound
  | Some r =>
      match method_of m r.2 with
      | None => MethodNotAllowed
      | Some e => Found e (default [] (match_path r.1 path))
      end
  end.

Definition route_request : Method -> string -> Routed := route_in routes.

(** *** Limits *)

Definition SENDMESSAGE_MAX_CONCURRENCY : Z := 64.
Definition BOT_AUX_MAX_CONCURRENCY : Z := 64.

Definition concurrency_limit (e : Endpoint) : option Z :=
  match e with
  | ESendMessage => Some SENDMESSAGE_MAX_CONCURRENCY
  | ESendTyping | EGetConfig | EGetUploadUrl => Some BOT_AUX_MAX_CONCURRENCY
  | _ => None
  end.

(** The limit nearest to the handler counts. *)
Definition body_limit (e : Endpoint) : Z :=
  match e with ESendMessage => 4 * 1024 * 1024 | _ => 256 * 1024 end.

(** [admin_audit_log]: the requests of the admin routes that are logged. *)
Definition audited (m : Method) (path : string) : bool :=
  match route_in admin_api m path with
  | NotFound => false
  | _ => bool_decide (m ∈ [POST; PUT; PATCH; DELETE])
  end.

(** *** The table has one answer per path *)

(** Two patterns that some path could satisfy both. *)
Fixpoint overlap (p q : list string) : bool :=
  match p, q with
  | [], [] => true
  | a :: p, b :: q => (is_param a || is_param b || (a =? b)%string) && overlap p q
  | _, _ => false
  end.

Lemma match_overlap p q path : is_Some (match_segments p path) -> is_Some (match_segments q path) -> overlap p q = true.
Proof.
  revert q path. induction p as [|a p IH]; intros [|b q] [|s path] [x Hx] [y Hy]; cbn in *; try done.
  apply andb_true_iff. destruct (is_param a) eqn:Ea; destruct (is_param b) eqn:Eb; cbn.
  - split; [done|]. destruct (is_empty s); [done|]. apply fmap_Some in Hx as (? & ? & _), Hy as (? & ? & _). eapply IH; by eexists.
  - split; [done|]. destruct (is_empty s); [done|]. apply fmap_Some in Hx as (? & ? & _).
    destruct (String.eqb_spec b s); [|done]. eapply IH; by eexists.
  - split; [done|]. destruct (is_empty s); [done|]. apply fmap_Some in Hy as (? & ? & _).
    destruct (String.eqb_spec a s); [|done]. eapply IH; by eexists.
  - destruct (String.eqb_spec a s) as [->|]; [|done]. destruct (String.eqb_spec b s) as [->|]; [|done].
    rewrite String.eqb_refl. split; [done|]. eapply IH; by eexists.
Qed.

(** No path meets two routes, so neither the order of the table nor the order in which its
    three parts are merged matters. *)
Theorem routes_unambiguous (path : string) (r s : Route) :
  r ∈ routes -> s ∈ routes -> is_Some (match_path r.1 path) -> is_Some (match_path s.1 path) -> r = s.
Proof.
  intros Hr Hs Mr Ms. pose proof (match_overlap _ _ _ Mr Ms) as Ho.
  assert (Hall : forallb (fun r => forallb (fun s => negb (overlap (split "/" r.1) (split "/" s.1)) || bool_decide (r = s)) routes) routes = true)
    by (vm_compute; reflexivity).
  rewrite forallb_forall in Hall. apply list_elem_of_In in Hr, Hs. specialize (Hall r Hr).
  rewrite forallb_forall in Hall. specialize (Hall s Hs). rewrite Ho in Hall. cbn [negb orb] in Hall.
  by apply bool_decide_eq_true in Hall.
Qed.

(** A path below [/hub/pair/] meets the pairing page or its confirmation, or nothing. *)
Lemma pair_prefix_routes m path rest e params : split "/" path = "" :: "hub" :: "pair" :: rest ->
  route_request m path = Found e params -> e = EPairPage \/ e = EPairConfirm.
Proof.
  intros Hp. unfold route_request, route_in.
  match goal with |- context [List.find ?f routes] => destruct (List.find f routes) as [r|] eqn:Ef end; [|done].
  apply find_some in Ef as [Hin Hm]. unfold match_path in Hm. rewrite Hp in Hm.
  destruct (method_of m r.2) as [e'|] eqn:Em; [|done]. intros [= -> _].
  repeat (destruct Hin as [<-|Hin]; [first [vm_compute in Hm; discriminate Hm|destruct m; vm_compute in Em; simplify_eq; auto; fail]|]).
  destruct Hin.
Qed.

(** What the relay reaches: of the paths it may forward, once their dot segments are
    resolved, the hub's table answers only the two pairing endpoints ([RelayHub] has what
    the URL parser does besides). *)
Theorem relay_surface (percent_decode : string -> string) (forwarded path : string) (m : Method) (e : Endpoint)
    (params : list string) :
  is_allowed_relay_path percent_decode forwarded = true ->
  split "/" path = resolve_segments [] (split "/" forwarded) ->
  route_request m path = Found e params -> e = EPairPage \/ e = EPairConfirm.
Proof.
  intros (rest & Er & _)%allowed_path_confined Hp. rewrite Er in Hp. by eapply pair_prefix_routes.
Qed.
End Routes.

(** ** The application *)
Module App.
Import Routes.

Record Request := {
  rq_method : Method;
  rq_path : string;
  rq_query : string;
  rq_headers : HeaderMap;
  rq_peer : option PeerIp;
  rq_body : string;
}.

Definition rq_auth (r : Request) : option string := rq_headers r "authorization".

(** What the extractors make of bodies, queries and path segments; an error is the status
    of the rejection. *)
Record Extractors := {
  x_segment : string -> result string Z;
  x_qrcode_query : string -> result unit Z;
  x_status_query : string -> result string Z;
  x_force : string -> result bool Z;
  x_limit : string -> result (option Z) Z;
  x_ticket : string -> result (option string) Z;
  x_qrcode_body : string -> result (list string) Z;
  x_getupdates : string -> result GetUpdatesRequest Z;
  x_sendmessage : string -> result SendMessageRequest Z;
  x_sendtyping : string -> result SendTypingRequest Z;
  x_getconfig : string -> result GetConfigRequest Z;
  x_getuploadurl : string -> result GetUploadUrlRequest Z;
  x_register : string -> result RegisterRequest Z;
  x_update : string -> result AdminUpdateClientRequest Z;
  x_confirm : string -> result PairConfirmRequest Z;
  x_rpc : string -> result JsonRpcRequest Z;
}.

(** Answers, by the type of their body. *)
Inductive Payload :=
| PNone | PText (s : string) | PJson (j : json) | PQrcode (r : GetQrcodeResponse) | PStatus (r : QrcodeStatusResponse)
| PUpdates (r : GetUpdatesResponse) | PSend (r : SendMessageResponse) | PTyping (r : Z * option string)
| PConfig (r : GetConfigResponse) | PUpload (r : GetUploadUrlResponse) | PRegister (r : RegisterResponse)
| PMutation (r : AdminClientMutationResponse) | PRevoke (r : AdminRevokeClientResponse) | PIlink (r : string * Z)
| PStream (e : option QrLoginUiEvent) | PConfirm (r : PairConfirmBody) | PRpc (r : JsonRpcResponse).

Section App.
Context {Q : Type} `{MessageQueue Q}.
Notation hub := (hub Q VtokenRateLimiter).

(** What reaches the server from outside besides the request: environment variables, the
    device, codecs and pages, the answers of the upstream, how waits end and what the rest
    of the hub does meanwhile. *)
Record Outside := {
  o_sha256 : string -> list N;
  o_json : json -> string;
  o_version : string;
  o_var : string -> option string;
  o_device : string;
  o_url : string -> option Url;
  o_pair_page : string;
  o_admin_page : string;
  o_timestamp : Z -> string;
  o_show_f64 : f64 -> string;
  o_sizes : result (gmap string nat) HubError;
  o_gauges : Gauges;
  o_notified : PollWait;
  o_wakes : list (hub unit);
  o_during : hub unit;
  o_typing : SendTypingRequest -> result unit string;
  o_config : GetConfigRequest -> result GetConfigResponse string;
  o_upload : GetUploadUrlRequest -> result GetUploadUrlResponse string;
}.

Context (x : Extractors) (o : Outside).

(** The body as [Json] reads it, under the limit of its route. *)
Definition body {A} (e : Endpoint) (decode : string -> result A Z) (r : Request) : result A Z :=
  if (body_limit e <? Z.of_nat (len (rq_body r)))%Z then Err 413%Z else decode (rq_body r).

(** Extraction of an argument, or the rejection. *)
Definition extract {A} (r : result A Z) (k : A -> hub (Z * Payload)) : hub (Z * Payload) :=
  match r with Ok a => k a | Err status => ret (status, PNone) end.

Definition answer {A} (f : A -> Payload) (m : hub (Z * A)) : hub (Z * Payload) :=
  let* r := m in ret (r.1, f r.2).

Definition admin (r : Request) (m : hub (Z * Payload)) : hub (Z * Payload) :=
  let* a := AdminApi.guarded (rq_auth r) m in
  ret (match a with Ok resp => resp | Err (status, j) => (status, PJson j) end).

(** One path parameter, or two. *)
Definition segment (params : list string) (k : string -> hub (Z * Payload)) : hub (Z * Payload) :=
  match params with p :: _ => extract (x_segment x p) k | [] => ret (500%Z, PNone) end.

Definition handle (e : Endpoint) (params : list string) (r : Request) : hub (Z * Payload) :=
  let sha := o_sha256 o in
  let auth := rq_auth r in
  match e with
  | EQrcode => extract (x_qrcode_query x (rq_query r)) (fun _ =>
      answer PQrcode (get_bot_qrcode (o_var o) (o_device o) (ClientIp (rq_peer r))))
  | EQrcodePost => extract (x_qrcode_query x (rq_query r)) (fun _ =>
      extract (body e (x_qrcode_body x) r) (fun tokens =>
        answer PQrcode (get_bot_qrcode_post (o_var o) (o_device o) (ClientIp (rq_peer r)) tokens)))
  | EQrcodeStatus => extract (x_status_query x (rq_query r)) (fun qrcode =>
      let* s := get_qrcode_status (o_var o) qrcode (o_wakes o) in ret (200%Z, PStatus s))
  | EGetUpdates => extract (body e (x_getupdates x) r) (fun req => answer PUpdates (getupdates sha auth req (o_notified o)))
  | ESendMessage => extract (body e (x_sendmessage x) r) (fun req => answer PSend (sendmessage sha (o_json o) auth req))
  | ESendTyping => extract (body e (x_sendtyping x) r) (fun req => answer PTyping (sendtyping sha (o_typing o) auth req))
  | EGetConfig => extract (body e (x_getconfig x) r) (fun req => answer PConfig (getconfig sha (o_config o) auth req))
  | EGetUploadUrl => extract (body e (x_getuploadurl x) r) (fun req => answer PUpload (getuploadurl sha (o_upload o) auth req))
  | ERegister => admin r (extract (body e (x_register x) r) (fun req => answer PRegister (register_handler sha req)))
  | EClients => admin r (answer PJson admin_clients)
  | EUpdateClient => admin r (segment params (fun name =>
      extract (body e (x_update x) r) (fun req => answer PMutation (admin_update_client name req))))
  | EDeleteClient => admin r (segment params (fun name =>
      extract (x_force x (rq_query r)) (fun force => answer PMutation (admin_delete_client name force))))
  | ERevokeClient => admin r (segment params (fun name => answer PRevoke (admin_revoke_client sha name)))
  | EClientSessions => admin r (segment params (fun name => answer PJson (admin_client_sessions (o_timestamp o) name)))
  | EHistory => admin r (segment params (fun name => segment (tail params) (fun session =>
      extract (x_limit x (rq_query r)) (fun limit =>
        answer PJson (admin_client_session_history (o_timestamp o) name session limit)))))
  | EAdminUi => ret (200%Z, PText (o_admin_page o))
  | EPairPage => segment params (fun code => answer PText (pair_page (o_pair_page o) code))
  | EPairConfirm => segment params (fun code =>
      match rq_peer r with
      | None => ret (500%Z, PNone)
      | Some peer => extract (body e (x_confirm x) r) (fun req =>
          answer PConfirm (pair_confirm sha (o_var o) (o_device o) (o_url o) code (rq_headers r) peer req))
      end)
  | EIlinkStatus => admin r (answer PIlink admin_ilink_status)
  | ERelogin => admin r (answer PJson admin_ilink_relogin)
  | EStreamTicket => admin r (answer PJson admin_ilink_qr_stream_ticket)
  | EStream => extract (x_ticket x (rq_query r)) (fun ticket =>
      let* s := admin_ilink_qr_stream auth ticket in
      ret (match s with Ok ev => (200%Z, PStream ev) | Err status => (status, PNone) end))
  | EMetrics => admin r (answer PText (reads (fun w => metrics (o_show_f64 o) w (o_sizes o) (o_gauges o))))
  | EHealth => ret (200%Z, PText "ok")
  | EMcp => extract (body e (x_rpc x) r) (fun req => answer PRpc (handle_mcp sha (o_json o) (o_version o) (o_during o) auth req))
  end.

(** [build_router]. The cross-origin layer answers every [OPTIONS] request to the bot API
    itself. *)
Definition preflight (r : Request) : bool :=
  bool_decide (rq_method r = OPTIONS) &&
  match route_in bot_api OPTIONS (rq_path r) with NotFound => false | _ => true end.

Definition serve_request (r : Request) : hub (Z * Payload) :=
  if preflight r then ret (200%Z, PNone) else
  match route_request (rq_method r) (rq_path r) with
  | NotFound => ret (404%Z, PNone)
  | MethodNotAllowed => ret (405%Z, PNone)
  | Found e params => handle e params r
  end.

(** ** What a stranger can do *)

(** The hub proper: everything but counters, admission, web sessions and the environment. *)
Definition hub_state (w : World Q VtokenRateLimiter) :=
  (w_registry w, w_router w, w_queue w, w_store w, w_last_seen w, w_outbox w, w_tasks w, w_waiters w, w_acl w, w_admin w).

(** Neither the admin credential nor the token of a registered backend. *)
Definition stranger (r : Request) (w : World Q VtokenRateLimiter) : Prop :=
  check_admin_auth (w_admin w) (rq_auth r) = false /\
  match extract_vtoken (o_sha256 o) (rq_auth r) with
  | Some vt => get_by_vtoken (w_registry w) vt = None
  | None => True
  end.

Lemma keeps_state_uuid : keeps hub_state (@new_uuid Q VtokenRateLimiter).
Proof. intros w. unfold new_uuid. by destruct (uuids (w_env w)). Qed.

Lemma keeps_state_pairing {A} (f : Z -> PairingRegistry -> A * PairingRegistry) :
  keeps hub_state (@on_pairing Q VtokenRateLimiter A f).
Proof. intros w. unfold on_pairing. by destruct (f _ _). Qed.

Lemma keeps_state_admit_qr ip : keeps hub_state (@admit_qr Q VtokenRateLimiter ip).
Proof. intros w. unfold admit_qr. by destruct (QrCreate.qr_check_and_record _ _ _). Qed.

Lemma keeps_state_draw : keeps hub_state (@draw Q VtokenRateLimiter).
Proof. intros w. unfold draw. by destruct (random_bytes (w_env w)). Qed.

#[local] Hint Resolve keeps_state_uuid keeps_state_pairing keeps_state_admit_qr keeps_state_draw : keeps.

Lemma keeps_state_extract {A} (a : result A Z) (k : A -> hub (Z * Payload)) :
  (forall y, keeps hub_state (k y)) -> keeps hub_state (extract a k).
Proof. intros Hk. unfold extract. destruct a; [apply Hk|keeps]. Qed.

Lemma keeps_state_answer {A} (f : A -> Payload) (m : hub (Z * A)) : keeps hub_state m -> keeps hub_state (answer f m).
Proof. intros Hm. apply keeps_bind; [done|keeps]. Qed.

Lemma keeps_state_segment l (k : string -> hub (Z * Payload)) :
  (forall y, keeps hub_state (k y)) -> keeps hub_state (segment l k).
Proof. intros Hk. unfold segment. destruct l; [keeps|by apply keeps_state_extract]. Qed.

(** Asking for a code, polling its status, opening its page. *)
Lemma keeps_state_qrcode ip : keeps hub_state (get_bot_qrcode (o_var o) (o_device o) ip).
Proof. unfold get_bot_qrcode, create_pairing_qr. keeps. Qed.

Lemma keeps_state_status q (wakes : list (hub unit)) : Forall (keeps hub_state) wakes ->
  keeps hub_state (get_qrcode_status (o_var o) q wakes).
Proof.
  intros Hw. unfold get_qrcode_status. apply keeps_bind; [keeps|]. intros now. generalize (now + QR_STATUS_LONG_POLL)%Z. intros d.
  assert (Hj : keeps hub_state (qrcode_status_json (o_var o) q)) by (unfold qrcode_status_json; keeps).
  induction Hw as [|k l Hk _ IH]; cbn [status_loop]; (apply keeps_bind; [done|]); intros resp; keeps.
Qed.

Lemma keeps_state_page code : keeps hub_state (pair_page (o_pair_page o) code).
Proof. unfold pair_page. keeps. Qed.

(** The rest of the state that a confirmation leaves alone on every path. *)
Lemma keeps_confirm code hs peer req :
  keeps (fun w => (w_waiters w, w_acl w, w_admin w)) (pair_confirm (Q:=Q) (L:=VtokenRateLimiter) (o_sha256 o) (o_var o) (o_device o) (o_url o) code hs peer req).
Proof.
  set (f := fun w : World Q VtokenRateLimiter => (w_waiters w, w_acl w, w_admin w)).
  assert (Aside f) by done.
  assert (Hp : forall A g, keeps f (@on_pairing Q VtokenRateLimiter A g)).
  { intros A g w. unfold on_pairing. by destruct (g _ _). }
  assert (Ha : forall c ip, keeps f (@admit_confirm Q VtokenRateLimiter c ip)).
  { intros c ip w. unfold admit_confirm. by destruct (PairConfirm.confirm_check_and_record _ _ _). }
  assert (Hr : forall A g, keeps f (@on_registry Q VtokenRateLimiter A g)).
  { intros A g w. unfold on_registry. by destruct (g _). }
  unfold pair_confirm, commit_pairing, register_confirmed_client_in_hub, write.
  repeat first [apply keeps_ret | apply keeps_reads | apply Hp | apply Ha | apply Hr | apply keeps_uuid; apply _
               | apply keeps_db; apply _ | by apply keeps_changes | apply keeps_bind; [|intros ?] | case_match].
Qed.

(** Pointwise: this run leaves the hub as it was. *)
Definition same {A} (m : hub A) (w : World Q VtokenRateLimiter) : Prop := hub_state (m w).2 = hub_state w.

Lemma same_answer {A} (f : A -> Payload) (m : hub (Z * A)) w : same m w -> same (answer f m) w.
Proof. unfold same, answer. by rewrite bind_run. Qed.

Lemma same_extract {A} (a : result A Z) (k : A -> hub (Z * Payload)) w :
  (forall y, same (k y) w) -> same (extract a k) w.
Proof. intros Hk. unfold extract. destruct a; [apply Hk|done]. Qed.

(** Without the credential, a handler behind the guard is not run. *)
Lemma same_admin r m (w : World Q VtokenRateLimiter) : check_admin_auth (w_admin w) (rq_auth r) = false ->
  same (admin r m) w /\ (admin r m w).1 = (401%Z, PJson unauthorized_body).
Proof.
  intros Ha. unfold same, admin, AdminApi.guarded. rewrite !bind_run. cbn [reads fst snd]. rewrite Ha. done.
Qed.

Lemma same_admit auth (w : World Q VtokenRateLimiter) :
  match extract_vtoken (o_sha256 o) auth with Some vt => get_by_vtoken (w_registry w) vt = None | None => True end ->
  (admit_caller (o_sha256 o) auth w).2 = w /\ exists e, (admit_caller (o_sha256 o) auth w).1 = Err e.
Proof.
  intros Hs. unfold admit_caller. destruct (extract_vtoken _ auth) as [vt|]; [|split; [done|by eexists]].
  rewrite bind_run. cbn [reads fst snd]. rewrite Hs. split; [done|by eexists].
Qed.

Section Stranger.
Context (r : Request) (w : World Q VtokenRateLimiter) (Hs : stranger r w).

Lemma same_sendmessage req : same (sendmessage (o_sha256 o) (o_json o) (rq_auth r) req) w.
Proof.
  destruct Hs as [_ Ht]. unfold same, sendmessage. rewrite bind_run. cbn [count changes fst snd].
  destruct (extract_vtoken _ (rq_auth r)) as [vt|]; [|by rewrite bind_run].
  rewrite bind_run. cbn [reads fst snd w_registry with_metrics update]. by rewrite Ht, bind_run.
Qed.

Lemma same_getupdates req b : same (getupdates (o_sha256 o) (rq_auth r) req b) w.
Proof.
  destruct Hs as [_ Ht]. unfold same, getupdates. rewrite !bind_run. cbn [changes ret fst snd].
  change (hub_state (answer_poll (o_sha256 o) (rq_auth r) req b w).2 = hub_state w). unfold answer_poll.
  destruct (extract_vtoken _ (rq_auth r)) as [vt|]; [|done].
  rewrite bind_run. destruct (enter (w_tracker w) vt) as [e t]. cbn [fst snd].
  assert (Hg : forall g n, hub_state (BotApi.guarded vt g n req b (with_tracker t w)).2 = hub_state w).
  { intros g n. unfold BotApi.guarded. rewrite !bind_run. cbn [changes fst snd]. destruct (_ <? n)%Z; [done|].
    unfold serve_poll. rewrite bind_run. cbn [reads fst snd w_registry with_tracker update]. by rewrite Ht. }
  destruct e; [apply Hg|done|apply Hg].
Qed.

Lemma same_admitted {A} (k : result string (Z * Z * string) -> hub A) :
  (forall e, same (k (Err e)) w) -> same (bind (admit_caller (o_sha256 o) (rq_auth r)) k) w.
Proof.
  intros Hk. unfold same. rewrite bind_run. destruct (same_admit (rq_auth r) w) as [-> [e ->]]; [apply Hs|apply Hk].
Qed.

Lemma same_mcp req : same (handle_mcp (o_sha256 o) (o_json o) (o_version o) (o_during o) (rq_auth r) req) w.
Proof.
  destruct Hs as [_ Ht]. unfold same, handle_mcp. destruct (negb _); [done|]. destruct (_ =? _)%string; [done|].
  destruct (_ =? _)%string; [done|]. destruct (extract_vtoken _ (rq_auth r)) as [vt|]; [|done].
  rewrite bind_run. cbn [reads fst snd]. by rewrite Ht.
Qed.

Lemma same_stream ticket : same (admin_ilink_qr_stream (rq_auth r) ticket) w.
Proof.
  destruct Hs as [Ha _]. unfold same, admin_ilink_qr_stream. rewrite Ha. destruct ticket as [t|]; [|done].
  destruct (Tickets.consume _ _ _) as [[] m]; done.
Qed.

(** A confirmation that changes the hub: the backend of the request joins it, and only its
    pairing page could have asked for that. *)
Definition paired (code : string) (out : (Z * Payload) * World Q VtokenRateLimiter) : Prop :=
  out.1.1 = 200%Z /\ exists hd s n l h, rq_headers r "x-pair-csrf" = Some hd /\
    sessions (web_pairing (w_web w)) !! code = Some s /\ Pairing.status s = Scanned /\ csrf s = Some hd /\
    by_name (w_registry w) !! n = None /\ joined n l None h w out.2 /\
    w_waiters out.2 = w_waiters w /\ w_acl out.2 = w_acl w /\ w_admin out.2 = w_admin w.

Lemma confirm_confined code peer req :
  let m := answer PConfirm (pair_confirm (o_sha256 o) (o_var o) (o_device o) (o_url o) code (rq_headers r) peer req) in
  same m w \/ paired code (m w).
Proof.
  intros m. unfold m, same, paired, answer. rewrite bind_run. cbn [ret fst snd]. clear m.
  pose proof (keeps_confirm code (rq_headers r) peer req w) as Hk.
  pose proof (pair_confirm_spec (o_sha256 o) (o_var o) (o_device o) (o_url o) code (rq_headers r) peer req w) as Hspec.
  cbv zeta in Hspec. set (out := pair_confirm _ _ _ _ _ _ _ _ w) in *.
  destruct Hspec as [(_ & Hsame & _)|(nm & lb & hd & rp & c & Hn & Hh & _ & Hrp & Hc & E & Hc1 & _ & Hfree & Hjoin)].
  - left. destruct Hsame as (E1 & E2 & E3 & E4 & E5 & E6 & E7 & _). injection Hk as K1 K2 K3.
    unfold hub_state. by rewrite E1, E2, E3, E4, E5, E6, E7, K1, K2, K3.
  - right. rewrite E. split; [done|]. destruct c as [y r']. cbn in Hc1. subst y. symmetry in Hc.
    apply confirm_Ok in Hc as (_ & s & Hs1 & _ & Hst & Hm & _).
    apply map_lookup_filter_Some in Hs1 as [Hs1 _]. subst rp. apply map_lookup_filter_Some in Hs1 as [Hs1 _].
    unfold csrf_matches in Hm. destruct (csrf s) as [tok|] eqn:Ecs; [|done]. apply constant_time_eq_spec in Hm. subst tok.
    exists hd, s, nm, lb, (hash_vtoken (o_sha256 o) ("vhub_" +:+ (new_uuid w).1)).
    injection Hk as K1 K2 K3. by rewrite Ecs.
Qed.

Lemma handle_confined e params (Hw : Forall (keeps hub_state) (o_wakes o)) :
  same (handle e params r) w \/ exists code, e = EPairConfirm /\ paired code (handle e params r w).
Proof.
  destruct e; cbn [handle]; try (left; by apply same_admin, Hs); try (left; done).
  - left. apply keeps_state_extract. intros _. apply keeps_state_answer, keeps_state_qrcode.
  - left. apply keeps_state_extract. intros _. apply keeps_state_extract. intros l. apply keeps_state_answer, keeps_state_qrcode.
  - left. apply keeps_state_extract. intros q. apply keeps_bind; [by apply keeps_state_status|keeps].
  - left. apply same_extract. intros req. by apply same_answer, same_getupdates.
  - left. apply same_extract. intros req. by apply same_answer, same_sendmessage.
  - left. apply same_extract. intros req. apply same_answer. by apply same_admitted.
  - left. apply same_extract. intros req. apply same_answer, same_admitted. by intros [[]].
  - left. apply same_extract. intros req. apply same_answer. by apply same_admitted.
  - left. apply keeps_state_segment. intros code. apply keeps_state_answer, keeps_state_page.
  - unfold segment. destruct params as [|p ps]; [by left|]. destruct (x_segment x p) as [code|]; [|by left]. cbn [extract].
    destruct (rq_peer r) as [peer|]; [|by left]. destruct (body _ _ r) as [req|]; [|by left]. cbn [extract].
    destruct (confirm_confined code peer req) as [?|?]; [by left|right; by exists code].
  - left. apply same_extract. intros t. unfold same. rewrite bind_run. by apply same_stream.
  - left. apply same_extract. intros req. by apply same_answer, same_mcp.
Qed.
End Stranger.

(** (C37) The surface of the server: whatever request comes in without the admin credential and
    without the token of a registered backend (any method, path, headers and body), it
    leaves registry, routes, queues, store, what goes upstream and what is recorded as they
    were, except that a confirmation of a pairing may add one backend under a free name,
    and only with the CSRF token of a code that was scanned. *)
Theorem stranger_confined (r : Request) (w : World Q VtokenRateLimiter)
    (Hs : stranger r w) (Hw : Forall (keeps hub_state) (o_wakes o)) :
  let out := serve_request r w in
  hub_state out.2 = hub_state w \/
  exists params code, route_request (rq_method r) (rq_path r) = Found EPairConfirm params /\ paired r w code out.
Proof.
  intros out. unfold out, serve_request. destruct (preflight r); [by left|].
  destruct (route_request _ _) as [| |e params] eqn:E; [by left|by left|].
  destruct (handle_confined r w Hs e params Hw) as [?|(code & -> & ?)]; [by left|right; by exists params, code].
Qed.
End App.

(** ** An instance *)

(** Extractors that reject every body and every query but the empty one. *)
Definition demo_extractors : Extractors := {|
  x_segment := Ok; x_qrcode_query := fun _ => Ok tt; x_status_query := Ok; x_force := fun _ => Ok false;
  x_limit := fun _ => Ok None; x_ticket := fun _ => Ok None; x_qrcode_body := fun _ => Ok [];
  x_getupdates := fun _ => Err 422%Z; x_sendmessage := fun _ => Err 422%Z; x_sendtyping := fun _ => Err 422%Z;
  x_getconfig := fun _ => Err 422%Z; x_getuploadurl := fun _ => Err 422%Z; x_register := fun _ => Err 422%Z;
  x_update := fun _ => Err 422%Z; x_confirm := fun _ => Err 422%Z; x_rpc := fun _ => Err 422%Z |}.

Definition demo_outside : @Outside InMemoryQueue := {|
  o_sha256 := demo_digest; o_json := fun _ => ""; o_version := "1"; o_var := fun _ => None; o_device := "d";
  o_url := fun _ => None; o_pair_page := ""; o_admin_page := "<html>"; o_timestamp := show_u64; o_show_f64 := fun _ => "0";
  o_sizes := Ok ∅;
  o_gauges := {| g_polls_ok := 0; g_polls_err := 0; g_relogins := 0; g_sendmessage := LatencyHistogram_new; g_created := "0" |};
  o_notified := {| pw_wait := Some false; pw_ns := 0 |}; o_wakes := []; o_during := ret tt; o_typing := fun _ => Ok tt; o_config := fun _ => Err "";
  o_upload := fun _ => Err "" |}.

Definition demo_server : World InMemoryQueue VtokenRateLimiter :=
  {| w_registry := w_registry admin_world; w_router := w_router admin_world; w_queue := w_queue admin_world;
     w_store := w_store admin_world; w_metrics := w_metrics admin_world; w_acl := w_acl admin_world;
     w_admin := {| admin_token := Some "secret"; insecure_no_auth := false; outbound_origin_label := None |};
     w_tracker := w_tracker admin_world; w_limiter := sample_limiter; w_last_seen := ∅; w_waiters := ∅; w_outbox := [];
     w_tasks := []; w_msg_counter := 0; w_web := w_web admin_world; w_env := w_env admin_world |}.

Definition request (m : Method) (path : string) (auth : option string) : Request :=
  {| rq_method := m; rq_path := path; rq_query := "";
     rq_headers := fun h => if (h =? "authorization")%string then auth else None; rq_peer := None; rq_body := "" |}.

(** Revoking a backend: without the credential nothing happens, with it the token is
    replaced. *)
Lemma stranger_confined_witness :
  let revoke := request POST "/hub/clients/mac/revoke" in
  let out := serve_request demo_extractors demo_outside (revoke None) demo_server in
  hub_state out.2 = hub_state demo_server /\ out.1.1 = 401%Z /\
  (serve_request demo_extractors demo_outside (revoke (Some "Bearer secret")) demo_server).1.1 = 200%Z.
Proof.
  intros revoke out. split; [|split; vm_compute; reflexivity].
  destruct (stranger_confined demo_extractors demo_outside (revoke None) demo_server) as [E|(params & code & E & _)].
  - split; [reflexivity|exact I].
  - constructor.
  - exact E.
  - exfalso. vm_compute in E. discriminate E.
Defined.
End App.
