(* ===== verification/RelayHub.v ===== *)
(** * The hub behind the relay

    The calls of a relay session ([relay/client.rs]) arriving at the hub's own server
    ([server/mod.rs]): the URL [forward_to_hub] builds goes through the HTTP client's URL
    parser, and the hub's table decides by the path that comes out. The parser (the [url]
    crate, which follows the WHATWG URL standard) and the percent decoder are parameters,
    with the documented behaviour the filter of [relay/device.rs] relies on as laws and a
    reference instance of each. *)
From Stdlib Require Import Ascii.
From S2P Require Import Prelude StrLemmas RelayBase Types Queue Router Footer VToken Registry Acl Pairing Store PollTracker Hub RateLimit MetricsHttp HubLemmas Commands BotApi A2A Admin PairHttp PairProps AdminApi AdminProps MetricsProps Limiters RelayServer RelayClient RelayProps Server.
Import Str.
Import Routes App.
Local Open Scope hub_scope.

(** ** What the parser does with a path *)

(** The standard's single and double dot segments: a dot may be percent-encoded. *)
Definition single_dots : list string := ["."; "%2e"; "%2E"].
Definition double_dots : list string := x ← single_dots; (fun y => x +:+ y) <$> single_dots.
Definition is_single_dot (s : string) : bool := bool_decide (s ∈ single_dots).
Definition is_double_dot (s : string) : bool := bool_decide (s ∈ double_dots).

(** The path state of the standard, by segments: a double dot shortens the path, a single
    one is left out, and either leaves an empty segment when it is the last. *)
Fixpoint path_segments (encode : string -> string) (seen segs : list string) : list string :=
  match segs with
  | [] => rev seen
  | s :: segs =>
      if is_double_dot s then
        match segs with [] => rev ("" :: tail seen) | _ => path_segments encode (tail seen) segs end
      else if is_single_dot s then
        match segs with [] => rev ("" :: seen) | _ => path_segments encode seen segs end
      else path_segments encode (encode s :: seen) segs
  end.

(** Tab and newline, which the parser drops from its input. *)
Definition is_tab_or_newline (a : ascii) : bool := bool_decide (nat_of_ascii a ∈ [9; 10; 13]%nat).

Fixpoint strip_tabs (s : string) : string :=
  match s with
  | "" => ""
  | String a s => if is_tab_or_newline a then strip_tabs s else String a (strip_tabs s)
  end.

(** Bytes the parser takes as they are or percent-encodes: no control character, no space
    and no backslash, which the parser reads as a slash. *)
Definition plain_byte (a : ascii) : bool := (32 <? nat_of_ascii a)%nat && negb (nat_of_ascii a =? 92)%nat.

Definition is_unreserved (a : ascii) : bool :=
  is_ascii_alphanumeric a || existsb (Ascii.eqb a) ["-"; "_"; "."; "~"]%char.

(** [Url::parse(base + path)?.path()], and [percent_decode_str(path).decode_utf8_lossy()]. *)
Class UrlParser (base : string) := {
  url_path : string -> string;
  encode : string -> string;
  percent_decode : string -> string;
}.
Arguments url_path {base _} _.
Arguments encode {base _} _.
Arguments percent_decode {base _} _.

Class UrlLaws (base : string) `{UrlParser base} : Prop := {
  url_path_plain path : starts_with "/" path = true -> contains "?" path = false -> contains "#" path = false ->
    all_bytes plain_byte path = true ->
    split "/" (url_path (base +:+ path)) = "" :: path_segments encode [] (tail (split "/" path));
  url_path_tabs path : url_path (base +:+ path) = url_path (base +:+ strip_tabs path);
  encode_unreserved s : all_bytes is_unreserved s = true -> encode s = s;
  percent_decode_dots a s b : is_double_dot s = true -> contains ".." (percent_decode (a +:+ "/" +:+ s +:+ b)) = true;
  percent_decode_plain s : no_byte "%" s = true -> percent_decode s = s;
}.

(** *** Segments of a path *)

Lemma later_segment t x : x ∈ tail (split "/" t) -> exists a b, t = a +:+ "/" +:+ x +:+ b.
Proof.
  unfold split. induction t as [|c t IH]; cbn [split_go]; [by intros ?%elem_of_nil|].
  destruct (starts_with "/" (String c t)) eqn:Es.
  - apply starts_with_spec in Es as [r Er]. injection Er as -> _. cbn [tail len String.length Nat.sub].
    destruct (split_go "/" 0 t) as [|h l] eqn:E; [by intros ?%elem_of_nil|].
    intros [->|Hx]%elem_of_cons; [destruct (split_go_prefix _ _ _ _ E) as [b ->]; by exists "", b|].
    destruct (IH Hx) as (a & b & ->). by exists (String "/" a), b.
  - destruct (split_go "/" 0 t) as [|h l]; [by intros ?%elem_of_nil|]. cbn [tail] in *. intros Hx.
    destruct (IH Hx) as (a & b & ->). by exists (String c a), b.
Qed.

Lemma split_no_sep s : Forall (fun x => no_byte "/" x = true) (split "/" s).
Proof.
  unfold split. induction s as [|c s IH]; cbn [split_go]; [by repeat constructor|].
  destruct (starts_with "/" (String c s)) eqn:Es; [by constructor|].
  destruct (split_go "/" 0 s) as [|h l]; [done|]. inversion IH; subst. constructor; [|done].
  cbn [no_byte]. destruct (Ascii.eqb_spec "/" c) as [<-|]; [|done].
  exfalso. apply (not_true_iff_false (starts_with "/" (String "/" s))) in Es. destruct Es.
  apply starts_with_spec. by exists s.
Qed.

Lemma split_join l : l <> [] -> Forall (fun x => no_byte "/" x = true) l -> split "/" (join "/" l) = l.
Proof.
  induction l as [|x [|y l] IH]; [done| |]; intros _ Hl; apply Forall_cons in Hl as [Hx Hl].
  - by apply (split_none "/" "" "").
  - change (join "/" (x :: y :: l)) with (x +:+ "/" +:+ join "/" (y :: l)).
    etransitivity; [exact (split_sep "/" "" "" eq_refl x _ Hx)|]. f_equal. by apply IH.
Qed.

Lemma path_segments_up enc seen segs : Forall (fun s => is_double_dot s = false) segs ->
  exists rest, path_segments enc seen segs = rev seen ++ rest.
Proof.
  revert seen. induction segs as [|s segs IH]; intros seen Hf; cbn [path_segments]; [by exists []; rewrite app_nil_r|].
  apply Forall_cons in Hf as [Hs Hf]. rewrite Hs. destruct (is_single_dot s).
  - destruct segs; [by exists [""]|by apply IH].
  - destruct (IH (enc s :: seen) Hf) as [rest E]. exists (enc s :: rest). rewrite E. cbn. by rewrite <- app_assoc.
Qed.

Lemma path_segments_closed (P : string -> Prop) enc seen segs : P "" -> (forall s, P s -> P (enc s)) ->
  Forall P seen -> Forall P segs -> Forall P (path_segments enc seen segs).
Proof.
  intros H0 He. revert seen. induction segs as [|s segs IH]; intros seen Hseen Hf; cbn [path_segments]; [by apply Forall_rev|].
  apply Forall_cons in Hf as [Hs Hf].
  assert (Ht : Forall P (tail seen)) by (by destruct Hseen).
  destruct (is_double_dot s); [|destruct (is_single_dot s)].
  - destruct segs; [by apply (Forall_rev (l:="" :: _)); constructor|by apply IH].
  - destruct segs; [by apply (Forall_rev (l:="" :: _)); constructor|by apply IH].
  - apply IH; [constructor; auto|done].
Qed.

Section Hub.
Context {base : string} `{UrlLaws base}.

(** A path the filter lets through stays below [/hub/pair], when it holds nothing the parser
    drops or reads as a slash. *)
Lemma allowed_plain_path path : is_allowed_relay_path percent_decode path = true -> all_bytes plain_byte path = true ->
  exists rest, split "/" (url_path (base +:+ path)) = "" :: "hub" :: "pair" :: rest.
Proof.
  unfold is_allowed_relay_path. destruct (starts_with "/" path) eqn:Hslash; [|done]. cbn [negb].
  destruct (starts_with "//" path); [done|]. destruct (contains "?" path) eqn:Hq; [done|].
  destruct (contains "#" path) eqn:Hh; [done|]. cbn [orb].
  destruct (contains ".." path); [done|]. destruct (contains ".." (percent_decode path)) eqn:Hd; [done|]. cbn [orb].
  intros [t ->]%starts_with_spec Hplain. rewrite url_path_plain by done.
  assert (Hseg : Forall (fun s => is_double_dot s = false) (split "/" t)).
  { apply Forall_forall. intros x Hx. apply not_true_iff_false. intros Hdot.
    destruct (later_segment ("/" +:+ t) x) as (a & b & E); [done|].
    change ("/hub/pair/" +:+ t) with ("/hub/pair" +:+ ("/" +:+ t)) in Hd. rewrite E, <- append_assoc in Hd.
    by rewrite percent_decode_dots in Hd. }
  change (tail (split "/" ("/hub/pair/" +:+ t))) with ("hub" :: "pair" :: split "/" t).
  change (path_segments encode [] ("hub" :: "pair" :: split "/" t))
    with (path_segments encode [encode "pair"; encode "hub"] (split "/" t)).
  rewrite !encode_unreserved by done.
  destruct (path_segments_up encode ["pair"; "hub"] _ Hseg) as [rest E]. exists rest. by rewrite E.
Qed.

(** ** The session's calls at the hub *)
Context {Q : Type} `{MessageQueue Q} (x : Extractors) (o : @Outside Q).
Context (to_uppercase lossy : string -> string) (relay_secret : string).
Context (hub : HttpRequest -> HubAnswer) (error_json : string -> string).

Definition method_of_text (m : string) : Method :=
  if (m =? "GET")%string then GET else if (m =? "POST")%string then POST else if (m =? "PUT")%string then PUT
  else if (m =? "DELETE")%string then DELETE else if (m =? "PATCH")%string then PATCH
  else if (m =? "HEAD")%string then HEAD else OtherMethod m.

(** The request the hub's server receives: it comes from the loopback address. *)
Definition hub_request (q : HttpRequest) : Request :=
  {| rq_method := method_of_text (q_method q); rq_path := url_path (q_url q); rq_query := "";
     rq_headers := hub_headers (q_headers q); rq_peer := Some loopback; rq_body := default "" (q_body q) |}.

(** What serving a request below [/hub/pair] does, whoever sends it. *)
Lemma pair_prefix_confined (r : Request) (w : World Q VtokenRateLimiter) rest :
  split "/" (rq_path r) = "" :: "hub" :: "pair" :: rest ->
  let out := serve_request x o r w in hub_state out.2 = hub_state w \/ exists code, paired r w code out.
Proof.
  intros Hp. unfold serve_request. destruct (preflight r); [by left|].
  destruct (route_request _ _) as [| |e params] eqn:E; [by left..|].
  destruct (pair_prefix_routes _ _ _ _ _ Hp E) as [->| ->]; cbn [handle].
  - left. apply keeps_state_segment. intros code. apply keeps_state_answer, keeps_state_page.
  - unfold segment. destruct params as [|p ps]; [by left|]. destruct (x_segment x p) as [code|]; [|by left]. cbn [extract].
    destruct (rq_peer r) as [peer|]; [|by left]. destruct (body _ _ r) as [req|]; [|by left]. cbn [extract].
    destruct (confirm_confined o r w code peer req) as [?|?]; [by left|right; by exists code].
Qed.

(** The frames of a session hold no request whose path has a control character, a space or
    a backslash. *)
Definition plain_frames (frames : list FrameIn) : Prop :=
  forall i id method path headers body, i ∈ frames ->
    fi_frame i = Message (RelayBase.Request id method path headers body) -> all_bytes plain_byte path = true.

(** (C31) What the relay can do to the hub: whatever a session's frames ask for (with plain
    paths), with whatever headers and bodies, every call the client makes leaves the hub it
    reaches, in whatever state that hub is, with the registry, routes, queues, store, outbox
    and credentials it had, except that a confirmation may add one backend under a free
    name, with the CSRF token of a code that was scanned. *)
Theorem relay_pairs_only (h : Handshake) (frames : list FrameIn) (Hplain : plain_frames frames) :
  Forall (fun q => forall w : World Q VtokenRateLimiter,
            let out := serve_request x o (hub_request q) w in
            hub_state out.2 = hub_state w \/ exists code, paired (hub_request q) w code out)
    (sl_calls (run_session to_uppercase lossy percent_decode base relay_secret hub error_json h frames).2).
Proof.
  apply session_calls_all. intros i id method path headers body Hi Hf.
  unfold answer_request. destruct (is_allowed_relay_path percent_decode path) eqn:Ep; cbn [negb]; [|constructor].
  destruct (allowed_plain_path path Ep (Hplain _ _ _ _ _ _ Hi Hf)) as [rest E].
  unfold forward_to_hub, build_request. destruct (existsb _ _); [|constructor].
  set (q := {| q_method := _; q_url := _; q_headers := _; q_body := _ |}).
  assert (Hq : forall w, let out := serve_request x o (hub_request q) w in
    hub_state out.2 = hub_state w \/ exists code, paired (hub_request q) w code out).
  { intros w. by apply (pair_prefix_confined _ _ rest). }
  destruct (hub q) as [[[??]?]|]; constructor; done.
Qed.
End Hub.

(** ** The relay's own table ([build_relay_router] of [relay/server.rs]) *)

Inductive RelayEndpoint := RHealth | RWsPairing | RPairPage | RPairConfirm.

Definition relay_routes : list (string * (Method * RelayEndpoint)) :=
  [ ("/health", (GET, RHealth));
    ("/ws/pairing", (GET, RWsPairing));
    ("/pair/{device_id}/{code}", (GET, RPairPage));
    ("/pair/{device_id}/{code}/confirm", (POST, RPairConfirm)) ].

Definition relay_route (m : Method) (path : string) : result (RelayEndpoint * list string) Z :=
  match List.find (fun r => bool_decide (is_Some (match_path r.1 path))) relay_routes with
  | None => Err 404%Z
  | Some (pattern, (m', e)) =>
      if bool_decide (m = m') || bool_decide (m = HEAD /\ m' = GET)
      then Ok (e, default [] (match_path pattern path)) else Err 405%Z
  end.

(** A request is answered at once, or handed to a hub whose answer is awaited. *)
Inductive RelayAnswer := Status (status : Z) | Awaits (id : string).

(** [decode] is the percent decoding of a path parameter, which fails on bytes that are not
    UTF-8; [upgrade] is whether the request asks for a WebSocket, or the rejection. *)
Definition relay_serve (decode : string -> option string) (upgrade : result unit Z) (now : Z) (ip id : string) (m : Method) (path : string)
    (headers : list (string * option string)) (body : string) (s : Relay) : RelayAnswer * Relay :=
  let forward (r : result unit Z * Relay) := (match r.1 with Ok _ => Awaits id | Err e => Status e end, r.2) in
  match relay_route m path with
  | Err e => (Status e, s)
  | Ok (RHealth, _) => (Status 200, s)
  | Ok (RWsPairing, _) =>
      match upgrade with
      | Err e => (Status e, s)
      | Ok _ => let '(admitted, s) := ws_pairing now ip s in (Status (if admitted then 101 else 429), s)
      end
  | Ok (e, params) =>
      match mapM decode params with
      | Some [device_id; code] =>
          forward (match e with
                   | RPairPage => relay_pair_page now ip id device_id code s
                   | _ => relay_pair_confirm now ip id device_id code headers body s
                   end)
      | _ => (Status 400, s)
      end
  end.

(** What a phone can put into a hub's queue: a pairing page or a confirmation, of whatever
    code it names. *)
Definition phone_request (id body : string) (r : RelayMessage) : Prop :=
  exists code, r = RelayBase.Request id "GET" ("/hub/pair/" +:+ code) ∅ None \/
    exists headers, r = RelayBase.Request id "POST" ("/hub/pair/" +:+ code +:+ "/confirm") headers (Some body).

Lemma start_forward_queue id d m path headers body s c k r : conns (start_forward id d m path headers body s).2 !! c = Some k ->
  r ∈ c_queue k -> r = RelayBase.Request id m path (header_map headers) body \/ exists k0, conns s !! c = Some k0 /\ r ∈ c_queue k0.
Proof.
  unfold start_forward. destruct (hubs s !! d) as [c0|]; [|eauto]. destruct (conns s !! c0) as [k0|] eqn:E0; [|eauto].
  destruct (_ <? _)%nat; [|eauto]. cbn. rewrite lookup_alter. case_decide as Hd; [subst c0|eauto].
  rewrite E0. cbn. intros [= <-]. cbn. rewrite elem_of_app, list_elem_of_singleton. intros [?| ->]; eauto.
Qed.

Lemma relay_enqueues decode upgrade now ip id m path headers body s c k r :
  conns (relay_serve decode upgrade now ip id m path headers body s).2 !! c = Some k -> r ∈ c_queue k ->
  phone_request id body r \/ exists k0, conns s !! c = Some k0 /\ r ∈ c_queue k0.
Proof.
  unfold relay_serve. destruct (relay_route m path) as [[e params]|]; [|eauto].
  assert (Hpair : forall params (f : string -> string -> result unit Z * Relay), (forall d code, conns (f d code).2 !! c = Some k -> r ∈ c_queue k ->
      phone_request id body r \/ exists k0, conns s !! c = Some k0 /\ r ∈ c_queue k0) ->
    let out := match mapM decode params with
               | Some [d; code] => (match (f d code).1 with Ok _ => Awaits id | Err e => Status e end, (f d code).2)
               | _ => (Status 400, s) end in
    conns out.2 !! c = Some k -> r ∈ c_queue k -> phone_request id body r \/ exists k0, conns s !! c = Some k0 /\ r ∈ c_queue k0).
  { intros ps f Hf. destruct (mapM decode ps) as [[|d [|code [|]]]|]; cbn; eauto. }
  destruct e; [cbn; eauto| | |].
  - destruct upgrade as [_|]; [|eauto]. unfold ws_pairing. destruct (FixedWindow.allow _ _ _ _ _) as [[] lim]; cbn; [|eauto].
    rewrite lookup_insert_Some. intros [[_ <-]|[_ E]]; [|eauto]. cbn. by intros ?%elem_of_nil.
  - apply (Hpair params (fun d code => relay_pair_page now ip id d code s)). intros d code. unfold relay_pair_page, check_pair_rate.
    destruct (FixedWindow.allow _ _ _ _ _) as [[] lim]; [|cbn; eauto]. intros E Hr.
    destruct (start_forward_queue _ _ _ _ _ _ _ _ _ _ E Hr) as [->|?]; [|eauto]. left. exists code. by left.
  - apply (Hpair params (fun d code => relay_pair_confirm now ip id d code headers body s)). intros d code.
    unfold relay_pair_confirm, check_pair_rate.
    destruct (FixedWindow.allow _ _ _ _ _) as [[] lim]; [|cbn; eauto]. intros E Hr.
    destruct (start_forward_queue _ _ _ _ _ _ _ _ _ _ E Hr) as [->|?]; [|eauto]. left. exists code. right. eauto.
Qed.

(** ** A path that leaves the pairing endpoints *)

Lemma route_by_segments m p p' : split "/" p = split "/" p' -> route_request m p = route_request m p'.
Proof. intros E. unfold route_request, route_in, match_path. by rewrite E. Qed.

Definition tab : string := String (ascii_of_nat 9) "".

(** Two dots with a tab between them are a double dot to the parser, and none to the filter. *)
Definition tabbed_code : string := "." +:+ tab +:+ "./." +:+ tab +:+ "./ilink/bot/get_bot_qrcode".

(** The relay server puts the percent-decoded code of the phone's request into the path
    ([%09] is a tab, [%2F] a slash); the filter passes it, and the hub's table answers it
    with the endpoint that issues pairing codes. *)
Lemma tab_leaves_pairing {base : string} `{UrlLaws base} (to_uppercase lossy : string -> string)
    (relay_secret : string) (hub : HttpRequest -> HubAnswer) (error_json : string -> string) (id : string) :
  to_uppercase "GET" = "GET" ->
  let path := "/hub/pair/" +:+ tabbed_code in
  is_allowed_relay_path percent_decode path = true /\
  exists q, (answer_request to_uppercase lossy percent_decode base relay_secret hub error_json
               id "GET" path ∅ None).2 = [q] /\
    route_request (rq_method (hub_request q)) (rq_path (hub_request q)) = Found EQrcode [].
Proof.
  intros Hget path.
  assert (Ha : is_allowed_relay_path percent_decode path = true).
  { unfold is_allowed_relay_path. rewrite percent_decode_plain by done. reflexivity. }
  split; [done|]. unfold answer_request. rewrite Ha. cbn [negb]. unfold forward_to_hub, build_request. rewrite Hget. cbn [existsb String.eqb Ascii.eqb Bool.eqb orb].
  match goal with |- context [hub ?q] => exists q; split; [by destruct (hub q) as [[[??]?]|]|] end.
  cbn [hub_request rq_method rq_path q_url q_method]. rewrite url_path_tabs.
  rewrite (route_by_segments _ _ "/ilink/bot/get_bot_qrcode"); [reflexivity|].
  rewrite url_path_plain by reflexivity. change (tail _) with ["hub"; "pair"; ".."; ".."; "ilink"; "bot"; "get_bot_qrcode"].
  cbv -[encode]. rewrite !encode_unreserved by reflexivity. reflexivity.
Qed.

(** ** A parser with the laws *)
Module Reference.

Definition base : string := "http://127.0.0.1:8765".

Definition hex_value (a : ascii) : option nat :=
  let n := nat_of_ascii a in
  if ((48 <=? n) && (n <=? 57))%nat then Some (n - 48)%nat
  else if ((65 <=? n) && (n <=? 70))%nat then Some (n - 55)%nat
  else if ((97 <=? n) && (n <=? 102))%nat then Some (n - 87)%nat else None.

Fixpoint decode (s : string) : string :=
  match s with
  | "" => ""
  | String a s =>
      if Ascii.eqb a "%" then
        match s with
        | String h (String l rest) =>
            match hex_value h, hex_value l with
            | Some x, Some y => String (ascii_of_nat (16 * x + y)) (decode rest)
            | _, _ => String a (decode s)
            end
        | _ => String a (decode s)
        end
      else String a (decode s)
  end.

#[export] Instance parser : UrlParser base := {|
  url_path := fun u => join "/" ("" :: path_segments id [] (tail (split "/" (strip_tabs (slice_from (len base) u)))));
  encode := id;
  percent_decode := decode |}.

Lemma strip_plain s : all_bytes plain_byte s = true -> strip_tabs s = s.
Proof.
  induction s as [|a s IH]; [done|]. cbn [all_bytes strip_tabs]. intros [Ha Hs]%andb_true_iff. rewrite IH by done.
  unfold is_tab_or_newline. rewrite bool_decide_eq_false_2; [done|]. unfold plain_byte in Ha.
  apply andb_true_iff in Ha as [Ha%Nat.ltb_lt _]. set_unfold. lia.
Qed.

Lemma strip_strip s : strip_tabs (strip_tabs s) = strip_tabs s.
Proof.
  induction s as [|a s IH]; [done|]. cbn [strip_tabs]. destruct (is_tab_or_newline a) eqn:E; [done|].
  cbn [strip_tabs]. by rewrite E, IH.
Qed.

(** A slash starts decoding afresh. *)
Lemma decode_slash a t : exists u, decode (a +:+ "/" +:+ t) = u +:+ "/" +:+ decode t.
Proof.
  remember (String.length a) as n eqn:En. revert a En. induction (lt_wf n) as [n _ IH]. intros a ->.
  destruct a as [|c a]; [by exists ""|]. rewrite append_cons.
  assert (Hgo : exists u, String c (decode (a +:+ "/" +:+ t)) = u +:+ "/" +:+ decode t).
  { destruct (IH (String.length a)) with (a := a) as [u E]; [cbn; lia|done|]. exists (String c u). by rewrite E. }
  cbn [decode]. destruct (Ascii.eqb c "%"); [|done].
  destruct a as [|h [|l a]].
  - by destruct t.
  - change (String h "" +:+ "/" +:+ t) with (String h (String "/" t)) in *. cbv beta iota. by destruct (hex_value h).
  - change (String h (String l a) +:+ "/" +:+ t) with (String h (String l (a +:+ "/" +:+ t))) in *. cbv beta iota.
    destruct (hex_value h) as [x|]; [|done]. destruct (hex_value l) as [y|]; [|done].
    destruct (IH (String.length a)) with (a := a) as [u E]; [cbn; lia|done|].
    exists (String (ascii_of_nat (16 * x + y)) u). by rewrite E.
Qed.

Lemma decode_plain s : no_byte "%" s = true -> decode s = s.
Proof.
  induction s as [|a s IH]; [done|]. cbn [no_byte decode]. intros [Ha Hs]%andb_true_iff.
  rewrite Ascii.eqb_sym. destruct (Ascii.eqb "%" a); [done|]. by rewrite IH.
Qed.

Lemma decode_dots s b : is_double_dot s = true -> decode (s +:+ b) = ".." +:+ decode b.
Proof.
  intros Hs%bool_decide_eq_true. unfold double_dots, single_dots in Hs. cbn in Hs.
  repeat (apply elem_of_cons in Hs as [->|Hs]; [reflexivity|]). by apply elem_of_nil in Hs.
Qed.

#[export] Instance laws : UrlLaws base.
Proof.
  split.
  - intros path Hs _ _ Hp. cbn [url_path parser]. change (slice_from (len base) (base +:+ path)) with path.
    rewrite strip_plain by done. apply split_join; [done|]. constructor; [done|].
    apply path_segments_closed; [done..|]. pose proof (split_no_sep path) as Hf. by destruct Hf.
  - intros path. cbn [url_path parser].
    change (slice_from (len base) (base +:+ path)) with path.
    change (slice_from (len base) (base +:+ strip_tabs path)) with (strip_tabs path). by rewrite strip_strip.
  - done.
  - intros a s b Hs. cbn [percent_decode parser]. destruct (decode_slash a (s +:+ b)) as [u ->].
    rewrite decode_dots by done. change ("/" +:+ ".." +:+ decode b) with ("/" +:+ (".." +:+ decode b)).
    rewrite <- append_assoc. apply contains_true.
  - exact decode_plain.
Qed.
End Reference.
#[local] Existing Instances Reference.parser Reference.laws.

(** A session that forwards one confirmation, and the same session with the tabbed path: the
    first call meets the pairing endpoint, the second has the hub issue a pairing code to
    whoever asked. *)
Definition demo_frame (method path : string) (headers : gmap string string) : FrameIn :=
  {| fi_frame := Message (RelayBase.Request "r1" method path headers (Some ""));
     fi_shutdown_call := false; fi_shutdown_write := false; fi_write := None |}.

Definition demo_handshake : Handshake :=
  HsConnected (Ok Pong) {| fi_frame := NonText; fi_shutdown_call := false; fi_shutdown_write := false; fi_write := None |}.

Definition demo_calls (frames : list FrameIn) : list HttpRequest :=
  sl_calls (run_session id id Reference.decode Reference.base "s" (fun _ => Err "down") id demo_handshake frames).2.

Definition demo_confirm : list FrameIn :=
  [demo_frame "POST" "/hub/pair/abc/confirm" {[ "authorization" := "Bearer secret" ]}].

Lemma relay_pairs_only_witness :
  let q := {| q_method := "POST"; q_url := Reference.base +:+ "/hub/pair/abc/confirm";
              q_headers := [("authorization", "Bearer secret"); ("x-ilink-relay-secret", "s")]; q_body := Some "" |} in
  demo_calls demo_confirm = [q] /\
  route_request (rq_method (hub_request q)) (rq_path (hub_request q)) = Found EPairConfirm ["abc"] /\
  hub_state (serve_request demo_extractors demo_outside (hub_request q) demo_server).2 = hub_state demo_server.
Proof.
  intros q. assert (Hc : demo_calls demo_confirm = [q]) by (vm_compute; reflexivity).
  split; [exact Hc|]. split; [vm_compute; reflexivity|].
  assert (Ht := relay_pairs_only demo_extractors demo_outside id id "s" (fun _ => Err "down") id demo_handshake demo_confirm).
  change (sl_calls _) with (demo_calls demo_confirm) in Ht. rewrite Hc in Ht.
  destruct (Forall_inv (Ht ltac:(intros i id0 method path headers body ->%list_elem_of_singleton [= _ _ <- _ _]; reflexivity)) demo_server)
    as [E|[code E]]; [exact E|]. exfalso. destruct E as [E _]. vm_compute in E. discriminate E.
Defined.

Example tabbed_path_issues_code :
  match demo_calls [demo_frame "GET" ("/hub/pair/" +:+ tabbed_code) ∅] with
  | [q] => let out := serve_request demo_extractors demo_outside (hub_request q) demo_server in
      out.1.1 = 200%Z /\ size (sessions (web_pairing (w_web demo_server))) = 0 /\ size (sessions (web_pairing (w_web out.2))) = 1
  | _ => False
  end.
Proof. vm_compute. auto. Qed.

(** From the phone's side: the request line, as a phone would send it, meets the relay's
    pairing page, and its percent-decoded code is the tabbed one. *)
Example phone_sends_tabbed_code :
  let raw := ".%09.%2F.%09.%2Filink%2Fbot%2Fget_bot_qrcode" in
  relay_route GET ("/pair/device-0001/" +:+ raw) = Ok (RPairPage, ["device-0001"; raw]) /\
  Reference.decode raw = tabbed_code.
Proof. vm_compute. auto. Qed.

(** ** The device of the process ([pairing_device_id] of [server/pairing.rs]) *)

(** The cell is filled by the first call: with the identity's device, or with a fresh
    identifier when the identity cannot be loaded. *)
Definition pairing_device_id (loaded : result DeviceIdentity DeviceError) (uuid : string) (cell : option string)
    : string * option string :=
  match cell with
  | Some d => (d, cell)
  | None => let d := match loaded with Ok id => di_device_id id | Err _ => uuid end in (d, Some d)
  end.

(** Every call of a process answers what the first answered, whatever becomes of the files;
    with an identity on disk it is the device the relay client registers. *)
Lemma pairing_device_stable loaded loaded' uuid uuid' cell :
  let '(d, cell') := pairing_device_id loaded uuid cell in
  pairing_device_id loaded' uuid' cell' = (d, cell') /\
  (cell = None -> forall id, loaded = Ok id -> d = di_device_id id).
Proof. unfold pairing_device_id. destruct cell; [done|]. split; [done|]. intros _ id ->. done. Qed.
