(* ===== verification/Cli.v ===== *)
(** * The command line ([src/main.rs])

    The four commands, the defaults of their arguments, and what they print. Environment
    variables, the URL parser and the answers of HTTP requests are arguments. *)
From S2P Require Import Prelude StrLemmas Urls Types Crypto Login Upstream Runtime RuntimeProps Server.
From Stdlib Require Import Ascii.
Import Str Routes.
Local Open Scope hub_scope.

(** ** Arguments *)
Section Args.
Context {U : Type} `{UrlOps U} (var : string -> option string).

Definition extract_host_port (s : string) : option string := parse_host_port s.

(** A variable that is set and not blank. *)
Definition nonblank (name : string) : option string := ofilter (fun v => negb (is_empty (trim v))) (var name).

Definition get_addr_default : string :=
  match nonblank "WEIXIN_BASE_URL" ≫= extract_host_port with
  | Some addr => addr
  | None =>
      match nonblank "ILINK_HUB_ADDR" with
      | Some val => unwrap_or (extract_host_port val) (trim val)
      | None => unwrap_or (nonblank "ILINK_HUB_URL" ≫= extract_host_port) "127.0.0.1:8765"
      end
  end.

Definition get_hub_url_default : string :=
  match nonblank "WEIXIN_BASE_URL" with
  | Some val => trim val
  | None =>
      match nonblank "ILINK_HUB_URL" with
      | Some val => trim val
      | None =>
          match nonblank "ILINK_HUB_ADDR" with
          | Some val =>
              let v := trim val in
              if starts_with "http://" v || starts_with "https://" v then v else "http://" +:+ v
          | None => "http://localhost:8765"
          end
      end
  end.

(** An argument with a variable and a default: the option of the command line, else the
    variable if it is set, else the default. *)
Definition arg (option_ : option string) (env : string) (default_ : string) : string :=
  unwrap_or (option_ <|> var env) default_.

Definition serve_addr (option_ : option string) : string :=
  let addr := arg option_ "WEIXIN_BASE_URL" get_addr_default in
  unwrap_or (extract_host_port addr) addr.

Definition hub_url (option_ : option string) : string := arg option_ "WEIXIN_BASE_URL" get_hub_url_default.

(** The warning about the old variables. *)
Definition warns_deprecated : bool :=
  let set_ name := bool_decide (is_Some (nonblank name)) in
  (set_ "ILINK_HUB_ADDR" || set_ "ILINK_HUB_URL") && negb (set_ "WEIXIN_BASE_URL").

(** What [serve] passes on to the server; an option without a default is the variable's
    value, if there is one. *)
Record ServeArgs := {
  sa_token : option string;
  sa_addr : string;
  sa_base_url : option string;
  sa_database_url : string;
}.

Definition serve_args (token addr base_url database_url : option string) (default_database_url : string) : ServeArgs :=
  {| sa_token := token <|> var "ILINK_TOKEN"; sa_addr := serve_addr addr;
     sa_base_url := base_url <|> var "ILINK_BASE_URL";
     sa_database_url := arg database_url "DATABASE_URL" default_database_url |}.

(** The listen address of [ilink-relay]. *)
Definition relay_addr (option_ : option string) : string := arg option_ "ILINK_RELAY_ADDR" "127.0.0.1:8789".

(** The header of the two client commands. *)
Definition admin_header : option string := (fun t => "Bearer " +:+ trim t) <$> nonblank "ILINK_ADMIN_TOKEN".
End Args.

(** ** Client commands *)

(** What a command prints, on the two streams, and its exit code. *)
Record Output := { out : list string; err : list string; code : Z }.

(** [resp[k]]: null when it is missing. *)
Definition index (k : string) (j : json) : json := unwrap_or (json_get k j) JNull.

Definition as_bool (j : json) : option bool := match j with JBool b => Some b | _ => None end.
Definition as_array (j : json) : option (list json) := match j with JArr l => Some l | _ => None end.

Definition register_output (hub_url name : string) (resp : json) : Output :=
  if bool_decide (json_as_i64 (index "ret" resp) = Some 0%Z) then
    let vtoken := unwrap_or (as_str (index "vtoken" resp)) "" in
    {| out := ["✅ Registered client '" +:+ name +:+ "'"; ""; "Configure your backend with:";
               "  WEIXIN_BASE_URL=" +:+ hub_url; "  WEIXIN_TOKEN=" +:+ vtoken; "";
               "Or for wechatbot Rust SDK:";
               "  BotOptions { base_url: Some(" +:+ MetricsHttp.quote +:+ hub_url +:+ MetricsHttp.quote +:+ "), token: " +:+
               MetricsHttp.quote +:+ vtoken +:+ MetricsHttp.quote +:+ ", .. }"];
       err := []; code := 0 |}
  else {| out := []; err := ["❌ Registration failed: " +:+ unwrap_or (as_str (index "errmsg" resp)) "unknown"]; code := 1 |}.

(** The answer of a request: an error of the transport or of the JSON decoder ends the
    command with it. *)
Definition register_client (hub_url name : string) (answer : result json string) : result Output string :=
  try resp := answer in Ok (register_output hub_url name resp).

(** [{:<n}]: padding counts characters. *)
Definition pad (n : nat) (s : string) : string := s +:+ concat (repeat " " (n - length (chars s))).

Definition client_line (c : json) : string :=
  let online := if unwrap_or (as_bool (index "online" c)) false then "🟢 online " else "🔴 offline" in
  pad 20 (unwrap_or (as_str (index "name" c)) "-") +:+ " " +:+ pad 12 online +:+ " " +:+
  unwrap_or (as_str (index "label" c)) "-".

Definition list_clients (answer : result json string) : result Output string :=
  try resp := answer in
  Ok {| out := match unwrap_or (as_array (index "clients" resp)) [] with
               | [] => ["No clients registered."]
               | cs => (pad 20 "NAME" +:+ " " +:+ pad 12 "STATUS" +:+ " LABEL") :: concat (repeat "-" 52) :: (client_line <$> cs)
               end;
        err := []; code := 0 |}.

(** ** Signals *)

(** Which of the two waits ends first, and how. *)
Inductive Signal :=
| CtrlC (handler : result unit string)
| Terminate (handler : result (option unit) string).

Definition shutdown_on_signal (s : Signal) : result unit string :=
  match s with
  | CtrlC (Ok _) => Ok tt
  | CtrlC (Err e) => Err ("failed to install Ctrl+C handler: " +:+ e)
  | Terminate (Err e) => Err ("failed to install SIGTERM handler: " +:+ e)
  | Terminate (Ok None) => Err "SIGTERM stream ended unexpectedly"
  | Terminate (Ok (Some _)) => Ok tt
  end.

(** The task of [serve]: the flag it sends, which does not depend on how the wait ended. *)
Definition signal_task (s : Signal) : bool := match shutdown_on_signal s with Ok _ | Err _ => true end.

(** ** Login *)
Section Login.
Context {U : Type} `{UrlOps U}.
Context (b64_encode : list N -> string) (b64_decode : string -> option (list N)).
Context (seal open : list N -> list N -> list N -> option (list N)).

(** [connect]: the error of opening the database. [None] is the panic of the key decoder;
    the second component is the row of [bot_credentials]. *)
Definition run_login (key_var connect : option string) (database_url : string) (ilink_base_url : option string)
    (login : LoginScript) (sv : SaveScript) (row : option (string * string))
    : option (result string string * option (string * string)) :=
  match load_or_derive_master_key b64_decode key_var with
  | None => None
  | Some (Err e) => Some (Err ("Failed to load master key: " +:+ e), row)
  | Some (Ok master_key) =>
      Some match connect with
      | Some e => (Err e, row)
      | None =>
          if negb (ls_client login) then (Err "failed to build HTTP client", row) else
          match (LoginClient.login_with_qr_ui (ls_encode login) false (ls_qr login) (ls_replies login)).1 with
          | Err e => (Err e, row)
          | Ok token =>
              let base := unwrap_or ilink_base_url "https://ilinkai.weixin.qq.com" in
              match save_bot_credentials b64_encode seal (ss_nonce sv) (ss_fault sv) token base
                      {| cr_key := Some master_key; cr_row := row |} with
              | (Err e, c) => (Err e, cr_row c)
              | (Ok _, c) => (Ok ("✅ Login successful! Token saved to " +:+ redact_database_url database_url), cr_row c)
              end
          end
      end
  end.

(** A login is for good: after [ilink-hub login] succeeded, a server started with the same
    key on that database, whatever its command line says, uses the token that was scanned
    and asks for no other login; a login that fails leaves the database as it was. *)
Theorem login_then_serve (codecs : Codecs b64_encode b64_decode seal open)
    (key_var connect : option string) (database_url : string) (ilink_base_url : option string)
    (login : LoginScript) (sv : SaveScript) (row row' : option (string * string)) (r : result string string)
    (Hrun : run_login key_var connect database_url ilink_base_url login sv row = Some (r, row'))
    (Hnonce : length (ss_nonce sv) = 12%nat /\ is_bytes (ss_nonce sv)) :
  match r with
  | Err _ => row' = row
  | Ok _ => exists key token, load_or_derive_master_key b64_decode key_var = Some (Ok key) /\
      (LoginClient.login_with_qr_ui (ls_encode login) false (ls_qr login) (ls_replies login)).1 = Ok token /\
      (utf8_valid (to_bytes token) = true -> is_well_formed_bot_token token = true ->
       forall arg url ui login2 sv2, let c := {| cr_key := Some key; cr_row := row' |} in
         resolve_token b64_encode b64_decode seal open arg url ui None login2 sv2 c
         = (Ok (token, unwrap_or ilink_base_url "https://ilinkai.weixin.qq.com"), c))
  end.
Proof.
  revert Hrun. unfold run_login. destruct (load_or_derive_master_key b64_decode key_var) as [[key|e]|]; [| |done].
  2: by intros [= <- <-].
  destruct connect; [by intros [= <- <-]|]. destruct (negb _); [by intros [= <- <-]|].
  destruct (LoginClient.login_with_qr_ui _ _ _ _).1 as [token|e]; [|by intros [= <- <-]].
  set (base := unwrap_or _ _). set (c := {| cr_key := Some key; cr_row := row |}).
  pose proof (save_then_load b64_encode b64_decode seal open codecs sv token base c) as Hload.
  assert (Hc : forall u c', save_bot_credentials b64_encode seal (ss_nonce sv) (ss_fault sv) token base c = (u, c') ->
            cr_key c' = Some key /\ (is_ok u = false -> c' = c)).
  { intros u c'. unfold save_bot_credentials. cbn [cr_key c]. repeat case_match; by intros [= <- <-]. }
  destruct (save_bot_credentials _ _ _ _ _ _ c) as [[u|e] c'] eqn:Es; destruct (Hc _ _ eq_refl) as [Hk Hf]; intros [= <- <-].
  - exists key, token. split; [done|]. split; [done|]. intros Hu Hw arg url ui login2 sv2.
    specialize (Hload c' u (proj1 Hnonce) (proj2 Hnonce) Hu eq_refl). destruct c' as [k row']. cbn in Hk. subst k.
    cbn. unfold resolve_token. rewrite Hload. cbn [ofilter]. by rewrite Hw.
  - by rewrite Hf.
Qed.
End Login.

(** ** Addresses *)
Section Addresses.
Context {U : Type} `{UrlOps U} (var : string -> option string).

(** Server and clients agree: with only [ILINK_HUB_ADDR] set, to a host and a port, the
    server listens on it and the client commands call it. *)
Lemma client_finds_server v : var "WEIXIN_BASE_URL" = None -> var "ILINK_HUB_URL" = None ->
  var "ILINK_HUB_ADDR" = Some v -> contains ":" (trim v) = true ->
  (forall u, url_parse (trim v) = Some u -> url_host u = None) ->
  starts_with "http://" (trim v) || starts_with "https://" (trim v) = false ->
  serve_addr var None = trim v /\ hub_url var None = "http://" +:+ trim v.
Proof.
  intros E1 E2 E3 Hc Hu Hs.
  assert (Hb : is_empty (trim v) = false) by (by destruct (trim v)).
  assert (Hp : forall t, trim t = trim v -> parse_host_port t = Some (trim v)).
  { intros t Ht. unfold parse_host_port. rewrite Ht, Hc. destruct (url_parse (trim v)) as [u|] eqn:Eu; [|done].
    by rewrite (Hu u eq_refl). }
  unfold serve_addr, hub_url, arg, get_addr_default, get_hub_url_default, nonblank, extract_host_port.
  rewrite E1, E2, E3. cbn [or_else unwrap_or ofilter mbind option_bind]. rewrite Hb. cbn [negb].
  rewrite (Hp v) by done. cbn [unwrap_or]. rewrite Hs, (Hp (trim v)) by apply trim_trim. done.
Qed.

(** The defaults treat a blank variable as unset, but a variable that is set is taken
    before the default is asked: an empty [WEIXIN_BASE_URL] makes the server listen on the
    empty address, whatever [ILINK_HUB_ADDR] says. *)
Lemma blank_variable_wins : url_parse "" = None -> var "WEIXIN_BASE_URL" = Some "" -> serve_addr var None = "".
Proof. intros Hu E. unfold serve_addr, arg, extract_host_port, parse_host_port. rewrite E. cbn. by rewrite Hu. Qed.
End Addresses.

(** The client commands append the path to the URL as it is: with a slash at its end, the
    path they ask for is not in the table. *)
Lemma trailing_slash_not_found :
  route_request POST "/hub/register" = Found ERegister [] /\ route_request POST ("/" +:+ "/hub/register") = NotFound.
Proof. split; vm_compute; reflexivity. Qed.
