(* ===== verification/ShellCommands.v ===== *)
(** * The desktop shell's hub commands
    ([desktop/ilink-hub-desktop/src-tauri/src/hub_commands.rs])

    The panels of the shell: clients, statistics, registration, removal, update. Some ask
    the embedded hub over HTTP, some work on its state. The answers of HTTP requests and the
    JSON decoder are arguments. *)
From S2P Require Import Prelude StrLemmas Types Queue Router VToken Registry Acl PollTracker Store Hub RateLimit MetricsHttp HubLemmas Admin AdminApi MetricsProps Desktop.
From Stdlib Require Import Ascii.
Import Str ListenAddr.
Local Open Scope hub_scope.

(** ** Requests *)

Record Request := { q_url : string; q_auth : option string }.

(** What a request comes back with: nothing, or a status and a body that may be
    unreadable. *)
Inductive Reply := NoReply (e : string) | Answered (status : Z) (body : result string string).

Definition is_success (status : Z) : bool := ((200 <=? status) && (status <? 300))%Z.

(** The header from [ILINK_ADMIN_TOKEN]. *)
Definition admin_header (token : option string) : option string :=
  (fun t => "Bearer " +:+ t) <$> ofilter (fun t => negb (is_empty t)) token.

Definition endpoint (listen path : string) : string :=
  trim_end_matches "/"%char (loopback_hub_origin listen) +:+ path.

(** [listening]: [None] without a controller, [Some None] while the hub does not listen. *)
Definition Listening := option (option string).

(** ** Clients *)

Record HubClientRow := { cr_name : string; cr_label : option string; cr_online : bool; cr_vtoken : string }.

Record RawClient := { raw_name : string; raw_label : option string; raw_online : bool; raw_vtoken : option string }.

Record HubClientsPayload := {
  hc_listening : bool;
  hc_clients : list HubClientRow;
  hc_auth_required : bool;
  hc_error : option string;
}.

Definition clients_error (listening auth : bool) (error : option string) : HubClientsPayload :=
  {| hc_listening := listening; hc_clients := []; hc_auth_required := auth; hc_error := error |}.

Definition client_row (c : RawClient) : HubClientRow :=
  {| cr_name := raw_name c; cr_label := raw_label c; cr_online := raw_online c;
     cr_vtoken := unwrap_or (raw_vtoken c) "" |}.

Section Http.
Context (clients_from_json : string -> result (option (list RawClient)) string).

Definition hub_clients (listening : Listening) (builder : option string) (token : option string) (reply : Reply)
    : option Request * HubClientsPayload :=
  match listening with
  | None => (None, clients_error false false (Some "Hub 未初始化"))
  | Some None => (None, clients_error false false None)
  | Some (Some listen) =>
      match builder with
      | Some e => (None, clients_error true false (Some e))
      | None =>
          (Some {| q_url := endpoint listen "/hub/clients"; q_auth := admin_header token |},
           match reply with
           | NoReply e => clients_error true false (Some ("请求失败: " +:+ e))
           | Answered status body =>
               if (status =? 401)%Z then clients_error true true None else
               if negb (is_success status) then
                 clients_error true false (Some ("拉取客户端列表失败（HTTP " +:+ show_u64 status +:+ "）"))
               else match body with
                    | Err e => clients_error true false (Some ("解析响应失败: " +:+ e))
                    | Ok text =>
                        match clients_from_json text with
                        | Err e => clients_error true false (Some ("解析响应失败: " +:+ e))
                        | Ok cs => {| hc_listening := true; hc_clients := client_row <$> unwrap_or cs [];
                                      hc_auth_required := false; hc_error := None |}
                        end
                    end
           end)
      end
  end.
End Http.

(** ** Statistics *)

(** [str::lines]: pieces between line feeds, without a carriage return at their end; what
    follows the last line feed only if it is not empty. *)
Definition chomp (s : string) : string := unwrap_or (strip_suffix (String "013" "") s) s.

Fixpoint drop_last_empty (l : list string) : list string :=
  match l with
  | [] => []
  | [x] => if is_empty x then [] else [x]
  | x :: l => x :: drop_last_empty l
  end.

Definition lines (s : string) : list string := chomp <$> drop_last_empty (split nl s).

(** [str::split_whitespace], the first word. *)
Fixpoint take_while {A} (p : A -> bool) (l : list A) : list A :=
  match l with [] => [] | x :: l => if p x then x :: take_while p l else [] end.

Definition first_word (s : string) : option string :=
  match drop_while is_whitespace (chars s) with
  | [] => None
  | l => Some (concat (take_while (fun c => negb (is_whitespace c)) l))
  end.

Fixpoint find_sample (prefix : string) (l : list string) : option Z :=
  match l with
  | [] => None
  | line :: l =>
      let line := trim line in
      if starts_with "#" line || is_empty line then find_sample prefix l else
      match strip_prefix prefix line with
      | Some rest => if contains "{" rest then find_sample prefix l else first_word rest ≫= parse_u64
      | None => find_sample prefix l
      end
  end.

Definition parse_prometheus_simple_counter (body name : string) : option Z := find_sample (name +:+ " ") (lines body).

Record HubStatsPayload := {
  hs_listening : bool;
  hs_error : option string;
  hs_clients_online : option Z;
  hs_clients_total : option Z;
  hs_messages_dispatched : option Z;
  hs_upstream_user_messages : option Z;
}.

Definition stats_error (listening : bool) (error : option string) : HubStatsPayload :=
  {| hs_listening := listening; hs_error := error; hs_clients_online := None; hs_clients_total := None;
     hs_messages_dispatched := None; hs_upstream_user_messages := None |}.

Definition read_stats (body : string) : HubStatsPayload :=
  {| hs_listening := true; hs_error := None;
     hs_clients_online := parse_prometheus_simple_counter body "ilink_hub_clients_online";
     hs_clients_total := parse_prometheus_simple_counter body "ilink_hub_clients_total";
     hs_messages_dispatched := parse_prometheus_simple_counter body "ilink_hub_messages_dispatched_total";
     hs_upstream_user_messages := parse_prometheus_simple_counter body "ilink_hub_upstream_user_messages_total" |}.

Definition hub_stats (listening : Listening) (builder : option string) (reply : Reply)
    : option Request * HubStatsPayload :=
  match listening with
  | None => (None, stats_error false (Some "Hub 未初始化"))
  | Some None => (None, stats_error false None)
  | Some (Some listen) =>
      match builder with
      | Some e => (None, stats_error true (Some e))
      | None =>
          (Some {| q_url := endpoint listen "/metrics"; q_auth := None |},
           match reply with
           | NoReply e => stats_error true (Some ("请求失败: " +:+ e))
           | Answered status body =>
               if negb (is_success status) then
                 stats_error true (Some ("拉取指标失败（HTTP " +:+ show_u64 status +:+ "）"))
               else match body with
                    | Err e => stats_error true (Some ("读取指标正文失败: " +:+ e))
                    | Ok text => read_stats text
                    end
           end)
      end
  end.

(** ** Registration *)

Record RegisterResult := {
  rg_ok : bool;
  rg_vtoken : option string;
  rg_base_url : option string;
  rg_auth_required : bool;
  rg_error : option string;
}.

Definition register_err (auth_required : bool) (error : string) : RegisterResult :=
  {| rg_ok := false; rg_vtoken := None; rg_base_url := None; rg_auth_required := auth_required; rg_error := Some error |}.

Record RegBody := { rb_ret : Z; rb_vtoken : option string; rb_errmsg : option string }.

Definition nonempty_label (l : option string) : option string := ofilter (fun l => negb (is_empty l)) (trim <$> l).

(** The request carries the trimmed name and label. *)
Definition hub_register (body_from_json : string -> result RegBody string) (name : string) (label : option string)
    (listening : Listening) (builder token : option string) (reply : Reply)
    : option (Request * string * option string) * RegisterResult :=
  let name := trim name in
  if is_empty name then (None, register_err false "请填写后端名称") else
  let label := nonempty_label label in
  match listening with
  | None => (None, register_err false "Hub 未初始化")
  | Some None => (None, register_err false "服务尚未就绪，请稍候再注册")
  | Some (Some listen) =>
      match builder with
      | Some e => (None, register_err false e)
      | None =>
          (Some ({| q_url := endpoint listen "/hub/register"; q_auth := admin_header token |}, name, label),
           match reply with
           | NoReply e => register_err false ("请求失败: " +:+ e)
           | Answered status body =>
               if (status =? 401)%Z then
                 register_err true "Hub 已启用 ILINK_ADMIN_TOKEN，桌面端需在相同环境变量下启动才能注册。"
               else match (try text := body in body_from_json text) with
                    | Err e => register_err false ("解析响应失败: " +:+ e)
                    | Ok b =>
                        if (rb_ret b =? 0)%Z then
                          {| rg_ok := true; rg_vtoken := rb_vtoken b;
                             rg_base_url := Some (trim_end_matches "/"%char (loopback_hub_origin listen));
                             rg_auth_required := false; rg_error := None |}
                        else register_err false (unwrap_or (rb_errmsg b) "注册失败")
                    end
           end)
      end
  end.

(** ** Removal and update *)

Record ClientResult := { ct_ok : bool; ct_name : option string; ct_auth_required : bool; ct_error : option string }.

Definition client_err (error : string) : ClientResult :=
  {| ct_ok := false; ct_name := None; ct_auth_required := false; ct_error := Some error |}.

Section Local.
Context {Q L : Type} `{MessageQueue Q}.

(** [hub_state_from_app]: the two ways in which there is no state. *)
Inductive Missing := NotInitialized | NotReady.

Definition missing_text (m : Missing) : string :=
  match m with NotInitialized => "Hub 未初始化" | NotReady => "服务尚未就绪，请稍候再试" end.

Definition hub_delete_client (missing : option Missing) (name : string) : hub Q L ClientResult :=
  let name := trim name in
  if is_empty name then ret (client_err "请指定要删除的后端名称") else
  match missing with
  | Some m => ret (client_err (missing_text m))
  | None =>
      let* r := unregister_client_in_hub name true in
      ret (match r with
           | Ok _ => {| ct_ok := true; ct_name := None; ct_auth_required := false; ct_error := None |}
           | Err UnknownClient => client_err ("未找到后端「" +:+ name +:+ "」")
           | Err StillOnline => client_err ("后端「" +:+ name +:+ "」仍在线，请先停止对应进程后再删除")
           | Err (UnregisterStore e) => client_err ("删除失败: " +:+ e)
           end)
  end.

(** The persona fields are read back from the registry, since the update overwrites the
    stored ones. *)
Definition hub_update_client (missing : option Missing) (old_name name : string) (label : option string)
    : hub Q L ClientResult :=
  let old_name := trim old_name in
  let name := trim name in
  if is_empty old_name then ret (client_err "请指定要修改的后端名称") else
  if is_empty name then ret (client_err "请填写后端名称") else
  let label := nonempty_label label in
  match missing with
  | Some m => ret (client_err (missing_text m))
  | None =>
      let* c := reads (fun w => get_by_name (w_registry w) old_name) in
      match c with
      | None => ret (client_err ("未找到后端「" +:+ old_name +:+ "」"))
      | Some info =>
          let* r := update_client_in_hub old_name name label (persona_name info) (persona_emoji info) in
          ret (match r with
               | Ok _ => {| ct_ok := true; ct_name := Some name; ct_auth_required := false; ct_error := None |}
               | Err UpdateUnknown => client_err ("未找到后端「" +:+ old_name +:+ "」")
               | Err UpdateNameTaken => client_err ("名称「" +:+ name +:+ "」已被占用")
               | Err InvalidName => client_err "后端名称不能为空"
               | Err (UpdateStore e) => client_err ("更新失败: " +:+ e)
               end)
      end
  end.
End Local.
