(* ===== verification/ShellProps.v ===== *)
(** * Properties of the desktop shell's hub commands

    The statistics panel shows the numbers of the hub's metrics page; the update panel keeps
    the persona; the removal panel removes. *)
From S2P Require Import Prelude StrLemmas Types Queue Router VToken Registry Acl PollTracker Store StoreProps Hub RateLimit MetricsHttp HubLemmas Admin AdminApi AdminProps MetricsProps Desktop ShellCommands.
From Stdlib Require Import Ascii.
Import Str ListenAddr.
Local Open Scope hub_scope.

(** ** Lines *)

Lemma drop_last_empty_cons x l : l <> [] -> drop_last_empty (x :: l) = x :: drop_last_empty l.
Proof. by destruct l. Qed.

Lemma lines_cons a rest : no_byte "010" a = true -> lines (a +:+ nl +:+ rest) = chomp a :: lines rest.
Proof.
  intros Ha. unfold lines. pose proof (split_sep "010" "" "" eq_refl a rest Ha) as E.
  change ("" +:+ String "010" "") with nl in E. rewrite E, drop_last_empty_cons; [done|apply split_go_nonempty].
Qed.

(** A text that starts with a character that is not white space. *)
Definition solid (s : string) : bool :=
  match s with "" => false | String a _ => is_ascii a && negb (is_ascii_ws a) end.

Lemma solid_lead a r : is_ascii a && negb (is_ascii_ws a) = true -> is_whitespace (String a r) = false.
Proof.
  intros [Ha Hw]%andb_true_iff. apply negb_true_iff in Hw. destruct r as [|b r]; [done|].
  destruct a as [[] [] [] [] [] [] [] []]; try discriminate Ha; try discriminate Hw; reflexivity.
Qed.

Lemma drop_while_snoc {A} (p : A -> bool) l x : p x = false -> exists k, drop_while p (l ++ [x]) = k ++ [x].
Proof.
  intros Hx. induction l as [|y l [k IH]]; cbn.
  - rewrite Hx. by exists [].
  - destruct (p y); [by exists k|by exists (y :: l)].
Qed.

Lemma concat_app l k : concat (l ++ k) = concat l +:+ concat k.
Proof. induction l as [|x l IH]; cbn; [done|]. unfold concat in *. by rewrite IH, append_assoc. Qed.

(** Trimming such a text keeps its head and cuts at its end. *)
Lemma trim_cut a s : solid (String a s) = true ->
  exists t b, trim (String a s) = String a t /\ String a s = String a t +:+ b.
Proof.
  intros Hs. pose proof (solid_lead a) as Hl. cbn [solid] in Hs. unfold trim.
  destruct (chars_head a s) as (r & cs & E). rewrite E. cbn [drop_while]. rewrite Hl by done.
  set (x := String a r) in *.
  assert (Hx : is_whitespace x = false) by by apply Hl.
  destruct (rev_drop_while is_whitespace (x :: cs)) as [k Hk].
  destruct k as [|k].
  - exfalso. cbn [rev] in Hk. destruct (drop_while_snoc is_whitespace (rev cs) x Hx) as [m Em].
    rewrite Em, rev_unit in Hk. done.
  - rewrite Hk. cbn [firstn take]. exists (r +:+ concat (take k cs)), (concat (drop k cs)).
    change (concat (x :: ?l)) with (x +:+ concat l). split; [done|].
    rewrite <- (concat_chars (String a s)), E. change (concat (x :: ?l)) with (x +:+ concat l).
    rewrite <- (take_drop k cs) at 1. rewrite concat_app, <- append_assoc. done.
Qed.

Lemma substring_slice n s : s = String.substring 0 n s +:+ slice_from n s.
Proof.
  revert s. induction n as [|n IH]; intros [|a s]; [done|done|done|].
  cbn [String.substring slice_from]. rewrite append_cons. by rewrite <- IH.
Qed.

Lemma chomp_cut a s : solid (String a s) = true ->
  exists t b, chomp (String a s) = String a t /\ String a s = String a t +:+ b.
Proof.
  intros Hs. unfold chomp, strip_suffix.
  destruct (_ && _) eqn:Ec; cbn [unwrap_or]; [|exists s, ""; by rewrite append_nil_r]. apply andb_true_iff in Ec as [_ Ec%String.eqb_eq].
  unfold len in *. cbn [String.length] in *. rewrite Nat.sub_succ, Nat.sub_0_r in *.
  destruct (String.length s) as [|n] eqn:El.
  - cbn [slice_from] in Ec. injection Ec as -> _. done.
  - exists (String.substring 0 n s), (slice_from n s). split; [done|].
    by rewrite append_cons, <- substring_slice.
Qed.

(** The line a reader looks at is the start of what was printed. *)
Lemma read_line_cut s : solid s = true ->
  exists a t b, trim (chomp s) = String a t /\ s = String a t +:+ b.
Proof.
  destruct s as [|a s]; [done|]. intros Hs. destruct (chomp_cut a s Hs) as (t & b & -> & E).
  destruct (trim_cut a t) as (u & d & -> & Eu); [done|].
  exists a, u, (d +:+ b). split; [done|]. by rewrite <- append_assoc, <- Eu.
Qed.

(** ** Passing over what is not the sample *)

Definition skips (prefix block : string) : Prop :=
  forall rest, find_sample prefix (lines (block +:+ rest)) = find_sample prefix (lines rest).

Lemma skips_line prefix a : solid a = true -> no_byte "010" a = true ->
  starts_with "#" a || negb (starts_with prefix a) = true -> skips prefix (a +:+ nl).
Proof.
  intros Hs Hn Hp rest. rewrite append_assoc, lines_cons by done. cbn [find_sample].
  destruct (read_line_cut a Hs) as (c & t & b & -> & ->).
  apply orb_true_iff in Hp as [Hp|Hp].
  - replace (starts_with "#" (String c t)) with true; [done|]. symmetry.
    rewrite append_cons in Hp. unfold starts_with in *. cbn [strip_prefix] in *. destruct (_ =? _)%char; done.
  - destruct (starts_with "#" (String c t)); [done|]. cbn [orb is_empty].
    destruct (strip_prefix prefix (String c t)) as [r|] eqn:E; [|done].
    apply strip_prefix_Some in E. rewrite E, append_assoc, starts_with_app in Hp. done.
Qed.

Lemma skips_app prefix a b : skips prefix a -> skips prefix b -> skips prefix (a +:+ b).
Proof. intros Ha Hb rest. by rewrite append_assoc, Ha, Hb. Qed.

Lemma skips_concat prefix l : Forall (skips prefix) l -> skips prefix (concat l).
Proof.
  induction 1 as [|a l Ha _ IH]; [by intros rest|]. change (concat (a :: l)) with (a +:+ concat l).
  by apply skips_app.
Qed.

Lemma skips_help prefix n help kind :
  no_byte "010" n = true -> no_byte "010" help = true -> no_byte "010" kind = true ->
  skips prefix (help_and_type n help kind).
Proof.
  intros Hn Hh Hk. unfold help_and_type.
  rewrite (ltac:(rewrite !append_assoc; reflexivity) :
    "# HELP " +:+ n +:+ " " +:+ help +:+ nl +:+ "# TYPE " +:+ n +:+ " " +:+ kind +:+ nl
    = (("# HELP " +:+ n +:+ " " +:+ help) +:+ nl) +:+ (("# TYPE " +:+ n +:+ " " +:+ kind) +:+ nl)).
  apply skips_app; apply skips_line; try done; rewrite !no_byte_app; by rewrite Hn, ?Hh, ?Hk.
Qed.


Lemma digits_no_byte a s : is_digit a = false -> all_bytes is_digit s = true -> no_byte a s = true.
Proof.
  intros Ha. rewrite no_byte_all_bytes. apply all_bytes_impl. intros b Hb.
  destruct (Ascii.eqb_spec a b); [by subst; congruence|done].
Qed.

Lemma show_no_nl n : no_byte "010" (show_u64 n) = true.
Proof.
  apply digits_no_byte; [done|]. unfold show_u64. generalize 20%nat, "", (eq_refl : all_bytes is_digit "" = true).
  intros f. revert n. induction f as [|f IH]; intros n acc Ha; [done|]. cbn [show_go].
  assert (Hd : is_digit (digit (n mod 10)) = true) by (apply digit_spec, Z.mod_pos_bound; lia).
  destruct (n <? 10)%Z; [|apply IH]; cbn; by rewrite Hd.
Qed.

(** A sample of another family. *)
Lemma skips_sample prefix n v : solid n = true -> no_byte "010" n = true -> no_byte "010" v = true ->
  starts_with prefix (n +:+ v) = false -> skips prefix (n +:+ v +:+ nl).
Proof.
  intros Hs Hn Hv Hp. rewrite <- append_assoc. apply skips_line.
  - by destruct n.
  - by rewrite no_byte_app, Hn, Hv.
  - rewrite Hp. apply orb_true_r.
Qed.

(** A whole counter, whose base name the creation line repeats. *)
Lemma skips_counter prefix n help v created :
  let base := unwrap_or (strip_suffix "_total" n) n in
  no_byte "010" base = true -> no_byte "010" help = true -> no_byte "010" created = true ->
  solid n = true -> no_byte "010" n = true -> solid base = true ->
  starts_with prefix (n +:+ " " +:+ show_u64 v) = false ->
  starts_with prefix (base +:+ "_created " +:+ created) = false ->
  skips prefix (render_counter n help v created).
Proof.
  intros base Hb Hh Hc Hs Hn Hsb P1 P2. unfold render_counter. fold base.
  apply skips_app; [by apply skips_help|].
  rewrite (ltac:(rewrite !append_assoc; reflexivity) :
    n +:+ " " +:+ show_u64 v +:+ nl +:+ base +:+ "_created " +:+ created +:+ nl
    = (n +:+ (" " +:+ show_u64 v) +:+ nl) +:+ (base +:+ ("_created " +:+ created) +:+ nl)).
  apply skips_app; apply skips_sample; try done; rewrite no_byte_app; by rewrite ?show_no_nl, ?Hc.
Qed.

(** A labelled sample, whatever the client is called. *)
Lemma skips_label prefix n c v : solid n = true -> no_byte "010" n = true -> utf8 c = true -> no_byte "010" v = true ->
  (forall t, starts_with prefix (n +:+ "{client=" +:+ t) = false) -> skips prefix (label n c v).
Proof.
  intros Hs Hn Hc Hv Hp. unfold label.
  rewrite (ltac:(rewrite !append_assoc; reflexivity) :
    n +:+ "{client=" +:+ quote +:+ escape_label_value c +:+ quote +:+ "} " +:+ v +:+ nl
    = n +:+ ("{client=" +:+ quote +:+ escape_label_value c +:+ quote +:+ "} " +:+ v) +:+ nl).
  apply skips_sample; [done|done| |apply Hp].
  rewrite !no_byte_app, Hv. rewrite (no_byte_all_bytes _ (escape_label_value c)).
  rewrite (all_bytes_impl (fun a => negb (a =? "010")%char)); [done| |apply (label_roundtrip c Hc)].
  intros a. by rewrite Ascii.eqb_sym.
Qed.

(** ** The sample *)

Lemma first_word_digits s : all_bytes is_digit s = true -> s <> "" -> first_word s = Some s.
Proof.
  intros Hd Hne.
  assert (Ha : all_bytes is_ascii s = true).
  { eapply all_bytes_impl; [|done]. intros a. by destruct a as [[] [] [] [] [] [] [] []]. }
  assert (Hw : Forall (fun c => is_whitespace c = false) (chars s)).
  { rewrite chars_ascii by done. clear Ha Hne. induction s as [|a s IH]; [constructor|].
    cbn [all_bytes] in Hd. apply andb_true_iff in Hd as [Hd1 Hd2]. cbn. constructor; [|by apply IH].
    by destruct a as [[] [] [] [] [] [] [] []]. }
  unfold first_word. rewrite <- (concat_chars s) at 2. rewrite drop_while_id.
  2:{ intros x Hx. destruct Hw as [|y l Hy _]; [done|]. by injection Hx as ->. }
  destruct (chars s) as [|c l] eqn:E.
  { rewrite <- (concat_chars s), E in Hne. done. }
  f_equal. f_equal. clear E. induction Hw as [|y k Hy _ IH]; [done|]. cbn [take_while]. by rewrite Hy, IH.
Qed.

Lemma chomp_id s : no_byte "013" s = true -> chomp s = s.
Proof.
  intros Hs. unfold chomp, strip_suffix. destruct (_ && _) eqn:E; [exfalso|done].
  apply andb_true_iff in E as [_ E%String.eqb_eq]. rewrite (substring_slice (len s - len (String "013" "")) s), E in Hs.
  rewrite no_byte_app in Hs. by rewrite andb_false_r in Hs.
Qed.

Lemma sample_found n v rest : solid n = true -> negb (starts_with "#" n) = true ->
  no_byte "010" n = true -> no_byte "013" n = true -> (0 <= v <= u64_max)%Z ->
  find_sample (n +:+ " ") (lines (n +:+ " " +:+ show_u64 v +:+ nl +:+ rest)) = Some v.
Proof.
  intros Hs Hh Hn Hr Hv.
  assert (Hd : all_bytes is_digit (show_u64 v) = true) by (apply show_u64_digits; lia).
  pose proof (show_u64_nonempty v) as Hne. pose proof (parse_show_u64 v Hv) as Hparse.
  pose proof (show_u64_trim v ltac:(lia)) as Htrim. set (d := show_u64 v) in *.
  rewrite (ltac:(rewrite !append_assoc; reflexivity) : n +:+ " " +:+ d +:+ nl +:+ rest = (n +:+ " " +:+ d) +:+ nl +:+ rest).
  rewrite lines_cons, chomp_id.
  2,3: rewrite !no_byte_app, ?Hn, ?Hr; by apply digits_no_byte.
  assert (E : trim (n +:+ " " +:+ d) = (n +:+ " ") +:+ d).
  { rewrite <- append_assoc. apply trim_app; [| |destruct d as [|a d]; [done|]|done].
    - destruct n as [|a n]; [done|]. rewrite append_cons. intros c Hc.
      destruct (chars_head a (n +:+ " ")) as (r & cs & E). rewrite E in Hc. injection Hc as <-. by apply solid_lead.
    - by destruct n.
    - cbn [all_bytes] in Hd. apply andb_true_iff in Hd as [Hd _]. cbn. by destruct a as [[] [] [] [] [] [] [] []]. }
  cbn [find_sample]. rewrite E, strip_prefix_app, first_word_digits by done.
  replace (starts_with "#" ((n +:+ " ") +:+ d)) with false.
  2:{ symmetry. destruct n as [|a n]; [done|]. unfold starts_with in *. rewrite !append_cons. cbn [strip_prefix] in *.
      by destruct (_ =? _)%char. }
  replace (is_empty ((n +:+ " ") +:+ d)) with false by by destruct n.
  destruct (contains "{" d) eqn:Ec; [exfalso|done].
  apply contains_spec in Ec as (l & r & Ed). rewrite Ed in Hd. by rewrite !all_bytes_app, andb_false_r in Hd.
Qed.

(** The sample of a counter that is rendered with its help. *)
Lemma counter_found n help v created rest : solid n = true -> negb (starts_with "#" n) = true ->
  no_byte "010" n = true -> no_byte "013" n = true -> no_byte "010" help = true ->
  no_byte "010" (unwrap_or (strip_suffix "_total" n) n) = true -> (0 <= v <= u64_max)%Z ->
  find_sample (n +:+ " ") (lines (render_counter n help v created +:+ rest)) = Some v.
Proof.
  intros Hs Hh Hn Hr Hhelp Hb Hv. unfold render_counter. rewrite append_assoc, skips_help by done.
  rewrite !append_assoc. by apply sample_found.
Qed.

(** ** The metrics page *)

Section Page.
Context {Q : Type} (show_f64 : f64 -> string).

(** Every name a label may carry is text. *)
Definition names_utf8 (names : gmap string string) : Prop := map_Forall (fun _ n => utf8 n = true) names.

Lemma client_name_utf8 names vt : names_utf8 names -> utf8 (client_name names vt) = true.
Proof. intros H. unfold client_name. destruct (names !! vt) as [n|] eqn:E; [|done]. cbn. by eapply H. Qed.

Lemma collapse_keys entries names c v : names_utf8 names -> collapse_by_client entries names !! c = Some v -> utf8 c = true.
Proof.
  intros Hn. unfold collapse_by_client.
  assert (H0 : map_Forall (fun k _ => utf8 k = true) (∅ : gmap string Z)) by apply map_Forall_empty.
  revert H0. generalize (∅ : gmap string Z). induction entries as [|[vt n] l IH]; intros m Hm; [intros E; by apply Hm in E|].
  cbn [foldl]. apply IH. apply map_Forall_insert_2; [|done]. by apply client_name_utf8.
Qed.

Lemma by_key_lookup (m : gmap string Z) p : p ∈ by_key m -> m !! p.1 = Some p.2.
Proof.
  unfold by_key. rewrite merge_sort_Permutation. destruct p as [k v]. apply elem_of_map_to_list.
Qed.

Lemma skips_rejected prefix m names : names_utf8 names ->
  (forall t, starts_with prefix ("ilink_hub_messages_rejected_total" +:+ "{client=" +:+ t) = false) ->
  skips prefix (concat (rejected_lines m names)).
Proof.
  intros Hn Hp. apply skips_concat, Forall_fmap, Forall_forall. intros p Hin%by_key_lookup.
  apply skips_label; [done|done| |apply show_no_nl|done]. by eapply collapse_keys.
Qed.

(** Passing over an unlabelled sample at the head of the page. *)
Ltac pass_sample n v :=
  match goal with |- find_sample ?p (lines (n +:+ v +:+ nl +:+ ?rest)) = _ =>
    rewrite (ltac:(rewrite !append_assoc; reflexivity) : n +:+ v +:+ nl +:+ rest = (n +:+ v +:+ nl) +:+ rest);
    rewrite (skips_sample p n v) by (apply show_no_nl || reflexivity)
  end.

(** Passing over the two gauges at the top. *)
Ltac pass_gauges w :=
  rewrite skips_help by done;
  pass_sample "ilink_hub_clients_online " (show_nat (length (online_clients (w_registry w))));
  rewrite skips_help by done;
  pass_sample "ilink_hub_clients_total " (show_nat (length (all_clients (w_registry w)))).

(** The panel shows what the page says: the reader finds, on the page the hub renders for
    its state, the number of online clients, the number of clients and the two message
    counters, whatever the clients are called. *)
Theorem stats_read_back (w : World Q VtokenRateLimiter) (sizes : result (gmap string nat) HubError) (g : Gauges)
    (Hnames : names_utf8 (client_names (w_registry w)))
    (Hcreated : no_byte "010" (g_created g) = true)
    (Hclients : (Z.of_nat (length (all_clients (w_registry w))) <= u64_max)%Z)
    (Hd : (0 <= messages_dispatched (w_metrics w) <= u64_max)%Z)
    (Hu : (0 <= upstream_user_messages (w_metrics w) <= u64_max)%Z) :
  read_stats (metrics show_f64 w sizes g).2 =
  {| hs_listening := true; hs_error := None;
     hs_clients_online := Some (Z.of_nat (length (online_clients (w_registry w))));
     hs_clients_total := Some (Z.of_nat (length (all_clients (w_registry w))));
     hs_messages_dispatched := Some (messages_dispatched (w_metrics w));
     hs_upstream_user_messages := Some (upstream_user_messages (w_metrics w)) |}.
Proof.
  assert (Hon : (Z.of_nat (length (online_clients (w_registry w))) <= u64_max)%Z).
  { etransitivity; [|exact Hclients]. apply inj_le. unfold online_clients, all_clients, all_clients_in.
    generalize (clients (w_registry w)). intros l. induction l as [|x l IH]; cbn; [lia|]. case_match; cbn; lia. }
  unfold read_stats, parse_prometheus_simple_counter, metrics. cbn [snd].
  f_equal.
  - rewrite skips_help by done. apply (sample_found "ilink_hub_clients_online"); [done..|lia].
  - rewrite skips_help by done. pass_sample "ilink_hub_clients_online " (show_nat (length (online_clients (w_registry w)))).
    rewrite skips_help by done. apply (sample_found "ilink_hub_clients_total"); [done..|lia].
  - pass_gauges w. by apply counter_found.
  - pass_gauges w. do 2 (rewrite skips_counter by done). rewrite skips_help by done.
    rewrite skips_rejected by done. rewrite skips_counter by done. by apply counter_found.
Qed.
End Page.

(** ** Removal and update *)

Section Clients.
Context {Q L : Type} `{MessageQueue Q}.
Implicit Types w : World Q L.

(** A registry entry under its new name and label. *)
Lemma update_client_ok r old new l v r' : registry_wf r -> update_client r old new l = (Ok v, r') ->
  exists i, get_by_name r old = Some i /\ vtoken i = v /\ get_by_name r' new = Some (relabel new l i).
Proof.
  intros Hwf. unfold update_client, get_by_name. destruct (by_name r !! old) as [u|] eqn:E; [|done].
  destruct (wf_name _ Hwf _ _ E) as (i & Hi & Hn). destruct (wf_vtoken _ Hwf _ _ Hi) as [Hv _].
  case_bool_decide as Hne; cbn [andb].
  - case_bool_decide; [done|]. rewrite Hi. intros [= <- <-]. exists i. cbn.
    rewrite Hi, lookup_insert_eq. cbn. by rewrite lookup_insert_eq.
  - subst new. rewrite Hi. intros [= <- <-]. exists i. cbn.
    rewrite Hi, E. cbn. rewrite lookup_insert_eq. by rewrite Hn.
Qed.

Lemma set_persona_same r n i : registry_wf r -> get_by_name r n = Some i ->
  get_by_name (set_persona r (vtoken i) (persona_name i) (persona_emoji i)) n = Some i.
Proof.
  intros Hwf. unfold get_by_name. cbn. destruct (by_name r !! n) as [v|]; [|done]. cbn. intros Hi.
  destruct (wf_vtoken _ Hwf _ _ Hi) as [Hv _]. rewrite Hv, lookup_alter_eq, Hi. cbn. f_equal.
  destruct i as [? ? ? ? ? ? pn pe]. cbn. by destruct pn, pe.
Qed.

(** The rows of a token after the two writes of an update. *)
Lemma updated_rows vt n l pn pe s s' c : update_client_by_vtoken vt n l s = Some s' ->
  c ∈ clients_t (update_client_persona vt pn pe s') -> c_vtoken c = vt ->
  c_name c = n /\ c_persona_name c = pn /\ c_persona_emoji c = pe.
Proof.
  unfold update_client_by_vtoken. case_match; [done|]. intros [= <-].
  cbn. intros (c1 & -> & (c2 & -> & _)%list_elem_of_fmap)%list_elem_of_fmap.
  destruct (String.eqb_spec (c_vtoken c2) vt) as [E|E]; cbn.
  - rewrite E, String.eqb_refl. done.
  - rewrite (proj2 (String.eqb_neq _ _) E). done.
Qed.

(** A rename from the panel changes the name and the label and nothing else: the entry keeps
    its token, persona, description and status, and the stored row of its token carries the
    new name and the persona of the entry. *)
Theorem panel_update_keeps_persona (w : World Q L) (old_name name : string) (label : option string)
    (Hh : healthy w) (Hwf : registry_wf (w_registry w))
    (Hok : ct_ok (hub_update_client None old_name name label w).1 = true) :
  let w' := (hub_update_client None old_name name label w).2 in
  exists i, get_by_name (w_registry w) (trim old_name) = Some i /\
    get_by_name (w_registry w') (trim name) = Some (relabel (trim name) (nonempty_label label) i) /\
    Forall (fun c => c_vtoken c = vtoken i -> c_name c = trim name /\
              c_persona_name c = persona_name i /\ c_persona_emoji c = persona_emoji i)
      (clients_t (w_store w')).
Proof.
  revert Hok. unfold hub_update_client. destruct (is_empty (trim old_name)); [done|].
  destruct (is_empty (trim name)) eqn:En; [done|]. rewrite !bind_run. unfold reads. cbn [fst snd].
  destruct (get_by_name (w_registry w) (trim old_name)) as [i|] eqn:Ei; [|done].
  rewrite !bind_run. unfold update_client_in_hub. rewrite trim_trim, En, !bind_run. unfold on_registry.
  destruct (update_client _ _ _ _) as [[v|[]] r'] eqn:Eu; [|done|done].
  destruct (update_client_ok _ _ _ _ _ _ Hwf Eu) as (j & Hj & <- & Hr). rewrite Hj in Ei. injection Ei as ->.
  cbn [fst snd]. rewrite !bind_run, write_healthy by done.
  cbn [w_store with_registry]. destruct (update_client_by_vtoken _ _ _ _) as [s'|] eqn:Es; [|done].
  cbn [fst snd]. rewrite !bind_run, db_healthy by done. cbn. intros _. exists i. split; [done|]. split.
  - pose proof (update_wf (trim old_name) (trim name) (nonempty_label label) _ Hwf) as Hwf'.
    rewrite Eu in Hwf'. exact (set_persona_same _ _ _ Hwf' Hr).
  - apply Forall_forall. intros c Hc Hv. by eapply updated_rows.
Qed.

(** Removal from the panel is forced, so an online backend is removed too, and on a healthy
    database it fails only for a name nobody has. *)
Theorem panel_delete_exact (w : World Q L) (name : string) (Hh : healthy w) (Hname : is_empty (trim name) = false) :
  let r := hub_delete_client None name w in
  let known := is_Some (get_by_name (w_registry w) (trim name)) in
  (ct_ok r.1 = true <-> known) /\
  (ct_ok r.1 = false -> r = (client_err ("未找到后端「" +:+ trim name +:+ "」"), w)) /\
  get_by_name (w_registry r.2) (trim name) = None /\
  (known -> Forall (fun c => c_name c <> trim name) (clients_t (w_store r.2))).
Proof.
  unfold hub_delete_client. rewrite Hname, bind_run. unfold unregister_client_in_hub. rewrite bind_run. unfold reads.
  cbn [fst snd]. destruct (get_by_name (w_registry w) (trim name)) as [i|] eqn:Ei.
  2:{ cbn. split; [split; [done|by intros [??]]|]. split; [done|]. split; [done|]. by intros [??]. }
  rewrite andb_false_r, bind_run. unfold on_registry, remove, get_by_name in *.
  destruct (by_name (w_registry w) !! trim name) as [v|]; [|done].
  cbn [fst snd negb]. unfold drop_queue, forget_last_seen, changes.
  do 4 (rewrite ?bind_run; cbn [fst snd]). rewrite db_healthy by done. cbn [fst snd exec].
  rewrite bind_run, db_healthy by done. cbn. split; [done|]. split; [done|]. split.
  - by rewrite lookup_delete_eq.
  - intros _. apply Forall_forall. intros c [_ Hc]%list_elem_of_In%filter_In. by apply negb_true_iff, String.eqb_neq in Hc.
Qed.
End Clients.

(** ** Instances *)

(** The statistics panel sends no credential, and the page is behind the admin guard: on a
    hub with an admin token the panel always shows an error. *)
Lemma stats_never_authorized (w : World InMemoryQueue unit) (listen t : string) (m : hub InMemoryQueue unit string)
    (Ht : admin_token (w_admin w) = Some t) (Hne : is_empty t = false) :
  exists q, (hub_stats (Some (Some listen)) None (Answered 401 (Ok ""))).1 = Some q /\
    (guarded (q_auth q) m w).1 = Err (401%Z, unauthorized_body) /\
    (hub_stats (Some (Some listen)) None (Answered 401 (Ok ""))).2
    = stats_error true (Some ("拉取指标失败（HTTP 401）")).
Proof.
  eexists. split; [reflexivity|]. split; [|reflexivity]. unfold guarded. rewrite bind_run. unfold reads.
  cbn [fst snd q_auth]. unfold check_admin_auth. rewrite Ht. by destruct t.
Qed.

Definition panel_world : World InMemoryQueue VtokenRateLimiter :=
  {| w_registry := sample_registry; w_router := Router_new None; w_queue := InMemoryQueue_new;
     w_store := Store_new Sqlite 60; w_metrics := bump Dispatched (bump Dispatched (bump UserMessage Metrics_new));
     w_acl := AgentAcl_default; w_admin := w_admin admin_world; w_tracker := w_tracker admin_world;
     w_limiter := sample_limiter; w_last_seen := ∅; w_waiters := ∅; w_outbox := []; w_tasks := []; w_msg_counter := 0;
     w_web := w_web admin_world; w_env := w_env admin_world |}.

Definition panel_gauges : Gauges :=
  {| g_polls_ok := 5; g_polls_err := 0; g_relogins := 1; g_sendmessage := LatencyHistogram_new; g_created := "1767225600" |}.

Lemma stats_read_back_witness :
  hs_messages_dispatched (read_stats (metrics (fun _ => "3") panel_world (Ok ∅) panel_gauges).2) = Some 2%Z /\
  hs_upstream_user_messages (read_stats (metrics (fun _ => "3") panel_world (Ok ∅) panel_gauges).2) = Some 1%Z /\
  hs_clients_total (read_stats (metrics (fun _ => "3") panel_world (Ok ∅) panel_gauges).2) = Some 1%Z.
Proof.
  rewrite (stats_read_back (fun _ => "3") panel_world (Ok ∅) panel_gauges).
  - split; [|split]; vm_compute; reflexivity.
  - intros v n. unfold client_names. rewrite lookup_fmap, fmap_Some. intros (i & Hi & ->). by eapply sample_registry_clients.
  - reflexivity.
  - vm_compute. discriminate.
  - vm_compute. split; discriminate.
  - vm_compute. split; discriminate.
Defined.

Lemma panel_update_keeps_persona_witness :
  let w' := (hub_update_client None "mac " "studio" (Some " ") admin_world).2 in
  exists i, get_by_name (w_registry w') "studio" = Some (relabel "studio" None i) /\ vtoken i = "06".
Proof.
  intros w'. destruct (panel_update_keeps_persona admin_world "mac " "studio" (Some " ")) as (i & Hi & Hn & _).
  - reflexivity.
  - apply register_wf; [reflexivity|apply new_wf].
  - vm_compute. reflexivity.
  - exists i. split; [exact Hn|]. change (trim "mac ") with "mac" in Hi. vm_compute in Hi. by injection Hi as <-.
Defined.

Lemma panel_delete_exact_witness :
  ct_ok (hub_delete_client None "mac" admin_world).1 = true /\ ct_ok (hub_delete_client None "zed" admin_world).1 = false.
Proof.
  split.
  - apply (panel_delete_exact admin_world "mac"); [reflexivity..|]. vm_compute. by eexists.
  - vm_compute. reflexivity.
Defined.
